(* ===== verification/_CoqProject ===== *)
-Q . S2P
Prelude.v
Dialer.v
Utf8.v
Json.v
Strconv.v
Ip.v
Resolve.v
GoStrings.v
Url.v
Pool.v
Float64.v
Duration.v
Nats.v
Probe.v
Reconnect.v
Flag.v
Cli.v
