(* ===== verification/Prelude.v ===== *)
(** * A verification development for nats-health-check (src/main.go)

    The program is a run-once health probe.  [main] (src/main.go:17-60)
    declares five command-line flags with their environment variables and
    defaults and hands control to [run] (62-95), which
    - rejects an empty subject with [errors.New("invalid subject")];
    - allocates a capturing dialer with [NewDialer] (102-106) and installs
      it with [nats.SetCustomDialer];
    - builds the URL ["nats://" + host + ":" + strconv.Itoa(port)] and
      calls [nats.Connect], which opens the transport through
      [Dial] of [*dialer] (113-128): the hook dials, resolves the local
      address of the new connection and stores its IP in the dialer;
    - defers [nc.Drain()], marshals the dialer (the same object the hook
      wrote) to JSON, sends it with [nc.Request] and accepts the reply
      only when its text is exactly ["ok"], printing it.

    Files, in dependency order ([_CoqProject]):
    - [Prelude] (this file): Go errors and their texts, the result type,
      a state-and-error monad [stM] with [let*], [catch] and Go's
      [defer], [strings.Contains], the [gohc] hint and rewrite database
      and the shared tactics ([go_unfold], [go_case], [go_streq]).
    - [Dialer]: the [dialer] struct (108-111), [NewDialer] (102-106), the
      unused [RequestInfo] variable (97-100) and
      [Dial] (113-128) over [dial_state] (the receiver [*d] and the open
      sockets), written against the class [NetStack] of what the code
      uses of package [net].
    - [Utf8] and [Json]: [utf8.DecodeRuneInString] and [encoding/json]'s
      [appendString] (Go 1.22 and later) with the struct, pointer and
      interface encoders that [json.Marshal(&dialer)] (78) reaches;
      [Utf8] also has [DecodeLastRuneInString], [ValidRune] and
      [AppendRune] for [strings.TrimSpace] and [strconv.Quote].
    - [Strconv]: [strconv.Itoa] (71) and [strconv.ParseInt(s, 0, 64)],
      which [IntFlag] applies to [NATS_PORT] and [cli.Int] to the text of
      the flag, with the 64-bit wrap-around written out on [Z]; and
      [strconv.Quote], the [%q] of the error texts of [url.Parse].
    - [Ip]: [net.IP.String] (125) with [net/netip]'s [string4] and
      [appendTo6] ([Module Netip], [Module Net]) over a list of bytes.
    - [Resolve]: what [Dial] does with the local address (119-125):
      [TCPAddr.String] with [JoinHostPort] and [itoa], and
      [net.ResolveTCPAddr] ([Module Resolver]: [SplitHostPort],
      [parsePort], [LookupPort], [lookupIPAddr], [internetAddrList],
      [forResolve]) with [netip.ParseAddr] ([Module Parse]:
      [parseIPv4Fields], [parseIPv6]), over Go strings as byte lists;
      [go_net] is the [NetStack] of Go's package, the system calls and
      the system resolver left as parameters.
    - [GoStrings]: the functions of package [strings] that [url.Parse]
      and [nats.Connect] call on the URL (72): [HasPrefix], [Index],
      [LastIndex], [Cut], [Split], [TrimSpace], [ToLower].
    - [Url]: [net/url]'s [Parse] ([Module URL]: [getScheme],
      [parseAuthority], [parseHost], [validOptionalPort], [unescape],
      [escape], the [*url.Error] text), [Port] and [Hostname].
    - [Pool]: how nats.go turns the URL of [run] (71) into the addresses
      it dials: [processUrlString], [addURLToPool] with its two parses
      and the default port 4222, [shufflePool], [setupServerPool] with
      the [DefaultURL] fallback, and the hosts of [createConn]
      ([ParseIP], [LookupHost], [JoinHostPort], [rand.Shuffle]); the
      random index of each swap is a parameter bounded by the loop index.
    - [Float64] and [Duration]: [time.ParseDuration], with the binary64
      arithmetic of its fractions ([SpecFloat]), and [Duration.String].
    - [Nats]: [nats.Connect] with the custom dialer (72) as nats.go
      runs it: the server pool of [Pool], then [nc.connect]'s loop over
      the servers ([connect_loop]), each through [createConn]'s dial
      loop over its hosts ([dial_hosts]), a refused dial cancelled to
      [ErrNoServers], a failed handshake closing the connection and
      moving on; then [Request] and [Drain]; all over the process state
      [World] (the heap cell of the dialer, the sockets, the trace of
      events), against the class [Broker] of what the server and the
      environment do (DNS answers, random draws with their bounds, the
      handshake, the reply).
    - [Probe]: [run] (62-95), each statement one binding of [stM World],
      and its contract [probe_behaviour].
    - [Reconnect]: the statements of [run] after [Connect] as a step
      machine, proved equal to [run], interleaved with the calls of the
      hook that the client's reconnect goroutine makes on the same
      dialer ([cstep], [creach]).
    - [Flag]: Go's [flag.FlagSet] as urfave/cli uses it: [Var], [Set],
      [parseOne] and [Parse], and the step relation [parse_steps].
    - [Cli]: the flag table of [main] (17-53), urfave/cli's [Apply] with
      the environment, [normalizeFlags], the lookups, [app.Run] with the
      help flag and command, and [main] with [log.Fatal]'s exit status.

    What the theorems show (claim numbers in brackets):
    - [Probe]: the empty subject [C1], refinement of the contract [C2],
      the healthy, unhealthy and timeout outcomes [C3-C5], the payload
      [C6], what is printed [C7, C8], the refused dial [C9], and the
      drain that leaves the socket open [C18].
    - [Probe], on the URL [run] builds: it reads back through
      [nats.Connect]'s parsing as one server with the host and port
      [C19]; a negative port is the [url.Parse] error of [run] [C26]; a
      comma in the host makes two servers, one on the default port
      [C30]; an IPv6 host without brackets is never dialled [C38].
    - [Pool]: the two shuffles of nats.go only permute, whatever the
      draws [C39].
    - [Dialer], [Nats]: the hook captures the local IP or keeps the
      dialer on error [C10, C11]; [Connect] succeeds only after a
      handshake on a connection of the hook [C12], and fails with
      [ErrNoServers] after dialling every address once when all refuse
      [C15].
    - [Json], [Utf8]: [json.Marshal(&dialer)] never fails [C13]; Go's
      escaping loop equals a reference escaper [C14].
    - [Resolve]: [ResolveTCPAddr("tcp", a.String())] gives back [a] for
      every address Go's stack reports [C16], so on Go's [net] package
      the hook stores exactly [IP.String] of the local IP and never
      takes its error branch [C17].
    - [Strconv], [Duration]: round trips [ParseInt (Itoa i)] [C20] and
      [ParseDuration (Duration.String d)] for every int64 [C21];
      [ParseDuration] of integer segments is their exact sum or the
      overflow error [C33], except that a running total of exactly
      [2^64] wraps to 0 and is accepted [C35].
    - [Reconnect]: whatever calls of the hook the reconnect goroutine
      interleaves with the rest of [run], every request carries the user
      agent and the local IP of some connection opened through the hook
      [C34], by rule induction on the interleaving; and a reconnect
      between [Connect] and [json.Marshal] makes the payload carry the
      IP of the new connection, not of the one [run] holds [C32].
    - [Cli], [Flag]: environment defaults and precedence [C22], the port
      on the command line [C23], errors of the environment, of two forms
      of a flag and of a timeout without unit [C24, C25, C37], flags
      after an argument [C27], the octal [NATS_PORT] [C28], the exit
      status agreeing with what [main] prints [C29], [Parse] of
      [-name value] options as the sequence of their [FlagSet.Set]
      calls [C31], and the types of the values [run] reads [C36].
    - [Ip]: the IPv6 text against RFC 5952's rule [C40].
    Further lemmas, not numbered, show that the escaping loop's fuel is
    enough ([appendString_loop_fuel]), that [Itoa] is the decimal
    reference ([Itoa_dec]), the dotted quad and the payload safety of
    [IP.String] ([IP_String_v4], [IP_String_payload]), [newFlagSet]
    ([newFlagSet_spec]), the help flag ([cli_help_flag]), the range of
    [ParseDuration] ([ParseDuration_range]), the invariant of [Parse]
    by rule induction on [parse_steps] ([flag_parse_keeps]) and that
    [run] returns after at most five turns of its own whatever the
    reconnect goroutine does ([run_returns_drained]).

    Integers are [Z]: [int], [int64] and [time.Duration] in
    [[-2^63, 2^63)], [uint64] arithmetic written [mod 2^64].  Loops that
    are not structural carry fuel, and a theorem shows the fuel is
    enough: [appendString] one step per byte plus one
    ([appendString_loop_fuel]), [dec] 20 digits (a [uint64] has at most
    20), [formatBits] 10 double-digit steps, [ParseDuration] one segment
    per byte plus one ([duration_loop_fuel_spec]), [fmtInt] 20 digits,
    [Parse] one flag per argument plus one ([parse_loop_fuel]), [appendTo6] eight
    groups, the loop of [parseIPv6] eight iterations (each adds 2 to
    [i] until 16) and [itoa.Uitoa] 20 digits.  The loops of the URL
    path take the length of their input as fuel, each turn consuming at
    least one byte ([TrimSpace]'s scans, [strconv.Quote]'s loop), or
    their bound from Go ([DecodeLastRuneInString] looks back at most
    [UTFMax] bytes; [shufflePool] makes one swap per server); the
    theorems about the URL evaluate them on hosts of any length.

    Not modelled: what the reconnect goroutine does besides calling
    [Dial] (the handshake, closing the old socket, buffering the
    publications made while it reconnects), and Go's weak memory model
    (the steps of [cstep] are atomic and sequentially consistent); the
    text of the help and of [log.Fatal]'s line; the sockets and the
    kernel's choice of local address ([net.Dial], parameters of
    [go_net]), DNS and the services database ([lookup_dns] of
    [Broker]), the random draws of [math/rand] (bounded fields of
    [Broker]), the server and the INFO handshake ([handshake] of
    [Broker]: TLS, websockets and the servers an INFO adds to the pool
    are outside it); [strconv.IsPrint] above U+00FF rejects the
    listed separator, format and private-use ranges but not the
    unassigned code points Go's tables also reject, which only changes
    the text of an error for such a host; the synchronous errors of
    [nc.Request] before it publishes ([ErrMaxPayload] for a payload
    above the server's [max_payload], which only a user agent of about
    a megabyte reaches; [ErrBadSubject], which [run]'s check of the
    subject excludes; [ErrConnectionClosed] when the connection was
    closed after [Connect] returned), so [Request] always
    publishes and no reply is always [ErrTimeout]; [nc.Drain] on a
    connection that is reconnecting (it then closes synchronously),
    [Drain] only starting the drain; [NetStack] stays a class so that the
    examples can use small stacks, and [go_net] shows what Go's stack
    gives. *)

From Stdlib Require Import String Ascii List ZArith Lia Bool.
Import ListNotations.
Local Open Scope string_scope.

Declare Scope go_scope.
Delimit Scope go_scope with go.

(** ** Go errors

    The program never inspects an error except through its text
    ([log.Fatal] prints it, [nats.go] searches it for
    ["connection refused"]).  The constructors record who made the
    error: [errors.New] in main.go, the [net] package, or one of the
    sentinel errors of [nats.go], an error of [net/url] or of the URL
    handling of [nats.go] (a [*url.Error], an [EscapeError], a
    [fmt.Errorf]) by its text; [Panic] is a Go run-time panic (a nil
    dereference), which the code never reaches. *)

Inductive nats_error :=
| ErrNoServers
| ErrTimeout
| ErrNoResponders
| ErrInvalidConnection.

Inductive goerror :=
| ErrorsNew (msg : string)
| NetError (msg : string)
| NatsError (e : nats_error)
| UrlError (msg : string)
| Panic (msg : string).

Definition nats_error_text (e : nats_error) : string :=
  match e with
  | ErrNoServers => "nats: no servers available for connection"
  | ErrTimeout => "nats: timeout"
  | ErrNoResponders => "nats: no responders available for request"
  | ErrInvalidConnection => "nats: invalid connection"
  end.

(** [err.Error()] *)
Definition error_text (e : goerror) : string :=
  match e with
  | ErrorsNew m => m
  | NetError m => m
  | NatsError k => nats_error_text k
  | UrlError m => m
  | Panic m => m
  end.

(** A Go call [v, err := f(...)]: a value, or a non-nil error. *)
Inductive result (A : Type) :=
| Ok (a : A)
| Err (e : goerror).
Arguments Ok {A} a.
Arguments Err {A} e.

(** [v, err := f(); if err != nil { return ..., err }] on pure code. *)
Definition rbind {A B} (r : result A) (k : A -> result B) : result B :=
  match r with
  | Ok a => k a
  | Err e => Err e
  end.

(** ** The state-and-error monad

    [stM S A] is a Go function body that reads and writes the state [S]
    and returns either a value or an error; the state it leaves behind is
    kept on both paths, as Go keeps its side effects when it returns an
    error. *)

Definition stM (S A : Type) : Type := S -> result A * S.

Section Monad.
Context {S : Type}.

Definition ret {A} (a : A) : stM S A := fun s => (Ok a, s).

Definition bind {A B} (m : stM S A) (k : A -> stM S B) : stM S B :=
  fun s =>
    match m s with
    | (Ok a, s') => k a s'
    | (Err e, s') => (Err e, s')
    end.

Definition throw {A} (e : goerror) : stM S A := fun s => (Err e, s).

Definition gets {A} (f : S -> A) : stM S A := fun s => (Ok (f s), s).

Definition modify (f : S -> S) : stM S unit := fun s => (Ok tt, f s).

Definition lift {A} (r : result A) : stM S A := fun s => (r, s).

(** Handle the error of [m] with [h]; a value passes through. *)
Definition catch {A} (m : stM S A) (h : goerror -> stM S A) : stM S A :=
  fun s =>
    match m s with
    | (Err e, s') => h e s'
    | r => r
    end.

(** [v, err := m()] when the caller goes on after an error: the error
    becomes a value, and the state [m] left is kept. *)
Definition attempt {A} (m : stM S A) : stM S (result A) :=
  fun s => let (r, s1) := m s in (Ok r, s1).

(** [defer f(); body]: [f] runs when [body] returns, on every path, and
    its own result is discarded (a deferred call's return values are
    dropped by the Go language). *)
Definition defer {A B} (f : stM S B) (body : stM S A) : stM S A :=
  fun s => let (r, s1) := body s in (r, snd (f s1)).
End Monad.

Notation "'let*' x := c1 'in' c2" := (bind c1 (fun x => c2))
  (at level 10, x name, c1 at level 100, c2 at level 200) : go_scope.

Notation "'let?' x := r 'in' k" := (rbind r (fun x => k))
  (at level 10, x pattern, r at level 100, k at level 200) : go_scope.

Create HintDb gohc discriminated.
Create Rewrite HintDb gohc.

Section MonadLaws.
Context {S : Type}.

Lemma bind_ret_l {A B} (a : A) (k : A -> stM S B) s :
  bind (ret a) k s = k a s.
Proof. reflexivity. Qed.

Lemma bind_throw {A B} (e : goerror) (k : A -> stM S B) s :
  bind (throw e) k s = (Err e, s).
Proof. reflexivity. Qed.

Lemma bind_ok {A B} (m : stM S A) (k : A -> stM S B) s a s' :
  m s = (Ok a, s') -> bind m k s = k a s'.
Proof. unfold bind. intros ->. reflexivity. Qed.

Lemma bind_err {A B} (m : stM S A) (k : A -> stM S B) s e s' :
  m s = (Err e, s') -> bind m k s = (Err e, s').
Proof. unfold bind. intros ->. reflexivity. Qed.

Lemma bind_assoc {A B C} (m : stM S A) (k : A -> stM S B)
      (h : B -> stM S C) s :
  bind (bind m k) h s = bind m (fun a => bind (k a) h) s.
Proof. unfold bind. destruct (m s) as [[a|e] s']; reflexivity. Qed.

(** A deferred call runs after the body, whatever the body returned. *)
Lemma defer_spec {A B} (f : stM S B) (body : stM S A) s :
  defer f body s = (fst (body s), snd (f (snd (body s)))).
Proof. unfold defer. destruct (body s). reflexivity. Qed.
End MonadLaws.

#[export] Hint Rewrite @bind_ret_l @bind_throw @bind_assoc : gohc.

(** ** [strings.Contains] *)

Fixpoint contains (s sub : string) : bool :=
  prefix sub s ||
  match s with
  | EmptyString => false
  | String _ s' => contains s' sub
  end.

Lemma prefix_app (p q : string) : prefix p (p ++ q) = true.
Proof.
  induction p as [|a p IH]; simpl; [now destruct q|].
  destruct (ascii_dec a a); [exact IH | congruence].
Qed.

Lemma prefix_split (p s : string) :
  prefix p s = true -> exists q, s = p ++ q.
Proof.
  revert s; induction p as [|a p IH]; intros s H; [now exists s|].
  destruct s as [|b s]; [discriminate|]. simpl in H.
  destruct (ascii_dec a b) as [<-|]; [|discriminate].
  destruct (IH s H) as [q ->]. now exists q.
Qed.

Lemma contains_prefix (s sub : string) :
  prefix sub s = true -> contains s sub = true.
Proof. destruct s; cbn [contains]; intros ->; reflexivity. Qed.

(** [contains s sub] holds exactly when [sub] occurs in [s]. *)
Lemma contains_spec (s sub : string) :
  contains s sub = true <-> exists p q, s = p ++ sub ++ q.
Proof.
  split.
  - induction s as [|a s IH]; cbn [contains]; intros H.
    + destruct sub; [|discriminate]. now exists "", "".
    + apply orb_true_iff in H as [H|H].
      * destruct (prefix_split _ _ H) as [q Hq]. exists "", q. exact Hq.
      * destruct (IH H) as (p & q & ->). now exists (String a p), q.
  - intros (p & q & ->). induction p as [|a p IH].
    + apply contains_prefix, (prefix_app sub q).
    + cbn [contains append]. rewrite IH, orb_true_r. reflexivity.
Qed.

Lemma contains_app_l (p sub q : string) :
  contains (p ++ sub ++ q) sub = true.
Proof. apply contains_spec. eauto. Qed.

#[export] Hint Resolve contains_app_l prefix_app : gohc.

(** ** Go strings as byte lists

    A Go [string] is a sequence of bytes; a Rocq [string] is a sequence of
    eight-bit [ascii] characters.  Slicing and indexing are proved through
    the list of bytes, where [firstn] and [skipn] carry the lemmas. *)

Abbreviation bytes := list_ascii_of_string.

Lemma bytes_inj (s1 s2 : string) : bytes s1 = bytes s2 -> s1 = s2.
Proof.
  intros H. rewrite <- (string_of_list_ascii_of_string s1), H.
  apply string_of_list_ascii_of_string.
Qed.

Lemma bytes_app (s1 s2 : string) : bytes (s1 ++ s2) = (bytes s1 ++ bytes s2)%list.
Proof. induction s1 as [|a s1 IH]; simpl; [reflexivity|]. now rewrite IH. Qed.

Lemma length_bytes (s : string) : String.length s = List.length (bytes s).
Proof. induction s as [|a s IH]; simpl; congruence. Qed.

Lemma bytes_substring (n m : nat) (s : string) :
  bytes (substring n m s) = firstn m (skipn n (bytes s)).
Proof.
  revert m s; induction n as [|n IH]; intros m s.
  - revert m; induction s as [|a s IHs]; intros [|m]; simpl; try reflexivity.
    now rewrite IHs.
  - destruct s as [|a s]; simpl; [now destruct m|]. apply IH.
Qed.

(** [s[k:]] has [len(s) - k] bytes. *)
Lemma length_suffix (k : nat) (s : string) :
  String.length (substring k (String.length s - k) s) = (String.length s - k)%nat.
Proof. rewrite !length_bytes, bytes_substring, length_firstn, length_skipn. lia. Qed.

Lemma get_bytes (i : nat) (s : string) : String.get i s = nth_error (bytes s) i.
Proof.
  revert s; induction i as [|i IH]; intros [|a s]; simpl; auto.
Qed.

Lemma str_app_assoc (a b c : string) : a ++ (b ++ c) = (a ++ b) ++ c.
Proof. apply bytes_inj. rewrite !bytes_app. apply app_assoc. Qed.

Lemma str_app_nil_l (a : string) : "" ++ a = a.
Proof. reflexivity. Qed.

Lemma str_app_nil_r (a : string) : a ++ "" = a.
Proof. apply bytes_inj. rewrite bytes_app. apply app_nil_r. Qed.

Lemma substring_full (s : string) : substring 0 (String.length s) s = s.
Proof.
  apply bytes_inj. rewrite bytes_substring, skipn_0, length_bytes.
  apply firstn_all.
Qed.

Lemma firstn_split {A} (a b : nat) (l : list A) :
  firstn (a + b) l = (firstn a l ++ firstn b (skipn a l))%list.
Proof.
  revert l; induction a as [|a IH]; intros [|x l]; simpl;
    rewrite ?firstn_nil; try reflexivity.
  now rewrite IH.
Qed.

#[export] Hint Rewrite bytes_app bytes_substring length_bytes : gohc.
#[export] Hint Rewrite <- str_app_assoc : gohc.
#[export] Hint Rewrite str_app_nil_l str_app_nil_r : gohc.

(** ** Shared tactics *)

(** Unfold the monad combinators of a Go body and reduce. *)
Ltac go_unfold :=
  cbv [bind ret throw gets modify lift catch defer] in *; simpl in *.

(** Case analysis on the first [match] of the goal, keeping the equation. *)
Ltac go_case :=
  match goal with
  | |- context [match ?x with _ => _ end] =>
      let E := fresh "E" in destruct x eqn:E
  end.

(** The integer tests of the goal ([<=?], [<?], [=?] on [Z]), each
    case with its proposition. *)
Ltac go_zbool :=
  repeat match goal with
  | |- context [(?a <=? ?b)%Z] => destruct (Z.leb_spec a b)
  | |- context [(?a <? ?b)%Z] => destruct (Z.ltb_spec a b)
  | |- context [(?a =? ?b)%Z] => destruct (Z.eqb_spec a b)
  end.

(** String equality tests as propositions. *)
Ltac go_streq :=
  repeat match goal with
  | H : (_ =? _)%string = true |- _ => apply String.eqb_eq in H; subst
  | H : (_ =? _)%string = false |- _ => apply String.eqb_neq in H
  end.
