(* ===== verification/Dialer.v ===== *)
(** * The capturing dialer (src/main.go:102-128)

    [dialer] is the struct of main.go:108-111, [NewDialer] its
    constructor (102-106) and [Dial] the hook that [nats.go] calls to open
    its transport (113-128).  The [net] package is reached through the
    [NetStack] class: a dial that opens a socket or fails, the local
    address of a connection, [net.ResolveTCPAddr] and [IP.String]
    ([Resolve.go_net] is the instance of Go's package).  The package
    variable [RequestInfo] (97-100) is here with its zero value.

    The receiver [d *dialer] is modelled by [dial_state]: the value [*d]
    that the hook reads and writes, together with the sockets the process
    holds open, since [net.Dial] opens one and only its caller can close
    it.  [Probe] stores the dialer in a heap cell and runs [Dial] on that
    cell, so the object [Dial] writes is the one [json.Marshal] reads. *)

From Stdlib Require Import String List ZArith Bool.
From S2P Require Import Prelude.
Import ListNotations.
Local Open Scope string_scope.
Local Open Scope go_scope.

(** [net.Addr]: its [Network()] and [String()]. *)
Record Addr := mkAddr { addr_network : string; addr_string : string }.

(** [net.TCPAddr], over the stack's type of IP addresses. *)
Record TCPAddr (IP : Type) := mkTCPAddr {
  tcp_ip : IP;
  tcp_port : Z;
  tcp_zone : string
}.
Arguments mkTCPAddr {IP} _ _ _.
Arguments tcp_ip {IP} _.
Arguments tcp_port {IP} _.
Arguments tcp_zone {IP} _.

(** What main.go uses of Go's [net] package. *)
Class NetStack := {
  Conn : Type;
  conn_eq_dec : forall c1 c2 : Conn, {c1 = c2} + {c1 <> c2};
  IP : Type;
  (** [net.Dial(network, address)] *)
  net_dial : string -> string -> result Conn;
  (** [conn.LocalAddr()] *)
  local_addr : Conn -> Addr;
  (** [net.ResolveTCPAddr(network, address)] *)
  resolve_tcp_addr : string -> string -> result (TCPAddr IP);
  (** [ip.String()] *)
  ip_string : IP -> string
}.

(** [type dialer struct { ClientIP string; UserAgent string }] *)
Record dialer := mkDialer {
  ClientIP : string;
  UserAgent : string
}.

(** [var RequestInfo struct { ClientIP string; UserAgent string }]
    (main.go:97-100): a package variable with the same fields and tags
    as [dialer].  Nothing in the program reads or writes it, so it keeps
    its zero value for the whole run; the payload comes from the dialer. *)
Record request_info := mkRequestInfo {
  RI_ClientIP : string;
  RI_UserAgent : string
}.

Definition RequestInfo : request_info := {| RI_ClientIP := ""; RI_UserAgent := "" |}.

(** [d := new(dialer); d.UserAgent = agent]: the value the new pointer
    points to ([new] zeroes [ClientIP]).  The allocation of the pointer is
    [Probe.alloc_dialer]. *)
Definition NewDialer (agent : string) : dialer :=
  let d := {| ClientIP := ""; UserAgent := "" |} in
  {| ClientIP := ClientIP d; UserAgent := agent |}.

Definition set_ClientIP (ip : string) (d : dialer) : dialer :=
  {| ClientIP := ip; UserAgent := UserAgent d |}.

Section Dial.
Context `{NetStack}.

(** The receiver [*d], the sockets the process holds open, and the
    calls of [net.Dial] made so far, latest first. *)
Record dial_state := mkDialState {
  self : dialer;
  sockets : list Conn;
  dialed : list (string * string)
}.

Definition record_dial (network address : string) : stM dial_state unit :=
  modify (fun st => mkDialState (self st) (sockets st)
                                ((network, address) :: dialed st)).

Definition open_socket (c : Conn) : stM dial_state unit :=
  modify (fun st => mkDialState (self st) (c :: sockets st) (dialed st)).

Definition store_self (d : dialer) : stM dial_state unit :=
  modify (fun st => mkDialState d (sockets st) (dialed st)).

(** [func (d *dialer) Dial(network, address string) (net.Conn, error)] *)
Definition Dial (network address : string) : stM dial_state Conn :=
  let* _ := record_dial network address in
  let* conn := lift (net_dial network address) in
  let* _ := open_socket conn in
  let local := local_addr conn in
  let* addr := lift (resolve_tcp_addr (addr_network local)
                                      (addr_string local)) in
  let* d := gets self in
  let* _ := store_self (set_ClientIP (ip_string (tcp_ip addr)) d) in
  ret conn.

(** The IP text the hook records for connection [c], when the local
    address of [c] resolves. *)
Definition local_ip_of (c : Conn) : result string :=
  let local := local_addr c in
  match resolve_tcp_addr (addr_network local) (addr_string local) with
  | Ok a => Ok (ip_string (tcp_ip a))
  | Err e => Err e
  end.
End Dial.

Arguments dial_state {_}.
Arguments mkDialState {_} _ _ _.

(** ** Theorems *)

Section DialTheorems.
Context `{NetStack}.

Lemma NewDialer_fields agent :
  ClientIP (NewDialer agent) = "" /\ UserAgent (NewDialer agent) = agent.
Proof. split; reflexivity. Qed.

(** The whole behaviour of the hook, one equation per branch. *)
Lemma Dial_unfold network address st :
  Dial network address st =
  let ds := (network, address) :: dialed st in
  match net_dial network address with
  | Err e => (Err e, mkDialState (self st) (sockets st) ds)
  | Ok c =>
      match resolve_tcp_addr (addr_network (local_addr c))
                             (addr_string (local_addr c)) with
      | Err e => (Err e, mkDialState (self st) (c :: sockets st) ds)
      | Ok a => (Ok c, mkDialState (set_ClientIP (ip_string (tcp_ip a))
                                                 (self st))
                                   (c :: sockets st) ds)
      end
  end.
Proof.
  unfold Dial, record_dial, open_socket, store_self. go_unfold.
  destruct (net_dial network address); [|reflexivity].
  destruct (resolve_tcp_addr _ _); reflexivity.
Qed.

(** C10: on success the hook hands back the very connection [net.Dial]
    opened, and the [ClientIP] it stored is the IP of that connection's
    local address (not the address dialled); [UserAgent] is kept. *)
Theorem Dial_captures_local_ip network address st c st' :
  Dial network address st = (Ok c, st') ->
  net_dial network address = Ok c /\
  local_ip_of c = Ok (ClientIP (self st')) /\
  UserAgent (self st') = UserAgent (self st) /\
  sockets st' = c :: sockets st.
Proof.
  rewrite Dial_unfold. unfold local_ip_of.
  destruct (net_dial network address) as [c0|e]; [|discriminate].
  destruct (resolve_tcp_addr _ _) as [a|e] eqn:Er; intros [= <- <-].
  rewrite Er. repeat split; reflexivity.
Qed.

(** C11: when the hook fails it returns the error of the failing call
    and leaves [*d] as it was; a failure of [net.Dial] changes nothing
    else either. *)
Theorem Dial_error_keeps_dialer network address st e st' :
  Dial network address st = (Err e, st') ->
  self st' = self st /\
  ((net_dial network address = Err e /\ sockets st' = sockets st) \/
   (exists c, net_dial network address = Ok c /\ local_ip_of c = Err e /\
              sockets st' = c :: sockets st)).
Proof.
  rewrite Dial_unfold. unfold local_ip_of.
  destruct (net_dial network address) as [c|e0].
  - destruct (resolve_tcp_addr _ _) as [a|e0] eqn:Er; intros [= <- <-].
    split; [reflexivity|right]. exists c. rewrite Er. auto.
  - intros [= <- <-]. auto.
Qed.

(** The hook never writes [UserAgent]. *)
Lemma Dial_keeps_user_agent network address st r st' :
  Dial network address st = (r, st') ->
  UserAgent (self st') = UserAgent (self st).
Proof.
  rewrite Dial_unfold.
  destruct (net_dial _ _); [destruct (resolve_tcp_addr _ _)|];
    intros [= <- <-]; reflexivity.
Qed.
End DialTheorems.

#[export] Hint Resolve Dial_keeps_user_agent : gohc.

(** ** A concrete stack for the examples

    A loopback host where only [127.0.0.1:4222] accepts connections; the
    connection it returns is numbered by the local port [54321] and its
    local address resolves to [127.0.0.1].  Dials elsewhere are refused
    with the text the Go [net] package gives. *)
#[export] Instance loopback_net : NetStack := {|
  Conn := Z;
  conn_eq_dec := Z.eq_dec;
  IP := string;
  net_dial := fun network address =>
    if ((network =? "tcp") && (address =? "127.0.0.1:4222"))%bool
    then Ok 54321%Z
    else Err (NetError ("dial " ++ network ++ " " ++ address ++
                        ": connect: connection refused"));
  local_addr := fun c => mkAddr "tcp" "127.0.0.1:54321";
  resolve_tcp_addr := fun network address =>
    if address =? "127.0.0.1:54321" then Ok (mkTCPAddr "127.0.0.1" 54321%Z "")
    else Err (NetError ("address " ++ address ++ ": missing port in address"));
  ip_string := fun ip => ip
|}.

(** ** Witnesses at the loopback stack *)

Definition dial_state0 : dial_state := mkDialState (NewDialer "NATS Health Check") [] [].

Lemma Dial_captures_local_ip_witness :
  net_dial "tcp" "127.0.0.1:4222" = Ok 54321%Z /\
  local_ip_of 54321%Z = Ok (ClientIP (self (snd (Dial "tcp" "127.0.0.1:4222" dial_state0)))) /\
  UserAgent (self (snd (Dial "tcp" "127.0.0.1:4222" dial_state0))) = UserAgent (self dial_state0) /\
  sockets (snd (Dial "tcp" "127.0.0.1:4222" dial_state0)) = 54321%Z :: sockets dial_state0.
Proof.
  apply (Dial_captures_local_ip "tcp" "127.0.0.1:4222" dial_state0 54321%Z).
  vm_compute. reflexivity.
Defined.

Definition refused : goerror :=
  NetError "dial tcp 10.0.0.1:4222: connect: connection refused".

Lemma Dial_error_keeps_dialer_witness :
  self (snd (Dial "tcp" "10.0.0.1:4222" dial_state0)) = self dial_state0 /\
  ((net_dial "tcp" "10.0.0.1:4222" = Err refused /\
    sockets (snd (Dial "tcp" "10.0.0.1:4222" dial_state0)) = sockets dial_state0) \/
   (exists c, net_dial "tcp" "10.0.0.1:4222" = Ok c /\ local_ip_of c = Err refused /\
              sockets (snd (Dial "tcp" "10.0.0.1:4222" dial_state0)) = c :: sockets dial_state0)).
Proof.
  apply (Dial_error_keeps_dialer "tcp" "10.0.0.1:4222" dial_state0 refused).
  vm_compute. reflexivity.
Defined.
