(* ===== verification/Utf8.v ===== *)
(** * UTF-8 decoding as [encoding/json] uses it

    [json.Marshal] (src/main.go:78) escapes each string field of the
    dialer; for bytes at or above [utf8.RuneSelf] it calls
    [utf8.DecodeRuneInString] to find a rune and its width.  This file is
    that function, written with the [first] and [acceptRanges] tables and
    the 32-bit mask trick of Go's unicode/utf8 package, with bytes as the
    eight-bit characters of a Rocq [string] and runes as [Z]. *)

From Stdlib Require Import String Ascii List ZArith Lia Bool.
From S2P Require Import Prelude.
Import ListNotations.
Local Open Scope Z_scope.

(** The byte at index [i] of a Go string, as an integer in [0, 256). *)
Definition byte_val (a : ascii) : Z := Z.of_N (N_of_ascii a).

Definition byte_at (i : nat) (s : string) : Z :=
  match String.get i s with
  | Some a => byte_val a
  | None => 0
  end.

(** Go's [int32] wrap-around. *)
Definition int32 (z : Z) : Z := (z + 2 ^ 31) mod 2 ^ 32 - 2 ^ 31.

Definition RuneError : Z := 65533.   (* U+FFFD *)
Definition RuneSelf : Z := 128.
Definition UTFMax : nat := 4.

Definition locb : Z := 128.   (* 0b10000000 *)
Definition hicb : Z := 191.   (* 0b10111111 *)
Definition maskx : Z := 63.
Definition mask2 : Z := 31.
Definition mask3 : Z := 15.
Definition mask4 : Z := 7.

(** The classes of the [first] table: invalid, ASCII, and the sequence
    starts [s1] .. [s7] (low nibble: size; high nibble: accept range). *)
Definition xx : Z := 241.   (* 0xF1 *)
Definition as_ : Z := 240.  (* 0xF0 *)
Definition s1 : Z := 2.     (* 0x02 *)
Definition s2 : Z := 19.    (* 0x13 *)
Definition s3 : Z := 3.     (* 0x03 *)
Definition s4 : Z := 35.    (* 0x23 *)
Definition s5 : Z := 52.    (* 0x34 *)
Definition s6 : Z := 4.     (* 0x04 *)
Definition s7 : Z := 68.    (* 0x44 *)

(** [first[b]] for a byte [b]. *)
Definition first (b : Z) : Z :=
  if b <? 128 then as_                 (* 0x00-0x7F *)
  else if b <? 194 then xx             (* 0x80-0xC1 *)
  else if b <? 224 then s1             (* 0xC2-0xDF *)
  else if b =? 224 then s2             (* 0xE0 *)
  else if b <? 237 then s3             (* 0xE1-0xEC *)
  else if b =? 237 then s4             (* 0xED *)
  else if b <? 240 then s3             (* 0xEE-0xEF *)
  else if b =? 240 then s5             (* 0xF0 *)
  else if b <? 244 then s6             (* 0xF1-0xF3 *)
  else if b =? 244 then s7             (* 0xF4 *)
  else xx.                             (* 0xF5-0xFF *)

(** [acceptRanges[i]]: the bounds of the second byte; the entries past 4
    are Go's zero value. *)
Definition acceptRange (i : Z) : Z * Z :=
  if i =? 0 then (locb, hicb)
  else if i =? 1 then (160, hicb)      (* 0xA0 *)
  else if i =? 2 then (locb, 159)      (* 0x9F *)
  else if i =? 3 then (144, hicb)      (* 0x90 *)
  else if i =? 4 then (locb, 143)      (* 0x8F *)
  else (0, 0).

Definition out_of (lo hi b : Z) : bool := (b <? lo) || (hi <? b).

(** [func DecodeRuneInString(s string) (r rune, size int)] *)
Definition DecodeRuneInString (s : string) : Z * nat :=
  let n := String.length s in
  if (n <? 1)%nat then (RuneError, 0%nat) else
  let p0 := byte_at 0 s in
  let x := first p0 in
  if as_ <=? x then
    (* mask := rune(x) << 31 >> 31: 0 for ASCII, -1 for invalid *)
    let mask := Z.shiftr (int32 (Z.shiftl x 31)) 31 in
    (Z.lor (Z.ldiff p0 mask) (Z.land RuneError mask), 1%nat)
  else
  let sz := Z.to_nat (Z.land x 7) in
  let '(lo, hi) := acceptRange (Z.shiftr x 4) in
  if (n <? sz)%nat then (RuneError, 1%nat) else
  let b1 := byte_at 1 s in
  if out_of lo hi b1 then (RuneError, 1%nat) else
  if (sz <=? 2)%nat then
    (Z.lor (Z.shiftl (Z.land p0 mask2) 6) (Z.land b1 maskx), 2%nat) else
  let b2 := byte_at 2 s in
  if out_of locb hicb b2 then (RuneError, 1%nat) else
  if (sz <=? 3)%nat then
    (Z.lor (Z.lor (Z.shiftl (Z.land p0 mask3) 12)
                  (Z.shiftl (Z.land b1 maskx) 6))
           (Z.land b2 maskx), 3%nat) else
  let b3 := byte_at 3 s in
  if out_of locb hicb b3 then (RuneError, 1%nat) else
  (Z.lor (Z.lor (Z.lor (Z.shiftl (Z.land p0 mask4) 18)
                       (Z.shiftl (Z.land b1 maskx) 12))
                (Z.shiftl (Z.land b2 maskx) 6))
         (Z.land b3 maskx), 4%nat).

(** [func RuneStart(b byte) bool]: [b] is not a continuation byte. *)
Definition RuneStart (b : Z) : bool := negb (Z.land b 192 =? 128).

(** The backward scan of [DecodeLastRuneInString]:
    [for start--; start >= lim; start-- { if RuneStart(s[start]) { break } }]
    takes at most three steps, since [start] begins at [end - 2] and
    [lim] is [end - UTFMax]. *)
Fixpoint last_start (fuel : nat) (s : string) (start lim : Z) : Z :=
  match fuel with
  | O => start
  | S fuel =>
      if (lim <=? start) && negb (RuneStart (byte_at (Z.to_nat start) s))
      then last_start fuel s (start - 1) lim
      else start
  end.

(** [func DecodeLastRuneInString(s string) (r rune, size int)] *)
Definition DecodeLastRuneInString (s : string) : Z * nat :=
  let end_ := Z.of_nat (String.length s) in
  if end_ =? 0 then (RuneError, 0%nat) else
  let r := byte_at (Z.to_nat (end_ - 1)) s in
  if r <? RuneSelf then (r, 1%nat) else
  let lim := Z.max 0 (end_ - Z.of_nat UTFMax) in
  let start := Z.max 0 (last_start UTFMax s (end_ - 2) lim) in
  let '(r, size) := DecodeRuneInString (substring (Z.to_nat start) (Z.to_nat (end_ - start)) s) in
  if negb (start + Z.of_nat size =? end_) then (RuneError, 1%nat) else (r, size).

(** [MaxRune], the surrogate range, and [func ValidRune(r rune) bool] *)
Definition MaxRune : Z := 1114111.   (* U+10FFFF *)
Definition surrogateMin : Z := 55296.   (* U+D800 *)
Definition surrogateMax : Z := 57343.   (* U+DFFF *)

Definition ValidRune (r : Z) : bool :=
  ((0 <=? r) && (r <? surrogateMin)) || ((surrogateMax <? r) && (r <=? MaxRune)).

(** [func AppendRune(p []byte, r rune) []byte] with
    [appendRuneNonASCII]: the UTF-8 bytes of [r], [RuneError]'s for a
    rune out of range or a surrogate. *)
Definition AppendRune (r : Z) : list Z :=
  let i := r mod 2 ^ 32 in
  if i <=? 127 then [r] else
  if i <=? 2047 then [Z.lor 192 (Z.land (Z.shiftr r 6) 255); Z.lor 128 (Z.land r maskx)] else
  let r := if (MaxRune <? i) || ((surrogateMin <=? i) && (i <=? surrogateMax)) then RuneError else r in
  if (r mod 2 ^ 32) <=? 65535 then
    [Z.lor 224 (Z.land (Z.shiftr r 12) 255); Z.lor 128 (Z.land (Z.shiftr r 6) maskx);
     Z.lor 128 (Z.land r maskx)]
  else
    [Z.lor 240 (Z.land (Z.shiftr r 18) 255); Z.lor 128 (Z.land (Z.shiftr r 12) maskx);
     Z.lor 128 (Z.land (Z.shiftr r 6) maskx); Z.lor 128 (Z.land r maskx)].

(** ** Theorems *)

Lemma byte_val_bound (a : ascii) : 0 <= byte_val a < 256.
Proof.
  unfold byte_val. pose proof (N_ascii_bounded a). lia.
Qed.

Lemma byte_at_bound i s : 0 <= byte_at i s < 256.
Proof.
  unfold byte_at. destruct (String.get i s); [apply byte_val_bound|lia].
Qed.

#[export] Hint Resolve byte_val_bound byte_at_bound : gohc.

(** The mask trick of the ASCII/invalid branch: a byte is returned as
    itself when it is ASCII, and [RuneError] replaces it when [first]
    marks it invalid. *)
Lemma mask_as (b : Z) :
  0 <= b < 256 -> Z.lor (Z.ldiff b (Z.shiftr (int32 (Z.shiftl as_ 31)) 31))
                        (Z.land RuneError (Z.shiftr (int32 (Z.shiftl as_ 31)) 31))
                  = b.
Proof.
  intros Hb. vm_compute (Z.shiftr _ 31). rewrite Z.ldiff_0_r, Z.land_0_r.
  apply Z.lor_0_r.
Qed.

Lemma mask_xx (b : Z) :
  0 <= b < 256 -> Z.lor (Z.ldiff b (Z.shiftr (int32 (Z.shiftl xx 31)) 31))
                        (Z.land RuneError (Z.shiftr (int32 (Z.shiftl xx 31)) 31))
                  = RuneError.
Proof.
  intros Hb. vm_compute (Z.shiftr _ 31). rewrite Z.land_m1_r, Z.ldiff_m1_r.
  reflexivity.
Qed.

(** The sequence classes of [first] announce two to four bytes. *)
Lemma first_size (b : Z) :
  first b < as_ -> 2 <= Z.land (first b) 7 <= 4.
Proof.
  unfold first.
  repeat match goal with
  | |- context [if ?c then _ else _] => destruct c
  end; vm_compute; intuition discriminate.
Qed.

(** The width [DecodeRuneInString] reports is at least one byte and at
    most what is left, on every non-empty string: the callers' loops
    advance. *)
Lemma DecodeRuneInString_width (s : string) :
  (0 < String.length s)%nat ->
  (1 <= snd (DecodeRuneInString s) <= String.length s)%nat.
Proof.
  intros Hn. unfold DecodeRuneInString.
  destruct (Nat.ltb_spec (String.length s) 1); [lia|].
  set (x := first (byte_at 0 s)).
  destruct (Z.leb_spec as_ x); [simpl; lia|].
  pose proof (first_size (byte_at 0 s) H0) as Hsz. fold x in Hsz.
  destruct (acceptRange _) as [lo hi].
  destruct (Nat.ltb_spec (String.length s) (Z.to_nat (Z.land x 7)));
    [simpl; lia|].
  repeat match goal with
  | |- context [if out_of ?a ?b ?c then _ else _] =>
      destruct (out_of a b c); [simpl; lia|]
  | |- context [if (?a <=? ?b)%nat then _ else _] =>
      destruct (Nat.leb_spec a b); [simpl; lia|]
  end; simpl; lia.
Qed.

(** [DecodeRuneInString] never reports a width of zero or one past
    the end of a non-empty string, and never more than [utf8.UTFMax]
    bytes; on the empty string it reports [(RuneError, 0)]. *)
Theorem DecodeRuneInString_size (s : string) :
  ((0 < String.length s)%nat ->
   (1 <= snd (DecodeRuneInString s) <= Nat.min (String.length s) UTFMax)%nat) /\
  (String.length s = 0%nat -> DecodeRuneInString s = (RuneError, 0%nat)).
Proof.
  split.
  - intros Hn. pose proof (DecodeRuneInString_width s Hn) as Hw.
    enough (snd (DecodeRuneInString s) <= UTFMax)%nat by lia.
    unfold DecodeRuneInString.
    destruct (Nat.ltb _ 1); [simpl; unfold UTFMax; lia|].
    destruct (as_ <=? _)%Z; [simpl; unfold UTFMax; lia|].
    destruct (acceptRange _) as [lo hi].
    repeat match goal with
    | |- context [if ?c then _ else _] => destruct c; [simpl; unfold UTFMax; lia|]
    end; simpl; unfold UTFMax; lia.
  - intros H0. unfold DecodeRuneInString. rewrite H0. reflexivity.
Qed.

(** ** Witness *)

(** "é" is the two bytes C3 A9. *)
Definition e_acute : string := String (ascii_of_nat 195) (String (ascii_of_nat 169) EmptyString).

Lemma DecodeRuneInString_size_witness :
  (0 < String.length e_acute)%nat /\
  (1 <= snd (DecodeRuneInString e_acute) <= Nat.min (String.length e_acute) UTFMax)%nat.
Proof.
  split; [simpl; lia|].
  apply (proj1 (DecodeRuneInString_size e_acute)). simpl. lia.
Defined.
