(* ===== verification/Json.v ===== *)
(** * The request payload: [json.Marshal(&dialer)] (src/main.go:78)

    [run] serialises the dialer struct (main.go:108-111, tags
    [json:"client_ip"] and [json:"user_agent"]) with Go's
    [encoding/json].  This file holds
    - [appendString], the string escaper of encoding/json (Go 1.22 and
      later, HTML escaping on, as [json.Marshal] sets it), written as its
      index loop with the [start] bookkeeping that copies unescaped runs
      in one piece;
    - [escape], a reference escaper that treats one UTF-8 unit at a time,
      and the theorem that the loop computes it;
    - [gvalue], the Go values the encoder meets on the way from
      [&dialer] to the strings (pointer, interface, struct, string), and
      [Marshal] over them, with its error for unsupported types;
    - the payload of [run], and the theorems that it never fails and has
      the shape [{"client_ip":...,"user_agent":...}]. *)

From Stdlib Require Import String Ascii List ZArith Lia Bool.
From S2P Require Import Prelude Utf8.
Import ListNotations.
Local Open Scope string_scope.

(** ** Byte-level helpers *)

Definition chr (z : Z) : ascii := ascii_of_N (Z.to_N z).
Definition str1 (z : Z) : string := String (chr z) EmptyString.
Definition quote : string := str1 34.
Definition hex : string := "0123456789abcdef".
Definition hex_digit (z : Z) : string := substring (Z.to_nat z) 1 hex.

(** [htmlSafeSet[b]] and [safeSet[b]] for [b < utf8.RuneSelf]. *)
Definition htmlSafe (b : Z) : bool :=
  (32 <=? b)%Z && (b <? 128)%Z &&
  negb ((b =? 34)%Z || (b =? 92)%Z || (b =? 60)%Z || (b =? 62)%Z || (b =? 38)%Z).

Definition safe (b : Z) : bool :=
  (32 <=? b)%Z && (b <? 128)%Z && negb ((b =? 34)%Z || (b =? 92)%Z).

(** The [switch b] of [appendString]: the escape written for an ASCII
    byte that is not copied as it is. *)
Definition escape_ascii (b : Z) : string :=
  if (b =? 92)%Z || (b =? 34)%Z then "\" ++ str1 b
  else if (b =? 8)%Z then "\b"
  else if (b =? 12)%Z then "\f"
  else if (b =? 10)%Z then "\n"
  else if (b =? 13)%Z then "\r"
  else if (b =? 9)%Z then "\t"
  else "\u00" ++ hex_digit (Z.shiftr b 4) ++ hex_digit (Z.land b 15).

(** [src[i:i+n]] with [n = min(len(src)-i, utf8.UTFMax)]. *)
Definition rune_window (src : string) (i : nat) : string :=
  let n := String.length src - i in
  let n := if (UTFMax <? n)%nat then UTFMax else n in
  substring i n src.

(** [src[start:i]] *)
Definition slice (src : string) (start i : nat) : string :=
  substring start (i - start) src.

(** ** [appendString]

    One iteration per visit of the [for i < len(src)] loop; [fuel] bounds
    the iterations, and [appendString] gives one more than the length of
    [src], which is enough since every iteration advances [i]
    ([appendString_loop_fuel]).  Out of fuel the loop returns [dst] as it
    stands. *)
Fixpoint appendString_loop (fuel : nat) (src : string) (escapeHTML : bool)
         (i start : nat) (dst : string) : string :=
  match fuel with
  | O => dst
  | S fuel =>
    if (i <? String.length src)%nat then
      let b := byte_at i src in
      if (b <? RuneSelf)%Z then
        if htmlSafe b || (negb escapeHTML && safe b) then
          appendString_loop fuel src escapeHTML (S i) start dst
        else
          appendString_loop fuel src escapeHTML (S i) (S i)
            (dst ++ slice src start i ++ escape_ascii b)
      else
        let '(c, size) := DecodeRuneInString (rune_window src i) in
        if (c =? RuneError)%Z && (size =? 1)%nat then
          appendString_loop fuel src escapeHTML (i + size) (i + size)
            (dst ++ slice src start i ++ "\ufffd")
        else if (c =? 8232)%Z || (c =? 8233)%Z then
          (* U+2028 LINE SEPARATOR, U+2029 PARAGRAPH SEPARATOR *)
          appendString_loop fuel src escapeHTML (i + size) (i + size)
            (dst ++ slice src start i ++ "\u202" ++ hex_digit (Z.land c 15))
        else appendString_loop fuel src escapeHTML (i + size) start dst
    else dst ++ slice src start (String.length src) ++ quote
  end.

(** [func appendString(dst []byte, src string, escapeHTML bool) []byte] *)
Definition appendString (dst src : string) (escapeHTML : bool) : string :=
  appendString_loop (S (String.length src)) src escapeHTML 0 0 (dst ++ quote).

(** ** The reference escaper

    The text written for the UTF-8 unit at the head of [s]: an ASCII byte,
    an invalid byte, or a whole rune of [size] bytes. *)
Definition unit_text (escapeHTML : bool) (s : string) : string * nat :=
  let b := byte_at 0 s in
  if (b <? RuneSelf)%Z then
    (if htmlSafe b || (negb escapeHTML && safe b) then substring 0 1 s
     else escape_ascii b, 1%nat)
  else
    let '(c, size) := DecodeRuneInString (rune_window s 0) in
    if (c =? RuneError)%Z && (size =? 1)%nat then ("\ufffd", 1%nat)
    else if (c =? 8232)%Z || (c =? 8233)%Z then
      ("\u202" ++ hex_digit (Z.land c 15), size)
    else (substring 0 size s, size).

(** The escaped text of [s], one unit after the other; [n] is fuel, and
    [String.length s] of it is enough. *)
Fixpoint escape_fuel (n : nat) (escapeHTML : bool) (s : string) : string :=
  match n with
  | O => ""
  | S n =>
    match s with
    | EmptyString => ""
    | String _ _ =>
        let '(t, size) := unit_text escapeHTML s in
        t ++ escape_fuel n escapeHTML (substring size (String.length s - size) s)
    end
  end.

Definition escape (escapeHTML : bool) (s : string) : string :=
  escape_fuel (String.length s) escapeHTML s.

(** ** Go values and [Marshal]

    The encoder goes from the pointer [&dialer] through the interface
    [nats.CustomDialer] and the pointer [*dialer] to the struct; a nil
    pointer or interface is written [null].  [GUnsupported] stands for a
    channel, function or complex value, which [encoding/json] refuses. *)
#[warnings="-register-all"]
Inductive gvalue :=
| GString (s : string)
| GBool (b : bool)
| GPtr (p : option gvalue)
| GIface (p : option gvalue)
| GStruct (fields : list (string * gvalue))
| GUnsupported (type_name : string).

Definition JsonUnsupported (type_name : string) : goerror :=
  ErrorsNew ("json: unsupported type: " ++ type_name).

(** [e.reflectValue(v, opts)] with [escapeHTML = true], appending to
    [dst]; the struct encoder writes [{], then each field as its escaped
    name, [:] and its value, separated by [,], and [}] ([{}] when there
    is no field). *)
Fixpoint encode (v : gvalue) (dst : string) : result string :=
  match v with
  | GString s => Ok (appendString dst s true)
  | GBool b => Ok (dst ++ if b then "true" else "false")
  | GPtr None | GIface None => Ok (dst ++ "null")
  | GPtr (Some v) | GIface (Some v) => encode v dst
  | GUnsupported t => Err (JsonUnsupported t)
  | GStruct fields =>
      let fix fields_enc (fs : list (string * gvalue)) (next : string)
                         (dst : string) : result string :=
        match fs with
        | [] => Ok (if next =? "{" then dst ++ "{}" else dst ++ "}")
        | (name, fv) :: fs =>
            let dst := dst ++ next ++ appendString "" name true ++ ":" in
            match encode fv dst with
            | Ok dst => fields_enc fs "," dst
            | Err e => Err e
            end
        end in
      fields_enc fields "{" dst
  end.

(** [json.Marshal(v)] *)
Definition Marshal (v : gvalue) : result string := encode v "".

(** The Go value [&dialer] of main.go:78: a pointer to the interface
    variable [dialer], which holds the [*dialer] made by [NewDialer]. *)
Definition dialer_gvalue (client_ip user_agent : string) : gvalue :=
  GPtr (Some (GIface (Some (GPtr (Some (GStruct
    [("client_ip", GString client_ip); ("user_agent", GString user_agent)])))))).

(** [req, err := json.Marshal(&dialer)] *)
Definition marshal_dialer (client_ip user_agent : string) : result string :=
  Marshal (dialer_gvalue client_ip user_agent).

(** ** The loop computes the reference escaper *)

Section Suffixes.
Variable src : string.

(** [src[i:]] *)
Definition sfx (i : nat) : string :=
  substring i (String.length src - i) src.

Lemma bytes_sfx i : bytes (sfx i) = skipn i (bytes src).
Proof.
  unfold sfx. rewrite bytes_substring, length_bytes, firstn_all2; [reflexivity|].
  rewrite length_skipn. lia.
Qed.

Lemma length_sfx i : String.length (sfx i) = String.length src - i.
Proof. rewrite !length_bytes, bytes_sfx, length_skipn. reflexivity. Qed.

Lemma byte_at_sfx i k : byte_at k (sfx i) = byte_at (i + k) src.
Proof. unfold byte_at. rewrite !get_bytes, bytes_sfx, nth_error_skipn. reflexivity. Qed.

Lemma rune_window_sfx i : rune_window (sfx i) 0 = rune_window src i.
Proof.
  unfold rune_window. rewrite length_sfx, Nat.sub_0_r. apply bytes_inj.
  rewrite !bytes_substring, bytes_sfx. reflexivity.
Qed.

Lemma sfx_skip i k :
  i + k <= String.length src ->
  substring k (String.length (sfx i) - k) (sfx i) = sfx (i + k).
Proof.
  intros Hk. apply bytes_inj. rewrite bytes_substring, !bytes_sfx, skipn_skipn,
    length_sfx, firstn_all2; [f_equal; lia|].
  rewrite length_skipn, <- length_bytes. lia.
Qed.

Lemma slice_extend start i k :
  start <= i ->
  (slice src start i ++ substring 0 k (sfx i))%string = slice src start (i + k).
Proof.
  intros Hs. apply bytes_inj. unfold slice.
  rewrite bytes_app, !bytes_substring, bytes_sfx, skipn_0.
  replace (i + k - start) with ((i - start) + k) by lia.
  rewrite firstn_split, skipn_skipn. do 3 f_equal. lia.
Qed.

Lemma slice_empty i : slice src i i = "".
Proof.
  unfold slice. rewrite Nat.sub_diag. apply bytes_inj.
  rewrite bytes_substring. reflexivity.
Qed.
End Suffixes.

Lemma rune_window_length s i :
  i < String.length s ->
  1 <= String.length (rune_window s i) <= String.length s - i.
Proof.
  intros Hi. unfold rune_window. rewrite length_bytes, bytes_substring.
  rewrite length_firstn, length_skipn, <- length_bytes. unfold UTFMax.
  destruct (Nat.ltb_spec 4 (String.length s - i)); lia.
Qed.

(** The width of the unit [unit_text] consumes: at least one byte, at most
    what is left. *)
Lemma unit_text_size h s :
  0 < String.length s -> 1 <= snd (unit_text h s) <= String.length s.
Proof.
  intros Hs. unfold unit_text.
  destruct (Z.ltb (byte_at 0 s) RuneSelf); [simpl; lia|].
  pose proof (rune_window_length s 0 Hs) as Hw.
  pose proof (DecodeRuneInString_width (rune_window s 0)) as Hd.
  destruct (DecodeRuneInString (rune_window s 0)) as [c size]; simpl in Hd.
  destruct ((c =? RuneError)%Z && (size =? 1)%nat); [simpl; lia|].
  destruct ((c =? 8232)%Z || (c =? 8233)%Z); simpl; lia.
Qed.

Lemma escape_fuel_enough h n m s :
  String.length s <= n -> String.length s <= m ->
  escape_fuel n h s = escape_fuel m h s.
Proof.
  revert m s; induction n as [|n IH]; intros m s Hn Hm.
  - destruct s; [destruct m; reflexivity|simpl in Hn; lia].
  - destruct s as [|a s']; [destruct m; reflexivity|].
    destruct m as [|m]; [simpl in Hm; lia|]. cbn [escape_fuel].
    pose proof (unit_text_size h (String a s')) as Hu.
    destruct (unit_text h (String a s')) as [t size]. cbn [fst snd] in Hu |- *.
    f_equal. apply IH; rewrite length_suffix; simpl String.length in *; lia.
Qed.

(** One unit of the reference: [escape] writes the text of the first unit
    and goes on after it. *)
Lemma escape_unit h s :
  0 < String.length s ->
  escape h s = fst (unit_text h s) ++
               escape h (substring (snd (unit_text h s))
                                   (String.length s - snd (unit_text h s)) s).
Proof.
  intros Hs. pose proof (unit_text_size h s Hs) as Hu.
  destruct (unit_text h s) as [t size] eqn:Et; cbn [fst snd] in *.
  unfold escape. destruct s as [|a s']; [simpl in Hs; lia|].
  change (String.length (String a s')) with (S (String.length s')) at 1.
  cbn [escape_fuel]. rewrite Et. f_equal.
  apply escape_fuel_enough; rewrite length_suffix; simpl String.length in *; lia.
Qed.

(** The loop invariant: whatever the loop still has to do from index [i],
    with [src[start:i]] not yet copied, it appends that slice, the escaped
    rest of [src] and the closing quote, provided its fuel exceeds the
    bytes left. *)
Lemma appendString_loop_spec h src :
  forall fuel i start dst,
  start <= i <= String.length src -> String.length src - i < fuel ->
  appendString_loop fuel src h i start dst =
  dst ++ slice src start i ++ escape h (sfx src i) ++ quote.
Proof.
  induction fuel as [|fuel IH]; intros i start dst Hi Hf; [lia|].
  cbn [appendString_loop].
  destruct (Nat.ltb_spec i (String.length src)) as [Hlt|Hge].
  - assert (Hu : 0 < String.length (sfx src i)) by (rewrite length_sfx; lia).
    rewrite (escape_unit h _ Hu). unfold unit_text.
    rewrite byte_at_sfx, Nat.add_0_r, rune_window_sfx.
    destruct (Z.ltb (byte_at i src) RuneSelf).
    + destruct (htmlSafe _ || _); cbn [fst snd];
        rewrite IH by lia; rewrite sfx_skip, <- (Nat.add_1_r i) by lia.
      * rewrite <- (slice_extend src start i 1) by lia.
        autorewrite with gohc. reflexivity.
      * rewrite slice_empty. autorewrite with gohc. reflexivity.
    + pose proof (rune_window_length src i Hlt) as Hw.
      pose proof (DecodeRuneInString_width (rune_window src i)) as Hd.
      destruct (DecodeRuneInString (rune_window src i)) as [c size].
      cbn [snd] in Hd. specialize (Hd ltac:(lia)).
      destruct ((c =? RuneError)%Z && (size =? 1)%nat) eqn:He;
        [apply andb_true_iff in He as [_ He]; apply Nat.eqb_eq in He; subst size
        |destruct (_ || _)]; cbn [fst snd];
        rewrite IH by lia; rewrite sfx_skip by lia.
      * rewrite slice_empty. autorewrite with gohc. reflexivity.
      * rewrite slice_empty. autorewrite with gohc. reflexivity.
      * rewrite <- (slice_extend src start i size) by lia.
        autorewrite with gohc. reflexivity.
  - assert (Hsfx : sfx src i = "").
    { apply bytes_inj. rewrite bytes_sfx. apply skipn_all2.
      rewrite <- length_bytes. lia. }
    rewrite Hsfx. replace i with (String.length src) by lia. reflexivity.
Qed.

Lemma appendString_spec (dst src : string) (h : bool) :
  appendString dst src h = dst ++ quote ++ escape h src ++ quote.
Proof.
  unfold appendString. rewrite appendString_loop_spec by lia.
  assert (Hs : sfx src 0 = src) by (apply bytes_inj; rewrite bytes_sfx; reflexivity).
  rewrite slice_empty, Hs. autorewrite with gohc. reflexivity.
Qed.

(** C14: Go's [appendString] loop, which defers copying each run of
    bytes that need no escape until an escape or the end, writes exactly
    the reference escaping of [src], one UTF-8 unit at a time, between two
    quotes after [dst]. *)
Theorem appendString_escape (dst src : string) (h : bool) :
  appendString dst src h = dst ++ quote ++ escape h src ++ quote.
Proof. apply appendString_spec. Qed.

(** The loop stops after at most one iteration per byte and one
    more, so the fuel [appendString] gives is enough: any larger fuel
    gives the same text. *)
Theorem appendString_loop_fuel (fuel : nat) src h dst :
  String.length src < fuel ->
  appendString_loop fuel src h 0 0 (dst ++ quote) = appendString dst src h.
Proof.
  intros Hf. unfold appendString.
  rewrite !appendString_loop_spec by lia. reflexivity.
Qed.

(** ** The payload *)

(** The text of the payload for a dialer holding [ip] and [ua]. *)
Definition payload_text (ip ua : string) : string :=
  "{" ++ quote ++ "client_ip" ++ quote ++ ":" ++ quote ++ escape true ip ++ quote ++
  "," ++ quote ++ "user_agent" ++ quote ++ ":" ++ quote ++ escape true ua ++ quote ++
  "}".

Lemma marshal_dialer_payload (ip ua : string) :
  marshal_dialer ip ua = Ok (payload_text ip ua).
Proof.
  unfold marshal_dialer, Marshal, dialer_gvalue. cbn -[appendString].
  rewrite !appendString_spec. unfold payload_text.
  autorewrite with gohc. reflexivity.
Qed.

(** C13: [json.Marshal(&dialer)] never fails, so the error branch of
    main.go:79-81 is dead; it writes the two fields in declaration order
    under their tag names, each value escaped by [escape]. *)
Theorem marshal_dialer_ok (ip ua : string) :
  marshal_dialer ip ua = Ok (payload_text ip ua).
Proof. apply marshal_dialer_payload. Qed.

(** A string is written as it is when every byte is in [htmlSafeSet]. *)
Definition html_safe_string (s : string) : bool :=
  forallb (fun a => htmlSafe (byte_val a)) (bytes s).

Lemma escape_html_safe_spec (s : string) :
  html_safe_string s = true -> escape true s = s.
Proof.
  induction s as [|a s IH]; intros Hs; [reflexivity|].
  cbn [html_safe_string bytes forallb] in Hs.
  apply andb_true_iff in Hs as [Ha Hs].
  rewrite escape_unit by (simpl; lia). unfold unit_text.
  assert (Hb : byte_at 0 (String a s) = byte_val a) by reflexivity.
  assert (Hlt : (byte_val a <? RuneSelf)%Z = true).
  { unfold htmlSafe in Ha. apply andb_true_iff in Ha as [Ha _].
    apply andb_true_iff in Ha as [_ Ha]. exact Ha. }
  rewrite Hb, Hlt, Ha. cbn [fst snd orb]. simpl.
  rewrite Nat.sub_0_r, substring_full, IH by exact Hs. now destruct s.
Qed.

Lemma html_safe_app (s1 s2 : string) :
  html_safe_string (s1 ++ s2) = html_safe_string s1 && html_safe_string s2.
Proof. unfold html_safe_string. now rewrite bytes_app, forallb_app. Qed.

(** ** Witnesses *)

Lemma appendString_loop_fuel_witness :
  appendString_loop 64 "<b>ok</b>" true 0 0 ("" ++ quote) = appendString "" "<b>ok</b>" true.
Proof. apply appendString_loop_fuel. simpl. lia. Defined.

