(* ===== verification/Strconv.v ===== *)
(** * [strconv.Itoa], as [run] uses it for the port (src/main.go:71)

    [url := "nats://" + host + ":" + strconv.Itoa(port)].  [Itoa] is
    [FormatInt(int64(i), 10)]: numbers in [0, 100) come from the [small]
    table, the others from [formatBits], which negates the two's
    complement [uint64] of a negative number and writes two digits per
    iteration from the [smallsString] table.  Integers are [Z] with the
    64-bit wrap-around written out.  [dec] is a reference that writes one
    digit per step, and [Itoa_dec] shows that [Itoa] computes it on the
    whole [int64] range. *)

From Stdlib Require Import String Ascii List ZArith Lia Bool.
From S2P Require Import Prelude Utf8.
Import ListNotations.
Local Open Scope string_scope.
Local Open Scope Z_scope.

Definition digits : string := "0123456789abcdefghijklmnopqrstuvwxyz".

Definition smallsString : string :=
  "00010203040506070809101112131415161718192021222324252627282930313233343536373839404142434445464748495051525354555657585960616263646566676869707172737475767778798081828384858687888990919293949596979899".

Definition nSmalls : Z := 100.

(** [s[i]] as a one-byte string. *)
Definition at1 (s : string) (i : Z) : string := substring (Z.to_nat i) 1 s.

(** [func small(i int) string] *)
Definition small (i : Z) : string :=
  if i <? 10 then substring (Z.to_nat i) 1 digits
  else substring (Z.to_nat (i * 2)) 2 smallsString.

(** The [for us >= 100] loop of the base-10 branch of [formatBits]: [a]
    is the filled tail [a[i:]] of the buffer.  Ten iterations are enough
    for a [uint64], which has at most twenty digits. *)
Fixpoint formatBits10_loop (fuel : nat) (us : Z) (a : string) : Z * string :=
  match fuel with
  | O => (us, a)
  | S fuel =>
      if 100 <=? us then
        let is_ := us mod 100 * 2 in
        let us' := us / 100 in
        formatBits10_loop fuel us' (at1 smallsString is_ ++ at1 smallsString (is_ + 1) ++ a)
      else (us, a)
  end.

(** [formatBits(nil, u, 10, neg, false)] for a [uint64] [u]. *)
Definition formatBits10 (u : Z) (neg : bool) : string :=
  let u := if neg then (- u) mod 2 ^ 64 else u in
  let '(us, a) := formatBits10_loop 10 u "" in
  let is_ := us * 2 in
  let a := at1 smallsString (is_ + 1) ++ a in
  let a := if 10 <=? us then at1 smallsString is_ ++ a else a in
  if neg then "-" ++ a else a.

(** [func FormatInt(i int64, base int) string], base 10. *)
Definition FormatInt10 (i : Z) : string :=
  if (0 <=? i) && (i <? nSmalls) then small i
  else formatBits10 (i mod 2 ^ 64) (i <? 0).

(** [func Itoa(i int) string] on a 64-bit platform. *)
Definition Itoa (i : Z) : string := FormatInt10 i.

(** ** The reference: one decimal digit per step *)

Fixpoint dec_fuel (fuel : nat) (n : Z) : string :=
  match fuel with
  | O => ""
  | S fuel =>
      if n <? 10 then at1 digits n
      else dec_fuel fuel (n / 10) ++ at1 digits (n mod 10)
  end.

(** The decimal text of a non-negative [n] below [10^20]. *)
Definition dec (n : Z) : string := dec_fuel 20 n.

Definition int64_min : Z := - 2 ^ 63.
Definition int64_max : Z := 2 ^ 63 - 1.

(** ** [Itoa] computes the reference *)

(** The two-digit table, checked entry by entry. *)
Lemma smalls_two_digits k :
  0 <= k < 100 ->
  at1 smallsString (k * 2) ++ at1 smallsString (k * 2 + 1) =
  at1 digits (k / 10) ++ at1 digits (k mod 10).
Proof.
  intros Hk.
  assert (H : forallb (fun n => let k := Z.of_nat n in
             String.eqb (at1 smallsString (k * 2) ++ at1 smallsString (k * 2 + 1))
                        (at1 digits (k / 10) ++ at1 digits (k mod 10)))
             (seq 0 100) = true) by (vm_compute; reflexivity).
  rewrite forallb_forall in H. specialize (H (Z.to_nat k)).
  rewrite Z2Nat.id in H by lia. apply String.eqb_eq, H.
  apply in_seq. lia.
Qed.

(** The entries [small] and the last step of [formatBits] read. *)
Lemma small_dec k :
  0 <= k < 100 ->
  small k = dec k /\
  (if 10 <=? k then at1 smallsString (k * 2) ++ at1 smallsString (k * 2 + 1)
   else at1 smallsString (k * 2 + 1)) = dec k.
Proof.
  intros Hk.
  assert (H : forallb (fun n => let k := Z.of_nat n in
             String.eqb (small k) (dec k) &&
             String.eqb (if 10 <=? k then at1 smallsString (k * 2) ++ at1 smallsString (k * 2 + 1)
                         else at1 smallsString (k * 2 + 1)) (dec k))
             (seq 0 100) = true) by (vm_compute; reflexivity).
  rewrite forallb_forall in H. specialize (H (Z.to_nat k)).
  rewrite Z2Nat.id in H by lia.
  destruct (andb_prop _ _ (H ltac:(apply in_seq; lia))) as [H1 H2].
  split; apply String.eqb_eq; assumption.
Qed.

Lemma dec_fuel_enough f g n :
  0 <= n -> n < 10 ^ Z.of_nat (S f) -> n < 10 ^ Z.of_nat (S g) ->
  dec_fuel (S f) n = dec_fuel (S g) n.
Proof.
  revert g n; induction f as [|f IH]; intros g n Hn Hf Hg; cbn [dec_fuel];
    (destruct (Z.ltb_spec n 10); [reflexivity|]).
  - simpl in Hf. lia.
  - destruct g as [|g]; [simpl in Hg; lia|]. f_equal.
    rewrite Nat2Z.inj_succ, Z.pow_succ_r in Hf, Hg by lia.
    apply IH; [apply Z.div_pos; lia| |]; apply Z.div_lt_upper_bound; lia.
Qed.

Lemma dec_fuel_S f n :
  dec_fuel (S f) n =
  if n <? 10 then at1 digits n else dec_fuel f (n / 10) ++ at1 digits (n mod 10).
Proof. reflexivity. Qed.

(** One digit at a time: the digits of [n] are those of [n / 10]
    followed by the last one. *)
Lemma dec_split10 n :
  10 <= n < 10 ^ 20 -> dec n = dec (n / 10) ++ at1 digits (n mod 10).
Proof.
  intros Hn. unfold dec.
  rewrite (dec_fuel_enough 19 20 n) by (simpl Z.of_nat; lia).
  rewrite dec_fuel_S. replace (n <? 10) with false by (symmetry; apply Z.ltb_ge; lia).
  rewrite (dec_fuel_enough 19 20 (n / 10))
    by (simpl Z.of_nat; first [apply Z.div_pos | apply Z.div_lt_upper_bound]; lia).
  reflexivity.
Qed.

(** Two digits at a time: the digits of [n] are those of [n / 100]
    followed by the two of [n mod 100]. *)
Lemma dec_split100 n :
  100 <= n < 10 ^ 20 ->
  dec n = dec (n / 100) ++ at1 digits ((n mod 100) / 10) ++ at1 digits (n mod 10).
Proof.
  intros Hn. unfold dec.
  rewrite (dec_fuel_enough 19 20 n) by (simpl Z.of_nat; lia).
  rewrite dec_fuel_S.
  replace (n <? 10) with false by (symmetry; apply Z.ltb_ge; lia).
  rewrite (dec_fuel_enough 19 20 (n / 10))
    by (simpl Z.of_nat; first [apply Z.div_pos | apply Z.div_lt_upper_bound]; lia).
  rewrite dec_fuel_S.
  replace (n / 10 <? 10) with false by (symmetry; apply Z.ltb_ge;
    apply Z.div_le_lower_bound; lia).
  rewrite <- str_app_assoc. f_equal; [|f_equal].
  - rewrite Z.div_div by lia. apply dec_fuel_enough; simpl Z.of_nat;
      [apply Z.div_pos| apply Z.div_lt_upper_bound| apply Z.div_lt_upper_bound]; lia.
  - f_equal. pose proof (Z.mod_pos_bound n 100 ltac:(lia)).
    rewrite (Z.div_mod n 100) at 1 by lia.
    replace (100 * (n / 100) + n mod 100) with (n mod 100 + (n / 100 * 10) * 10) by lia.
    rewrite Z.div_add, Z.mod_add by lia. apply Z.mod_small.
    split; [apply Z.div_pos|apply Z.div_lt_upper_bound]; lia.
Qed.

(** The [us >= 100] loop writes the low digits of [us] in front of [a] and
    leaves the two highest; ten iterations reach below 100 from any
    [uint64]. *)
Lemma formatBits10_loop_spec fuel us a :
  0 <= us < 10 ^ 20 -> us < 100 ^ Z.of_nat (S fuel) ->
  let '(us', a') := formatBits10_loop fuel us a in
  0 <= us' < 100 /\ dec us ++ a = dec us' ++ a'.
Proof.
  revert us a; induction fuel as [|fuel IH]; intros us a Hus Hf; cbn [formatBits10_loop].
  - simpl in Hf. split; [lia|reflexivity].
  - destruct (Z.leb_spec 100 us) as [Hge|Hlt]; [|split; [lia|reflexivity]].
    pose proof (Z.mod_pos_bound us 100 ltac:(lia)) as Hm.
    specialize (IH (us / 100) (at1 smallsString (us mod 100 * 2) ++
                               at1 smallsString (us mod 100 * 2 + 1) ++ a)).
    destruct (formatBits10_loop fuel _ _) as [us' a'].
    destruct IH as [Hb He].
    + split; [apply Z.div_pos; lia|]. apply Z.div_lt_upper_bound; lia.
    + rewrite Nat2Z.inj_succ, Z.pow_succ_r in Hf by lia.
      apply Z.div_lt_upper_bound; lia.
    + split; [exact Hb|]. rewrite <- He, dec_split100 by lia.
      rewrite (str_app_assoc (at1 smallsString _) (at1 smallsString _) a).
      rewrite smalls_two_digits by lia.
      rewrite (Z.mod_mod_divide us 100 10) by (exists 10; reflexivity).
      autorewrite with gohc. reflexivity.
Qed.

(** [formatBits] on a [uint64] writes the decimal text of the value, or of
    its two's complement negation with a sign. *)
Lemma formatBits10_spec u neg :
  0 <= u < 2 ^ 64 ->
  formatBits10 u neg =
  (if neg then "-" else "") ++ dec (if neg then (- u) mod 2 ^ 64 else u).
Proof.
  intros Hu. unfold formatBits10.
  set (u' := if neg then (- u) mod 2 ^ 64 else u).
  assert (Hu' : 0 <= u' < 2 ^ 64)
    by (subst u'; destruct neg; [apply Z.mod_pos_bound; lia|lia]).
  pose proof (formatBits10_loop_spec 10 u' "" ltac:(lia) ltac:(simpl Z.of_nat; lia)) as Hl.
  destruct (formatBits10_loop 10 u' "") as [us a].
  destruct Hl as [Hus He]. rewrite str_app_nil_r in He.
  assert (Ht : (if 10 <=? us then at1 smallsString (us * 2) ++ (at1 smallsString (us * 2 + 1) ++ a)
                else at1 smallsString (us * 2 + 1) ++ a) = dec u').
  { rewrite He. destruct (small_dec us Hus) as [_ Hs]. rewrite <- Hs.
    destruct (10 <=? us); [apply str_app_assoc|reflexivity]. }
  rewrite Ht. destruct neg; reflexivity.
Qed.

Lemma Itoa_spec (i : Z) :
  int64_min <= i <= int64_max ->
  Itoa i = (if i <? 0 then "-" else "") ++ dec (Z.abs i).
Proof.
  unfold int64_min, int64_max. intros Hi. unfold Itoa, FormatInt10, nSmalls.
  destruct (Z.leb_spec 0 i) as [Hp|Hn]; destruct (Z.ltb_spec i 100); cbn [andb].
  - rewrite Z.abs_eq by lia. destruct (Z.ltb_spec i 0); [lia|]. apply small_dec. lia.
  - rewrite formatBits10_spec by (apply Z.mod_pos_bound; lia).
    destruct (Z.ltb_spec i 0); [lia|]. rewrite Z.abs_eq, Z.mod_small by lia. reflexivity.
  - rewrite formatBits10_spec by (apply Z.mod_pos_bound; lia).
    destruct (Z.ltb_spec i 0); [|lia]. f_equal. f_equal.
    rewrite Z.abs_neq by lia. cbn [negb].
    replace (i mod 2 ^ 64) with (i + 2 ^ 64)
      by (apply Z.mod_unique_pos with (q := -1); lia).
    symmetry. apply Z.mod_unique_pos with (q := -1); lia.
  - lia.
Qed.

(** [strconv.Itoa] on a 64-bit platform writes the decimal text of
    every [int64], with a minus sign for a negative number: the [small]
    table, the two-digits-per-iteration loop and the unsigned negation of
    [formatBits] compute the one-digit-per-step reference. *)
Theorem Itoa_dec (i : Z) :
  int64_min <= i <= int64_max ->
  Itoa i = (if i <? 0 then "-" else "") ++ dec (Z.abs i).
Proof. exact (Itoa_spec i). Qed.

Lemma length_at1 s i : (String.length (at1 s i) <= 1)%nat.
Proof. unfold at1. rewrite length_bytes, bytes_substring, length_firstn. lia. Qed.

Lemma length_str_app (a b : string) :
  String.length (a ++ b) = (String.length a + String.length b)%nat.
Proof. rewrite !length_bytes, bytes_app. apply length_app. Qed.

(** The reference writes at most one byte per unit of fuel. *)
Lemma dec_fuel_length f n :
  (String.length (dec_fuel f n) <= f)%nat.
Proof.
  revert n; induction f as [|f IH]; intros n; [simpl; lia|].
  rewrite dec_fuel_S. destruct (n <? 10).
  - pose proof (length_at1 digits n). lia.
  - rewrite length_str_app. pose proof (IH (n / 10)).
    pose proof (length_at1 digits (n mod 10)). lia.
Qed.

(** ** [strconv.ParseUint] and [strconv.ParseInt]

    The parsers behind an [IntFlag]: urfave/cli reads [NATS_PORT] with
    [strconv.ParseInt(val, 0, 64)] and Go's [flag] package reads
    [--port] with [strconv.ParseInt(s, 0, strconv.IntSize)].  Base 0
    takes a [0b], [0o] or [0x] prefix, reads a leading [0] as octal, and
    accepts underscores between digits.  The error of a [*NumError] is
    kept as its kind. *)

Inductive num_error := ErrSyntax | ErrRange | ErrBase | ErrBitSize.

Definition maxUint64 : Z := 2 ^ 64 - 1.

(** [func lower(c byte) byte { return c | ('x' - 'X') }] *)
Definition lower (c : Z) : Z := Z.lor c 32.

Definition zbytes (s : string) : list Z := map byte_val (bytes s).

(** [s[k:]] *)
Definition drop (k : nat) (s : string) : string :=
  substring k (String.length s - k) s.

(** The digit loop of [ParseUint]: the value so far, the error, and
    whether an underscore was skipped. *)
Fixpoint parse_digits (cs : list Z) (base cutoff maxVal : Z) (base0 : bool)
         (n : Z) (underscores : bool) : Z * option num_error * bool :=
  match cs with
  | [] => (n, None, underscores)
  | c :: cs =>
      if (c =? 95) && base0 then
        parse_digits cs base cutoff maxVal base0 n true
      else
        let d := if (48 <=? c) && (c <=? 57) then Some (c - 48)
                 else if (97 <=? lower c) && (lower c <=? 122) then Some (lower c - 97 + 10)
                 else None in
        match d with
        | None => (0, Some ErrSyntax, underscores)
        | Some d =>
            if base <=? d then (0, Some ErrSyntax, underscores)
            else if cutoff <=? n then (maxVal, Some ErrRange, underscores)
            else
              let n := (n * base) mod 2 ^ 64 in
              let n1 := (n + d) mod 2 ^ 64 in
              if (n1 <? n) || (maxVal <? n1) then (maxVal, Some ErrRange, underscores)
              else parse_digits cs base cutoff maxVal base0 n1 underscores
        end
  end.

(** The loop of [underscoreOK]; [saw] is ['^'], ['0'], ['_'] or ['!']. *)
Fixpoint underscore_loop (cs : list Z) (hex : bool) (saw : Z) : bool :=
  match cs with
  | [] => negb (saw =? 95)
  | c :: cs =>
      if ((48 <=? c) && (c <=? 57)) || (hex && (97 <=? lower c) && (lower c <=? 102))
      then underscore_loop cs hex 48
      else if c =? 95 then
        if negb (saw =? 48) then false else underscore_loop cs hex 95
      else if saw =? 95 then false
      else underscore_loop cs hex 33
  end.

(** [func underscoreOK(s string) bool] *)
Definition underscoreOK (s : string) : bool :=
  let cs := zbytes s in
  let cs := match cs with
            | c :: cs' => if (c =? 45) || (c =? 43) then cs' else cs
            | [] => []
            end in
  match cs with
  | c0 :: c1 :: cs' =>
      if (c0 =? 48) && ((lower c1 =? 98) || (lower c1 =? 111) || (lower c1 =? 120))
      then underscore_loop cs' (lower c1 =? 120) 48
      else underscore_loop cs false 94
  | _ => underscore_loop cs false 94
  end.

(** [func ParseUint(s string, base int, bitSize int) (uint64, error)] *)
Definition ParseUint (s : string) (base bitSize : Z) : Z * option num_error :=
  if (s =? "")%string then (0, Some ErrSyntax) else
  let base0 := base =? 0 in
  let s0 := s in
  let '(base, s, ok) :=
    if (2 <=? base) && (base <=? 36) then (base, s, true)
    else if base =? 0 then
      if byte_at 0 s =? 48 then
        if (3 <=? Z.of_nat (String.length s)) && (lower (byte_at 1 s) =? 98) then (2, drop 2 s, true)
        else if (3 <=? Z.of_nat (String.length s)) && (lower (byte_at 1 s) =? 111) then (8, drop 2 s, true)
        else if (3 <=? Z.of_nat (String.length s)) && (lower (byte_at 1 s) =? 120) then (16, drop 2 s, true)
        else (8, drop 1 s, true)
      else (10, s, true)
    else (base, s, false) in
  if negb ok then (0, Some ErrBase) else
  let bitSize := if bitSize =? 0 then 64 else bitSize in
  if (bitSize <? 0) || (64 <? bitSize) then (0, Some ErrBitSize) else
  let cutoff := maxUint64 / base + 1 in
  let maxVal := ((2 ^ bitSize) mod 2 ^ 64 - 1) mod 2 ^ 64 in
  let '(n, err, underscores) := parse_digits (zbytes s) base cutoff maxVal base0 0 false in
  match err with
  | Some e => (n, Some e)
  | None => if underscores && negb (underscoreOK s0) then (0, Some ErrSyntax) else (n, None)
  end.

(** [func ParseInt(s string, base int, bitSize int) (int64, error)] *)
Definition ParseInt (s : string) (base bitSize : Z) : Z * option num_error :=
  if (s =? "")%string then (0, Some ErrSyntax) else
  let '(neg, s) :=
    if byte_at 0 s =? 43 then (false, drop 1 s)
    else if byte_at 0 s =? 45 then (true, drop 1 s)
    else (false, s) in
  let '(un, err) := ParseUint s base bitSize in
  match err with
  | Some ErrRange | None =>
      let bitSize := if bitSize =? 0 then 64 else bitSize in
      let cutoff := 2 ^ (bitSize - 1) in
      if negb neg && (cutoff <=? un) then (cutoff - 1, Some ErrRange)
      else if neg && (cutoff <? un) then (- cutoff, Some ErrRange)
      else ((if neg then - un else un), None)
  | Some e => (0, Some e)
  end.

(** ** [strconv.Quote]

    [%q] in the texts of [net/url]'s errors ([*url.Error], [EscapeError],
    [InvalidHostError], [fmt.Errorf("invalid port %q after host")]). *)

(** A byte list as a Go string. *)
Definition string_of_bytes (l : list Z) : string :=
  string_of_list_ascii (map (fun z => ascii_of_N (Z.to_N z)) l).

(** [lowerhex[d]] *)
Definition lowerhex (d : Z) : Z := if d <? 10 then 48 + d else 87 + d.

(** The runes above U+00FF that [IsPrint] rejects, as closed ranges: the
    separators (Zs, Zl, Zp), the format characters (Cf), the private-use
    planes and the non-characters U+FFFE and U+FFFF. *)
Definition not_print_ranges : list (Z * Z) :=
  [(1536, 1541); (1564, 1564); (1757, 1757); (1807, 1807); (2192, 2193);
   (2274, 2274); (5760, 5760); (6158, 6158); (8192, 8207); (8232, 8239);
   (8287, 8292); (8294, 8303); (12288, 12288); (57344, 63743);
   (65279, 65279); (65529, 65531); (65534, 65535); (69821, 69821);
   (69837, 69837); (78896, 78911); (113824, 113827); (119155, 119162);
   (917505, 917505); (917536, 917631); (983040, 1114111)].

(** [func IsPrint(r rune) bool]: exact on Latin-1, where Go tests the
    ranges written in its code.  Above U+00FF Go searches the generated
    tables [isPrint16], [isNotPrint16], [isPrint32] and [isNotPrint32];
    here such a rune is printable unless it lies in [not_print_ranges],
    so the unassigned code points, which those tables also reject, count
    as printable. *)
Definition IsPrint (r : Z) : bool :=
  if r <=? 255 then
    ((32 <=? r) && (r <=? 126)) || ((161 <=? r) && (r <=? 255) && negb (r =? 173))
  else negb (existsb (fun lh => (fst lh <=? r) && (r <=? snd lh)) not_print_ranges).

(** The [\u] or [\U] escape: [n] lower-case hexadecimal digits of [r]. *)
Fixpoint hex_digits (n : nat) (r : Z) : list Z :=
  match n with
  | O => []
  | S n => lowerhex (Z.land (Z.shiftr r (4 * Z.of_nat n)) 15) :: hex_digits n r
  end.

(** [func appendEscapedRune(buf []byte, r rune, quote byte, ASCIIonly,
    graphicOnly bool) []byte] with the double quote as [quote] and both
    flags false. *)
Definition appendEscapedRune (r : Z) : list Z :=
  if (r =? 34) || (r =? 92) then [92; r] else
  if IsPrint r then AppendRune r else
  if r =? 7 then [92; 97] else
  if r =? 8 then [92; 98] else
  if r =? 12 then [92; 102] else
  if r =? 10 then [92; 110] else
  if r =? 13 then [92; 114] else
  if r =? 9 then [92; 116] else
  if r =? 11 then [92; 118] else
  if (r <? 32) || (r =? 127) then [92; 120; lowerhex (Z.shiftr r 4); lowerhex (Z.land r 15)] else
  let r := if ValidRune r then r else RuneError in
  if r <? 65536 then 92 :: 117 :: hex_digits 4 r
  else 92 :: 85 :: hex_digits 8 r.

(** The loop of [appendQuotedWith] over the runes of [s]: an invalid
    byte is written [\xhh], a rune through [appendEscapedRune].  Each
    turn consumes at least one byte, so [String.length s] turns are
    enough. *)
Fixpoint quote_loop (fuel : nat) (s : string) : list Z :=
  match fuel, s with
  | O, _ | _, EmptyString => []
  | S fuel, String c _ =>
      let b := byte_val c in
      let '(r, width) := if b <? RuneSelf then (b, 1%nat) else DecodeRuneInString s in
      let rest := substring width (String.length s - width) s in
      if (width =? 1)%nat && (r =? RuneError)
      then 92 :: 120 :: lowerhex (Z.shiftr b 4) :: lowerhex (Z.land b 15) :: quote_loop fuel rest
      else appendEscapedRune r ++ quote_loop fuel rest
  end.

(** [func Quote(s string) string] *)
Definition Quote (s : string) : string :=
  string_of_bytes (34 :: quote_loop (String.length s) s ++ [34]).

(** ** Round trip *)

Lemma parse_digits_app l1 l2 base cutoff maxVal base0 n u :
  parse_digits (l1 ++ l2)%list base cutoff maxVal base0 n u =
  match parse_digits l1 base cutoff maxVal base0 n u with
  | (m, None, u') => parse_digits l2 base cutoff maxVal base0 m u'
  | r => r
  end.
Proof.
  revert n u; induction l1 as [|c l1 IH]; intros n u; [reflexivity|].
  cbn [app parse_digits]. destruct ((c =? 95) && base0); [apply IH|].
  destruct (if (48 <=? c) && (c <=? 57) then _ else _) as [d|]; [|reflexivity].
  destruct (base <=? d); [reflexivity|]. destruct (cutoff <=? n); [reflexivity|].
  destruct (_ || _); [reflexivity|]. apply IH.
Qed.

Lemma zbytes_app a b : zbytes (a ++ b) = (zbytes a ++ zbytes b)%list.
Proof. unfold zbytes. rewrite bytes_app. apply map_app. Qed.

(** The digit characters. *)
Lemma zbytes_digit d : 0 <= d < 10 -> zbytes (at1 digits d) = [48 + d].
Proof.
  intros Hd.
  assert (H : forallb (fun k => let d := Z.of_nat k in
             if list_eq_dec Z.eq_dec (zbytes (at1 digits d)) [48 + d] then true else false)
             (seq 0 10) = true) by (vm_compute; reflexivity).
  rewrite forallb_forall in H. specialize (H (Z.to_nat d) ltac:(apply in_seq; lia)).
  rewrite Z2Nat.id in H by lia. cbv zeta in H.
  destruct (list_eq_dec Z.eq_dec _ _); [assumption|discriminate].
Qed.

Definition cutoff10 : Z := maxUint64 / 10 + 1.

(** One decimal digit read into the value [acc]. *)
Lemma parse_step acc d u :
  0 <= acc < cutoff10 -> 0 <= d < 10 -> acc * 10 + d <= maxUint64 ->
  parse_digits [48 + d] 10 cutoff10 maxUint64 true acc u = (acc * 10 + d, None, u).
Proof.
  unfold cutoff10, maxUint64. intros Ha Hd Hm. cbn [parse_digits].
  replace ((48 + d =? 95) && true) with false
    by (symmetry; apply andb_false_intro1, Z.eqb_neq; lia).
  replace ((48 <=? 48 + d) && (48 + d <=? 57)) with true
    by (symmetry; apply andb_true_intro; split; apply Z.leb_le; lia).
  replace (48 + d - 48) with d by lia.
  destruct (Z.leb_spec 10 d); [lia|].
  destruct (Z.leb_spec ((2 ^ 64 - 1) / 10 + 1) acc); [lia|].
  rewrite (Z.mod_small (acc * 10)) by lia. rewrite Z.mod_small by lia.
  destruct (Z.ltb_spec (acc * 10 + d) (acc * 10)); [lia|].
  destruct (Z.ltb_spec (2 ^ 64 - 1) (acc * 10 + d)); [lia|]. reflexivity.
Qed.

(** Reading back the reference digits of [n] gives [n]. *)
Lemma parse_dec f n :
  0 <= n < 10 ^ Z.of_nat (S f) -> n <= maxUint64 ->
  parse_digits (zbytes (dec_fuel (S f) n)) 10 cutoff10 maxUint64 true 0 false =
  (n, None, false).
Proof.
  assert (Hc : 0 < cutoff10) by (vm_compute; reflexivity).
  revert n; induction f as [|f IH]; intros n Hn Hmax; rewrite dec_fuel_S.
  - simpl in Hn. destruct (Z.ltb_spec n 10); [|lia].
    rewrite zbytes_digit, parse_step by lia. reflexivity.
  - destruct (Z.ltb_spec n 10).
    + rewrite zbytes_digit, parse_step by lia. reflexivity.
    + rewrite Nat2Z.inj_succ, Z.pow_succ_r in Hn by lia.
      pose proof (Z.mod_pos_bound n 10 ltac:(lia)) as Hm.
      assert (Hd : n / 10 * 10 + n mod 10 = n) by (rewrite Z.mul_comm, <- Z.div_mod; lia).
      assert (Hq : n / 10 <= maxUint64 / 10) by (apply Z.div_le_mono; lia).
      rewrite zbytes_app, parse_digits_app, IH
        by (try split; first [apply Z.div_pos | apply Z.div_lt_upper_bound | lia]; lia).
      rewrite zbytes_digit, parse_step, Hd; [reflexivity|unfold cutoff10; split|..];
        try apply Z.div_pos; lia.
Qed.

Lemma byte_at_zbytes s :
  byte_at 0 s = match zbytes s with c :: _ => c | [] => 0 end.
Proof. destruct s; reflexivity. Qed.

Lemma length_at1_digits k : k < 36 -> String.length (at1 digits k) = 1%nat.
Proof.
  intros Hk. unfold at1. rewrite length_bytes, bytes_substring, length_firstn, length_skipn.
  change (List.length (bytes digits)) with 36%nat. lia.
Qed.

Lemma zbytes_dec_nonempty f n : zbytes (dec_fuel (S f) n) <> [].
Proof.
  assert (H : (1 <= String.length (dec_fuel (S f) n))%nat).
  { rewrite dec_fuel_S. destruct (Z.ltb_spec n 10).
    - rewrite length_at1_digits by lia. lia.
    - rewrite length_str_app, (length_at1_digits (n mod 10))
        by (pose proof (Z.mod_pos_bound n 10); lia). lia. }
  unfold zbytes. rewrite length_bytes in H. intros Hn.
  apply map_eq_nil in Hn. rewrite Hn in H. simpl in H. lia.
Qed.

(** The first byte of the reference text is a digit, ['0'] only for
    zero. *)
Lemma dec_first_byte f n :
  0 <= n < 10 ^ Z.of_nat (S f) ->
  48 <= byte_at 0 (dec_fuel (S f) n) <= 57 /\
  (byte_at 0 (dec_fuel (S f) n) = 48 -> n = 0).
Proof.
  revert n; induction f as [|f IH]; intros n Hn; rewrite dec_fuel_S, byte_at_zbytes.
  - simpl in Hn. destruct (Z.ltb_spec n 10); [|lia].
    rewrite zbytes_digit by lia. lia.
  - destruct (Z.ltb_spec n 10).
    + rewrite zbytes_digit by lia. lia.
    + rewrite Nat2Z.inj_succ, Z.pow_succ_r in Hn by lia.
      specialize (IH (n / 10) ltac:(split; [apply Z.div_pos|apply Z.div_lt_upper_bound]; lia)).
      rewrite byte_at_zbytes in IH. rewrite zbytes_app.
      pose proof (zbytes_dec_nonempty f (n / 10)) as Hne.
      destruct (zbytes (dec_fuel (S f) (n / 10))) as [|c cs]; [congruence|].
      simpl. split; [lia|]. intros Hc. destruct IH as [_ IH].
      specialize (IH Hc). assert (n < 10); [|lia].
      apply Z.div_small_iff in IH; lia.
Qed.

Lemma dec_nonempty n : (dec n =? "")%string = false.
Proof.
  apply String.eqb_neq. intros H. apply (zbytes_dec_nonempty 19 n).
  change (dec_fuel 20 n) with (dec n). rewrite H. reflexivity.
Qed.

(** [ParseUint] in base 0 reads back the reference text of any [uint64]. *)
Lemma ParseUint_dec n :
  0 <= n <= maxUint64 -> ParseUint (dec n) 0 64 = (n, None).
Proof.
  intros Hn. destruct (Z.eq_dec n 0) as [->|Hnz]; [reflexivity|].
  assert (Hb : 10 ^ Z.of_nat 20 = 10 ^ 20) by reflexivity.
  assert (Hlt : n < 10 ^ Z.of_nat 20) by (rewrite Hb; unfold maxUint64 in Hn; lia).
  destruct (dec_first_byte 19 n ltac:(lia)) as [Hr Hz].
  change (dec_fuel 20 n) with (dec n) in Hr, Hz.
  unfold ParseUint. rewrite dec_nonempty. cbn [Z.eqb andb negb Z.leb Z.ltb].
  destruct (Z.eqb_spec (byte_at 0 (dec n)) 48) as [H48|_]; [exfalso; auto|].
  cbn -[parse_digits zbytes dec underscoreOK maxUint64 Z.pow Z.div].
  change (maxUint64 / 10 + 1) with cutoff10.
  replace ((2 ^ 64 mod 2 ^ 64 - 1) mod 2 ^ 64) with maxUint64 by reflexivity.
  unfold dec. rewrite (parse_dec 19 n) by lia. reflexivity.
Qed.

Lemma length_drop k s : String.length (drop k s) = (String.length s - k)%nat.
Proof. apply length_suffix. Qed.

Lemma drop_sign (c : ascii) (s : string) : drop 1 (String c s) = s.
Proof. unfold drop. cbn -[substring]. rewrite Nat.sub_0_r. apply substring_full. Qed.

Lemma ParseInt_Itoa_spec (i : Z) :
  int64_min <= i <= int64_max -> ParseInt (Itoa i) 0 64 = (i, None).
Proof.
  intros Hi. rewrite Itoa_spec by exact Hi. unfold int64_min, int64_max in Hi.
  assert (Hlt : Z.abs i < 10 ^ Z.of_nat 20)
    by (change (10 ^ Z.of_nat 20) with (10 ^ 20); lia).
  destruct (dec_first_byte 19 (Z.abs i) ltac:(lia)) as [Hr _].
  change (dec_fuel 20 (Z.abs i)) with (dec (Z.abs i)) in Hr.
  unfold ParseInt. destruct (Z.ltb_spec i 0) as [Hneg|Hpos].
  - cbn [append String.eqb]. cbv [byte_at String.get byte_val].
    cbn -[ParseUint dec Z.pow drop]. rewrite drop_sign.
    rewrite ParseUint_dec by (unfold maxUint64; lia). cbn -[Z.pow].
    destruct (Z.ltb_spec (2 ^ 63) (Z.abs i)); [lia|]. f_equal. lia.
  - cbn [append]. rewrite dec_nonempty.
    destruct (Z.eqb_spec (byte_at 0 (dec (Z.abs i))) 43); [lia|].
    destruct (Z.eqb_spec (byte_at 0 (dec (Z.abs i))) 45); [lia|].
    rewrite ParseUint_dec by (unfold maxUint64; lia). cbn -[Z.pow].
    destruct (Z.leb_spec (2 ^ 63) (Z.abs i)); [lia|]. f_equal. lia.
Qed.

(** C20: reading back what [strconv.Itoa] writes with
    [strconv.ParseInt(s, 0, 64)], as urfave/cli and Go's [flag] package
    read an [IntFlag], gives the same [int64] and no error. *)
Theorem ParseInt_Itoa (i : Z) :
  int64_min <= i <= int64_max -> ParseInt (Itoa i) 0 64 = (i, None).
Proof. exact (ParseInt_Itoa_spec i). Qed.

(** ** Witnesses *)

Lemma Itoa_dec_witness :
  int64_min <= -4222 <= int64_max /\ Itoa (-4222) = "-" ++ dec 4222.
Proof. split; [vm_compute; split; discriminate|]. apply (Itoa_dec (-4222)). vm_compute. split; discriminate. Defined.

Lemma ParseInt_Itoa_witness :
  int64_min <= int64_min <= int64_max /\ ParseInt (Itoa int64_min) 0 64 = (int64_min, None).
Proof.
  split; [vm_compute; split; discriminate|].
  apply (ParseInt_Itoa int64_min). vm_compute. split; discriminate.
Defined.

(** ** The range of [ParseInt] *)

Lemma parse_digits_nonneg cs base cutoff maxVal base0 n u :
  0 <= n -> 0 <= maxVal -> 0 <= fst (fst (parse_digits cs base cutoff maxVal base0 n u)).
Proof.
  revert n u; induction cs as [|c cs IH]; intros n u Hn Hm; cbn [parse_digits]; [exact Hn|].
  destruct (_ && base0); [now apply IH|].
  match goal with |- context [match ?x with Some _ => _ | None => _ end] =>
    destruct x as [d|]; [|simpl; lia] end.
  destruct (base <=? d); [simpl; lia|]. destruct (cutoff <=? n); [exact Hm|].
  destruct (_ || _); [exact Hm|]. apply IH; [apply Z.mod_pos_bound; lia|exact Hm].
Qed.

Lemma ParseUint_nonneg s base bitSize : 0 <= fst (ParseUint s base bitSize).
Proof.
  unfold ParseUint. destruct (String.eqb s ""); [simpl; lia|].
  match goal with |- context [match ?x with pair _ _ => _ end] => destruct x as [[b s'] ok] end.
  destruct (negb ok); [simpl; lia|].
  destruct (_ || _); [simpl; lia|].
  pose proof (parse_digits_nonneg (zbytes s') b (maxUint64 / b + 1)
                ((2 ^ (if bitSize =? 0 then 64 else bitSize) mod 2 ^ 64 - 1) mod 2 ^ 64)
                (base =? 0) 0 false ltac:(lia) ltac:(apply Z.mod_pos_bound; lia)) as H.
  destruct (parse_digits _ _ _ _ _ _ _) as [[n err] us]. cbn in H.
  destruct err; [simpl; lia|]. destruct (_ && _); simpl; lia.
Qed.

(** A number [ParseInt(s, base, 64)] accepts is an [int64]. *)
Lemma ParseInt_range s base n :
  ParseInt s base 64 = (n, None) -> int64_min <= n <= int64_max.
Proof.
  unfold ParseInt, int64_min, int64_max. destruct (String.eqb s ""); [discriminate|].
  match goal with |- context [match ?x with pair _ _ => _ end] => destruct x as [neg s'] end.
  pose proof (ParseUint_nonneg s' base 64) as Hnn.
  destruct (ParseUint s' base 64) as [un err]. cbn [fst] in Hnn. cbn -[Z.pow].
  destruct err as [[]|]; try discriminate;
  destruct neg; cbn [negb andb];
  try (destruct (Z.ltb_spec (2 ^ 63) un)); try (destruct (Z.leb_spec (2 ^ 63) un));
  intros Heq; injection Heq as <-; lia.
Qed.
