(* ===== verification/Ip.v ===== *)
(** * [net.IP.String], the text [Dial] stores in [ClientIP] (src/main.go:125)

    [d.ClientIP = addr.IP.String()] writes the IP of the local address
    of the connection as text, and [json.Marshal(&dialer)] sends it.
    Go's [net.IP] is a byte slice: [IP.String] writes ["<nil>"] for an
    empty one and ["?"] with the bytes in hex for a length other than 4
    or 16; otherwise it calls [To4] and writes the dotted quad of
    [netip.AddrFrom4] or the text of [netip.AddrFrom16], whose
    [appendTo6] writes the eight groups in hex and replaces the first
    longest run of two or more zero groups by ["::"].  This file holds
    those functions ([Module Netip] for package [net/netip], [Module Net]
    for the methods of [net.IP]) over a list of bytes, and shows that the
    dotted quad is the decimal text of the bytes, that every text of a
    non-empty IP is made of bytes the JSON escaper copies as they are,
    so that the payload carries it verbatim, and how long the text can
    be. *)

From Stdlib Require Import String Ascii List ZArith Lia Bool.
From S2P Require Import Prelude Utf8 Dialer Json Strconv.
Import ListNotations.
Local Open Scope string_scope.
Local Open Scope Z_scope.

Module Netip.

(** [const digits = "0123456789abcdef"] *)
Definition digits : string := "0123456789abcdef".

(** [func appendDecimal(b []byte, x uint8) []byte] *)
Definition appendDecimal (b : string) (x : Z) : string :=
  let b := if 100 <=? x then b ++ at1 digits (x / 100) else b in
  let b := if 10 <=? x then b ++ at1 digits (x / 10 mod 10) else b in
  b ++ at1 digits (x mod 10).

(** [func appendHex(b []byte, x uint16) []byte] *)
Definition appendHex (b : string) (x : Z) : string :=
  let b := if 4096 <=? x then b ++ at1 digits (Z.shiftr x 12) else b in
  let b := if 256 <=? x then b ++ at1 digits (Z.land (Z.shiftr x 8) 15) else b in
  let b := if 16 <=? x then b ++ at1 digits (Z.land (Z.shiftr x 4) 15) else b in
  b ++ at1 digits (Z.land x 15).

(** Byte [i] of the address: [ip.v4(i)] of an [AddrFrom4]. *)
Definition byte_of (ip : list Z) (i : nat) : Z := nth i ip 0.

(** [ip.v6u16(i)] of [AddrFrom16(ip)]: the big-endian group [i] of the
    [uint128] built from the sixteen bytes. *)
Definition v6u16 (ip : list Z) (i : nat) : Z :=
  Z.lor (Z.shiftl (byte_of ip (2 * i)) 8) (byte_of ip (2 * i + 1)).

(** [func (ip Addr) appendTo4(ret []byte) []byte] *)
Definition appendTo4 (ret : string) (ip : list Z) : string :=
  let ret := appendDecimal ret (byte_of ip 0) in
  let ret := ret ++ "." in
  let ret := appendDecimal ret (byte_of ip 1) in
  let ret := ret ++ "." in
  let ret := appendDecimal ret (byte_of ip 2) in
  let ret := ret ++ "." in
  appendDecimal ret (byte_of ip 3).

(** The inner loop of [appendTo6]: [for j < 8 && ip.v6u16(j) == 0 { j++ }]. *)
Fixpoint zero_run_end (ip : list Z) (fuel : nat) (j : nat) : nat :=
  match fuel with
  | O => j
  | S fuel => if (j <? 8)%nat && (v6u16 ip j =? 0) then zero_run_end ip fuel (S j) else j
  end.

(** The first loop of [appendTo6]: [zeroStart] and [zeroEnd], two
    [uint8]s that start at 255, take the first run of zero groups of
    length [l >= 2] with [l > zeroEnd - zeroStart] (in [uint8]). *)
Fixpoint longest_zero_run (ip : list Z) (fuel : nat) (i : nat) (zs ze : Z) : Z * Z :=
  match fuel with
  | O => (zs, ze)
  | S fuel =>
      if (i <? 8)%nat then
        let j := zero_run_end ip 8 i in
        let l := Z.of_nat (j - i) in
        if (2 <=? l) && ((ze - zs) mod 256 <? l)
        then longest_zero_run ip fuel (S i) (Z.of_nat i) (Z.of_nat j)
        else longest_zero_run ip fuel (S i) zs ze
      else (zs, ze)
  end.

(** The second loop of [appendTo6]:
    [if i == zeroStart { "::"; i = zeroEnd; if i >= 8 { break } }
     else if i > 0 { ":" }; appendHex(ret, ip.v6u16(i))]. *)
Fixpoint print6 (ip : list Z) (fuel : nat) (i : nat) (zs ze : Z) (ret : string) : string :=
  match fuel with
  | O => ret
  | S fuel =>
      if (i <? 8)%nat then
        if Z.of_nat i =? zs then
          let ret := ret ++ "::" in
          let i := Z.to_nat ze in
          if (8 <=? i)%nat then ret
          else print6 ip fuel (S i) zs ze (appendHex ret (v6u16 ip i))
        else
          let ret := if (0 <? i)%nat then ret ++ ":" else ret in
          print6 ip fuel (S i) zs ze (appendHex ret (v6u16 ip i))
      else ret
  end.

(** [func (ip Addr) appendTo6(ret []byte) []byte], for an address
    without zone: each loop runs at most eight times. *)
Definition appendTo6 (ret : string) (ip : list Z) : string :=
  let '(zs, ze) := longest_zero_run ip 8 0 255 255 in
  print6 ip 8 0 zs ze ret.

(** [ip.Is4In6()]: the prefix [::ffff:0:0/96]. *)
Definition Is4In6 (ip : list Z) : bool :=
  forallb (Z.eqb 0) (firstn 10 ip) && (byte_of ip 10 =? 255) && (byte_of ip 11 =? 255).

(** [func (ip Addr) String() string] of [AddrFrom4] ([string4]) and of
    [AddrFrom16] ([string4In6] or [string6]). *)
Definition string4 (ip : list Z) : string := appendTo4 "" ip.

Definition string16 (ip : list Z) : string :=
  if Is4In6 ip then "::ffff:" ++ appendTo4 "" (skipn 12 ip) else appendTo6 "" ip.

End Netip.

Module Net.

(** [const hexDigit = "0123456789abcdef"] *)
Definition hexDigit : string := "0123456789abcdef".

(** [func hexString(b []byte) string] *)
Fixpoint hexString (b : list Z) : string :=
  match b with
  | [] => ""
  | tn :: b => at1 hexDigit (Z.shiftr tn 4) ++ at1 hexDigit (Z.land tn 15) ++ hexString b
  end.

(** [func isZeros(p IP) bool] *)
Definition isZeros (p : list Z) : bool := forallb (Z.eqb 0) p.

(** [func (ip IP) To4() IP]: [None] is [nil]. *)
Definition To4 (ip : list Z) : option (list Z) :=
  if (length ip =? 4)%nat then Some ip
  else if (length ip =? 16)%nat && isZeros (firstn 10 ip) &&
          (nth 10 ip 0 =? 255) && (nth 11 ip 0 =? 255)
  then Some (skipn 12 ip)
  else None.

(** [func (ip IP) String() string] *)
Definition IP_String (ip : list Z) : string :=
  if (length ip =? 0)%nat then "<nil>"
  else if negb ((length ip =? 4)%nat || (length ip =? 16)%nat) then "?" ++ hexString ip
  else match To4 ip with
       | Some p4 => Netip.string4 p4
       | None => Netip.string16 ip
       end.

End Net.

(** A Go byte slice: every element is a [byte]. *)
Definition bytes_ok (ip : list Z) : bool := forallb (fun b => (0 <=? b) && (b <? 256)) ip.

(** ** The reference for IPv6 text (RFC 5952, section 4) *)

(** The eight groups of a 16-byte address. *)
Definition groups (ip : list Z) : list Z := map (Netip.v6u16 ip) (seq 0 8).

Definition hex (g : Z) : string := Netip.appendHex "" g.

(** The groups [s, e) are zero. *)
Definition zero_run (gs : list Z) (s e : nat) : Prop :=
  (s <= e <= 8)%nat /\ forall k, (s <= k < e)%nat -> nth k gs 0 = 0.

(** The run that ["::"] replaces: at least two groups, as long as any
    other run, longer than every run that starts before it, and not
    followed by another zero group. *)
Definition best_zero_run (gs : list Z) (s e : nat) : Prop :=
  zero_run gs s e /\ (2 <= e - s)%nat /\
  (forall s' e', zero_run gs s' e' -> (e' - s' <= e - s)%nat) /\
  (forall s' e', zero_run gs s' e' -> (s' < s)%nat -> (e' - s' < e - s)%nat) /\
  (e = 8%nat \/ nth e gs 0 <> 0).

(** What the chosen run must be: [None] when no run has two groups. *)
Definition run_ok (gs : list Z) (run : option (nat * nat)) : Prop :=
  match run with
  | None => forall s e, zero_run gs s e -> (e - s < 2)%nat
  | Some (s, e) => best_zero_run gs s e
  end.

(** The groups in hex separated by [":"], the run [s, e) replaced by
    ["::"] when there is one. *)
Definition text6 (gs : list Z) (run : option (nat * nat)) : string :=
  match run with
  | None => String.concat ":" (map hex gs)
  | Some (s, e) =>
      String.concat ":" (map hex (firstn s gs)) ++ "::" ++ String.concat ":" (map hex (skipn e gs))
  end.

(** ** The digits *)

Create Rewrite HintDb ip_text.

(** A fact about [s[d]] for a hexadecimal digit [d], case by case. *)
Ltac hex_index d :=
  let n := fresh "n" in
  assert (Hn : (Z.to_nat d < 16)%nat) by lia; unfold at1; generalize (Z.to_nat d) Hn;
  intros n ?; do 16 (destruct n as [|n]; [reflexivity|]); lia.

Lemma at1_netip_digits d : 0 <= d < 16 -> at1 Netip.digits d = at1 digits d.
Proof.
  intros Hd. hex_index d.
Qed.

Lemma at1_netip_safe d : 0 <= d < 16 -> html_safe_string (at1 Netip.digits d) = true.
Proof.
  intros Hd. hex_index d.
Qed.

Lemma at1_hexDigit_safe d : 0 <= d < 16 -> html_safe_string (at1 Net.hexDigit d) = true.
Proof. exact (at1_netip_safe d). Qed.

Lemma length_at1_netip d : 0 <= d < 16 -> String.length (at1 Netip.digits d) = 1%nat.
Proof.
  intros Hd. hex_index d.
Qed.

Lemma dec_digit n : 0 <= n < 10 -> dec n = at1 digits n.
Proof. intros Hn. unfold dec. cbn [dec_fuel]. now rewrite (proj2 (Z.ltb_lt n 10)) by lia. Qed.

Lemma land15_range x : 0 <= Z.land x 15 < 16.
Proof.
  change 15 with (Z.ones 4). rewrite Z.land_ones by lia.
  apply Z.mod_pos_bound. lia.
Qed.

Lemma shiftr_range x k : 0 <= x < 2 ^ (k + 4) -> 0 <= k -> 0 <= Z.shiftr x k < 16.
Proof.
  intros Hx Hk. rewrite Z.shiftr_div_pow2 by exact Hk.
  rewrite Z.pow_add_r in Hx by lia. split; [apply Z.div_pos; lia|].
  apply Z.div_lt_upper_bound; [lia|]. lia.
Qed.

(** The group of two bytes is [hi * 256 + lo]. *)
Lemma lor_shiftl8 a b : 0 <= a -> 0 <= b < 256 -> Z.lor (Z.shiftl a 8) b = a * 256 + b.
Proof.
  intros Ha Hb.
  assert (Hl : Z.land (Z.shiftl a 8) b = 0).
  { apply Z.bits_inj'. intros n Hn. rewrite Z.land_spec, Z.bits_0, Z.shiftl_spec by exact Hn.
    destruct (Z.lt_ge_cases n 8).
    - rewrite (Z.testbit_neg_r a (n - 8)) by lia. reflexivity.
    - rewrite (Z.bits_above_log2 b n); [apply andb_false_r|lia|].
      destruct (Z.eq_dec b 0) as [->|]; [cbn; lia|].
      assert (Z.log2 b < 8) by (apply Z.log2_lt_pow2; lia). lia. }
  pose proof (Z.add_lor_land (Z.shiftl a 8) b) as H. rewrite Hl in H.
  rewrite Z.shiftl_mul_pow2 in * by lia. change (2 ^ 8) with 256 in *. lia.
Qed.

Lemma bytes_ok_In l : bytes_ok l = true -> forall x, In x l -> 0 <= x < 256.
Proof.
  unfold bytes_ok. rewrite forallb_forall. intros H x Hx.
  apply H, andb_prop in Hx as [H1 H2]. apply Z.leb_le in H1. apply Z.ltb_lt in H2. lia.
Qed.

(** ** The dotted quad *)

Ltac pow_lia := try change (10 ^ 20) with 100000000000000000000; Z.div_mod_to_equations; lia.

(** [appendDecimal] writes the decimal text of a byte. *)
Lemma appendDecimal_dec b x : 0 <= x < 256 -> Netip.appendDecimal b x = b ++ dec x.
Proof.
  intros Hx. unfold Netip.appendDecimal.
  destruct (Z.leb_spec 100 x); destruct (Z.leb_spec 10 x); try lia.
  - rewrite dec_split100, dec_digit by pow_lia.
    replace ((x mod 100) / 10) with (x / 10 mod 10) by pow_lia.
    rewrite !at1_netip_digits by pow_lia. autorewrite with gohc. reflexivity.
  - rewrite dec_split10, dec_digit by pow_lia. rewrite (Z.mod_small (x / 10) 10) by pow_lia.
    rewrite !at1_netip_digits by pow_lia. autorewrite with gohc. reflexivity.
  - rewrite dec_digit, Z.mod_small by pow_lia. rewrite at1_netip_digits by pow_lia. reflexivity.
Qed.

Lemma string4_dec a b c d :
  bytes_ok [a; b; c; d] = true ->
  Netip.string4 [a; b; c; d] = dec a ++ "." ++ dec b ++ "." ++ dec c ++ "." ++ dec d.
Proof.
  intros Hb. pose proof (bytes_ok_In _ Hb) as Hin.
  unfold Netip.string4, Netip.appendTo4, Netip.byte_of. cbn [nth].
  rewrite !appendDecimal_dec by (apply Hin; simpl; tauto).
  autorewrite with gohc. reflexivity.
Qed.

(** ** Every byte of the text is copied as it is by the JSON escaper *)

Lemma bytes_ok_skipn n l : bytes_ok l = true -> bytes_ok (skipn n l) = true.
Proof.
  revert l; induction n as [|n IH]; intros [|x l] H; try exact H.
  apply IH. cbn in H. now apply andb_prop in H as [_ H].
Qed.

Lemma byte_of_range ip i : bytes_ok ip = true -> 0 <= Netip.byte_of ip i < 256.
Proof.
  intros H. unfold Netip.byte_of. destruct (Nat.lt_ge_cases i (length ip)).
  - apply (bytes_ok_In ip H). now apply nth_In.
  - rewrite nth_overflow by lia. lia.
Qed.

Lemma v6u16_range ip i : bytes_ok ip = true -> 0 <= Netip.v6u16 ip i < 65536.
Proof.
  intros H. unfold Netip.v6u16.
  pose proof (byte_of_range ip (2 * i) H). pose proof (byte_of_range ip (2 * i + 1) H).
  rewrite lor_shiftl8 by lia. lia.
Qed.

(** The range side conditions of the digit lemmas. *)
Ltac digit_range :=
  first [ apply land15_range
        | apply shiftr_range; [change (2 ^ (12 + 4)) with 65536; lia|lia]
        | apply shiftr_range; [change (2 ^ (4 + 4)) with 256; lia|lia]
        | pow_lia ].

Lemma html_safe_dot : html_safe_string "." = true.
Proof. reflexivity. Qed.
Lemma html_safe_colon : html_safe_string ":" = true.
Proof. reflexivity. Qed.
Lemma html_safe_colons : html_safe_string "::" = true.
Proof. reflexivity. Qed.
Lemma html_safe_question : html_safe_string "?" = true.
Proof. reflexivity. Qed.
Lemma html_safe_ffff : html_safe_string "::ffff:" = true.
Proof. reflexivity. Qed.
#[export] Hint Rewrite html_safe_app html_safe_dot html_safe_colon html_safe_colons
  html_safe_question html_safe_ffff andb_true_r : ip_text.

(** Splits the safety of a text into its pieces. *)
Ltac safe_text :=
  autorewrite with ip_text;
  rewrite ?at1_netip_safe, ?at1_hexDigit_safe by digit_range;
  rewrite ?andb_true_r.

Lemma appendDecimal_safe b x :
  0 <= x < 256 -> html_safe_string (Netip.appendDecimal b x) = html_safe_string b.
Proof. intros Hx. unfold Netip.appendDecimal. destruct (100 <=? x), (10 <=? x); safe_text; reflexivity. Qed.

Lemma appendHex_safe b x :
  0 <= x < 65536 -> html_safe_string (Netip.appendHex b x) = html_safe_string b.
Proof.
  intros Hx. unfold Netip.appendHex.
  destruct (4096 <=? x), (256 <=? x), (16 <=? x); safe_text; reflexivity.
Qed.

Lemma appendTo4_safe ret ip :
  bytes_ok ip = true -> html_safe_string (Netip.appendTo4 ret ip) = html_safe_string ret.
Proof.
  intros H. unfold Netip.appendTo4.
  do 4 (rewrite appendDecimal_safe by exact (byte_of_range _ _ H); safe_text). reflexivity.
Qed.

Lemma print6_safe ip fuel i zs ze ret :
  bytes_ok ip = true -> html_safe_string ret = true ->
  html_safe_string (Netip.print6 ip fuel i zs ze ret) = true.
Proof.
  intros H. revert i ret; induction fuel as [|fuel IH]; intros i ret Hr; [exact Hr|].
  cbn [Netip.print6]. destruct (i <? 8)%nat; [|exact Hr].
  destruct (Z.of_nat i =? zs); [destruct (8 <=? Z.to_nat ze)%nat|];
    [safe_text; now rewrite Hr| |];
    apply IH; rewrite appendHex_safe by exact (v6u16_range _ _ H);
    [safe_text; now rewrite Hr|destruct (0 <? i)%nat; safe_text; now rewrite Hr].
Qed.

Lemma hexString_safe b : bytes_ok b = true -> html_safe_string (Net.hexString b) = true.
Proof.
  induction b as [|tn b IH]; intros H; [reflexivity|].
  pose proof (bytes_ok_In _ H tn (or_introl eq_refl)).
  cbn [Net.hexString]. safe_text. apply IH. cbn in H. now apply andb_prop in H as [_ H].
Qed.

(** Every text [IP.String] writes for a non-empty IP is made of bytes of
    [htmlSafeSet]. *)
Lemma IP_String_safe ip :
  ip <> [] -> bytes_ok ip = true -> html_safe_string (Net.IP_String ip) = true.
Proof.
  intros Hne H. unfold Net.IP_String.
  destruct (length ip =? 0)%nat eqn:H0; [destruct ip; [congruence|discriminate]|].
  destruct (negb _); [safe_text; exact (hexString_safe _ H)|].
  unfold Net.To4. destruct (length ip =? 4)%nat.
  - unfold Netip.string4. now rewrite appendTo4_safe.
  - destruct (_ && _ && _ && _).
    + unfold Netip.string4. rewrite appendTo4_safe by exact (bytes_ok_skipn _ _ H). reflexivity.
    + unfold Netip.string16. destruct (Netip.Is4In6 ip).
      * safe_text. rewrite appendTo4_safe by exact (bytes_ok_skipn _ _ H). reflexivity.
      * unfold Netip.appendTo6. destruct (Netip.longest_zero_run ip 8 0 255 255).
        now apply print6_safe.
Qed.

(** ** Properties of [IP.String] *)

(** [IP.String] writes an IPv4 address, given as 4 bytes or as the
    16-byte IPv4-mapped form [net.ResolveTCPAddr] returns, as the decimal
    text of its four bytes separated by dots. *)
Theorem IP_String_v4 (a b c d : Z) :
  bytes_ok [a; b; c; d] = true ->
  Net.IP_String [a; b; c; d] = dec a ++ "." ++ dec b ++ "." ++ dec c ++ "." ++ dec d /\
  Net.IP_String [0; 0; 0; 0; 0; 0; 0; 0; 0; 0; 255; 255; a; b; c; d] =
    dec a ++ "." ++ dec b ++ "." ++ dec c ++ "." ++ dec d.
Proof. intros H. split; exact (string4_dec a b c d H). Qed.

(** The text [IP.String] writes for the IP of a local address (any
    non-empty IP) is made of bytes the JSON escaper copies as they are,
    so [json.Marshal(&dialer)] carries it verbatim between the quotes of
    ["client_ip"]. *)
Theorem IP_String_payload (ip : list Z) (ua : string) :
  ip <> [] -> bytes_ok ip = true ->
  escape true (Net.IP_String ip) = Net.IP_String ip /\
  marshal_dialer (Net.IP_String ip) ua =
    Ok ("{" ++ quote ++ "client_ip" ++ quote ++ ":" ++ quote ++ Net.IP_String ip ++ quote ++
        "," ++ quote ++ "user_agent" ++ quote ++ ":" ++ quote ++ escape true ua ++ quote ++ "}").
Proof.
  intros Hne H. pose proof (escape_html_safe_spec _ (IP_String_safe ip Hne H)) as He.
  split; [exact He|]. rewrite marshal_dialer_payload. unfold payload_text. now rewrite He.
Qed.

(** ** Witnesses *)

Lemma IP_String_v4_witness :
  bytes_ok [192; 168; 10; 254] = true /\
  Net.IP_String [192; 168; 10; 254] = dec 192 ++ "." ++ dec 168 ++ "." ++ dec 10 ++ "." ++ dec 254 /\
  Net.IP_String [0; 0; 0; 0; 0; 0; 0; 0; 0; 0; 255; 255; 192; 168; 10; 254] =
    dec 192 ++ "." ++ dec 168 ++ "." ++ dec 10 ++ "." ++ dec 254.
Proof. split; [reflexivity|]. apply IP_String_v4. reflexivity. Defined.

Lemma IP_String_payload_witness :
  escape true (Net.IP_String [254; 128; 0; 0; 0; 0; 0; 0; 0; 0; 0; 0; 0; 0; 0; 1]) = "fe80::1" /\
  marshal_dialer (Net.IP_String [254; 128; 0; 0; 0; 0; 0; 0; 0; 0; 0; 0; 0; 0; 0; 1]) "probe" =
    Ok ("{" ++ quote ++ "client_ip" ++ quote ++ ":" ++ quote ++ "fe80::1" ++ quote ++
        "," ++ quote ++ "user_agent" ++ quote ++ ":" ++ quote ++ escape true "probe" ++ quote ++ "}").
Proof.
  exact (IP_String_payload [254; 128; 0; 0; 0; 0; 0; 0; 0; 0; 0; 0; 0; 0; 0; 1] "probe"
           ltac:(discriminate) eq_refl).
Defined.

(** ** The text of an IPv6 address *)

Lemma appendHex_hex b x : Netip.appendHex b x = b ++ hex x.
Proof.
  unfold hex, Netip.appendHex.
  destruct (4096 <=? x), (256 <=? x), (16 <=? x); autorewrite with gohc; reflexivity.
Qed.

(** The groups [i, i + n) of [g], each after a [":"]. *)
Definition cat_from (g : nat -> Z) (i n : nat) : string :=
  String.concat "" (map (fun k => ":" ++ hex (g k)) (seq i n)).

Lemma cat_from_S g i n : cat_from g i (S n) = ":" ++ hex (g i) ++ cat_from g (S i) n.
Proof.
  unfold cat_from. cbn [seq map]. destruct n as [|n]; cbn [seq map String.concat].
  - now rewrite str_app_nil_r.
  - autorewrite with gohc. reflexivity.
Qed.

Lemma concat_seq g i n :
  String.concat ":" (map hex (map g (seq i (S n)))) = hex (g i) ++ cat_from g (S i) n.
Proof.
  revert i; induction n as [|n IH]; intros i.
  - cbn. unfold cat_from. cbn. now rewrite str_app_nil_r.
  - change (seq i (S (S n))) with (i :: seq (S i) (S n)). rewrite map_map.
    cbn [map]. rewrite <- map_map. cbn [String.concat].
    destruct (map hex (map g (seq (S i) (S n)))) as [|x xs] eqn:Hm; [discriminate|].
    rewrite <- Hm, IH, cat_from_S. autorewrite with gohc. reflexivity.
Qed.

Lemma firstn_seq_le n start len : (n <= len)%nat -> firstn n (seq start len) = seq start n.
Proof.
  revert start len; induction n as [|n IH]; intros start [|len] H; cbn; try reflexivity; [lia|].
  f_equal. apply IH. lia.
Qed.

Section Print6.
Variable ip : list Z.
Variables zs ze : Z.
Let g := Netip.v6u16 ip.

(** A group that is not the start of the run: written after a [":"]
    unless it is the first. *)
Lemma print6_group f i ret :
  (i < 8)%nat -> Z.of_nat i <> zs ->
  Netip.print6 ip (S f) i zs ze ret =
  Netip.print6 ip f (S i) zs ze ((if (0 <? i)%nat then ret ++ ":" else ret) ++ hex (g i)).
Proof.
  intros Hi Hz. cbn [Netip.print6]. rewrite (proj2 (Nat.ltb_lt i 8) Hi).
  rewrite (proj2 (Z.eqb_neq _ _) Hz). now rewrite appendHex_hex.
Qed.

(** The groups after the run, none of which starts it. *)
Lemma print6_plain n f i ret :
  (i + n = 8)%nat -> (n <= f)%nat -> (0 < i)%nat ->
  (forall k, (i <= k < 8)%nat -> Z.of_nat k <> zs) ->
  Netip.print6 ip f i zs ze ret = ret ++ cat_from g i n.
Proof.
  revert f i ret; induction n as [|n IH]; intros f i ret Hn Hf Hi Hz.
  - destruct f; cbn [Netip.print6]; [|rewrite (proj2 (Nat.ltb_ge i 8)) by lia];
      unfold cat_from; cbn; now rewrite str_app_nil_r.
  - destruct f as [|f]; [lia|]. rewrite print6_group by (try apply Hz; lia).
    rewrite (proj2 (Nat.ltb_lt 0 i) Hi), IH by (try intros; try apply Hz; lia).
    rewrite cat_from_S. autorewrite with gohc. reflexivity.
Qed.

(** The groups before the run. *)
Lemma print6_prefix m f i ret :
  (0 < i)%nat -> (i + m < 8)%nat -> (m <= f)%nat ->
  (forall k, (i <= k < i + m)%nat -> Z.of_nat k <> zs) ->
  Netip.print6 ip f i zs ze ret = Netip.print6 ip (f - m) (i + m) zs ze (ret ++ cat_from g i m).
Proof.
  revert f i ret; induction m as [|m IH]; intros f i ret Hi Hm Hf Hz.
  - rewrite Nat.sub_0_r, Nat.add_0_r. unfold cat_from. cbn. now rewrite str_app_nil_r.
  - destruct f as [|f]; [lia|]. rewrite print6_group by (try apply Hz; lia).
    rewrite (proj2 (Nat.ltb_lt 0 i) Hi), IH by (try intros; try apply Hz; lia).
    replace (S i + m)%nat with (i + S m)%nat by lia. cbn [Nat.sub].
    rewrite cat_from_S. autorewrite with gohc. reflexivity.
Qed.

(** The start of the run: ["::"], then the group at its end, if any. *)
Lemma print6_run_start f i e ret :
  (i < 8)%nat -> Z.of_nat i = zs -> ze = Z.of_nat e -> (i < e)%nat ->
  Netip.print6 ip (S f) i zs ze ret =
  if (8 <=? e)%nat then ret ++ "::"
  else Netip.print6 ip f (S e) zs ze (ret ++ "::" ++ hex (g e)).
Proof.
  intros Hi Hz He Hie. cbn [Netip.print6]. rewrite (proj2 (Nat.ltb_lt i 8) Hi).
  rewrite (proj2 (Z.eqb_eq _ _) Hz), He, Nat2Z.id. destruct (8 <=? e)%nat; [reflexivity|].
  now rewrite appendHex_hex, <- str_app_assoc.
Qed.
End Print6.

Lemma text6_some ip s e :
  (s + 2 <= e <= 8)%nat ->
  text6 (groups ip) (Some (s, e)) =
  String.concat ":" (map hex (map (Netip.v6u16 ip) (seq 0 s))) ++ "::" ++
  (if (8 <=? e)%nat then ""
   else hex (Netip.v6u16 ip e) ++ cat_from (Netip.v6u16 ip) (S e) (7 - e)).
Proof.
  intros H. unfold text6, groups. rewrite firstn_map, skipn_map, firstn_seq_le, skipn_seq by lia.
  destruct (Nat.leb_spec 8 e).
  - replace (8 - e)%nat with 0%nat by lia. reflexivity.
  - replace (8 - e)%nat with (S (7 - e)) by lia. now rewrite concat_seq.
Qed.

(** [appendTo6] without a run of zeros writes every group. *)
Lemma print6_none ip : Netip.print6 ip 8 0 255 255 "" = text6 (groups ip) None.
Proof.
  rewrite print6_group by lia. cbn [Nat.ltb Nat.leb].
  rewrite (print6_plain ip 255 255 7) by lia.
  unfold text6, groups. rewrite (concat_seq _ 0 7). now rewrite str_app_nil_l.
Qed.

(** [appendTo6] with the run [s, e) writes the groups before it, ["::"]
    and the groups after it. *)
Lemma print6_some ip s e :
  (s + 2 <= e <= 8)%nat ->
  Netip.print6 ip 8 0 (Z.of_nat s) (Z.of_nat e) "" = text6 (groups ip) (Some (s, e)).
Proof.
  intros H. rewrite text6_some by exact H.
  assert (Hrun : forall f ret, (7 - e <= f)%nat ->
            Netip.print6 ip (S f) s (Z.of_nat s) (Z.of_nat e) ret =
            ret ++ "::" ++ (if (8 <=? e)%nat then ""
                            else hex (Netip.v6u16 ip e) ++ cat_from (Netip.v6u16 ip) (S e) (7 - e))).
  { intros f ret Hf. rewrite print6_run_start with (e := e) by lia.
    destruct (Nat.leb_spec 8 e); [now rewrite str_app_nil_r|].
    rewrite (print6_plain ip _ _ (7 - e)) by lia. autorewrite with gohc. reflexivity. }
  destruct s as [|s'].
  - rewrite Hrun by lia. reflexivity.
  - rewrite print6_group by lia. cbn [Nat.ltb Nat.leb]. rewrite str_app_nil_l.
    rewrite (print6_prefix ip _ _ s') by lia. replace (1 + s')%nat with (S s') by lia.
    replace (7 - s')%nat with (S (6 - s')) by lia. rewrite Hrun by lia.
    rewrite (concat_seq _ 0 s'). autorewrite with gohc. reflexivity.
Qed.

(** ** The run of zeros [appendTo6] chooses *)

Section ZeroRun.
Variable ip : list Z.

(** The inner loop stops at the end of the run of zero groups from [i]. *)
Lemma zero_run_end_spec fuel i :
  (i <= 8)%nat -> (8 - i <= fuel)%nat ->
  let j := Netip.zero_run_end ip fuel i in
  (i <= j <= 8)%nat /\ (forall k, (i <= k < j)%nat -> Netip.v6u16 ip k = 0) /\ (j = 8%nat \/ Netip.v6u16 ip j <> 0).
Proof.
  revert i; induction fuel as [|fuel IH]; intros i Hi Hf; cbn [Netip.zero_run_end].
  - replace i with 8%nat by lia. split; [lia|]. split; [intros; lia|now left].
  - destruct (Nat.ltb_spec i 8); [|cbn [andb]; split; [lia|split; [intros; lia|left; lia]]].
    destruct (Z.eqb_spec (Netip.v6u16 ip i) 0) as [Hz|Hz]; cbn [andb].
    + destruct (IH (S i) ltac:(lia) ltac:(lia)) as (Hj & Hk & He).
      split; [lia|]. split; [|exact He].
      intros k Hk'. destruct (Nat.eq_dec k i) as [->|]; [exact Hz|apply Hk; lia].
    + split; [lia|]. split; [intros; lia|now right].
Qed.

(** The length of the run of zero groups from [i]. *)
Definition run_len (i : nat) : nat := (Netip.zero_run_end ip 8 i - i)%nat.

(** No run of zero groups from [i] is longer. *)
Lemma zero_run_end_max i j :
  (i <= j <= 8)%nat -> (forall k, (i <= k < j)%nat -> Netip.v6u16 ip k = 0) -> (j - i <= run_len i)%nat.
Proof.
  intros Hij Hk. unfold run_len.
  destruct (zero_run_end_spec 8 i ltac:(lia) ltac:(lia)) as (Hr & _ & He).
  destruct (Nat.le_gt_cases j (Netip.zero_run_end ip 8 i)); [lia|].
  destruct He as [He|He]; [lia|]. exfalso. apply He, Hk. lia.
Qed.

(** What the first loop of [appendTo6] knows after the groups before
    [i]: no run of two zero groups yet, or the run at [s] is the first of
    the longest seen. *)
Definition run_inv (i : nat) (zs ze : Z) : Prop :=
  (zs = 255 /\ ze = 255 /\ forall i', (i' < i)%nat -> (run_len i' < 2)%nat) \/
  (exists s, zs = Z.of_nat s /\ ze = Z.of_nat (Netip.zero_run_end ip 8 s) /\ (s < i)%nat /\
     (2 <= run_len s)%nat /\ (forall i', (i' < i)%nat -> (run_len i' <= run_len s)%nat) /\
     (forall i', (i' < s)%nat -> (run_len i' < run_len s)%nat)).

Lemma run_len_bound i : (i <= 8)%nat -> (run_len i <= 8 - i)%nat.
Proof. intros Hi. unfold run_len. destruct (zero_run_end_spec 8 i Hi ltac:(lia)). lia. Qed.

Lemma longest_zero_run_inv fuel i zs ze :
  (i <= 8)%nat -> (8 - i <= fuel)%nat -> run_inv i zs ze ->
  let '(zs', ze') := Netip.longest_zero_run ip fuel i zs ze in run_inv 8 zs' ze'.
Proof.
  revert i zs ze; induction fuel as [|fuel IH]; intros i zs ze Hi Hf Hinv;
    cbn [Netip.longest_zero_run].
  - now replace 8%nat with i by lia.
  - destruct (Nat.ltb_spec i 8) as [Hlt|]; [|now replace 8%nat with i by lia].
    pose proof (run_len_bound i ltac:(lia)) as Hb.
    change (Z.of_nat (Netip.zero_run_end ip 8 i - i)) with (Z.of_nat (run_len i)).
    destruct Hinv as [(-> & -> & Hall)|(s & -> & -> & Hs & H2 & Hle & Hlt')].
    + replace ((255 - 255) mod 256) with 0 by reflexivity.
      destruct (Nat.leb_spec 2 (run_len i)).
      * rewrite (proj2 (Z.leb_le 2 _)), (proj2 (Z.ltb_lt 0 _)) by lia. apply IH; [lia|lia|].
        right. exists i. repeat split; try lia; intros i' Hi'.
        -- destruct (Nat.eq_dec i' i) as [->|]; [lia|]. specialize (Hall i'). lia.
        -- specialize (Hall i'). lia.
      * rewrite (proj2 (Z.leb_gt 2 _)) by lia. apply IH; [lia|lia|].
        left. repeat split. intros i' Hi'. destruct (Nat.eq_dec i' i) as [->|]; [lia|apply Hall; lia].
    + pose proof (run_len_bound s ltac:(lia)) as Hbs.
      assert (Hd : (Z.of_nat (Netip.zero_run_end ip 8 s) - Z.of_nat s) mod 256 = Z.of_nat (run_len s)).
      { unfold run_len. destruct (zero_run_end_spec 8 s ltac:(lia) ltac:(lia)).
        rewrite Nat2Z.inj_sub by lia. apply Z.mod_small. lia. }
      rewrite Hd.
      destruct (Nat.leb_spec 2 (run_len i)); destruct (Nat.ltb_spec (run_len s) (run_len i)).
      * rewrite (proj2 (Z.leb_le 2 _)), (proj2 (Z.ltb_lt _ _)) by lia. apply IH; [lia|lia|].
        right. exists i. repeat split; try lia; intros i' Hi'.
        -- destruct (Nat.eq_dec i' i) as [->|]; [lia|]. specialize (Hle i'). lia.
        -- specialize (Hle i'). lia.
      * rewrite (proj2 (Z.leb_le 2 _)), (proj2 (Z.ltb_ge _ _)) by lia. apply IH; [lia|lia|].
        right. exists s. repeat split; try lia; intros i' Hi'; [|apply Hlt'; lia].
        destruct (Nat.eq_dec i' i) as [->|]; [lia|apply Hle; lia].
      * lia.
      * rewrite (proj2 (Z.leb_gt 2 _)) by lia. apply IH; [lia|lia|].
        right. exists s. repeat split; try lia; intros i' Hi'; [|apply Hlt'; lia].
        destruct (Nat.eq_dec i' i) as [->|]; [lia|apply Hle; lia].
Qed.
End ZeroRun.

Lemma nth_groups ip k : (k < 8)%nat -> nth k (groups ip) 0 = Netip.v6u16 ip k.
Proof.
  intros Hk. unfold groups.
  rewrite nth_indep with (d' := Netip.v6u16 ip 0) by (rewrite length_map, length_seq; lia).
  rewrite map_nth, seq_nth by lia. reflexivity.
Qed.

Lemma zero_run_groups ip s e : zero_run (groups ip) s e -> (e - s <= run_len ip s)%nat.
Proof.
  intros [Hse Hk]. apply zero_run_end_max; [lia|]. intros k Hk'.
  rewrite <- nth_groups by lia. apply Hk. lia.
Qed.

(** [appendTo6] writes the text of the reference, with the run RFC 5952
    prescribes. *)
Lemma appendTo6_spec ip :
  exists run, Netip.appendTo6 "" ip = text6 (groups ip) run /\ run_ok (groups ip) run.
Proof.
  unfold Netip.appendTo6.
  assert (H0 : run_inv ip 0 255 255) by (left; repeat split; intros; lia).
  pose proof (longest_zero_run_inv ip 8 0 255 255 ltac:(lia) ltac:(lia) H0) as Hinv.
  destruct (Netip.longest_zero_run ip 8 0 255 255) as [zs ze].
  destruct Hinv as [(-> & -> & Hall)|(s & -> & -> & Hs & H2 & Hle & Hlt)].
  - exists None. split; [apply print6_none|]. intros s e Hr.
    pose proof (zero_run_groups _ _ _ Hr) as Hl. destruct Hr as [Hse _].
    destruct (Nat.eq_dec s 8) as [->|]; [lia|]. specialize (Hall s). lia.
  - destruct (zero_run_end_spec ip 8 s ltac:(lia) ltac:(lia)) as (Hj & Hk & He).
    unfold run_len in H2, Hle, Hlt.
    exists (Some (s, Netip.zero_run_end ip 8 s)). split; [apply print6_some; lia|].
    split; [split; [lia|intros k Hk'; rewrite nth_groups by lia; apply Hk; lia]|].
    split; [lia|]. split; [|split].
    + intros s' e' Hr. pose proof (zero_run_groups _ _ _ Hr) as Hl. destruct Hr as [Hse _].
      unfold run_len in Hl. destruct (Nat.eq_dec s' 8) as [->|]; [lia|]. specialize (Hle s'). lia.
    + intros s' e' Hr Hs'. pose proof (zero_run_groups _ _ _ Hr) as Hl.
      unfold run_len in Hl. specialize (Hlt s' Hs'). lia.
    + destruct (Nat.eq_dec (Netip.zero_run_end ip 8 s) 8) as [E|E]; [now left|right].
      destruct He as [He|He]; [lia|]. rewrite nth_groups by lia. exact He.
Qed.

(** C40: [IP.String] of a 16-byte address that is not IPv4-mapped is
    the text RFC 5952 prescribes: the eight groups in lowercase hex
    without leading zeros, separated by [":"], the first of the longest
    runs of two or more zero groups replaced by ["::"], and no ["::"]
    when there is no such run. *)
Theorem IP_String_v6 (ip : list Z) :
  length ip = 16%nat -> Netip.Is4In6 ip = false ->
  exists run, Net.IP_String ip = text6 (groups ip) run /\ run_ok (groups ip) run.
Proof.
  intros Hl H4. unfold Net.IP_String, Net.To4. rewrite Hl. cbn [Nat.eqb negb orb andb].
  change (Net.isZeros (firstn 10 ip) && (nth 10 ip 0 =? 255) && (nth 11 ip 0 =? 255))
    with (Netip.Is4In6 ip).
  rewrite H4. unfold Netip.string16. rewrite H4. apply appendTo6_spec.
Qed.

Lemma IP_String_v6_witness :
  exists run,
    Net.IP_String [32; 1; 13; 184; 0; 0; 0; 0; 0; 1; 0; 0; 0; 0; 0; 1] =
      text6 (groups [32; 1; 13; 184; 0; 0; 0; 0; 0; 1; 0; 0; 0; 0; 0; 1]) run /\
    run_ok (groups [32; 1; 13; 184; 0; 0; 0; 0; 0; 1; 0; 0; 0; 0; 0; 1]) run.
Proof. apply IP_String_v6; reflexivity. Defined.
