(* ===== verification/Resolve.v ===== *)
(** * [net.ResolveTCPAddr(local.Network(), local.String())] (src/main.go:119-125)

    [Dial] turns the local address of the new connection into text with
    [local.String()] ([TCPAddr.String]: [JoinHostPort] of the IP text,
    with its zone, and [itoa.Itoa] of the port) and hands the text back
    to [net.ResolveTCPAddr], whose [IP] it then prints.  This file holds
    that path of package [net] ([Module Resolver]: [SplitHostPort],
    [parsePort], [LookupPort], [lookupIPAddr], [internetAddrList],
    [filterAddrList], [forResolve], [ResolveTCPAddr], [TCPAddr.String],
    [JoinHostPort], [itoa.Uitoa]) and of package [net/netip] ([Module
    Parse]: [ParseAddr], [parseIPv4Fields], [parseIPv6]) over Go strings
    as lists of byte values.  Names that are not IP literals go to the
    system resolver and port names to the services database: both are
    parameters ([lookup_host], [lookup_port]), never reached by the text
    of a socket address.

    The theorems show that the resolution reads back exactly what
    [TCPAddr.String] writes (the IP in its 16-byte form, the port, the
    zone), so that on Go's [net] package the hook stores the canonical
    text of the local IP and its error branch (121-123) is never taken. *)

From Stdlib Require Import String Ascii List ZArith Lia Bool.
From S2P Require Import Prelude Utf8 Dialer Strconv Ip.
Import ListNotations.
Local Open Scope Z_scope.

(** ** Go strings as lists of bytes *)

(** A byte list back to a Rocq string. *)
Definition zstr (l : list Z) : string :=
  string_of_list_ascii (map (fun z => ascii_of_N (Z.to_N z)) l).

Definition is_nil {A} (l : list A) : bool := match l with [] => true | _ => false end.

(** [b[k] = v] on a slice [k] is inside of. *)
Definition upd (l : list Z) (k : nat) (v : Z) : list Z := firstn k l ++ v :: skipn (S k) l.

(** [bytealg.IndexByteString(s, c)]: [None] is [-1]. *)
Fixpoint index_byte (c : Z) (l : list Z) : option nat :=
  match l with
  | [] => None
  | x :: l => if x =? c then Some 0%nat else option_map S (index_byte c l)
  end.

(** [bytealg.LastIndexByteString(s, c)], which scans from the end. *)
Definition last_index_byte (c : Z) (l : list Z) : option nat :=
  match index_byte c (rev l) with
  | Some k => Some (length l - 1 - k)%nat
  | None => None
  end.

Definition is_dec_byte (c : Z) : bool := (48 <=? c) && (c <=? 57).

(** The error values of both packages, read only through their text. *)
Definition perr {A} (msg : string) : result A := Err (NetError msg).

Module Parse.

(** [netip.Addr]: an IPv4 address, or an IPv6 address with its zone
    (the empty zone is [z6noz]). *)
Inductive Addr :=
| Addr4 (b : list Z)
| Addr6 (b : list Z) (zone : list Z).

(** [ip.AsSlice()] and [ip.Zone()] *)
Definition AsSlice (a : Addr) : list Z := match a with Addr4 b => b | Addr6 b _ => b end.
Definition Zone (a : Addr) : list Z := match a with Addr4 _ => [] | Addr6 _ z => z end.

(** The loop of [parseIPv4Fields(in, off, end, fields)] over
    [s = in[off:end]]: [i] is the index of the byte, [prev] is [s[i-1]]. *)
Fixpoint v4_loop (i : nat) (prev : Z) (s : list Z) (val pos digLen : Z) (fields : list Z)
    : result (list Z) :=
  match s with
  | [] => if pos <? 3 then perr "IPv4 address too short" else Ok (upd fields 3 val)
  | c :: s' =>
      if is_dec_byte c then
        if (digLen =? 1) && (val =? 0) then perr "IPv4 field has octet with leading zero"
        else
          let val := val * 10 + (c - 48) in
          if 255 <? val then perr "IPv4 field has value >255"
          else v4_loop (S i) c s' val pos (digLen + 1) fields
      else if c =? 46 then
        if (i =? 0)%nat || is_nil s' || (prev =? 46)
        then perr "IPv4 field must have at least one digit"
        else if pos =? 3 then perr "IPv4 address too long"
        else v4_loop (S i) c s' 0 (pos + 1) 0 (upd fields (Z.to_nat pos) val)
      else perr "unexpected character"
  end.

(** [func parseIPv4Fields(in string, off, end int, fields []uint8) error]:
    the four fields it writes, or its error. *)
Definition parseIPv4Fields (s : list Z) : result (list Z) := v4_loop 0 0 s 0 0 0 [0; 0; 0; 0].

(** [func parseIPv4(s string) (ip Addr, err error)] *)
Definition parseIPv4 (s : list Z) : result Addr :=
  match parseIPv4Fields s with
  | Ok f => Ok (Addr4 f)
  | Err e => Err e
  end.

(** A hexadecimal digit of [parseIPv6]. *)
Definition hex_val (c : Z) : option Z :=
  if (48 <=? c) && (c <=? 57) then Some (c - 48)
  else if (97 <=? c) && (c <=? 102) then Some (c - 97 + 10)
  else if (65 <=? c) && (c <=? 70) then Some (c - 65 + 10)
  else None.

(** The inner loop of [parseIPv6]: [off] and the [uint32] [acc].  The
    shift cannot wrap: [acc] is at most [0xffff] when it is shifted. *)
Fixpoint hex_loop (s : list Z) (off : nat) (acc : Z) : result (nat * Z) :=
  match s with
  | [] => Ok (off, acc)
  | c :: s' =>
      match hex_val c with
      | None => Ok (off, acc)
      | Some d =>
          let acc := Z.shiftl acc 4 + d in
          if (3 <? off)%nat then perr "each group must have 4 or less digits"
          else if 65535 <? acc then perr "IPv6 field has value >=2^16"
          else hex_loop s' (S off) acc
      end
  end.

(** The outer loop of [parseIPv6], [for i < 16]: the state is [i], the
    [ellipsis] position ([-1] for none), the sixteen bytes [ip] and the
    rest [s] of the text; [Ok] is a [break] or the end of the loop.  Each
    iteration adds at least 2 to [i], so 8 iterations are enough
    ([loop6_fuel]). *)
Fixpoint loop6 (fuel : nat) (i : nat) (ell : Z) (ip s : list Z)
    : result (nat * Z * list Z * list Z) :=
  match fuel with
  | O => Ok (i, ell, ip, s)
  | S fuel =>
      if (i <? 16)%nat then
        match hex_loop s 0 0 with
        | Err e => Err e
        | Ok (off, acc) =>
            if (off =? 0)%nat
            then perr "each colon-separated field must have at least one digit"
            else if (off <? length s)%nat && (nth off s 0 =? 46) then
              if (ell <? 0) && negb (i =? 12)%nat
              then perr "embedded IPv4 address must replace the final 2 fields of the address"
              else if (16 <? i + 4)%nat
              then perr "too many hex fields to fit an embedded IPv4 at the end of the address"
              else match parseIPv4Fields s with
                   | Err e => Err e
                   | Ok f => Ok ((i + 4)%nat, ell, firstn i ip ++ f ++ skipn (i + 4) ip, [])
                   end
            else
              let ip := upd (upd ip i (Z.land (Z.shiftr acc 8) 255)) (S i) (Z.land acc 255) in
              let i := (i + 2)%nat in
              match skipn off s with
              | [] => Ok (i, ell, ip, [])
              | c :: s1 =>
                  if negb (c =? 58) then perr "unexpected character, want colon"
                  else match s1 with
                       | [] => perr "colon must be followed by more characters"
                       | c1 :: s2 =>
                           if c1 =? 58 then
                             if 0 <=? ell then perr "multiple :: in address"
                             else if is_nil s2 then Ok (i, Z.of_nat i, ip, [])
                             else loop6 fuel i (Z.of_nat i) ip s2
                           else loop6 fuel i ell ip s1
                       end
              end
        end
      else Ok (i, ell, ip, s)
  end.

(** [func parseIPv6(in string) (Addr, error)] after the zone is split
    off: a leading ["::"] is read before the loop, and after it the
    groups behind the ellipsis are moved to the end and the gap cleared
    (the [for j] copy loop and [clear]). *)
Definition parse6_addr (s zone : list Z) : result Addr :=
  let ip0 := repeat 0 16 in
  let '(ell, s, early) :=
    match s with
    | a :: b :: s' => if (a =? 58) && (b =? 58) then (0, s', is_nil s') else (-1, s, false)
    | _ => (-1, s, false)
    end in
  if early then Ok (Addr6 ip0 zone) else
  match loop6 8 0 ell ip0 s with
  | Err e => Err e
  | Ok (i, ell, ip, s) =>
      if negb (is_nil s) then perr "trailing garbage after address"
      else if (i <? 16)%nat then
        if ell <? 0 then perr "address string too short"
        else
          let e := Z.to_nat ell in
          Ok (Addr6 (firstn e ip ++ repeat 0 (16 - i) ++ firstn (i - e) (skipn e ip)) zone)
      else if 0 <=? ell then perr "the :: must expand to at least one field of zeros"
      else Ok (Addr6 ip zone)
  end.

(** [func parseIPv6(in string) (Addr, error)]: the zone is split off
    first, at the first ['%']. *)
Definition parseIPv6 (inp : list Z) : result Addr :=
  let '(s, zone) :=
    match index_byte 37 inp with
    | Some k => (firstn k inp, Some (skipn (S k) inp))
    | None => (inp, None)
    end in
  match zone with
  | Some z => if is_nil z then perr "zone must be a non-empty string" else parse6_addr s z
  | None => parse6_addr s []
  end.

(** The first of ['.'], [':'] and ['%'] in the text. *)
Fixpoint addr_kind (s : list Z) : option Z :=
  match s with
  | [] => None
  | c :: s => if (c =? 46) || (c =? 58) || (c =? 37) then Some c else addr_kind s
  end.

(** [func ParseAddr(s string) (Addr, error)] *)
Definition ParseAddr (s : list Z) : result Addr :=
  match addr_kind s with
  | Some c =>
      if c =? 46 then parseIPv4 s
      else if c =? 58 then parseIPv6 s
      else perr "missing IPv6 address"
  | None => perr "unable to parse IP"
  end.

End Parse.

Module Resolver.

(** [net.IPAddr]: an IP and its zone. *)
Record IPAddr := mkIPAddr { ipaddr_ip : list Z; ipaddr_zone : string }.

(** [v4InV6Prefix] and [func IPv4(a, b, c, d byte) IP] *)
Definition v4InV6Prefix : list Z := [0; 0; 0; 0; 0; 0; 0; 0; 0; 0; 255; 255].
Definition IPv4 (a b c d : Z) : list Z := v4InV6Prefix ++ [a; b; c; d].

Definition IPv6unspecified : list Z := repeat 0 16.
Definition IPv4zero : list Z := IPv4 0 0 0 0.

(** [func (ip IP) To16() IP]: [[]] is [nil]. *)
Definition To16 (ip : list Z) : list Z :=
  if (length ip =? 4)%nat then v4InV6Prefix ++ ip
  else if (length ip =? 16)%nat then ip
  else [].

Definition bytes_eqb (a b : list Z) : bool :=
  ((length a =? length b)%nat && forallb (fun p => fst p =? snd p) (combine a b))%bool.

(** [func (ip IP) Equal(x IP) bool] *)
Definition Equal (ip x : list Z) : bool :=
  if (length ip =? length x)%nat then bytes_eqb ip x
  else if (length ip =? 4)%nat && (length x =? 16)%nat
  then bytes_eqb (firstn 12 x) v4InV6Prefix && bytes_eqb ip (skipn 12 x)
  else if (length ip =? 16)%nat && (length x =? 4)%nat
  then bytes_eqb (firstn 12 ip) v4InV6Prefix && bytes_eqb (skipn 12 ip) x
  else false.

(** [func (e *AddrError) Error() string] *)
Definition addr_error {A} (why : string) (addr : list Z) : result A :=
  perr (if is_nil addr then why else "address " ++ zstr addr ++ ": " ++ why)%string.

(** [func SplitHostPort(hostport string) (host, port string, err error)] *)
Definition SplitHostPort (hp : list Z) : result (list Z * list Z) :=
  match last_index_byte 58 hp with
  | None => addr_error "missing port in address" hp
  | Some i =>
      let hostjk :=
        if nth 0 hp 0 =? 91 then
          match index_byte 93 hp with
          | None => addr_error "missing ']' in address" hp
          | Some e =>
              if (S e =? length hp)%nat then addr_error "missing port in address" hp
              else if (S e =? i)%nat then Ok (firstn (e - 1) (skipn 1 hp), (1%nat, S e))
              else if nth (S e) hp 0 =? 58 then addr_error "too many colons in address" hp
              else addr_error "missing port in address" hp
          end
        else
          let host := firstn i hp in
          match index_byte 58 host with
          | Some _ => addr_error "too many colons in address" hp
          | None => Ok (host, (0%nat, 0%nat))
          end in
      match hostjk with
      | Err e => Err e
      | Ok (host, (j, k)) =>
          if negb (is_nil (filter (Z.eqb 91) (skipn j hp)))
          then addr_error "unexpected '[' in address" hp
          else if negb (is_nil (filter (Z.eqb 93) (skipn k hp)))
          then addr_error "unexpected ']' in address" hp
          else Ok (host, skipn (S i) hp)
      end
  end.

(** The loop of [parsePort] over the decimal digits, on the [uint32]
    [n] with its wrap-around: the port, and [needsLookup]. *)
Definition cutoff : Z := 2 ^ 30.
Definition max32 : Z := 2 ^ 32 - 1.

Fixpoint port_loop (s : list Z) (n : Z) : Z * bool :=
  match s with
  | [] => (n, false)
  | d :: s =>
      if negb (is_dec_byte d) then (0, true)
      else if cutoff <=? n then (cutoff, false)
      else
        let n := (n * 10) mod 2 ^ 32 in
        let nn := (n + (d - 48)) mod 2 ^ 32 in
        if (nn <? n) || (max32 <? nn) then (cutoff, false)
        else port_loop s nn
  end.

(** [func parsePort(service string) (port int, needsLookup bool)]: the
    loop ranges over runes, but it stops at the first byte that is not a
    digit, and every byte of a multi-byte rune is one. *)
Definition parsePort (service : list Z) : Z * bool :=
  match service with
  | [] => (0, false)
  | c :: rest =>
      let '(neg, s) := if c =? 43 then (false, rest)
                       else if c =? 45 then (true, rest) else (false, service) in
      match port_loop s 0 with
      | (_, true) => (0, true)
      | (n, false) =>
          let port := if negb neg && (cutoff <=? n) then cutoff - 1
                      else if neg && (cutoff <? n) then cutoff else n in
          ((if neg then - port else port), false)
      end
  end.

Section Lookups.
(** The system resolver, for a host that is not an IP literal, and the
    services database, for a port that is not a number. *)
Variable lookup_host : list Z -> result (list IPAddr).
Variable lookup_port : string -> list Z -> result Z.

(** [func (r *Resolver) LookupPort(ctx, network, service string) (port int, err error)] *)
Definition LookupPort (network : string) (service : list Z) : result Z :=
  let '(port, needsLookup) := parsePort service in
  let r :=
    if needsLookup then
      if List.existsb (String.eqb network) ["tcp"; "tcp4"; "tcp6"; "udp"; "udp4"; "udp6"; "ip"]%string
      then lookup_port network service
      else if (network =? "")%string then lookup_port "ip" service
      else addr_error "unknown network" (zbytes network)
    else Ok port in
  match r with
  | Err e => Err e
  | Ok port => if (port <? 0) || (65535 <? port) then addr_error "invalid port" service else Ok port
  end.

(** [func (r *Resolver) lookupIPAddr(ctx, network, host string) ([]IPAddr, error)]:
    an IP literal is its own answer, in the 16-byte form. *)
Definition lookupIPAddr (host : list Z) : result (list IPAddr) :=
  if is_nil host then perr "lookup : no such host" else
  match Parse.ParseAddr host with
  | Ok a => Ok [mkIPAddr (To16 (Parse.AsSlice a)) (zstr (Parse.Zone a))]
  | Err _ => lookup_host host
  end.

(** [ipv4only] and [ipv6only] *)
Definition To4_some (ip : list Z) : bool := match Net.To4 ip with Some _ => true | None => false end.
Definition ipv4only (a : IPAddr) : bool := To4_some (ipaddr_ip a).
Definition ipv6only (a : IPAddr) : bool := (length (ipaddr_ip a) =? 16)%nat && negb (To4_some (ipaddr_ip a)).

(** [func filterAddrList(filter, ips, inetaddr, originalAddr)] with the
    [inetaddr] of a TCP network. *)
Definition filterAddrList (flt : option (IPAddr -> bool)) (ips : list IPAddr) (port : Z)
    (host : list Z) : result (list (TCPAddr (list Z))) :=
  let kept := match flt with Some f => filter f ips | None => ips end in
  match kept with
  | [] => addr_error "no suitable address found" host
  | _ => Ok (map (fun ip => mkTCPAddr (ipaddr_ip ip) port (ipaddr_zone ip)) kept)
  end.

(** [func (r *Resolver) internetAddrList(ctx, net, addr string) (addrList, error)]
    for the TCP networks [ResolveTCPAddr] passes. *)
Definition internetAddrList (net : string) (addr : list Z) : result (list (TCPAddr (list Z))) :=
  let hp :=
    if is_nil addr then Ok ([], 0) else
    match SplitHostPort addr with
    | Err e => Err e
    | Ok (host, port) =>
        match LookupPort net port with
        | Err e => Err e
        | Ok portnum => Ok (host, portnum)
        end
    end in
  match hp with
  | Err e => Err e
  | Ok (host, portnum) =>
      if is_nil host then Ok [mkTCPAddr [] portnum ""%string] else
      match lookupIPAddr host with
      | Err e => Err e
      | Ok ips =>
          let ips := match ips with
                     | [ip] => if Equal (ipaddr_ip ip) IPv6unspecified
                               then [ip; mkIPAddr IPv4zero ""%string] else ips
                     | _ => ips
                     end in
          let last := zbytes net in
          let flt := if (String.eqb net "")%string then None
                     else if List.last last 0 =? 52 then Some ipv4only
                     else if List.last last 0 =? 54 then Some ipv6only
                     else None in
          filterAddrList flt ips portnum host
      end
  end.

(** [isIPv4] of a [*TCPAddr], and [func (addrs addrList) first(strategy)]. *)
Definition isIPv4 (a : TCPAddr (list Z)) : bool := To4_some (tcp_ip a).

Definition first (strategy : TCPAddr (list Z) -> bool) (addrs : list (TCPAddr (list Z)))
    : TCPAddr (list Z) :=
  match find strategy addrs with
  | Some a => a
  | None => nth 0 addrs (mkTCPAddr [] 0 ""%string)
  end.

(** [func (addrs addrList) forResolve(network, addr string) Addr]: an
    address with ['['] asks for an IPv6 answer. *)
Definition forResolve (network : string) (addr : list Z) (addrs : list (TCPAddr (list Z)))
    : TCPAddr (list Z) :=
  let want6 := (String.eqb network "tcp" && negb (is_nil (filter (Z.eqb 91) addr)))%bool in
  if want6 then first (fun a => negb (isIPv4 a)) addrs else first isIPv4 addrs.

(** [func ResolveTCPAddr(network, address string)], which returns a [*TCPAddr] or an error *)
Definition ResolveTCPAddr (network address : string) : result (TCPAddr (list Z)) :=
  let net :=
    if List.existsb (String.eqb network) ["tcp"; "tcp4"; "tcp6"]%string then Some network
    else if (network =? "")%string then Some "tcp"%string else None in
  match net with
  | None => perr ("unknown network " ++ network)%string
  | Some net =>
      match internetAddrList net (zbytes address) with
      | Err e => Err e
      | Ok addrs => Ok (forResolve net (zbytes address) addrs)
      end
  end.
End Lookups.

(** [func Uitoa(val uint) string] of [internal/itoa]: the digits are
    written from the end of a 20-byte buffer. *)
Fixpoint uitoa_loop (fuel : nat) (val : Z) (buf : string) : string :=
  match fuel with
  | O => buf
  | S fuel =>
      if 10 <=? val then
        let q := val / 10 in
        uitoa_loop fuel q (String (ascii_of_N (Z.to_N (48 + val - q * 10))) buf)
      else String (ascii_of_N (Z.to_N (48 + val))) buf
  end.

Definition Uitoa (val : Z) : string := if val =? 0 then "0"%string else uitoa_loop 20 val "".

(** [func Itoa(val int) string] of [internal/itoa] *)
Definition Itoa (val : Z) : string := if val <? 0 then ("-" ++ Uitoa (- val))%string else Uitoa val.

(** [func JoinHostPort(host, port string) string] *)
Definition JoinHostPort (host port : string) : string :=
  if contains host ":" then ("[" ++ host ++ "]:" ++ port)%string else (host ++ ":" ++ port)%string.

(** [func ipEmptyString(ip IP) string] *)
Definition ipEmptyString (ip : list Z) : string :=
  if (length ip =? 0)%nat then ""%string else Net.IP_String ip.

(** [func (a *TCPAddr) String() string] *)
Definition TCPAddr_String (a : TCPAddr (list Z)) : string :=
  let ip := ipEmptyString (tcp_ip a) in
  if negb (String.eqb (tcp_zone a) "") then JoinHostPort (ip ++ "%" ++ tcp_zone a) (Itoa (tcp_port a))
  else JoinHostPort ip (Itoa (tcp_port a)).

End Resolver.

(** ** Reading back the text of a group *)

(** The byte of the hexadecimal digit [d] in [netip]'s [digits]. *)
Definition hexbyte (d : Z) : Z := if d <? 10 then 48 + d else 87 + d.

(** Text made of hexadecimal digits and colons. *)
Definition hexish (c : Z) : bool := (c =? 58) || match Parse.hex_val c with Some _ => true | None => false end.

Lemma zbytes_hexdigit d : 0 <= d < 16 -> zbytes (at1 Netip.digits d) = [hexbyte d].
Proof.
  intros Hd.
  assert (H : forallb (fun k => let d := Z.of_nat k in
             if list_eq_dec Z.eq_dec (zbytes (at1 Netip.digits d)) [hexbyte d] then true else false)
             (seq 0 16) = true) by (vm_compute; reflexivity).
  rewrite forallb_forall in H. specialize (H (Z.to_nat d) ltac:(apply in_seq; lia)).
  rewrite Z2Nat.id in H by lia. cbv zeta in H.
  destruct (list_eq_dec Z.eq_dec _ _); [assumption|discriminate].
Qed.

Lemma hex_val_hexbyte d : 0 <= d < 16 -> Parse.hex_val (hexbyte d) = Some d.
Proof.
  intros Hd. unfold Parse.hex_val, hexbyte.
  destruct (Z.ltb_spec d 10); cbn [andb]; go_zbool; cbn [andb]; f_equal; lia.
Qed.

Lemma hexbyte_not_colon d : 0 <= d < 16 -> hexbyte d <> 58.
Proof. unfold hexbyte. go_zbool; lia. Qed.

(** The nibbles of a group: [x >> k & 15]. *)
Lemma nibble x k : 0 <= k -> Z.land (Z.shiftr x k) 15 = (x / 2 ^ k) mod 16.
Proof.
  intros Hk. rewrite Z.shiftr_div_pow2 by exact Hk.
  change 15 with (Z.ones 4). rewrite Z.land_ones by lia. reflexivity.
Qed.

Lemma shiftl4 a : Z.shiftl a 4 = a * 16.
Proof. rewrite Z.shiftl_mul_pow2 by lia. reflexivity. Qed.

#[export] Hint Rewrite nibble using lia : ip_text.
#[export] Hint Rewrite shiftl4 : ip_text.

Lemma hex_loop_digit d s off acc :
  0 <= d < 16 -> (off <= 3)%nat -> 0 <= acc -> acc * 16 + d <= 65535 ->
  Parse.hex_loop (hexbyte d :: s) off acc = Parse.hex_loop s (S off) (acc * 16 + d).
Proof.
  intros Hd Ho Ha Hm. cbn [Parse.hex_loop]. rewrite hex_val_hexbyte by exact Hd.
  rewrite shiftl4. destruct (Nat.ltb_spec 3 off); [lia|]. go_zbool; [lia|reflexivity].
Qed.

(** The loop stops at a byte that is not a hexadecimal digit. *)
Definition stops (s : list Z) : Prop :=
  match s with [] => True | c :: _ => Parse.hex_val c = None end.

Lemma hex_loop_stop s off acc : stops s -> Parse.hex_loop s off acc = Ok (off, acc).
Proof. destruct s as [|c s]; cbn [stops Parse.hex_loop]; [reflexivity|now intros ->]. Qed.

Lemma stops_colon r : stops (58 :: r).
Proof. reflexivity. Qed.

Lemma stops_percent r : stops (37 :: r).
Proof. reflexivity. Qed.

Lemma stops_nil : stops [].
Proof. exact I. Qed.

#[export] Hint Resolve stops_colon stops_percent stops_nil : gohc.

(** The bytes of the text of a group: one to four hexadecimal digits,
    the first one not 0 unless the group is. *)
Lemma zbytes_hex g :
  0 <= g < 65536 ->
  zbytes (hex g) =
  (if 4096 <=? g then [hexbyte (g / 4096)] else []) ++
  (if 256 <=? g then [hexbyte ((g / 256) mod 16)] else []) ++
  (if 16 <=? g then [hexbyte ((g / 16) mod 16)] else []) ++ [hexbyte (g mod 16)].
Proof.
  intros Hg. unfold hex, Netip.appendHex.
  assert (E : Z.shiftr g 12 = g / 4096) by (rewrite Z.shiftr_div_pow2 by lia; reflexivity).
  assert (Hl : Z.land g 15 = g mod 16)
    by (change 15 with (Z.ones 4); rewrite Z.land_ones by lia; reflexivity).
  rewrite E, Hl. autorewrite with ip_text. change (2 ^ 8) with 256. change (2 ^ 4) with 16.
  destruct (4096 <=? g) eqn:H1, (256 <=? g) eqn:H2, (16 <=? g) eqn:H3;
    rewrite ?str_app_nil_l, ?zbytes_app, ?zbytes_hexdigit;
    try reflexivity; try (Z.div_mod_to_equations; lia).
Qed.

Lemma hex_loop_hex g rest :
  0 <= g < 65536 -> stops rest ->
  Parse.hex_loop (zbytes (hex g) ++ rest) 0 0 = Ok (length (zbytes (hex g)), g).
Proof.
  intros Hg Hr. rewrite zbytes_hex by exact Hg.
  destruct (Z.leb_spec 4096 g), (Z.leb_spec 256 g), (Z.leb_spec 16 g); try lia; cbn [app length];
    repeat (rewrite hex_loop_digit by (try lia; Z.div_mod_to_equations; nia));
    rewrite hex_loop_stop by exact Hr; f_equal; f_equal; Z.div_mod_to_equations; lia.
Qed.

(** ** The loop of [parseIPv6] on the text of the groups *)

(** [ip[i] = byte(acc >> 8); ip[i+1] = byte(acc)] *)
Definition put (ip : list Z) (i : nat) (g : Z) : list Z :=
  upd (upd ip i (Z.land (Z.shiftr g 8) 255)) (S i) (Z.land g 255).

Lemma zbytes_hex_nonempty g : 0 <= g < 65536 -> zbytes (hex g) <> [].
Proof.
  intros Hg. rewrite zbytes_hex by exact Hg.
  destruct (4096 <=? g), (256 <=? g), (16 <=? g); discriminate.
Qed.

Lemma zbytes_hex_hexish g : 0 <= g < 65536 -> forallb hexish (zbytes (hex g)) = true.
Proof.
  intros Hg. rewrite zbytes_hex by exact Hg.
  assert (Hd : forall d, 0 <= d < 16 -> hexish (hexbyte d) = true)
    by (intros d Hd; unfold hexish; now rewrite hex_val_hexbyte, orb_true_r).
  destruct (4096 <=? g), (256 <=? g), (16 <=? g); cbn [app forallb];
    rewrite ?Hd by (Z.div_mod_to_equations; lia); reflexivity.
Qed.

Lemma nth_app_length (l r : list Z) c : nth (length l) (l ++ c :: r) 0 = c.
Proof. induction l; cbn; auto. Qed.

(** One group, then the end of the text or a colon. *)
Lemma loop6_group f i ell ip g T :
  (i < 16)%nat -> 0 <= g < 65536 -> match T with [] => True | c :: _ => c = 58 end ->
  Parse.loop6 (S f) i ell ip (zbytes (hex g) ++ T) =
  match T with
  | [] => Ok ((i + 2)%nat, ell, put ip i g, [])
  | _ :: s1 =>
      match s1 with
      | [] => perr "colon must be followed by more characters"
      | c1 :: s2 =>
          if c1 =? 58 then
            if 0 <=? ell then perr "multiple :: in address"
            else if is_nil s2 then Ok ((i + 2)%nat, Z.of_nat (i + 2), put ip i g, [])
            else Parse.loop6 f (i + 2) (Z.of_nat (i + 2)) (put ip i g) s2
          else Parse.loop6 f (i + 2) ell (put ip i g) s1
      end
  end.
Proof.
  intros Hi Hg HT. cbn [Parse.loop6].
  replace (i <? 16)%nat with true by (symmetry; apply Nat.ltb_lt; exact Hi).
  rewrite hex_loop_hex by (first [exact Hg | destruct T; [exact I|subst; reflexivity]]).

  pose proof (zbytes_hex_nonempty g Hg) as Hne.
  destruct (length (zbytes (hex g)) =? 0)%nat eqn:E0;
    [apply Nat.eqb_eq, length_zero_iff_nil in E0; contradiction|].
  rewrite length_app, skipn_app, skipn_all, Nat.sub_diag, skipn_O. cbn [app].
  destruct T as [|c T]; cbn [length].
  - rewrite Nat.add_0_r, Nat.ltb_irrefl. reflexivity.
  - subst c. rewrite nth_app_length.
    replace (length (zbytes (hex g)) <? length (zbytes (hex g)) + S (length T))%nat with true
      by (symmetry; apply Nat.ltb_lt; lia).
    reflexivity.
Qed.

Fixpoint puts (ip : list Z) (i : nat) (gs : list Z) : list Z :=
  match gs with
  | [] => ip
  | g :: gs => puts (put ip i g) (i + 2) gs
  end.

Definition groups_ok (gs : list Z) : Prop := Forall (fun g => 0 <= g < 65536) gs.

Lemma zbytes_hex_head g : 0 <= g < 65536 -> exists c r, zbytes (hex g) = c :: r /\ c <> 58.
Proof.
  intros Hg. rewrite zbytes_hex by exact Hg.
  destruct (4096 <=? g), (256 <=? g), (16 <=? g); cbn [app];
    (eexists; eexists; split; [reflexivity|apply hexbyte_not_colon; Z.div_mod_to_equations; lia]).
Qed.

Lemma concat_cons (x y : string) ys :
  String.concat ":" (x :: y :: ys) = (x ++ ":" ++ String.concat ":" (y :: ys))%string.
Proof. reflexivity. Qed.

(** The text of a non-empty list of groups starts with a digit. *)
Lemma zbytes_groups_head gs :
  gs <> [] -> groups_ok gs ->
  exists c r, zbytes (String.concat ":" (map hex gs)) = c :: r /\ c <> 58.
Proof.
  intros Hne Hok. destruct gs as [|g gs]; [congruence|]. inversion Hok as [|? ? Hg _]; subst.
  destruct (zbytes_hex_head g Hg) as (c & r & Hc & Hc58).
  destruct gs as [|g' gs]; cbn [map].
  - exists c, r. cbn [String.concat]. auto.
  - rewrite concat_cons, zbytes_app, Hc. cbn [app]. eauto.
Qed.

(** The groups before the last one, each followed by a colon. *)
Lemma loop6_groups gs g f i ell ip T :
  (i + 2 * length gs < 16)%nat -> groups_ok (gs ++ [g]) ->
  Parse.loop6 (length gs + S f) i ell ip (zbytes (String.concat ":" (map hex (gs ++ [g]))) ++ T) =
  Parse.loop6 (S f) (i + 2 * length gs) ell (puts ip i gs) (zbytes (hex g) ++ T).
Proof.
  revert i ip; induction gs as [|x gs IH]; intros i ip Hi Hok.
  - cbn. now rewrite Nat.add_0_r.
  - inversion Hok as [|? ? Hx Hok']; subst. cbn [length app map puts].
    destruct (zbytes_groups_head (gs ++ [g]) ltac:(now destruct gs) Hok') as (c & r & Hc & Hc58).
    destruct (map hex (gs ++ [g])) as [|y ys] eqn:Hm; [now destruct gs|].
    rewrite <- Hm in *. rewrite Hm, concat_cons, <- Hm, !zbytes_app, <- !app_assoc, Hc.
    cbn [zbytes bytes map byte_val app]. change (Z.of_N (N_of_ascii ":")) with 58.
    rewrite Nat.add_succ_l, loop6_group by (try exact Hx; try reflexivity; cbn [length] in Hi; lia).
    destruct (Z.eqb_spec c 58); [contradiction|]. change (c :: r ++ T) with ((c :: r) ++ T). rewrite <- Hc.
    replace (i + 2 * S (length gs))%nat with (i + 2 + 2 * length gs)%nat by lia.
    apply IH; [cbn [length] in Hi; lia|exact Hok'].
Qed.

(** The text of the groups [gs]. *)
Definition gtext (gs : list Z) : list Z := zbytes (String.concat ":" (map hex gs)).

Lemma puts_app ip i gs g : puts ip i (gs ++ [g]) = put (puts ip i gs) (i + 2 * length gs) g.
Proof.
  revert ip i; induction gs as [|x gs IH]; intros ip i; cbn [app puts length].
  - now rewrite Nat.add_0_r.
  - rewrite IH. f_equal. lia.
Qed.

Lemma groups_ok_app gs hs : groups_ok (gs ++ hs) <-> groups_ok gs /\ groups_ok hs.
Proof. apply Forall_app. Qed.

(** The last groups of the text, up to its end. *)
Lemma loop6_to_end hs f i ell ip :
  hs <> [] -> groups_ok hs -> (i + 2 * length hs <= 16)%nat -> (length hs <= f)%nat ->
  Parse.loop6 f i ell ip (gtext hs) = Ok ((i + 2 * length hs)%nat, ell, puts ip i hs, []).
Proof.
  intros Hne Hok Hi Hf. destruct (exists_last Hne) as (gs & g & ->).
  apply groups_ok_app in Hok as [Hgs Hg]. inversion Hg as [|? ? Hg' _]; subst.
  rewrite length_app in *. cbn [length] in *.
  replace f with (length gs + S (f - S (length gs)))%nat by lia.
  unfold gtext. rewrite <- (app_nil_r (zbytes _)), loop6_groups by (try lia; now apply groups_ok_app).
  rewrite loop6_group by (try exact Hg'; try exact I; lia).
  rewrite puts_app. replace (i + 2 * (length gs + 1))%nat with (i + 2 * length gs + 2)%nat by lia.
  reflexivity.
Qed.

(** The groups before ["::"]. *)
Lemma loop6_to_ellipsis hs f i ell ip r :
  hs <> [] -> groups_ok hs -> ell < 0 -> (i + 2 * length hs < 16)%nat -> (length hs <= f)%nat ->
  Parse.loop6 f i ell ip (gtext hs ++ 58 :: 58 :: r) =
  if is_nil r then Ok ((i + 2 * length hs)%nat, Z.of_nat (i + 2 * length hs), puts ip i hs, [])
  else Parse.loop6 (f - length hs) (i + 2 * length hs) (Z.of_nat (i + 2 * length hs))
         (puts ip i hs) r.
Proof.
  intros Hne Hok Hell Hi Hf. destruct (exists_last Hne) as (gs & g & ->).
  apply groups_ok_app in Hok as [Hgs Hg]. inversion Hg as [|? ? Hg' _]; subst.
  rewrite length_app in *. cbn [length] in *.
  replace f with (length gs + S (f - S (length gs)))%nat by lia.
  unfold gtext. rewrite loop6_groups by (try lia; now apply groups_ok_app).
  rewrite loop6_group by (try exact Hg'; try reflexivity; lia).
  rewrite Z.eqb_refl. destruct (Z.leb_spec 0 ell); [lia|].
  rewrite puts_app. replace (i + 2 * length gs + 2)%nat with (i + 2 * (length gs + 1))%nat by lia.
  replace (length gs + S (f - S (length gs)) - (length gs + 1))%nat with (f - S (length gs))%nat by lia.
  reflexivity.
Qed.

(** ** The bytes [parseIPv6] writes *)

Definition gbytes (g : Z) : list Z := [Z.land (Z.shiftr g 8) 255; Z.land g 255].

Lemma put_spec ip i g :
  (i + 2 <= length ip)%nat -> put ip i g = firstn i ip ++ gbytes g ++ skipn (i + 2) ip.
Proof.
  revert ip; induction i as [|i IH]; intros ip Hl.
  - destruct ip as [|a [|b ip]]; cbn in Hl; try lia. reflexivity.
  - destruct ip as [|a ip]; cbn in Hl; [lia|]. cbn [firstn skipn app].
    unfold put, upd in *. cbn [firstn skipn app]. rewrite <- IH by lia. reflexivity.
Qed.

Lemma length_put ip i g : (i + 2 <= length ip)%nat -> length (put ip i g) = length ip.
Proof.
  intros Hl. rewrite put_spec by exact Hl. rewrite !length_app, length_firstn, length_skipn.
  cbn [length gbytes]. lia.
Qed.

Lemma firstn_length_app (l1 l2 : list Z) : firstn (length l1) (l1 ++ l2) = l1.
Proof. induction l1 as [|x l1 IH]; cbn; [reflexivity|now rewrite IH]. Qed.

Lemma skipn_length_app (l1 l2 : list Z) k : skipn (length l1 + k) (l1 ++ l2) = skipn k l2.
Proof. induction l1 as [|x l1 IH]; cbn; auto. Qed.

Lemma puts_spec ip i gs :
  (i + 2 * length gs <= length ip)%nat ->
  puts ip i gs = firstn i ip ++ flat_map gbytes gs ++ skipn (i + 2 * length gs) ip.
Proof.
  revert ip i; induction gs as [|g gs IH]; intros ip i Hl; cbn [puts flat_map length] in *.
  - rewrite Nat.add_0_r, firstn_skipn. reflexivity.
  - rewrite IH by (rewrite length_put; lia). rewrite put_spec by lia.
    rewrite (app_assoc (firstn i ip) (gbytes g)).
    assert (Hf : length (firstn i ip ++ gbytes g) = (i + 2)%nat)
      by (rewrite length_app, length_firstn; cbn; lia).
    rewrite <- Hf at 1. rewrite firstn_length_app.
    replace (i + 2 + 2 * length gs)%nat with (length (firstn i ip ++ gbytes g) + 2 * length gs)%nat
      by lia.
    rewrite skipn_length_app, skipn_skipn, <- !app_assoc.
    replace (2 * length gs + (i + 2))%nat with (i + 2 * S (length gs))%nat by lia. reflexivity.
Qed.

Lemma gbytes_pair a b : 0 <= a < 256 -> 0 <= b < 256 -> gbytes (a * 256 + b) = [a; b].
Proof.
  intros Ha Hb. unfold gbytes. rewrite Z.shiftr_div_pow2 by lia.
  change 255 with (Z.ones 8). rewrite !Z.land_ones by lia.
  change (2 ^ 8) with 256. f_equal; [|f_equal]; Z.div_mod_to_equations; lia.
Qed.

Lemma skipn_nth (l : list Z) j : (j < length l)%nat -> skipn j l = nth j l 0 :: skipn (S j) l.
Proof.
  revert l; induction j as [|j IH]; intros [|x l] Hj; cbn in Hj |- *; try lia; [reflexivity|].
  apply IH. lia.
Qed.

Lemma gbytes_v6u16 ip k n :
  bytes_ok ip = true -> (2 * k + 2 * n <= length ip)%nat ->
  flat_map gbytes (map (Netip.v6u16 ip) (seq k n)) = firstn (2 * n) (skipn (2 * k) ip).
Proof.
  intros Hb. revert k; induction n as [|n IH]; intros k Hk; [reflexivity|].
  cbn [seq map flat_map]. rewrite IH by lia.
  rewrite (skipn_nth ip (2 * k)), (skipn_nth ip (S (2 * k))) by lia.
  replace (2 * S n)%nat with (S (S (2 * n))) by lia. cbn [firstn app].
  unfold Netip.v6u16, Netip.byte_of.
  rewrite lor_shiftl8, gbytes_pair; try (apply (bytes_ok_In ip Hb), nth_In; lia).
  replace (S (S (2 * k))) with (2 * S k)%nat by lia.
  replace (2 * k + 1)%nat with (S (2 * k)) by lia. reflexivity.
Qed.

(** The groups of a 16-byte address give back its bytes. *)
Lemma gbytes_groups ip :
  length ip = 16%nat -> bytes_ok ip = true -> flat_map gbytes (groups ip) = ip.
Proof.
  intros Hl Hb. unfold groups. rewrite gbytes_v6u16 by (first [exact Hb|lia]).
  change (2 * 8)%nat with 16%nat. rewrite skipn_O, <- Hl. apply firstn_all.
Qed.

Lemma gbytes_zeros k : flat_map gbytes (repeat 0 k) = repeat 0 (2 * k).
Proof.
  induction k as [|k IH]; [reflexivity|]. cbn [repeat flat_map]. rewrite IH.
  replace (2 * S k)%nat with (S (S (2 * k))) by lia. reflexivity.
Qed.

Lemma flat_map_app_Z (f : Z -> list Z) l1 l2 : flat_map f (l1 ++ l2) = flat_map f l1 ++ flat_map f l2.
Proof. apply flat_map_app. Qed.

(** A run of zero groups, as a list. *)
Lemma zero_run_split gs s e :
  zero_run gs s e -> length gs = 8%nat -> gs = firstn s gs ++ repeat 0 (e - s) ++ skipn e gs.
Proof.
  intros [Hse Hz] Hl.
  assert (Hmid : firstn (e - s) (skipn s gs) = repeat 0 (e - s)).
  { apply (nth_ext _ _ 0 0); rewrite ?repeat_length, ?length_firstn, ?length_skipn; [lia|].
    intros k Hk. rewrite nth_repeat, nth_firstn, nth_skipn.
    destruct (Nat.ltb_spec k (e - s)); [apply Hz; lia|lia]. }
  rewrite <- Hmid.
  replace (skipn e gs) with (skipn (e - s) (skipn s gs))
    by (rewrite skipn_skipn; f_equal; lia).
  now rewrite !firstn_skipn.
Qed.

Lemma length_gbytes gs : length (flat_map gbytes gs) = (2 * length gs)%nat.
Proof. induction gs as [|g gs IH]; cbn [flat_map]; [reflexivity|]. rewrite length_app, IH. cbn. lia. Qed.

Lemma skipn_repeat_Z k n : skipn k (repeat (0 : Z) n) = repeat 0 (n - k).
Proof.
  revert n; induction k as [|k IH]; intros [|n]; cbn; try reflexivity. apply IH.
Qed.

Lemma firstn_repeat_Z k n : (k <= n)%nat -> firstn k (repeat (0 : Z) n) = repeat 0 k.
Proof.
  revert n; induction k as [|k IH]; intros [|n] Hk; cbn; try reflexivity; [lia|].
  f_equal. apply IH. lia.
Qed.

(** The groups written from the start of the zero address. *)
Lemma puts_zeros gs :
  (2 * length gs <= 16)%nat ->
  puts (repeat 0 16) 0 gs = flat_map gbytes gs ++ repeat 0 (16 - 2 * length gs).
Proof.
  intros Hl. rewrite puts_spec by (rewrite repeat_length; lia).
  rewrite skipn_repeat_Z. reflexivity.
Qed.

(** The groups after the ellipsis, written behind those before it. *)
Lemma puts_after A gs k :
  (2 * length gs <= k)%nat ->
  puts (A ++ repeat 0 k) (length A) gs = A ++ flat_map gbytes gs ++ repeat 0 (k - 2 * length gs).
Proof.
  intros Hl. rewrite puts_spec by (rewrite length_app, repeat_length; lia).
  rewrite firstn_length_app, skipn_length_app, skipn_repeat_Z. reflexivity.
Qed.

Lemma puts_after_at A gs k i :
  length A = i -> (2 * length gs <= k)%nat ->
  puts (A ++ repeat 0 k) i gs = A ++ flat_map gbytes gs ++ repeat 0 (k - 2 * length gs).
Proof. intros <- Hk. apply puts_after, Hk. Qed.

(** The copy loop and [clear] of [parseIPv6]: the [b] bytes written after
    the [a] bytes before the ellipsis move to the end. *)
Lemma expand_spec A B k :
  (length A + length B + k = 16)%nat ->
  firstn (length A) (A ++ B ++ repeat 0 k) ++ repeat 0 (16 - (length A + length B)) ++
  firstn (length A + length B - length A) (skipn (length A) (A ++ B ++ repeat 0 k)) =
  A ++ repeat 0 k ++ B.
Proof.
  intros Hl. replace (length A + length B - length A)%nat with (length B) by lia.
  rewrite firstn_length_app.
  replace (skipn (length A) (A ++ B ++ repeat 0 k)) with (B ++ repeat 0 k)
    by (rewrite <- (Nat.add_0_r (length A)), skipn_length_app; reflexivity).
  rewrite firstn_length_app. replace (16 - (length A + length B))%nat with k by lia. reflexivity.
Qed.

(** The same, with the positions [parse6_addr] computes. *)
Lemma expand_at A B k a i :
  length A = a -> (a + length B)%nat = i -> (i + k = 16)%nat ->
  firstn a (A ++ B ++ repeat 0 k) ++ repeat 0 (16 - i) ++ firstn (i - a) (skipn a (A ++ B ++ repeat 0 k)) =
  A ++ repeat 0 k ++ B.
Proof. intros <- <- Hk. apply expand_spec. lia. Qed.

Lemma expand_at_end A k a i :
  length A = a -> a = i -> (i + k = 16)%nat ->
  firstn a (A ++ repeat 0 k) ++ repeat 0 (16 - i) ++ firstn (i - a) (skipn a (A ++ repeat 0 k)) =
  A ++ repeat 0 k.
Proof.
  intros HA Hi Hk. rewrite <- (app_nil_r (repeat 0 k)) at 3. rewrite <- (app_nil_l (repeat 0 k)).
  apply expand_at; cbn [length]; lia.
Qed.

Lemma gtext_hexish gs : groups_ok gs -> forallb hexish (gtext gs) = true.
Proof.
  unfold gtext. induction 1 as [|g gs Hg Hgs IH]; [reflexivity|].
  destruct gs as [|g' gs]; cbn [map].
  - cbn [String.concat]. apply zbytes_hex_hexish, Hg.
  - rewrite concat_cons, !zbytes_app, !forallb_app, zbytes_hex_hexish by exact Hg.
    cbn [map] in IH. rewrite IH. reflexivity.
Qed.

Lemma gtext_nil : gtext [] = [].
Proof. reflexivity. Qed.

Lemma gtext_nonempty gs : gs <> [] -> groups_ok gs -> gtext gs <> [].
Proof.
  intros Hne Hok. destruct (zbytes_groups_head gs Hne Hok) as (c & r & Hc & _).
  unfold gtext. rewrite Hc. discriminate.
Qed.

Lemma zbytes_text6_none gs : zbytes (text6 gs None) = gtext gs.
Proof. reflexivity. Qed.

Lemma zbytes_text6_some gs s e :
  zbytes (text6 gs (Some (s, e))) = gtext (firstn s gs) ++ 58 :: 58 :: gtext (skipn e gs).
Proof. unfold text6, gtext. rewrite !zbytes_app. reflexivity. Qed.

(** No leading ["::"]. *)
Lemma lead_plain l :
  (exists c r, l = c :: r /\ c <> 58) ->
  match l with
  | a :: b :: s' => if (a =? 58) && (b =? 58) then (0, s', is_nil s') else (-1, l, false)
  | _ => (-1, l, false)
  end = (-1, l, false).
Proof.
  intros (c & r & -> & Hc). destruct r as [|b r]; [reflexivity|].
  destruct (Z.eqb_spec c 58); [contradiction|reflexivity].
Qed.

Lemma groups_ok_groups ip : bytes_ok ip = true -> groups_ok (groups ip).
Proof.
  intros Hb. unfold groups_ok, groups. apply Forall_map, Forall_forall. intros k _.
  apply v6u16_range, Hb.
Qed.

Lemma length_groups ip : length (groups ip) = 8%nat.
Proof. unfold groups. rewrite length_map. apply length_seq. Qed.

(** The shape of the run [IP.String] replaces by ["::"]. *)
Definition run_shape (gs : list Z) (run : option (nat * nat)) : Prop :=
  match run with None => True | Some (s, e) => zero_run gs s e /\ (s + 2 <= e)%nat end.

Lemma run_ok_shape gs run : run_ok gs run -> run_shape gs run.
Proof. destruct run as [[s e]|]; cbn; [intros (Hz & H2 & _); split; [exact Hz|lia]|auto]. Qed.

(** [parseIPv6] reads back the RFC 5952 text of every 16-byte address,
    with whatever zone follows it. *)
Lemma parse6_addr_text6 ip run z :
  length ip = 16%nat -> bytes_ok ip = true -> run_shape (groups ip) run ->
  Parse.parse6_addr (zbytes (text6 (groups ip) run)) z = Ok (Parse.Addr6 ip z).
Proof.
  intros Hl Hb Hr.
  assert (HG : groups_ok (groups ip)) by (apply groups_ok_groups, Hb).
  assert (HL := length_groups ip).
  assert (Hip : flat_map gbytes (groups ip) = ip) by (apply gbytes_groups; assumption).
  assert (Hne : groups ip <> []) by (intros E; rewrite E in HL; discriminate).
  unfold Parse.parse6_addr.
  destruct run as [[s e]|].
  2:{ rewrite zbytes_text6_none, lead_plain by (apply zbytes_groups_head; assumption).
      rewrite loop6_to_end by (try assumption; lia). rewrite HL. cbn [is_nil negb Nat.ltb Nat.leb].
      rewrite puts_zeros, HL, app_nil_r, Hip by lia. reflexivity. }
  destruct Hr as [Hz Hse]. pose proof (proj1 Hz) as Hse8. rewrite zbytes_text6_some.
  pose proof (zero_run_split _ _ _ Hz HL) as Hsplit.
  set (pre := firstn s (groups ip)) in *. set (suf := skipn e (groups ip)) in *.
  assert (Hpre : length pre = s) by (subst pre; rewrite length_firstn; lia).
  assert (Hsuf : length suf = (8 - e)%nat) by (subst suf; rewrite length_skipn; lia).
  assert (Hok : groups_ok pre /\ groups_ok suf).
  { rewrite Hsplit in HG. apply groups_ok_app in HG as [Hp HG]. apply groups_ok_app in HG as [_ Hs]. auto. }
  destruct Hok as [Hokp Hoks].
  assert (Hval : flat_map gbytes pre ++ repeat 0 (2 * (e - s)) ++ flat_map gbytes suf = ip).
  { rewrite <- Hip, Hsplit. now rewrite !flat_map_app, gbytes_zeros. }
  destruct s as [|s'].
  - replace pre with (@nil Z) by (symmetry; apply length_zero_iff_nil, Hpre).
    rewrite gtext_nil. cbn [app Z.eqb Pos.eqb andb].
    destruct (Nat.eq_dec e 8) as [->|He].
    + replace suf with (@nil Z) by (symmetry; apply length_zero_iff_nil; lia).
      cbn [gtext is_nil]. rewrite <- Hval. replace pre with (@nil Z) by (symmetry; apply length_zero_iff_nil, Hpre).
      replace suf with (@nil Z) by (symmetry; apply length_zero_iff_nil; lia). reflexivity.
    + assert (Hsne : suf <> []) by (intros E; rewrite E in Hsuf; cbn [length] in Hsuf; lia).
      replace (is_nil (gtext suf)) with false
        by (destruct (gtext suf) eqn:E; [now apply gtext_nonempty in E|reflexivity]).
      rewrite loop6_to_end by (try assumption; lia). cbn [is_nil negb].
      replace (0 + 2 * length suf <? 16)%nat with true by (symmetry; apply Nat.ltb_lt; lia).
      cbn [Z.ltb Z.compare]. rewrite puts_zeros by lia.
      rewrite <- (app_nil_l (flat_map gbytes suf ++ _)).
      rewrite (expand_at [] (flat_map gbytes suf) (16 - 2 * length suf) (Z.to_nat 0) (0 + 2 * length suf))
        by (rewrite ?length_gbytes; cbn [length Z.to_nat]; lia).
      rewrite <- Hval. replace pre with (@nil Z) by (symmetry; apply length_zero_iff_nil, Hpre).
      rewrite Hsuf. cbn [flat_map app].
      replace (16 - 2 * (8 - e))%nat with (2 * (e - 0))%nat by lia. reflexivity.
  - assert (Hpne : pre <> []) by (intros E; rewrite E in Hpre; discriminate).
    rewrite lead_plain
      by (destruct (zbytes_groups_head pre Hpne Hokp) as (c & r & Hc & Hc58);
          unfold gtext; rewrite Hc; cbn [app]; eauto).
    rewrite loop6_to_ellipsis by (try assumption; lia).
    destruct (Nat.eq_dec e 8) as [->|He].
    + replace suf with (@nil Z) in * by (symmetry; apply length_zero_iff_nil; lia).
      rewrite gtext_nil. cbn [is_nil negb]. replace (0 + 2 * length pre <? 16)%nat with true
        by (symmetry; apply Nat.ltb_lt; lia).
      replace (Z.of_nat (0 + 2 * length pre) <? 0) with false by (symmetry; apply Z.ltb_ge; lia).
      rewrite Nat2Z.id, puts_zeros by lia.
      rewrite (expand_at_end (flat_map gbytes pre) (16 - 2 * length pre) (0 + 2 * length pre)
                 (0 + 2 * length pre)) by (rewrite ?length_gbytes; cbn [length Z.to_nat]; lia).
      rewrite <- Hval. cbn [flat_map]. rewrite app_nil_r.
      replace (16 - 2 * length pre)%nat with (2 * (8 - S s'))%nat by lia. reflexivity.
    + assert (Hsne : suf <> []) by (intros E; rewrite E in Hsuf; cbn [length] in Hsuf; lia).
      replace (is_nil (gtext suf)) with false
        by (destruct (gtext suf) eqn:E; [now apply gtext_nonempty in E|reflexivity]).
      rewrite puts_zeros by lia.
      rewrite loop6_to_end by (try assumption; lia).
      rewrite puts_after_at by (rewrite ?length_gbytes; lia).
      cbn [is_nil negb].
      replace (0 + 2 * length pre + 2 * length suf <? 16)%nat with true
        by (symmetry; apply Nat.ltb_lt; lia).
      replace (Z.of_nat (0 + 2 * length pre) <? 0) with false by (symmetry; apply Z.ltb_ge; lia).
      rewrite Nat2Z.id.
      rewrite (expand_at (flat_map gbytes pre) (flat_map gbytes suf)
                 (16 - 2 * length pre - 2 * length suf) (0 + 2 * length pre)
                 (0 + 2 * length pre + 2 * length suf)) by (rewrite ?length_gbytes; cbn [length Z.to_nat]; lia).
      rewrite <- Hval.
      replace (16 - 2 * length pre - 2 * length suf)%nat with (2 * (e - S s'))%nat by lia.
      reflexivity.
Qed.

(** ** The zone *)

(** ["%" + zone] after the address, when there is a zone. *)
Definition zone_part (z : list Z) : list Z := if is_nil z then [] else 37 :: z.

Lemma hexish_not_percent c : hexish c = true -> c <> 37.
Proof. intros H ->. discriminate H. Qed.

Lemma index_byte_hexish l r :
  forallb hexish l = true -> index_byte 37 (l ++ r) = option_map (Nat.add (length l)) (index_byte 37 r).
Proof.
  induction l as [|c l IH]; cbn [forallb app index_byte length]; intros Hl.
  - now destruct (index_byte 37 r).
  - apply andb_prop in Hl as [Hc Hl]. apply hexish_not_percent in Hc.
    destruct (Z.eqb_spec c 37); [contradiction|]. rewrite IH by exact Hl.
    now destruct (index_byte 37 r).
Qed.

(** [parseIPv6] splits the zone off a text of digits and colons. *)
Lemma parseIPv6_zone l z :
  forallb hexish l = true -> Parse.parseIPv6 (l ++ zone_part z) = Parse.parse6_addr l z.
Proof.
  intros Hl. unfold Parse.parseIPv6, zone_part.
  destruct z as [|c z]; cbn [is_nil].
  - rewrite index_byte_hexish by exact Hl. rewrite app_nil_r. reflexivity.
  - rewrite index_byte_hexish by exact Hl. cbn [index_byte Z.eqb Pos.eqb option_map].
    rewrite Nat.add_0_r, <- (Nat.add_0_r (length l)) at 1.
    rewrite firstn_app_2, firstn_O, app_nil_r.
    replace (S (length l + 0)) with (length l + 1)%nat by lia.
    rewrite skipn_length_app. reflexivity.
Qed.

(** ** The dotted quad *)

Lemma dec_small n : 0 <= n < 10 -> dec n = at1 digits n.
Proof. intros Hn. unfold dec. rewrite dec_fuel_S. destruct (Z.ltb_spec n 10); [reflexivity|lia]. Qed.

(** The bytes of the decimal text of a byte. *)
Lemma zbytes_dec_byte x :
  0 <= x < 256 ->
  zbytes (dec x) =
  (if 100 <=? x then [48 + x / 100] else []) ++ (if 10 <=? x then [48 + (x / 10) mod 10] else []) ++
  [48 + x mod 10].
Proof.
  intros Hx. destruct (Z.leb_spec 100 x), (Z.leb_spec 10 x); try lia; cbn [app].
  - rewrite dec_split10, zbytes_app, (dec_split10 (x / 10)), zbytes_app, dec_small
      by (try split; pow_lia).
    rewrite !zbytes_digit by (Z.div_mod_to_equations; lia).
    replace (x / 10 / 10) with (x / 100) by (rewrite Z.div_div by lia; reflexivity). reflexivity.
  - rewrite dec_split10, zbytes_app, dec_small by (try split; pow_lia).
    rewrite !zbytes_digit by (Z.div_mod_to_equations; lia).
    rewrite (Z.mod_small (x / 10) 10) by (Z.div_mod_to_equations; lia). reflexivity.
  - rewrite dec_small, zbytes_digit by lia. rewrite Z.mod_small by lia. reflexivity.
Qed.

Lemma v4_digit i prev d s val pos dl fields :
  0 <= d < 10 -> (dl =? 1) && (val =? 0) = false -> val * 10 + d <= 255 ->
  Parse.v4_loop i prev (48 + d :: s) val pos dl fields =
  Parse.v4_loop (S i) (48 + d) s (val * 10 + d) pos (dl + 1) fields.
Proof.
  intros Hd Hz Hv. cbn [Parse.v4_loop]. unfold is_dec_byte.
  replace ((48 <=? 48 + d) && (48 + d <=? 57)) with true by (go_zbool; cbn; first [reflexivity | lia]).
  rewrite Hz. replace (val * 10 + (48 + d - 48)) with (val * 10 + d) by lia.
  destruct (Z.ltb_spec 255 (val * 10 + d)); [lia|reflexivity].
Qed.

(** One field: its digits are read into [val], and the last byte read
    is a digit. *)
Lemma v4_field x i prev rest pos fields :
  0 <= x < 256 ->
  exists k prev', (0 < k)%nat /\ prev' <> 46 /\
    Parse.v4_loop i prev (zbytes (dec x) ++ rest) 0 pos 0 fields =
    Parse.v4_loop (i + k) prev' rest x pos (Z.of_nat k) fields.
Proof.
  intros Hx. rewrite zbytes_dec_byte by exact Hx.
  destruct (Z.leb_spec 100 x), (Z.leb_spec 10 x); try lia; cbn [app].
  - exists 3%nat, (48 + x mod 10). split; [lia|]. split; [Z.div_mod_to_equations; lia|].
    rewrite !v4_digit; try (Z.div_mod_to_equations; lia).
    f_equal; try lia; Z.div_mod_to_equations; lia.
  - exists 2%nat, (48 + x mod 10). split; [lia|]. split; [Z.div_mod_to_equations; lia|].
    rewrite !v4_digit; try (Z.div_mod_to_equations; lia).
    f_equal; try lia; Z.div_mod_to_equations; lia.
  - exists 1%nat, (48 + x mod 10). split; [lia|]. split; [Z.div_mod_to_equations; lia|].
    rewrite v4_digit by (try reflexivity; Z.div_mod_to_equations; lia).
    f_equal; try lia; Z.div_mod_to_equations; lia.
Qed.

Lemma v4_dot i prev s val pos dl fields :
  i <> 0%nat -> is_nil s = false -> prev <> 46 -> pos <> 3 ->
  Parse.v4_loop i prev (46 :: s) val pos dl fields =
  Parse.v4_loop (S i) 46 s 0 (pos + 1) 0 (upd fields (Z.to_nat pos) val).
Proof.
  intros Hi Hs Hp Hpos. cbn [Parse.v4_loop]. unfold is_dec_byte. cbn [Z.leb Z.compare andb Z.eqb Pos.eqb].
  rewrite Hs. destruct (Nat.eqb_spec i 0); [contradiction|].
  destruct (Z.eqb_spec prev 46); [contradiction|]. destruct (Z.eqb_spec pos 3); [contradiction|].
  reflexivity.
Qed.

Lemma zbytes_dec_nil x rest : 0 <= x < 256 -> is_nil (zbytes (dec x) ++ rest) = false.
Proof.
  intros Hx. rewrite zbytes_dec_byte by exact Hx.
  destruct (100 <=? x), (10 <=? x); reflexivity.
Qed.

Lemma zbytes_dot (s t : string) : zbytes (s ++ "." ++ t) = zbytes s ++ 46 :: zbytes t.
Proof. rewrite !zbytes_app. reflexivity. Qed.

(** Read the field of [x] at the front of the text. *)
Local Ltac v4_read x Hx :=
  match goal with
  | |- context [Parse.v4_loop ?i ?p (zbytes (dec x) ++ ?r) 0 ?pos 0 ?f] =>
      let k := fresh "k" in let q := fresh "q" in
      let Hk := fresh "Hk" in let Hq := fresh "Hq" in
      destruct (v4_field x i p r pos f Hx) as (k & q & Hk & Hq & ->)
  end.

(** [parseIPv4Fields] reads back the dotted quad of four bytes. *)
Lemma parseIPv4Fields_dec a b c d :
  bytes_ok [a; b; c; d] = true ->
  Parse.parseIPv4Fields (zbytes (dec a ++ "." ++ dec b ++ "." ++ dec c ++ "." ++ dec d)) =
  Ok [a; b; c; d].
Proof.
  intros Hb. pose proof (bytes_ok_In _ Hb) as Hin.
  assert (Ha : 0 <= a < 256) by (apply Hin; cbn; tauto).
  assert (Hb' : 0 <= b < 256) by (apply Hin; cbn; tauto).
  assert (Hc : 0 <= c < 256) by (apply Hin; cbn; tauto).
  assert (Hd : 0 <= d < 256) by (apply Hin; cbn; tauto).
  unfold Parse.parseIPv4Fields. rewrite !zbytes_dot, <- (app_nil_r (zbytes (dec d))).
  v4_read a Ha. rewrite v4_dot by (try apply zbytes_dec_nil; lia).
  v4_read b Hb'. rewrite v4_dot by (try apply zbytes_dec_nil; lia).
  v4_read c Hc. rewrite v4_dot by (try apply zbytes_dec_nil; lia).
  v4_read d Hd. reflexivity.
Qed.

(** ** [ParseAddr] reads back [IP.String] *)

(** A slice Go can hold as an IP address. *)
Definition ip_slice_ok (ip : list Z) : bool :=
  bytes_ok ip && ((length ip =? 4)%nat || (length ip =? 16)%nat).

Lemma addr_kind_digit c r : 48 <= c <= 57 -> Parse.addr_kind (c :: r) = Parse.addr_kind r.
Proof.
  intros Hc. cbn [Parse.addr_kind].
  replace ((c =? 46) || (c =? 58) || (c =? 37)) with false by (go_zbool; cbn; first [reflexivity | lia]). reflexivity.
Qed.

Lemma addr_kind_dec x rest : 0 <= x < 256 -> Parse.addr_kind (zbytes (dec x) ++ rest) = Parse.addr_kind rest.
Proof.
  intros Hx. rewrite zbytes_dec_byte by exact Hx.
  destruct (100 <=? x), (10 <=? x); cbn [app];
    rewrite ?addr_kind_digit by (Z.div_mod_to_equations; lia); reflexivity.
Qed.

Lemma hex_val_range c v :
  Parse.hex_val c = Some v -> 48 <= c <= 57 \/ 97 <= c <= 102 \/ 65 <= c <= 70.
Proof.
  unfold Parse.hex_val.
  destruct ((48 <=? c) && (c <=? 57)) eqn:E1; [intros _; apply andb_prop in E1; lia|].
  destruct ((97 <=? c) && (c <=? 102)) eqn:E2; [intros _; apply andb_prop in E2; lia|].
  destruct ((65 <=? c) && (c <=? 70)) eqn:E3; [intros _; apply andb_prop in E3; lia|].
  discriminate.
Qed.

Lemma addr_kind_hexish l r :
  forallb hexish l = true -> In 58 l -> Parse.addr_kind (l ++ r) = Some 58.
Proof.
  induction l as [|c l IH]; cbn [forallb In app Parse.addr_kind]; intros Hl Hin; [contradiction|].
  apply andb_prop in Hl as [Hc Hl]. destruct (Z.eqb_spec c 58) as [->|Hc58].
  - reflexivity.
  - destruct Hin as [->|Hin]; [contradiction|].
    unfold hexish in Hc. rewrite (proj2 (Z.eqb_neq _ _) Hc58) in Hc.
    destruct (Parse.hex_val c) as [v|] eqn:Hv; [|discriminate].
    apply hex_val_range in Hv.
    replace ((c =? 46) || false || (c =? 37)) with false by (go_zbool; cbn; first [reflexivity | lia]).
    apply IH; assumption.
Qed.

Lemma in_colon_gtext gs : (2 <= length gs)%nat -> groups_ok gs -> In 58 (gtext gs).
Proof.
  intros Hl Hok. destruct gs as [|g [|g' gs]]; cbn [length] in Hl; try lia.
  unfold gtext. cbn [map]. rewrite concat_cons, !zbytes_app. apply in_or_app. right. now left.
Qed.

(** [To4] of a 16-byte slice finds the IPv4-mapped prefix. *)
Lemma To4_mapped ip p :
  length ip = 16%nat -> Net.To4 ip = Some p -> ip = Resolver.v4InV6Prefix ++ p.
Proof.
  intros Hl. do 16 (destruct ip as [|? ip]; [discriminate|]). destruct ip; [|discriminate].
  unfold Net.To4, Net.isZeros. cbn [length Nat.eqb firstn forallb nth skipn andb].
  destruct (_ && _) eqn:E; [|discriminate]. intros [= <-].
  repeat match goal with
         | H : _ && _ = true |- _ => apply andb_prop in H as [? ?]
         | H : (_ =? _) = true |- _ => apply Z.eqb_eq in H; subst
         end.
  reflexivity.
Qed.

Lemma Is4In6_To4 ip : length ip = 16%nat -> Net.To4 ip = None -> Netip.Is4In6 ip = false.
Proof.
  intros Hl. unfold Net.To4. rewrite Hl. cbn [Nat.eqb andb].
  change (Net.isZeros (firstn 10 ip) && (nth 10 ip 0 =? 255) && (nth 11 ip 0 =? 255))
    with (Netip.Is4In6 ip).
  destruct (Netip.Is4In6 ip); [discriminate|reflexivity].
Qed.

Lemma groups_ok_firstn k gs : groups_ok gs -> groups_ok (firstn k gs).
Proof. intros H. rewrite <- (firstn_skipn k gs) in H. now apply groups_ok_app in H as [H _]. Qed.

Lemma groups_ok_skipn k gs : groups_ok gs -> groups_ok (skipn k gs).
Proof. intros H. rewrite <- (firstn_skipn k gs) in H. now apply groups_ok_app in H as [_ H]. Qed.

(** The text of the groups is made of digits and colons, and has a colon. *)
Lemma text6_hexish gs run :
  groups_ok gs -> length gs = 8%nat ->
  forallb hexish (zbytes (text6 gs run)) = true /\ In 58 (zbytes (text6 gs run)).
Proof.
  intros Hok Hl. destruct run as [[s e]|].
  - rewrite zbytes_text6_some, forallb_app. cbn [forallb].
    rewrite (gtext_hexish (firstn s gs)), (gtext_hexish (skipn e gs))
      by (first [apply groups_ok_firstn | apply groups_ok_skipn]; exact Hok).
    split; [reflexivity|]. apply in_or_app. right. now left.
  - rewrite zbytes_text6_none. split; [apply gtext_hexish, Hok|apply in_colon_gtext; [lia|exact Hok]].
Qed.

(** What [To4] finds of a good slice: four bytes, the last four of its
    16-byte form. *)
Lemma To4_Some ip p :
  ip_slice_ok ip = true -> Net.To4 ip = Some p ->
  length p = 4%nat /\ bytes_ok p = true /\ Resolver.To16 ip = Resolver.v4InV6Prefix ++ p.
Proof.
  unfold ip_slice_ok. intros Hip H4. apply andb_prop in Hip as [Hb Hl].
  unfold Resolver.To16. destruct (Nat.eqb_spec (length ip) 4) as [E4|E4].
  - unfold Net.To4 in H4. rewrite E4 in H4. cbn in H4. injection H4 as <-. auto.
  - cbn [orb] in Hl. apply Nat.eqb_eq in Hl. rewrite Hl. cbn [Nat.eqb].
    pose proof (To4_mapped ip p Hl H4) as E. split; [|split].
    + rewrite E, length_app in Hl. cbn in Hl. lia.
    + rewrite E in Hb. unfold bytes_ok in *. rewrite forallb_app in Hb. now apply andb_prop in Hb as [_ Hb].
    + exact E.
Qed.

(** [netip.ParseAddr] reads back [IP.String] of every IP with any zone
    an IPv6 address can carry: the same address in its 16-byte form. *)
Lemma ParseAddr_IP_String ip z :
  ip_slice_ok ip = true -> (is_nil z = true \/ Net.To4 ip = None) ->
  exists a, Parse.ParseAddr (zbytes (Net.IP_String ip) ++ zone_part z) = Ok a /\
            Resolver.To16 (Parse.AsSlice a) = Resolver.To16 ip /\ Parse.Zone a = z.
Proof.
  intros Hip Hz. pose proof Hip as Hip'. unfold ip_slice_ok in Hip'. apply andb_prop in Hip' as [Hb Hl].
  unfold Net.IP_String.
  replace (length ip =? 0)%nat with false by (apply orb_prop in Hl as [H|H]; apply Nat.eqb_eq in H; now rewrite H).
  rewrite Hl. cbn [negb].
  destruct (Net.To4 ip) as [p|] eqn:H4.
  - destruct Hz as [Hz|Hz]; [|discriminate].
    destruct z; [|discriminate]. cbn [zone_part is_nil]. rewrite app_nil_r.
    destruct (To4_Some ip p Hip H4) as (Hp & Hbp & E16).
    do 4 (destruct p as [|? p]; [discriminate|]). destruct p; [|discriminate].
    rewrite string4_dec by exact Hbp. exists (Parse.Addr4 [z; z0; z1; z2]).
    pose proof (bytes_ok_In _ Hbp) as Hin.
    unfold Parse.ParseAddr. rewrite !zbytes_dot, addr_kind_dec by (apply Hin; cbn; tauto).
    cbn [Parse.addr_kind Z.eqb Pos.eqb orb]. unfold Parse.parseIPv4. rewrite <- !zbytes_dot.
    rewrite parseIPv4Fields_dec by exact Hbp. split; [reflexivity|]. split; [|reflexivity].
    rewrite E16. reflexivity.
  - assert (H16 : length ip = 16%nat).
    { apply orb_prop in Hl as [E|E]; apply Nat.eqb_eq in E; [|exact E].
      unfold Net.To4 in H4. rewrite E in H4. discriminate. }
    unfold Netip.string16. rewrite Is4In6_To4 by assumption.
    destruct (appendTo6_spec ip) as (run & -> & Hrun).
    destruct (text6_hexish (groups ip) run (groups_ok_groups ip Hb) (length_groups ip)) as [Hx Hc].
    exists (Parse.Addr6 ip z). unfold Parse.ParseAddr.
    rewrite addr_kind_hexish by assumption. cbn [Z.eqb Pos.eqb].
    rewrite parseIPv6_zone, parse6_addr_text6 by (try apply run_ok_shape; assumption).
    repeat split.
Qed.

(** ** The port *)

Lemma digit_char_at1 d : 0 <= d < 10 -> String (ascii_of_N (Z.to_N (48 + d))) "" = at1 digits d.
Proof.
  intros Hd.
  assert (H : forallb (fun k => let d := Z.of_nat k in
             String.eqb (String (ascii_of_N (Z.to_N (48 + d))) "") (at1 digits d)) (seq 0 10) = true)
    by (vm_compute; reflexivity).
  rewrite forallb_forall in H. specialize (H (Z.to_nat d) ltac:(apply in_seq; lia)).
  rewrite Z2Nat.id in H by lia. now apply String.eqb_eq in H.
Qed.

Lemma uitoa_loop_S f val buf :
  Resolver.uitoa_loop (S f) val buf =
  if 10 <=? val then
    Resolver.uitoa_loop f (val / 10) (String (ascii_of_N (Z.to_N (48 + val - val / 10 * 10))) buf)
  else String (ascii_of_N (Z.to_N (48 + val))) buf.
Proof. reflexivity. Qed.

Lemma uitoa_loop_dec f val buf :
  0 <= val < 10 ^ Z.of_nat (S f) -> val < 10 ^ 20 ->
  Resolver.uitoa_loop (S f) val buf = (dec val ++ buf)%string.
Proof.
  revert val buf; induction f as [|f IH]; intros val buf Hv H20; rewrite uitoa_loop_S.
  - destruct (Z.leb_spec 10 val); [cbn in Hv; lia|].
    rewrite dec_small, <- digit_char_at1 by lia. reflexivity.
  - destruct (Z.leb_spec 10 val).
    + rewrite Nat2Z.inj_succ, Z.pow_succ_r in Hv by lia.
      assert (Hq : val / 10 <= val) by (apply Z.div_le_upper_bound; lia).
      rewrite IH by (try split; first [apply Z.div_pos; lia | apply Z.div_lt_upper_bound; lia | lia]).
      rewrite (dec_split10 val) by lia. rewrite <- str_app_assoc.
      replace (48 + val - val / 10 * 10) with (48 + val mod 10) by (Z.div_mod_to_equations; lia).
      rewrite <- digit_char_at1 by (Z.div_mod_to_equations; lia). reflexivity.
    + rewrite dec_small, <- digit_char_at1 by lia. reflexivity.
Qed.

(** [itoa.Itoa] of a port is its decimal text. *)
Lemma Itoa_port n : 0 <= n <= 65535 -> Resolver.Itoa n = dec n.
Proof.
  intros Hn. unfold Resolver.Itoa, Resolver.Uitoa.
  destruct (Z.ltb_spec n 0); [lia|]. destruct (Z.eqb_spec n 0) as [->|]; [reflexivity|].
  rewrite uitoa_loop_dec by (change (Z.of_nat (S 19)) with 20; pow_lia). apply str_app_nil_r.
Qed.

Lemma port_step acc d l :
  0 <= acc < Resolver.cutoff -> 0 <= d < 10 -> acc * 10 + d <= Resolver.max32 ->
  Resolver.port_loop (48 + d :: l) acc = Resolver.port_loop l (acc * 10 + d).
Proof.
  intros Ha Hd Hm. cbn [Resolver.port_loop]. unfold is_dec_byte, Resolver.cutoff, Resolver.max32 in *.
  change (2 ^ 32 - 1) with 4294967295 in *. change (2 ^ 32) with 4294967296.
  change (2 ^ 30) with 1073741824 in *.
  replace ((48 <=? 48 + d) && (48 + d <=? 57)) with true
    by (symmetry; apply andb_true_intro; split; apply Z.leb_le; lia).
  cbn [negb]. replace (1073741824 <=? acc) with false by (symmetry; apply Z.leb_gt; lia).
  rewrite (Z.mod_small (acc * 10)) by lia.
  replace (acc * 10 + (48 + d - 48)) with (acc * 10 + d) by lia. rewrite Z.mod_small by lia.
  replace ((acc * 10 + d <? acc * 10) || (4294967295 <? acc * 10 + d)) with false
    by (symmetry; apply orb_false_intro; apply Z.ltb_ge; lia).
  reflexivity.
Qed.

(** The loop of [parsePort] reads the decimal text of a number. *)
Lemma port_loop_dec k n l :
  0 <= n < 10 ^ Z.of_nat k -> n < 2 ^ 26 ->
  Resolver.port_loop (zbytes (dec n) ++ l) 0 = Resolver.port_loop l n.
Proof.
  assert (Hsmall : forall n l, 0 <= n < 10 ->
            Resolver.port_loop (zbytes (dec n) ++ l) 0 = Resolver.port_loop l n).
  { intros m l' Hm. rewrite dec_small, zbytes_digit by lia. cbn [app].
    rewrite port_step by (unfold Resolver.cutoff, Resolver.max32; lia). reflexivity. }
  revert n l; induction k as [|k IH]; intros n l Hk Hn;
    (destruct (Z.ltb_spec n 10); [now apply Hsmall|]); [change (10 ^ Z.of_nat 0) with 1 in Hk; lia|].
  rewrite Nat2Z.inj_succ, Z.pow_succ_r in Hk by lia.
  rewrite dec_split10, zbytes_app, <- app_assoc, zbytes_digit by (try split; pow_lia).
  rewrite IH by (try split; first [apply Z.div_pos; lia | apply Z.div_lt_upper_bound; lia]).
  cbn [app]. rewrite port_step by (unfold Resolver.cutoff, Resolver.max32; pow_lia).
  f_equal. Z.div_mod_to_equations. lia.
Qed.

(** [LookupPort] reads back the decimal text of a port without the
    services database. *)
Lemma LookupPort_dec lp n :
  0 <= n <= 65535 -> Resolver.LookupPort lp "tcp" (zbytes (dec n)) = Ok n.
Proof.
  intros Hn. unfold Resolver.LookupPort, Resolver.parsePort.
  pose proof (dec_first_byte 19 n ltac:(pow_lia)) as [Hc _]. rewrite byte_at_zbytes in Hc.
  change (dec_fuel 20 n) with (dec n) in Hc.
  assert (Hl := port_loop_dec 5 n [] ltac:(change (Z.of_nat 5) with 5; lia) ltac:(lia)).
  rewrite app_nil_r in Hl.
  destruct (zbytes (dec n)) as [|c r] eqn:E; [lia|].
  replace (c =? 43) with false by (symmetry; apply Z.eqb_neq; lia).
  replace (c =? 45) with false by (symmetry; apply Z.eqb_neq; lia).
  rewrite Hl. cbn [Resolver.port_loop negb andb].
  destruct (Z.leb_spec Resolver.cutoff n); [unfold Resolver.cutoff in *; lia|]. cbn [andb].
  destruct (Z.ltb_spec n 0); [lia|]. destruct (Z.ltb_spec 65535 n); [lia|reflexivity].
Qed.

(** ** Splitting the host from the port *)

(** Bytes other than [c]. *)
Definition noc (c : Z) (l : list Z) : bool := forallb (fun x => negb (x =? c)) l.

(** Bytes a host or port may hold without brackets, and a bracketed host. *)
Definition plain (c : Z) : bool := negb ((c =? 58) || (c =? 91) || (c =? 93)).
Definition unbracketed (c : Z) : bool := negb ((c =? 91) || (c =? 93)).

Lemma noc_plain c l : forallb plain l = true -> (c = 58 \/ c = 91 \/ c = 93) -> noc c l = true.
Proof.
  intros H Hc. unfold noc. rewrite forallb_forall in *. intros x Hx. specialize (H x Hx).
  unfold plain in H. destruct Hc as [E|[E|E]]; subst c; revert H; go_zbool; cbn; intros; congruence.
Qed.

Lemma noc_unbracketed c l : forallb unbracketed l = true -> (c = 91 \/ c = 93) -> noc c l = true.
Proof.
  intros H Hc. unfold noc. rewrite forallb_forall in *. intros x Hx. specialize (H x Hx).
  unfold unbracketed in H. destruct Hc as [E|E]; subst c; revert H; go_zbool; cbn; intros; congruence.
Qed.

Lemma noc_cons c x l : noc c (x :: l) = negb (x =? c) && noc c l.
Proof. reflexivity. Qed.

Lemma noc_app c l r : noc c (l ++ r) = noc c l && noc c r.
Proof. apply forallb_app. Qed.

Lemma noc_rev c l : noc c (rev l) = noc c l.
Proof.
  unfold noc. destruct (forallb _ l) eqn:E.
  - rewrite forallb_forall in *. intros x Hx. apply E, in_rev, Hx.
  - apply not_true_iff_false. intros H. apply not_true_iff_false in E. apply E.
    rewrite forallb_forall in *. intros x Hx. apply H, (in_rev l), Hx.
Qed.

Lemma index_byte_noc c l r :
  noc c l = true -> index_byte c (l ++ r) = option_map (Nat.add (length l)) (index_byte c r).
Proof.
  induction l as [|x l IH]; cbn [noc forallb app index_byte length]; intros Hl.
  - now destruct (index_byte c r).
  - apply andb_prop in Hl as [Hx Hl]. apply negb_true_iff in Hx. rewrite Hx, IH by exact Hl.
    now destruct (index_byte c r).
Qed.

Lemma index_byte_noc_nil c l : noc c l = true -> index_byte c l = None.
Proof. intros H. rewrite <- (app_nil_r l), index_byte_noc by exact H. reflexivity. Qed.

Lemma index_byte_at c l r : noc c l = true -> index_byte c (l ++ c :: r) = Some (length l).
Proof.
  intros H. rewrite index_byte_noc by exact H. cbn [index_byte]. rewrite Z.eqb_refl.
  cbn. now rewrite Nat.add_0_r.
Qed.

Lemma filter_noc c l : noc c l = true -> filter (Z.eqb c) l = [].
Proof.
  induction l as [|x l IH]; cbn [noc forallb filter]; intros H; [reflexivity|].
  apply andb_prop in H as [Hx H]. apply negb_true_iff in Hx. rewrite Z.eqb_sym, Hx. now apply IH.
Qed.

Lemma last_colon h p : noc 58 p = true -> last_index_byte 58 (h ++ 58 :: p) = Some (length h).
Proof.
  intros Hp. unfold last_index_byte. rewrite rev_app_distr. cbn [rev]. rewrite <- app_assoc.
  cbn [app]. rewrite index_byte_at by (now rewrite noc_rev). rewrite length_app, length_rev.
  cbn [length]. f_equal. lia.
Qed.

(** [SplitHostPort] of [host + ":" + port]. *)
Lemma SplitHostPort_plain h p :
  forallb plain h = true -> forallb plain p = true ->
  Resolver.SplitHostPort (h ++ 58 :: p) = Ok (h, p).
Proof.
  intros Hh Hp. unfold Resolver.SplitHostPort.
  rewrite last_colon by (apply noc_plain; auto).
  replace (nth 0 (h ++ 58 :: p) 0 =? 91) with false.
  2:{ destruct h as [|c h]; [reflexivity|]. cbn in Hh |- *. apply andb_prop in Hh as [Hc _].
      unfold plain in Hc. revert Hc. go_zbool; cbn; intros; congruence. }
  rewrite firstn_length_app.
  rewrite index_byte_noc_nil by (apply noc_plain; auto).
  assert (H91 : noc 91 (h ++ 58 :: p) = true)
    by (rewrite noc_app, noc_cons, !noc_plain by auto; reflexivity).
  assert (H93 : noc 93 (h ++ 58 :: p) = true)
    by (rewrite noc_app, noc_cons, !noc_plain by auto; reflexivity).
  rewrite !skipn_O, !filter_noc by assumption. cbn [is_nil negb].
  replace (skipn (S (length h)) (h ++ 58 :: p)) with p
    by (rewrite <- Nat.add_1_r, skipn_length_app; reflexivity).
  reflexivity.
Qed.

(** [SplitHostPort] of ["[" + host + "]:" + port]. *)
Lemma SplitHostPort_bracket h p :
  forallb unbracketed h = true -> forallb plain p = true ->
  Resolver.SplitHostPort (91 :: h ++ 93 :: 58 :: p) = Ok (h, p).
Proof.
  intros Hh Hp. unfold Resolver.SplitHostPort.
  replace (91 :: h ++ 93 :: 58 :: p) with ((91 :: h ++ [93]) ++ 58 :: p) by (cbn; now rewrite <- app_assoc).
  rewrite last_colon by (apply noc_plain; auto).
  replace ((91 :: h ++ [93]) ++ 58 :: p) with ([91] ++ h ++ 93 :: 58 :: p) by (cbn; now rewrite <- app_assoc).
  change (nth 0 ([91] ++ h ++ 93 :: 58 :: p) 0) with 91. rewrite Z.eqb_refl.
  rewrite index_byte_noc by reflexivity. rewrite index_byte_at by (apply noc_unbracketed; auto).
  cbn [option_map length app]. rewrite !length_app. cbn [length].
  replace (S (1 + length h) =? S (length h + S (S (length p))))%nat with false
    by (symmetry; apply Nat.eqb_neq; lia).
  replace (S (1 + length h) =? S (length h + 1))%nat with true by (symmetry; apply Nat.eqb_eq; lia).
  replace (1 + length h - 1)%nat with (length h) by lia.
  cbn [skipn app]. rewrite firstn_length_app.
  rewrite filter_noc by (rewrite noc_app, !noc_cons, noc_unbracketed, noc_plain by auto; reflexivity).
  rewrite Nat.add_comm, skipn_length_app. cbn [skipn].
  rewrite filter_noc by (rewrite noc_cons, noc_plain by auto; reflexivity). cbn [is_nil negb].
  destruct h as [|x h]; [reflexivity|]. cbn [app length].
  replace (S (length h) + 1)%nat with (length h + 2)%nat by lia. now rewrite skipn_length_app.
Qed.

(** ** The texts [TCPAddr.String] joins *)

Lemma zstr_zbytes s : zstr (zbytes s) = s.
Proof.
  unfold zstr, zbytes. rewrite map_map.
  erewrite map_ext by (intros a; unfold byte_val; rewrite N2Z.id; apply ascii_N_embedding).
  rewrite map_id. apply string_of_list_ascii_of_string.
Qed.

Lemma zbytes_nil s : is_nil (zbytes s) = String.eqb s "".
Proof. destruct s; reflexivity. Qed.

Lemma zbytes_percent (s t : string) : zbytes (s ++ "%" ++ t) = zbytes s ++ 37 :: zbytes t.
Proof. rewrite !zbytes_app. reflexivity. Qed.

(** [strings.IndexByte(host, ':') >= 0] of [JoinHostPort]. *)
Lemma contains_colon s : contains s ":" = existsb (Z.eqb 58) (zbytes s).
Proof.
  induction s as [|a s IH]; [reflexivity|]. cbn [contains prefix existsb zbytes bytes map].
  rewrite IH. f_equal. destruct (ascii_dec ":" a) as [<-|Ha]; [now destruct s|].
  symmetry. apply Z.eqb_neq. intros E. apply Ha. rewrite <- (ascii_N_embedding a).
  unfold byte_val in E. replace (N_of_ascii a) with 58%N by lia. reflexivity.
Qed.

Lemma existsb_noc c l : noc c l = true -> existsb (Z.eqb c) l = false.
Proof.
  induction l as [|x l IH]; cbn [noc forallb existsb]; intros H; [reflexivity|].
  apply andb_prop in H as [Hx H]. apply negb_true_iff in Hx. rewrite Z.eqb_sym, Hx. now apply IH.
Qed.

Lemma is_digit_48 d : 0 <= d < 10 -> is_dec_byte (48 + d) = true.
Proof. intros Hd. unfold is_dec_byte. apply andb_true_intro. split; apply Z.leb_le; lia. Qed.

Lemma dec_all_digits k n :
  0 <= n < 10 ^ Z.of_nat k -> n < 10 ^ 20 -> forallb is_dec_byte (zbytes (dec n)) = true.
Proof.
  revert n; induction k as [|k IH]; intros n Hk H20;
    (destruct (Z.ltb_spec n 10);
     [rewrite dec_small, zbytes_digit by lia; cbn [forallb]; now rewrite is_digit_48 by lia|]);
    [change (10 ^ Z.of_nat 0) with 1 in Hk; lia|].
  rewrite Nat2Z.inj_succ, Z.pow_succ_r in Hk by lia.
  rewrite dec_split10, zbytes_app, forallb_app, zbytes_digit by (try split; pow_lia).
  rewrite IH by (try split; first [apply Z.div_pos; lia | apply Z.div_lt_upper_bound; lia
                                   | apply Z.le_lt_trans with n; [apply Z.div_le_upper_bound|]; lia]).
  cbn [forallb andb]. rewrite is_digit_48 by (apply Z.mod_pos_bound; lia). reflexivity.
Qed.

Lemma digit_plain c : is_dec_byte c = true -> plain c = true.
Proof. unfold is_dec_byte, plain. intros H. apply andb_prop in H. go_zbool; cbn; first [reflexivity | lia]. Qed.

Lemma forallb_impl (f g : Z -> bool) l :
  (forall c, f c = true -> g c = true) -> forallb f l = true -> forallb g l = true.
Proof. intros Hfg. rewrite !forallb_forall. auto. Qed.

Lemma dec_plain n : 0 <= n <= 65535 -> forallb plain (zbytes (dec n)) = true.
Proof.
  intros Hn. apply (forallb_impl is_dec_byte), (dec_all_digits 5); [exact digit_plain|change (Z.of_nat 5) with 5; lia|lia].
Qed.

(** The dotted quad holds digits and dots only. *)
Lemma string4_plain a b c d :
  bytes_ok [a; b; c; d] = true -> forallb plain (zbytes (Netip.string4 [a; b; c; d])) = true.
Proof.
  intros Hb. pose proof (bytes_ok_In _ Hb) as Hin.
  assert (Hd : forall x, In x [a; b; c; d] -> forallb plain (zbytes (dec x)) = true)
    by (intros x Hx; apply dec_plain; specialize (Hin x Hx); lia).
  rewrite string4_dec, !zbytes_dot by exact Hb.
  repeat (rewrite forallb_app, Hd by (cbn; tauto); change (forallb plain (46 :: ?l)) with (forallb plain l);
          cbn [andb]).
  apply Hd. cbn; tauto.
Qed.

Lemma hexish_unbracketed c : hexish c = true -> unbracketed c = true.
Proof.
  unfold hexish, unbracketed. destruct (Z.eqb_spec c 58) as [->|]; [reflexivity|].
  destruct (Parse.hex_val c) as [v|] eqn:Hv; [|discriminate]. apply hex_val_range in Hv.
  intros _. go_zbool; cbn; first [reflexivity | lia].
Qed.

(** ** [ResolveTCPAddr] reads back [TCPAddr.String] *)

Lemma To4_prefix p : length p = 4%nat -> Net.To4 (Resolver.v4InV6Prefix ++ p) = Some p.
Proof. intros Hp. do 4 (destruct p as [|? p]; [discriminate|]). destruct p; [reflexivity|discriminate]. Qed.

Lemma To16_ok ip :
  ip_slice_ok ip = true -> Resolver.To16 ip = ip \/ (length ip = 4%nat /\ Resolver.To16 ip = Resolver.v4InV6Prefix ++ ip).
Proof.
  unfold ip_slice_ok, Resolver.To16. intros H. apply andb_prop in H as [_ H].
  destruct (Nat.eqb_spec (length ip) 4); [now right|]. cbn [orb] in H. rewrite H. now left.
Qed.

(** [To16] keeps what [To4] finds, hence the text [IP.String] writes. *)
Lemma To4_To16 ip : ip_slice_ok ip = true -> Net.To4 (Resolver.To16 ip) = Net.To4 ip.
Proof.
  intros H. destruct (To16_ok ip H) as [->|[Hl ->]]; [reflexivity|].
  rewrite To4_prefix by exact Hl. unfold Net.To4. now rewrite Hl.
Qed.

Lemma To4_some_To16 ip : ip_slice_ok ip = true -> Resolver.To4_some (Resolver.To16 ip) = Resolver.To4_some ip.
Proof. intros H. unfold Resolver.To4_some. now rewrite To4_To16. Qed.

Lemma ResolveTCPAddr_tcp lh lp address :
  Resolver.ResolveTCPAddr lh lp "tcp" address =
  match Resolver.internetAddrList lh lp "tcp" (zbytes address) with
  | Err e => Err e
  | Ok addrs => Ok (Resolver.forResolve "tcp" (zbytes address) addrs)
  end.
Proof. reflexivity. Qed.

(** [internetAddrList] for ["tcp"], which asks for no family. *)
Lemma internetAddrList_tcp lh lp addr host port portnum ips :
  is_nil addr = false -> Resolver.SplitHostPort addr = Ok (host, port) ->
  Resolver.LookupPort lp "tcp" port = Ok portnum -> is_nil host = false ->
  Resolver.lookupIPAddr lh host = Ok ips ->
  Resolver.internetAddrList lh lp "tcp" addr =
  Resolver.filterAddrList None
    (match ips with
     | [ip] => if Resolver.Equal (Resolver.ipaddr_ip ip) Resolver.IPv6unspecified
               then [ip; Resolver.mkIPAddr Resolver.IPv4zero ""] else ips
     | _ => ips
     end) portnum host.
Proof.
  intros Ha Hs Hp Hh Hl. unfold Resolver.internetAddrList. rewrite Ha, Hs, Hp, Hh, Hl. reflexivity.
Qed.

(** What [forResolve] takes: the first address, when it has the family
    the text asks for. *)
Lemma forResolve_first addr x rest :
  Resolver.isIPv4 x = is_nil (filter (Z.eqb 91) addr) ->
  Resolver.forResolve "tcp" addr (x :: rest) = x.
Proof.
  intros H. unfold Resolver.forResolve, Resolver.first. cbn [String.eqb andb Ascii.eqb Bool.eqb].
  destruct (is_nil (filter (Z.eqb 91) addr)); cbn [negb find]; rewrite H; reflexivity.
Qed.

(** Once the text splits into the host and the port and the host is an
    IP literal of the family the text asks for, the answer is that IP. *)
Lemma resolve_tail lh lp ip port zone hs address :
  ip_slice_ok ip = true -> 0 <= port <= 65535 ->
  Resolver.SplitHostPort (zbytes address) = Ok (zbytes hs, zbytes (dec port)) ->
  Resolver.lookupIPAddr lh (zbytes hs) = Ok [Resolver.mkIPAddr (Resolver.To16 ip) zone] ->
  is_nil (zbytes hs) = false ->
  Resolver.To4_some ip = is_nil (filter (Z.eqb 91) (zbytes address)) ->
  Resolver.ResolveTCPAddr lh lp "tcp" address = Ok (mkTCPAddr (Resolver.To16 ip) port zone).
Proof.
  intros Hip Hp Hs Hl Hne Hw. rewrite ResolveTCPAddr_tcp.
  assert (Ha : is_nil (zbytes address) = false).
  { destruct (zbytes address) eqn:E; [|reflexivity]. discriminate Hs. }
  rewrite (internetAddrList_tcp lh lp _ _ _ _ _ Ha Hs (LookupPort_dec lp port Hp) Hne Hl).
  destruct (Resolver.Equal _ _); cbn [Resolver.filterAddrList map];
    rewrite forResolve_first by (unfold Resolver.isIPv4; cbn [tcp_ip Resolver.ipaddr_ip]; now rewrite To4_some_To16);
    reflexivity.
Qed.

Lemma IP_String_To4 ip p : ip_slice_ok ip = true -> Net.To4 ip = Some p -> Net.IP_String ip = Netip.string4 p.
Proof.
  unfold ip_slice_ok, Net.IP_String. intros H H4. apply andb_prop in H as [_ H]. rewrite H, H4.
  apply orb_prop in H as [E|E]; apply Nat.eqb_eq in E; now rewrite E.
Qed.

Lemma IP_String_text6 ip :
  ip_slice_ok ip = true -> Net.To4 ip = None ->
  length ip = 16%nat /\ exists run, Net.IP_String ip = text6 (groups ip) run /\ run_ok (groups ip) run.
Proof.
  unfold ip_slice_ok. intros H H4. apply andb_prop in H as [_ H].
  assert (H16 : length ip = 16%nat).
  { apply orb_prop in H as [E|E]; apply Nat.eqb_eq in E; [|exact E].
    unfold Net.To4 in H4. rewrite E in H4. discriminate. }
  split; [exact H16|]. unfold Net.IP_String. rewrite H16, H4. cbn [Nat.eqb negb orb].
  unfold Netip.string16. rewrite Is4In6_To4 by assumption. apply appendTo6_spec.
Qed.

(** [ResolveTCPAddr("tcp", JoinHostPort(host, port))] for the text of
    an IP, with its zone, and a port. *)
Lemma resolve_join lh lp ip port zone hs :
  ip_slice_ok ip = true -> 0 <= port <= 65535 ->
  zbytes hs = zbytes (Net.IP_String ip) ++ zone_part (zbytes zone) ->
  (is_nil (zbytes zone) = true \/ (Net.To4 ip = None /\ forallb unbracketed (zbytes zone) = true)) ->
  Resolver.ResolveTCPAddr lh lp "tcp" (Resolver.JoinHostPort hs (dec port)) =
  Ok (mkTCPAddr (Resolver.To16 ip) port zone).
Proof.
  intros Hip Hp Hhs Hz.
  destruct (ParseAddr_IP_String ip (zbytes zone) Hip ltac:(destruct Hz as [Hz|[Hz _]]; auto))
    as (a & Hpa & H16 & Hza).
  assert (Hne : is_nil (zbytes hs) = false).
  { rewrite Hhs. destruct (zbytes (Net.IP_String ip) ++ _) eqn:E; [|reflexivity].
    discriminate Hpa. }
  assert (Hlk : Resolver.lookupIPAddr lh (zbytes hs) = Ok [Resolver.mkIPAddr (Resolver.To16 ip) zone]).
  { unfold Resolver.lookupIPAddr. rewrite Hne, Hhs, Hpa, H16, Hza, zstr_zbytes. reflexivity. }
  destruct (Net.To4 ip) as [p|] eqn:H4.
  - destruct Hz as [Hz|[Hz _]]; [|discriminate].
    destruct (To4_Some ip p Hip H4) as (Hl4 & Hbp & _).
    do 4 (destruct p as [|? p]; [discriminate|]). destruct p; [|discriminate].
    assert (Hpl : forallb plain (zbytes hs) = true).
    { rewrite Hhs. destruct (zbytes zone); [|discriminate]. cbn [zone_part is_nil]. rewrite app_nil_r.
      rewrite (IP_String_To4 ip _ Hip H4). now apply string4_plain. }
    unfold Resolver.JoinHostPort. rewrite contains_colon, existsb_noc by (apply noc_plain; auto).
    apply (resolve_tail _ _ _ _ _ hs); try assumption.
    + rewrite !zbytes_app. apply SplitHostPort_plain; [exact Hpl|]. now apply dec_plain.
    + unfold Resolver.To4_some. rewrite H4, filter_noc; [reflexivity|].
      rewrite !zbytes_app, !noc_app, (noc_plain 91 (zbytes hs)), (noc_plain 91 (zbytes (dec port)))
        by (auto; now apply dec_plain).
      reflexivity.
  - destruct (IP_String_text6 ip Hip H4) as (Hl16 & run & Hrun & Hok).
    destruct (text6_hexish (groups ip) run) as [Hx Hc];
      [apply groups_ok_groups; unfold ip_slice_ok in Hip; now apply andb_prop in Hip as [? _]|apply length_groups|].
    rewrite <- Hrun in Hx, Hc.
    assert (Hub : forallb unbracketed (zbytes hs) = true).
    { rewrite Hhs, forallb_app, (forallb_impl hexish unbracketed) by (first [exact hexish_unbracketed|exact Hx]).
      unfold zone_part. destruct Hz as [-> | [_ Hz]]; [reflexivity|].
      destruct (is_nil (zbytes zone)); [reflexivity|]. cbn [forallb]. now rewrite Hz. }
    assert (Hcol : contains hs ":" = true).
    { rewrite contains_colon, Hhs. apply existsb_exists. exists 58. split; [|reflexivity].
      apply in_or_app. now left. }
    unfold Resolver.JoinHostPort. rewrite Hcol.
    apply (resolve_tail _ _ _ _ _ hs); try assumption.
    + rewrite !zbytes_app. cbn [zbytes bytes map byte_val app].
      change (Z.of_N (N_of_ascii "[")) with 91. change (Z.of_N (N_of_ascii "]")) with 93.
      change (Z.of_N (N_of_ascii ":")) with 58.
      apply SplitHostPort_bracket; [exact Hub|]. now apply dec_plain.
    + unfold Resolver.To4_some. rewrite H4. reflexivity.
Qed.

(** A socket address Go's stack can report: an IP of 4 or 16 bytes, a
    port, and a zone only on an IPv6 address, without brackets. *)
Definition zone_ok (ip : list Z) (zone : string) : bool :=
  String.eqb zone "" || (negb (Resolver.To4_some ip) && forallb unbracketed (zbytes zone)).

Definition tcpaddr_ok (a : TCPAddr (list Z)) : bool :=
  ip_slice_ok (tcp_ip a) && (0 <=? tcp_port a) && (tcp_port a <=? 65535) && zone_ok (tcp_ip a) (tcp_zone a).

Lemma tcpaddr_ok_spec a :
  tcpaddr_ok a = true ->
  ip_slice_ok (tcp_ip a) = true /\ 0 <= tcp_port a <= 65535 /\
  (tcp_zone a = ""%string \/ (Net.To4 (tcp_ip a) = None /\ forallb unbracketed (zbytes (tcp_zone a)) = true)).
Proof.
  unfold tcpaddr_ok, zone_ok, Resolver.To4_some. intros H.
  repeat match goal with H : _ && _ = true |- _ => apply andb_prop in H as [? ?] end.
  go_zbool; try discriminate. split; [assumption|]. split; [lia|].
  match goal with H : _ || _ = true |- _ => apply orb_prop in H as [Hz|Hz] end.
  - left. now apply String.eqb_eq.
  - right. apply andb_prop in Hz as [H4 Hz]. split; [|exact Hz].
    destruct (Net.To4 _); [discriminate|reflexivity].
Qed.

(** The text [IP.String] writes is the same for an IP and its 16-byte form. *)
Lemma IP_String_To16 ip : ip_slice_ok ip = true -> Net.IP_String (Resolver.To16 ip) = Net.IP_String ip.
Proof.
  intros H. destruct (To16_ok ip H) as [->|[Hl E]]; [reflexivity|]. rewrite E.
  assert (H4 : Net.To4 ip = Some ip) by (unfold Net.To4; now rewrite Hl).
  unfold Net.IP_String. rewrite H4, To4_prefix, length_app, Hl by exact Hl. reflexivity.
Qed.

Lemma ResolveTCPAddr_String_spec lh lp a :
  tcpaddr_ok a = true ->
  Resolver.ResolveTCPAddr lh lp "tcp" (Resolver.TCPAddr_String a) =
  Ok (mkTCPAddr (Resolver.To16 (tcp_ip a)) (tcp_port a) (tcp_zone a)).
Proof.
  intros H. destruct (tcpaddr_ok_spec a H) as (Hip & Hp & Hz).
  destruct a as [ip port zone]. cbn [tcp_ip tcp_port tcp_zone] in *.
  unfold Resolver.TCPAddr_String, Resolver.ipEmptyString. cbn [tcp_ip tcp_port tcp_zone].
  replace (length ip =? 0)%nat with false
    by (unfold ip_slice_ok in Hip; apply andb_prop in Hip as [_ Hl];
        apply orb_prop in Hl as [E|E]; apply Nat.eqb_eq in E; now rewrite E).
  rewrite Itoa_port by exact Hp.
  destruct (String.eqb_spec zone "") as [->|Hne]; cbn [negb].
  - apply resolve_join; try assumption; [|now left]. cbn. now rewrite app_nil_r.
  - apply resolve_join; try assumption.
    + rewrite zbytes_percent. unfold zone_part. rewrite zbytes_nil.
      apply String.eqb_neq in Hne. now rewrite Hne.
    + destruct Hz as [Hz|Hz]; [contradiction|now right].
Qed.

(** C16: [net.ResolveTCPAddr("tcp", a.String())] gives back the address
    [a] of every socket Go's stack can report, its IP in the 16-byte
    form: the port, the zone, and an IP whose [String] is that of [a]'s,
    without ever asking the resolver or the services database. *)
Theorem ResolveTCPAddr_String lh lp a :
  tcpaddr_ok a = true ->
  Resolver.ResolveTCPAddr lh lp "tcp" (Resolver.TCPAddr_String a) =
  Ok (mkTCPAddr (Resolver.To16 (tcp_ip a)) (tcp_port a) (tcp_zone a)) /\
  Net.IP_String (Resolver.To16 (tcp_ip a)) = Net.IP_String (tcp_ip a).
Proof.
  intros H. split; [now apply ResolveTCPAddr_String_spec|].
  apply IP_String_To16. now destruct (tcpaddr_ok_spec a H) as [? _].
Qed.

(** ** The hook on Go's [net] package *)

Section GoNet.
(** The sockets, [net.Dial] and the kernel's local address of a
    socket, with the system resolver and the services database. *)
Context (Sock : Type) (sock_eq_dec : forall a b : Sock, {a = b} + {a <> b})
        (dial : string -> string -> result Sock) (local : Sock -> TCPAddr (list Z))
        (lookup_host : list Z -> result (list Resolver.IPAddr))
        (lookup_port : string -> list Z -> result Z).

(** [conn.LocalAddr()] is a [*TCPAddr]: its [Network()] is ["tcp"] and
    its [String()] is [TCPAddr.String]; [net.ResolveTCPAddr] and
    [IP.String] are the models above. *)
Definition go_net : NetStack := {|
  Conn := Sock;
  conn_eq_dec := sock_eq_dec;
  IP := list Z;
  net_dial := dial;
  local_addr := fun c => mkAddr "tcp" (Resolver.TCPAddr_String (local c));
  resolve_tcp_addr := Resolver.ResolveTCPAddr lookup_host lookup_port;
  ip_string := Net.IP_String
|}.

(** C17: on Go's [net] package, once [net.Dial] has opened a socket
    whose local address the stack reports, the hook never fails: it
    returns the socket and stores in [ClientIP] exactly [IP.String] of
    the socket's local IP (without its zone). *)
Theorem Dial_go_net network address st c :
  dial network address = Ok c -> tcpaddr_ok (local c) = true ->
  @Dial go_net network address st =
  (Ok c, @mkDialState go_net (set_ClientIP (Net.IP_String (tcp_ip (local c))) (self st))
                      (c :: sockets st) ((network, address) :: dialed st)).
Proof.
  intros Hd Hok. rewrite Dial_unfold. cbn [net_dial go_net local_addr resolve_tcp_addr
                                          addr_network addr_string ip_string].
  rewrite Hd, ResolveTCPAddr_String_spec by exact Hok. cbn [tcp_ip].
  rewrite IP_String_To16 by (now destruct (tcpaddr_ok_spec _ Hok) as [? _]). reflexivity.
Qed.
End GoNet.

(** ** Witnesses *)

(** A link-local IPv6 socket address, [[fe80::1%eth0]:54321]. *)
Definition link_local : TCPAddr (list Z) :=
  mkTCPAddr [254; 128; 0; 0; 0; 0; 0; 0; 0; 0; 0; 0; 0; 0; 0; 1] 54321 "eth0".

Definition no_host (h : list Z) : result (list Resolver.IPAddr) := perr "no such host".
Definition no_port (n : string) (s : list Z) : result Z := perr "unknown port".

Lemma ResolveTCPAddr_String_witness :
  tcpaddr_ok link_local = true /\
  Resolver.TCPAddr_String link_local = "[fe80::1%eth0]:54321"%string /\
  (Resolver.ResolveTCPAddr no_host no_port "tcp" (Resolver.TCPAddr_String link_local) =
   Ok (mkTCPAddr (Resolver.To16 (tcp_ip link_local)) (tcp_port link_local) (tcp_zone link_local)) /\
   Net.IP_String (Resolver.To16 (tcp_ip link_local)) = Net.IP_String (tcp_ip link_local)).
Proof.
  split; [vm_compute; reflexivity|]. split; [vm_compute; reflexivity|].
  apply ResolveTCPAddr_String. vm_compute. reflexivity.
Defined.

Definition one_socket (network address : string) : result Z := Ok 1.

(** The hook on a socket bound to [fe80::1%eth0]: [ClientIP] is
    ["fe80::1"], without the zone. *)
Lemma Dial_go_net_witness :
  one_socket "tcp" "[::1]:4222" = Ok 1 /\ tcpaddr_ok link_local = true /\
  @Dial (go_net Z Z.eq_dec one_socket (fun _ => link_local) no_host no_port) "tcp" "[::1]:4222"
    (@mkDialState (go_net Z Z.eq_dec one_socket (fun _ => link_local) no_host no_port)
       (NewDialer "NATS Health Check") [] []) =
  (Ok 1, @mkDialState (go_net Z Z.eq_dec one_socket (fun _ => link_local) no_host no_port)
           (set_ClientIP "fe80::1" (NewDialer "NATS Health Check")) [1] [("tcp", "[::1]:4222")]%string).
Proof.
  split; [reflexivity|]. split; [vm_compute; reflexivity|].
  change "fe80::1"%string with (Net.IP_String (tcp_ip link_local)).
  apply (Dial_go_net Z Z.eq_dec one_socket (fun _ => link_local) no_host no_port); [reflexivity|].
  vm_compute. reflexivity.
Defined.
