(* ===== verification/GoStrings.v ===== *)
(** * Package [strings] as [net/url] and [nats.go] use it (src/main.go:71-72)

    [nats.Connect(url, ...)] splits its URL argument at commas and trims
    each piece with [strings.TrimSpace] ([processUrlString]); [url.Parse]
    cuts the text with [strings.Cut], [strings.Index] and
    [strings.LastIndex] and tests it with [strings.HasPrefix],
    [strings.HasSuffix] and [strings.Count].  Go strings are lists of
    byte values ([Z] in [[0, 256)]), as in [Resolve]; the searches are
    given by their result (the first or last match), not by the
    search strategy of [internal/bytealg].  [TrimSpace] is written with
    its ASCII fast path and its fallback on [unicode.IsSpace] through
    [utf8.DecodeRuneInString] and [utf8.DecodeLastRuneInString]. *)

From Stdlib Require Import String Ascii List ZArith Lia Bool.
From S2P Require Import Prelude Utf8 Strconv Resolve.
Import ListNotations.
Local Open Scope Z_scope.

(** [strings.HasPrefix(s, prefix)] *)
Fixpoint HasPrefix (s p : list Z) {struct p} : bool :=
  match p with
  | [] => true
  | c :: p => match s with
              | [] => false
              | d :: s => (c =? d) && HasPrefix s p
              end
  end.

(** [strings.HasSuffix(s, suffix)] *)
Definition HasSuffix (s p : list Z) : bool := HasPrefix (rev s) (rev p).

(** [strings.Index(s, substr)]: the first index where [substr] occurs;
    [None] is [-1]. *)
Fixpoint Index (s sub : list Z) : option nat :=
  if HasPrefix s sub then Some 0%nat else
  match s with
  | [] => None
  | _ :: s => option_map S (Index s sub)
  end.

(** [strings.LastIndex(s, substr)]: the last index where [substr]
    occurs ([len(s)] for the empty [substr]). *)
Definition LastIndex (s sub : list Z) : option nat :=
  if is_nil sub then Some (length s) else
  match Index (rev s) (rev sub) with
  | Some k => Some (length s - length sub - k)%nat
  | None => None
  end.

(** [strings.Contains(s, substr)] *)
Definition Contains (s sub : list Z) : bool :=
  match Index s sub with Some _ => true | None => false end.

(** [strings.Cut(s, sep)]: before, after, found. *)
Definition Cut (s sep : list Z) : list Z * list Z * bool :=
  match Index s sep with
  | Some i => (firstn i s, skipn (i + length sep) s, true)
  | None => (s, [], false)
  end.

(** [strings.Count(s, substr)] for a one-byte [substr], which Go hands
    to [bytealg.CountString]. *)
Definition CountByte (s : list Z) (c : Z) : nat := length (filter (Z.eqb c) s).

(** [strings.Split(s, sep)] for a one-byte [sep]: [genSplit] cuts [s]
    before each occurrence of [sep] and drops it, so [n] occurrences give
    [n + 1] pieces; [cur] is the current piece, reversed. *)
Fixpoint split_loop (c : Z) (s cur : list Z) : list (list Z) :=
  match s with
  | [] => [rev cur]
  | x :: s => if x =? c then rev cur :: split_loop c s [] else split_loop c s (x :: cur)
  end.

Definition Split (s : list Z) (c : Z) : list (list Z) := split_loop c s [].

(** ** [strings.TrimSpace] *)

(** [asciiSpace]: tab, newline, vertical tab, form feed, carriage
    return and space. *)
Definition asciiSpace (c : Z) : bool :=
  (c =? 9) || (c =? 10) || (c =? 11) || (c =? 12) || (c =? 13) || (c =? 32).

(** [func IsSpace(r rune) bool] of package [unicode]: on Latin-1 the
    list written in its code, above it the [White_Space] table (U+1680,
    U+2000 to U+200A, U+2028, U+2029, U+202F, U+205F, U+3000). *)
Definition IsSpace (r : Z) : bool :=
  if (0 <=? r) && (r <=? 255) then asciiSpace r || (r =? 133) || (r =? 160)
  else (r =? 5760) || ((8192 <=? r) && (r <=? 8202)) || (r =? 8232) || (r =? 8233)
       || (r =? 8239) || (r =? 8287) || (r =? 12288).

(** [TrimLeftFunc(s, unicode.IsSpace)]: [indexFunc] walks the runes from
    the front; each rune is at least one byte, so [length s] turns are
    enough. *)
Fixpoint trim_left (fuel : nat) (s : list Z) : list Z :=
  match fuel, s with
  | O, _ | _, [] => s
  | S fuel, _ =>
      let '(r, w) := DecodeRuneInString (string_of_bytes s) in
      if IsSpace r then trim_left fuel (skipn w s) else s
  end.

(** [lastIndexFunc(s, unicode.IsSpace, false)]: the start of the last
    rune that is not a space, found with [DecodeLastRuneInString]. *)
Fixpoint last_nonspace (fuel : nat) (s : list Z) : option nat :=
  match fuel, s with
  | O, _ | _, [] => None
  | S fuel, _ =>
      let '(r, size) := DecodeLastRuneInString (string_of_bytes s) in
      let i := (length s - size)%nat in
      if negb (IsSpace r) then Some i else last_nonspace fuel (firstn i s)
  end.

(** [TrimRightFunc(s, unicode.IsSpace)]: after the last non-space rune,
    whose width is read again forward when it is not ASCII. *)
Definition trim_right (s : list Z) : list Z :=
  match last_nonspace (length s) s with
  | None => []
  | Some i =>
      if RuneSelf <=? nth i s 0
      then firstn (i + snd (DecodeRuneInString (string_of_bytes (skipn i s)))) s
      else firstn (S i) s
  end.

(** The forward scan of [TrimSpace]: skip ASCII spaces; [true] when it
    met a non-ASCII byte first. *)
Fixpoint space_start (s : list Z) : bool * list Z :=
  match s with
  | [] => (false, [])
  | c :: s' => if RuneSelf <=? c then (true, s) else if asciiSpace c then space_start s' else (false, s)
  end.

(** [func TrimSpace(s string) string]: the ASCII fast path from both
    ends ([space_start] on [s], then on its reverse), falling back to
    [TrimFunc] (left then right) or [TrimRightFunc] when a non-ASCII byte
    is met. *)
Definition TrimSpace (s : list Z) : list Z :=
  let '(na, rest) := space_start s in
  if na then trim_right (trim_left (length rest) rest) else
  let '(na2, tser) := space_start (rev rest) in
  if na2 then trim_right (rev tser) else rev tser.

(** [strings.ToLower(s)] on its ASCII path, the only one [url.Parse]
    reaches ([getScheme] returns letters, digits, [+], [-] and [.]). *)
Definition ToLower (s : list Z) : list Z :=
  map (fun c => if (65 <=? c) && (c <=? 90) then c + 32 else c) s.
