(* ===== verification/Url.v ===== *)
(** * [url.Parse], as [nats.Connect] reads the URL [run] builds (src/main.go:71-72)

    [run] writes ["nats://" + host + ":" + strconv.Itoa(port)] and
    [nats.go]'s [addURLToPool] hands each server of it to [url.Parse]
    and then asks the result for [Port()] and [Hostname()].  This file
    is that part of package [net/url] (Go 1.22), over Go strings as
    lists of byte values: [getScheme], the authority with
    [parseAuthority] and [parseHost] (the bracketed IPv6 literal with its
    [%25] zone, [validOptionalPort]), [unescape] with [shouldEscape] for
    each [encoding], [setPath] and [setFragment] with [escape], and the
    accessors [Port] ([portOnly]) and [Hostname] ([splitHostPort]).
    The errors are the texts Go writes, [%q] through [strconv.Quote]. *)

From Stdlib Require Import String Ascii List ZArith Lia Bool.
From S2P Require Import Prelude Utf8 Strconv Resolve GoStrings.
Import ListNotations.
Local Open Scope Z_scope.
Local Open Scope go_scope.

Module URL.

(** [net/url]'s [encoding] *)
Inductive encoding :=
| encodePath | encodePathSegment | encodeHost | encodeZone
| encodeUserPassword | encodeQueryComponent | encodeFragment.

Definition is_host_mode (m : encoding) : bool :=
  match m with encodeHost | encodeZone => true | _ => false end.

Definition is_query_mode (m : encoding) : bool :=
  match m with encodeQueryComponent => true | _ => false end.

(** [*url.Userinfo]: user name, password, and whether a password was
    given. *)
Record userinfo := mkUserinfo { username : list Z; password : list Z; passwordSet : bool }.

(** [url.URL], with the fields [parse] sets. *)
Record URL := mkURL {
  Scheme : list Z;
  Opaque : list Z;
  User : option userinfo;
  Host : list Z;
  Path : list Z;
  RawPath : list Z;
  OmitHost : bool;
  ForceQuery : bool;
  RawQuery : list Z;
  Fragment : list Z;
  RawFragment : list Z
}.

Definition url0 : URL := mkURL [] [] None [] [] [] false false [] [] [].

(** [fmt.Errorf] and [errors.New] of the package, by their text. *)
Definition uerr {A} (msg : string) : result A := Err (UrlError msg).

(** [func (e EscapeError) Error() string] *)
Definition EscapeError {A} (s : list Z) : result A :=
  uerr ("invalid URL escape " ++ Quote (string_of_bytes s))%string.

(** [func (e InvalidHostError) Error() string] *)
Definition InvalidHostError {A} (s : list Z) : result A :=
  uerr ("invalid character " ++ Quote (string_of_bytes s) ++ " in host name")%string.

Definition in_bytes (c : Z) (l : list Z) : bool := existsb (Z.eqb c) l.

Definition is_alpha (c : Z) : bool := ((97 <=? c) && (c <=? 122)) || ((65 <=? c) && (c <=? 90)).
Definition is_alnum (c : Z) : bool := is_alpha c || is_dec_byte c.

(** [func ishex(c byte) bool] and [func unhex(c byte) byte] *)
Definition ishex (c : Z) : bool :=
  is_dec_byte c || ((97 <=? c) && (c <=? 102)) || ((65 <=? c) && (c <=? 70)).

Definition unhex (c : Z) : Z :=
  if is_dec_byte c then c - 48
  else if (97 <=? c) && (c <=? 102) then c - 87
  else if (65 <=? c) && (c <=? 70) then c - 55
  else 0.

(** [func shouldEscape(c byte, mode encoding) bool] *)
Definition shouldEscape (c : Z) (mode : encoding) : bool :=
  if is_alnum c then false else
  if is_host_mode mode && in_bytes c [33; 36; 38; 39; 40; 41; 42; 43; 44; 59; 61; 58; 91; 93; 60; 62; 34]
  then false else
  if in_bytes c [45; 95; 46; 126] then false else
  let fragment_rest :=
    match mode with
    | encodeFragment => negb (in_bytes c [33; 40; 41; 42])
    | _ => true
    end in
  if in_bytes c [36; 38; 43; 44; 47; 58; 59; 61; 63; 64] then
    match mode with
    | encodePath => c =? 63
    | encodePathSegment => (c =? 47) || (c =? 59) || (c =? 44) || (c =? 63)
    | encodeUserPassword => (c =? 64) || (c =? 47) || (c =? 63) || (c =? 58)
    | encodeQueryComponent => true
    | encodeFragment => false
    | encodeHost | encodeZone => fragment_rest
    end
  else fragment_rest.

(** The checking loop of [unescape]: the number of [%] escapes and
    [hasPlus], or the error of the first bad byte. *)
Fixpoint unescape_scan (mode : encoding) (s : list Z) (n : nat) (hasPlus : bool)
  : result (nat * bool) :=
  match s with
  | [] => Ok (n, hasPlus)
  | c :: rest =>
      if c =? 37 then
        match rest with
        | h1 :: h2 :: rest' =>
            if negb (ishex h1 && ishex h2) then EscapeError (firstn 3 s)
            else if (match mode with encodeHost => true | _ => false end)
                    && (unhex h1 <? 8) && negb ((h1 =? 50) && (h2 =? 53))
            then EscapeError [c; h1; h2]
            else if (match mode with encodeZone => true | _ => false end)
                    && (let v := Z.lor (Z.shiftl (unhex h1) 4) (unhex h2) in
                        negb ((h1 =? 50) && (h2 =? 53)) && negb (v =? 32)
                        && shouldEscape v encodeHost)
            then EscapeError [c; h1; h2]
            else unescape_scan mode rest' (S n) hasPlus
        | _ => EscapeError (firstn 3 s)
        end
      else if c =? 43 then unescape_scan mode rest n (is_query_mode mode)
      else if is_host_mode mode && (c <? 128) && shouldEscape c mode
      then InvalidHostError [c]
      else unescape_scan mode rest n hasPlus
  end.

(** The decoding loop of [unescape]. *)
Fixpoint unescape_decode (mode : encoding) (s : list Z) : list Z :=
  match s with
  | [] => []
  | c :: rest =>
      if c =? 37 then
        match rest with
        | h1 :: h2 :: rest' => Z.lor (Z.shiftl (unhex h1) 4) (unhex h2) :: unescape_decode mode rest'
        | _ => []
        end
      else if c =? 43 then (if is_query_mode mode then 32 else 43) :: unescape_decode mode rest
      else c :: unescape_decode mode rest
  end.

(** [func unescape(s string, mode encoding) (string, error)] *)
Definition unescape (s : list Z) (mode : encoding) : result (list Z) :=
  let? (n, hasPlus) := unescape_scan mode s 0 false in
  if (n =? 0)%nat && negb hasPlus then Ok s else Ok (unescape_decode mode s).

(** [upperhex[d]] *)
Definition upperhex (d : Z) : Z := if d <? 10 then 48 + d else 55 + d.

(** [func escape(s string, mode encoding) string]: each byte that
    [shouldEscape] as [%XX], a space as [+] in a query component, the
    others as they are (Go sizes its buffer first and copies [s] when
    nothing needs escaping, which writes the same text). *)
Definition escape (s : list Z) (mode : encoding) : list Z :=
  flat_map (fun c =>
    if (c =? 32) && is_query_mode mode then [43]
    else if shouldEscape c mode then [37; upperhex (Z.shiftr c 4); upperhex (Z.land c 15)]
    else [c]) s.

Definition bytes_eq (a b : list Z) : bool := if list_eq_dec Z.eq_dec a b then true else false.

(** [func getScheme(rawURL string) (scheme, path string, err error)] *)
Fixpoint scheme_loop (s : list Z) (i : nat) (raw : list Z) : result (list Z * list Z) :=
  match s with
  | [] => Ok ([], raw)
  | c :: s =>
      if is_alpha c then scheme_loop s (S i) raw
      else if is_dec_byte c || (c =? 43) || (c =? 45) || (c =? 46) then
        if (i =? 0)%nat then Ok ([], raw) else scheme_loop s (S i) raw
      else if c =? 58 then
        if (i =? 0)%nat then uerr "missing protocol scheme"
        else Ok (firstn i raw, skipn (S i) raw)
      else Ok ([], raw)
  end.

Definition getScheme (raw : list Z) : result (list Z * list Z) := scheme_loop raw 0 raw.

(** [func validOptionalPort(port string) bool] *)
Definition validOptionalPort (port : list Z) : bool :=
  match port with
  | [] => true
  | c :: rest => (c =? 58) && forallb is_dec_byte rest
  end.

(** [fmt.Errorf("invalid port %q after host", colonPort)] *)
Definition invalid_port {A} (colonPort : list Z) : result A :=
  uerr ("invalid port " ++ Quote (string_of_bytes colonPort) ++ " after host")%string.

(** [func parseHost(host string) (string, error)] *)
Definition parseHost (host : list Z) : result (list Z) :=
  if HasPrefix host [91] then
    match LastIndex host [93] with
    | None => uerr "missing ']' in host"
    | Some i =>
        let colonPort := skipn (S i) host in
        if negb (validOptionalPort colonPort) then invalid_port colonPort else
        match Index (firstn i host) [37; 50; 53] with
        | Some zone =>
            let? host1 := unescape (firstn zone host) encodeHost in
            let? host2 := unescape (firstn (i - zone) (skipn zone host)) encodeZone in
            let? host3 := unescape (skipn i host) encodeHost in
            Ok (host1 ++ host2 ++ host3)
        | None => unescape host encodeHost
        end
    end
  else
    match LastIndex host [58] with
    | Some i =>
        let colonPort := skipn i host in
        if negb (validOptionalPort colonPort) then invalid_port colonPort
        else unescape host encodeHost
    | None => unescape host encodeHost
    end.

(** [func validUserinfo(s string) bool]: Go ranges over the runes, and
    a rune at or above [0x80] is rejected as each of its bytes is. *)
Definition validUserinfo (s : list Z) : bool :=
  forallb (fun c => is_alnum c ||
    in_bytes c [45; 46; 95; 58; 126; 33; 36; 38; 39; 40; 41; 42; 43; 44; 59; 61; 37; 64]) s.

(** [func parseAuthority(authority string) (user *Userinfo, host string, err error)] *)
Definition parseAuthority (authority : list Z) : result (option userinfo * list Z) :=
  let i := LastIndex authority [64] in
  let? host := match i with
               | None => parseHost authority
               | Some i => parseHost (skipn (S i) authority)
               end in
  match i with
  | None => Ok (None, host)
  | Some i =>
      let ui := firstn i authority in
      if negb (validUserinfo ui) then uerr "net/url: invalid userinfo" else
      if negb (Contains ui [58]) then
        let? u := unescape ui encodeUserPassword in
        Ok (Some (mkUserinfo u [] false), host)
      else
        let '(name, pass, _) := Cut ui [58] in
        let? name := unescape name encodeUserPassword in
        let? pass := unescape pass encodeUserPassword in
        Ok (Some (mkUserinfo name pass true), host)
  end.

(** [func (u *URL) setPath(p string) error]: [Path] and [RawPath]. *)
Definition setPath (p : list Z) : result (list Z * list Z) :=
  let? path := unescape p encodePath in
  Ok (path, if bytes_eq p (escape path encodePath) then [] else p).

(** [func (u *URL) setFragment(f string) error]: [Fragment] and
    [RawFragment]. *)
Definition setFragment (f : list Z) : result (list Z * list Z) :=
  let? frag := unescape f encodeFragment in
  Ok (frag, if bytes_eq f (escape frag encodeFragment) then [] else f).

(** [func stringContainsCTLByte(s string) bool] *)
Definition stringContainsCTLByte (s : list Z) : bool :=
  existsb (fun b => (b <? 32) || (b =? 127)) s.

(** The authority part of [parse]: user, host, [OmitHost], and the rest
    of the text. *)
Definition parse_authority_part (scheme rest : list Z) (viaRequest : bool)
  : result (option userinfo * list Z * bool * list Z) :=
  if (negb (is_nil scheme) || (negb viaRequest && negb (HasPrefix rest [47; 47; 47])))
     && HasPrefix rest [47; 47] then
    let authority := skipn 2 rest in
    let '(authority, rest) :=
      match Index authority [47] with
      | Some i => (firstn i authority, skipn i authority)
      | None => (authority, [])
      end in
    let? (user, host) := parseAuthority authority in
    Ok (user, host, false, rest)
  else if negb (is_nil scheme) && HasPrefix rest [47] then Ok (None, [], true, rest)
  else Ok (None, [], false, rest).

(** [func parse(rawURL string, viaRequest bool) ( *URL, error)] *)
Definition parse (rawURL : list Z) (viaRequest : bool) : result URL :=
  if stringContainsCTLByte rawURL then uerr "net/url: invalid control character in URL" else
  if is_nil rawURL && viaRequest then uerr "empty url" else
  if bytes_eq rawURL [42] then Ok {| Scheme := []; Opaque := []; User := None; Host := [];
                                      Path := [42]; RawPath := []; OmitHost := false;
                                      ForceQuery := false; RawQuery := []; Fragment := [];
                                      RawFragment := [] |} else
  let? (scheme, rest) := getScheme rawURL in
  let scheme := ToLower scheme in
  let '(rest, forceQuery, rawQuery) :=
    if HasSuffix rest [63] && (CountByte rest 63 =? 1)%nat
    then (firstn (length rest - 1) rest, true, [])
    else let '(r, q, _) := Cut rest [63] in (r, false, q) in
  if negb (HasPrefix rest [47]) && negb (is_nil scheme) then
    Ok (mkURL scheme rest None [] [] [] false forceQuery rawQuery [] [])
  else if negb (HasPrefix rest [47]) && viaRequest then uerr "invalid URI for request"
  else if negb (HasPrefix rest [47]) && (let '(seg, _, _) := Cut rest [47] in Contains seg [58])
  then uerr "first path segment in URL cannot contain colon"
  else
  let? (user, host, omitHost, rest) := parse_authority_part scheme rest viaRequest in
  let? (path, rawPath) := setPath rest in
  Ok (mkURL scheme [] user host path rawPath omitHost forceQuery rawQuery [] []).

(** [func (e *Error) Error() string]: [fmt.Sprintf("%s %q: %s", e.Op, e.URL, e.Err)]. *)
Definition url_error {A} (op : string) (u : list Z) (e : goerror) : result A :=
  uerr (op ++ " " ++ Quote (string_of_bytes u) ++ ": " ++ error_text e)%string.

(** [func Parse(rawURL string) ( *URL, error)] *)
Definition Parse (rawURL : list Z) : result URL :=
  let '(u, frag, _) := Cut rawURL [35] in
  match parse u false with
  | Err e => url_error "parse" u e
  | Ok url =>
      if is_nil frag then Ok url else
      match setFragment frag with
      | Err e => url_error "parse" rawURL e
      | Ok (f, rf) =>
          Ok {| Scheme := Scheme url; Opaque := Opaque url; User := User url; Host := Host url;
                Path := Path url; RawPath := RawPath url; OmitHost := OmitHost url;
                ForceQuery := ForceQuery url; RawQuery := RawQuery url;
                Fragment := f; RawFragment := rf |}
      end
  end.

(** [func splitHostPort(hostPort string) (host, port string)]: the
    port after the last colon when [validOptionalPort] accepts it, and
    the brackets of an IPv6 literal removed from the host. *)
Definition splitHostPort (hostPort : list Z) : list Z * list Z :=
  let '(host, port) :=
    match last_index_byte 58 hostPort with
    | Some colon =>
        if validOptionalPort (skipn colon hostPort)
        then (firstn colon hostPort, skipn (S colon) hostPort)
        else (hostPort, [])
    | None => (hostPort, [])
    end in
  if HasPrefix host [91] && HasSuffix host [93]
  then (firstn (length host - 2) (skipn 1 host), port) else (host, port).

(** [func (u *URL) Port() string] *)
Definition Port (u : URL) : list Z := snd (splitHostPort (Host u)).

(** [func (u *URL) Hostname() string] *)
Definition Hostname (u : URL) : list Z := fst (splitHostPort (Host u)).

End URL.

(** ** The URL [run] builds *)

Import URL.

(** The bytes a host name may hold without brackets or escapes: letters,
    digits and RFC 3986's unreserved marks [-], [.], [_], [~]. *)
Definition reg_byte (c : Z) : bool := is_alnum c || in_bytes c [45; 46; 95; 126].

(** The same with [:], as in an IPv6 literal written without brackets. *)
Definition host_byte (c : Z) : bool := reg_byte c || (c =? 58).

(** Bytes [parse] treats as they come in an authority: no fragment,
    query, path or user separator, no control byte. *)
Definition auth_byte (c : Z) : bool :=
  negb (in_bytes c [35; 63; 47; 64]) && negb ((c <? 32) || (c =? 127)).

Lemma HasPrefix_single s c : HasPrefix s [c] = match s with [] => false | x :: _ => c =? x end.
Proof. destruct s as [|x s]; cbn; [reflexivity|]. now destruct (c =? x), s. Qed.

Lemma Index_single s c : Index s [c] = index_byte c s.
Proof.
  induction s as [|x s IH]; [reflexivity|]. cbn [Index index_byte].
  rewrite HasPrefix_single, Z.eqb_sym. destruct (x =? c); [reflexivity|]. now rewrite IH.
Qed.

Lemma LastIndex_single s c : LastIndex s [c] = last_index_byte c s.
Proof.
  unfold LastIndex, last_index_byte. cbn [is_nil rev app]. rewrite Index_single.
  destruct (index_byte c (rev s)); cbn [length]; f_equal; lia.
Qed.

(** [Index] of a pattern whose first byte is absent. *)
Lemma Index_noc s c l : noc c s = true -> Index s (c :: l) = None.
Proof.
  induction s as [|x s IH]; cbn [noc forallb]; intros H; [reflexivity|].
  apply andb_prop in H as [Hx H]. apply negb_true_iff in Hx. cbn [Index HasPrefix].
  rewrite Z.eqb_sym, Hx. cbn. now rewrite IH.
Qed.

Lemma in_bytes_spec c l : in_bytes c l = true <-> In c l.
Proof.
  unfold in_bytes. rewrite existsb_exists. split.
  - intros (x & Hx & E). apply Z.eqb_eq in E. now subst.
  - intros H. exists c. split; [exact H|apply Z.eqb_refl].
Qed.

(** A byte outside a class is absent from a list in it. *)
Lemma forallb_noc (p : Z -> bool) c l : forallb p l = true -> p c = false -> noc c l = true.
Proof.
  intros H Hc. unfold noc. rewrite forallb_forall in *. intros x Hx.
  apply negb_true_iff, Z.eqb_neq. intros ->. rewrite H in Hc by exact Hx. discriminate.
Qed.

Lemma host_byte_escape c : host_byte c = true -> shouldEscape c encodeHost = false.
Proof.
  unfold host_byte, reg_byte, shouldEscape. destruct (is_alnum c); [reflexivity|].
  cbn [orb is_host_mode andb]. intros H.
  destruct (in_bytes c [45; 46; 95; 126]) eqn:E.
  - apply in_bytes_spec in E. cbn in E.
    destruct E as [<-|[<-|[<-|[<-|[]]]]]; reflexivity.
  - apply Z.eqb_eq in H. now subst.
Qed.

Lemma unescape_host h : forallb host_byte h = true -> unescape h encodeHost = Ok h.
Proof.
  intros H. unfold unescape.
  enough (E : forall n, unescape_scan encodeHost h n false = Ok (n, false)) by (rewrite E; reflexivity).
  induction h as [|c h IH]; intros n; [reflexivity|]. cbn [forallb] in H.
  apply andb_prop in H as [Hc H]. cbn [unescape_scan].
  destruct (Z.eqb_spec c 37) as [->|]; [discriminate|].
  destruct (Z.eqb_spec c 43) as [->|]; [discriminate|].
  rewrite host_byte_escape by exact Hc. rewrite andb_false_r. now apply IH.
Qed.

Lemma HasSuffix_noc s c : noc c s = true -> HasSuffix s [c] = false.
Proof.
  intros H. unfold HasSuffix. cbn [rev app]. rewrite HasPrefix_single.
  rewrite <- noc_rev in H. destruct (rev s) as [|x r]; [reflexivity|].
  cbn [noc forallb] in H. apply andb_prop in H as [Hx _]. apply negb_true_iff in Hx.
  now rewrite Z.eqb_sym.
Qed.

Lemma auth_noc c hp : forallb auth_byte hp = true -> In c [35; 63; 47; 64] -> noc c hp = true.
Proof.
  intros H Hc. apply (forallb_noc auth_byte); [exact H|].
  unfold auth_byte. apply andb_false_intro1. apply negb_false_iff, in_bytes_spec, Hc.
Qed.

Lemma auth_no_ctl hp : forallb auth_byte hp = true -> stringContainsCTLByte hp = false.
Proof.
  unfold stringContainsCTLByte. intros H. apply not_true_iff_false. intros E.
  apply existsb_exists in E as (x & Hx & Ex). rewrite forallb_forall in H.
  specialize (H x Hx). unfold auth_byte in H. rewrite Ex in H. now rewrite andb_false_r in H.
Qed.

Definition nats_scheme : list Z := [110; 97; 116; 115].

(** [url.Parse("nats://" + hp)] for an authority [hp] with no fragment,
    query, path or user part is the URL of scheme [nats] whose host is
    what [parseHost] makes of [hp]. *)
Lemma last_index_byte_noc c l : noc c l = true -> last_index_byte c l = None.
Proof. intros H. unfold last_index_byte. now rewrite index_byte_noc_nil by now rewrite noc_rev. Qed.

Lemma Cut_noc s c : noc c s = true -> Cut s [c] = (s, [], false).
Proof. intros H. unfold Cut. now rewrite Index_single, index_byte_noc_nil. Qed.

(** [parseAuthority] of an authority without [@]. *)
Lemma parseAuthority_host a :
  noc 64 a = true -> parseAuthority a = let? host := parseHost a in Ok (None, host).
Proof.
  intros H. unfold parseAuthority. rewrite LastIndex_single, last_index_byte_noc by exact H.
  now destruct (parseHost a).
Qed.

(** [url.Parse("nats://" + hp)] for an authority [hp] with no fragment,
    query, path or user part is the URL of scheme [nats] whose host is
    what [parseHost] makes of [hp]. *)
Lemma Parse_nats hp :
  forallb auth_byte hp = true ->
  Parse (zbytes "nats://" ++ hp) =
  match parseHost hp with
  | Ok host => Ok (mkURL nats_scheme [] None host [] [] false false [] [] [])
  | Err e => url_error "parse" (zbytes "nats://" ++ hp) e
  end.
Proof.
  intros H. change (zbytes "nats://") with ([110; 97; 116; 115; 58; 47; 47] : list Z).
  assert (N : forall c, In c [35; 63; 47; 64] -> noc c hp = true) by (intros; apply auth_noc; auto).
  set (raw := [110; 97; 116; 115; 58; 47; 47] ++ hp).
  assert (Hs : getScheme raw = Ok (nats_scheme, [47; 47] ++ hp)) by reflexivity.
  assert (Hr : noc 63 ([47; 47] ++ hp) = true) by (rewrite noc_app, (N 63) by (cbn; auto); reflexivity).
  unfold Parse. rewrite Cut_noc by (unfold raw; rewrite noc_app, (N 35) by (cbn; auto); reflexivity).
  unfold parse.
  replace (stringContainsCTLByte raw) with false
    by (unfold raw, stringContainsCTLByte; rewrite existsb_app; symmetry; apply auth_no_ctl, H).
  replace (bytes_eq raw [42]) with false by reflexivity.
  replace (is_nil raw) with false by reflexivity.
  cbn [is_nil andb]. rewrite Hs. cbn [rbind].
  change (ToLower nats_scheme) with nats_scheme.
  rewrite HasSuffix_noc, Cut_noc by exact Hr. cbn [andb negb HasPrefix app Z.eqb Pos.eqb].
  unfold parse_authority_part. change (is_nil nats_scheme) with false.
  cbn [is_nil negb orb HasPrefix app andb Z.eqb Pos.eqb skipn].
  rewrite Index_single, index_byte_noc_nil by (apply N; cbn; auto).
  rewrite parseAuthority_host by (apply N; cbn; auto).
  destruct (parseHost hp); reflexivity.
Qed.


Lemma host_byte_range c :
  host_byte c = true ->
  (48 <= c <= 58) \/ (65 <= c <= 90) \/ (97 <= c <= 122) \/ c = 45 \/ c = 46 \/ c = 95 \/ c = 126.
Proof.
  unfold host_byte, reg_byte, is_alnum, is_alpha, is_dec_byte. intros H.
  apply orb_true_iff in H as [H|H]; [|apply Z.eqb_eq in H; lia].
  apply orb_true_iff in H as [H|H].
  - rewrite !orb_true_iff, !andb_true_iff, !Z.leb_le in H. lia.
  - apply in_bytes_spec in H. cbn in H. lia.
Qed.

Lemma dec_host_byte c : is_dec_byte c = true -> host_byte c = true.
Proof. intros H. unfold host_byte, reg_byte, is_alnum. now rewrite H, orb_true_r. Qed.

Lemma reg_host_byte c : reg_byte c = true -> host_byte c = true.
Proof. unfold host_byte. now intros ->. Qed.

(** A host byte is none of the bytes [parse] and [parseHost] look for. *)
Lemma host_byte_not c x :
  host_byte c = true -> In x [35; 37; 43; 44; 47; 63; 64; 91; 93] -> c <> x.
Proof. intros H Hx ->. apply host_byte_range in H. cbn in Hx. lia. Qed.

Lemma host_noc x l :
  forallb host_byte l = true -> In x [35; 37; 43; 44; 47; 63; 64; 91; 93] -> noc x l = true.
Proof.
  intros H Hx. unfold noc. rewrite forallb_forall in *. intros c Hc.
  apply negb_true_iff, Z.eqb_neq, (host_byte_not c x); auto.
Qed.

Lemma host_auth c : host_byte c = true -> auth_byte c = true.
Proof.
  intros H. pose proof (host_byte_range c H) as R. unfold auth_byte.
  replace (in_bytes c [35; 63; 47; 64]) with false.
  - destruct (Z.ltb_spec c 32), (Z.eqb_spec c 127); cbn; try reflexivity; lia.
  - symmetry. apply not_true_iff_false. intros E. apply in_bytes_spec in E.
    apply (host_byte_not c c H); [cbn in E |- *; tauto|reflexivity].
Qed.

Lemma digits_noc x d : forallb is_dec_byte d = true -> ~ (48 <= x <= 57) -> noc x d = true.
Proof.
  intros H Hx. unfold noc. rewrite forallb_forall in *. intros c Hc. specialize (H c Hc).
  unfold is_dec_byte in H. rewrite andb_true_iff, !Z.leb_le in H.
  apply negb_true_iff, Z.eqb_neq. lia.
Qed.

Lemma skipn_len (l r : list Z) : skipn (length l) (l ++ r) = r.
Proof. rewrite <- (Nat.add_0_r (length l)), skipn_length_app. reflexivity. Qed.

Lemma HasPrefix_host h : forallb host_byte h = true -> HasPrefix h [91] = false.
Proof.
  intros H. rewrite HasPrefix_single. destruct h as [|c h]; [reflexivity|].
  cbn [forallb] in H. apply andb_prop in H as [Hc _].
  apply Z.eqb_neq. intros E. apply (host_byte_not c 91 Hc); [cbn; tauto|lia].
Qed.

Lemma HasPrefix_host_colon h d :
  forallb host_byte h = true -> HasPrefix (h ++ 58 :: d) [91] = false.
Proof.
  intros H. rewrite HasPrefix_single. destruct h as [|c h]; [reflexivity|].
  cbn [forallb] in H. apply andb_prop in H as [Hc _]. cbn [app].
  apply Z.eqb_neq. intros E. apply (host_byte_not c 91 Hc); [cbn; tauto|lia].
Qed.

(** [parseHost] of [host + ":" + port]: the text itself when the port
    is decimal, the [invalid port] error otherwise. *)
Lemma parseHost_colon h d :
  forallb host_byte h = true -> noc 58 d = true -> forallb host_byte d = true ->
  parseHost (h ++ 58 :: d) =
  if forallb is_dec_byte d then Ok (h ++ 58 :: d) else invalid_port (58 :: d).
Proof.
  intros Hh Hn Hd. unfold parseHost. rewrite HasPrefix_host_colon by exact Hh.
  rewrite LastIndex_single, last_colon by exact Hn. rewrite skipn_len.
  cbn [validOptionalPort negb]. rewrite Z.eqb_refl. cbn [andb].
  destruct (forallb is_dec_byte d); [|reflexivity]. cbn [negb].
  apply unescape_host. rewrite forallb_app. cbn [forallb]. now rewrite Hh, Hd.
Qed.

Lemma index_byte_before c h d : exists k, index_byte c (h ++ c :: d) = Some k /\ (k <= length h)%nat.
Proof.
  induction h as [|x h (k & Hk & Hle)]; cbn [app index_byte length].
  - rewrite Z.eqb_refl. exists 0%nat. split; [reflexivity|lia].
  - destruct (x =? c); [exists 0%nat; split; [reflexivity|lia]|].
    rewrite Hk. exists (S k). split; [reflexivity|lia].
Qed.

(** [splitHostPort] of [h + ":" + d] with a decimal [d] and [h] not
    bracketed: [h] and [d]. *)
Lemma splitHostPort_colon h d :
  forallb is_dec_byte d = true -> HasPrefix h [91] = false ->
  splitHostPort (h ++ 58 :: d) = (h, d).
Proof.
  intros Hd Hb. unfold splitHostPort.
  rewrite last_colon by (apply digits_noc; [exact Hd|lia]).
  rewrite skipn_len. cbn [validOptionalPort]. rewrite Z.eqb_refl, Hd. cbn [andb].
  replace (S (length h)) with (length h + 1)%nat by lia.
  rewrite firstn_length_app, skipn_length_app, Hb. reflexivity.
Qed.

(** [u.Port()] of a host [h + ":" + d] with a decimal [d]. *)
Lemma Port_colon u h d :
  Host u = h ++ 58 :: d -> forallb is_dec_byte d = true -> HasPrefix h [91] = false ->
  Port u = d.
Proof. intros Hu Hd Hb. unfold Port. now rewrite Hu, splitHostPort_colon. Qed.

(** [u.Hostname()] of a host [h + ":" + d] with a decimal [d]. *)
Lemma Hostname_colon u h d :
  Host u = h ++ 58 :: d -> forallb is_dec_byte d = true -> HasPrefix h [91] = false ->
  Hostname u = h.
Proof.
  intros Hu Hd Hb. unfold Hostname. now rewrite Hu, splitHostPort_colon.
Qed.
