(* ===== verification/Pool.v ===== *)
(** * The server pool of [nats.Connect] (src/main.go:71-72)

    [nats.Connect(url, opt)] turns the URL [run] builds into a pool of
    servers before it dials: [processUrlString] splits it at commas and
    trims each piece; [setupServerPool] passes each piece to
    [addURLToPool], which prefixes a scheme when the piece has none,
    parses it with [url.Parse] (twice when it has no port, after adding
    [":4222"]) and refuses to mix websocket and plain URLs; the pool is
    then shuffled ([shufflePool], a Fisher-Yates pass) and falls back to
    [DefaultURL] when empty.  For each server, [createConn] dials the
    addresses [net.LookupHost] gives for its host name, joined to its
    port (the host itself when it is an IP literal or the lookup fails),
    in an order [rand.Shuffle] chooses.

    What the system chooses is a parameter of the section: the answer of
    the system resolver ([lookup_dns], empty on error) and the random
    draws of the two shuffles ([pool_pick i] is [r.Intn(i+1)] at step
    [i] of [shufflePool], [hosts_pick k i] the draw at step [i] of the
    shuffle of the [k]-th server's addresses).  The theorems show that
    the shuffles only reorder (a [Permutation] whatever the draws) and
    give the pool of the URL [run] writes. *)

From Stdlib Require Import String Ascii List ZArith Lia Bool Permutation.
From S2P Require Import Prelude Utf8 Strconv Ip Resolve GoStrings Url.
Import ListNotations.
Import URL.
Local Open Scope Z_scope.
Local Open Scope go_scope.

(** [slice[k] = v] on an index inside the slice. *)
Definition set_at {A} (l : list A) (k : nat) (v : A) : list A :=
  firstn k l ++ v :: skipn (S k) l.

(** [slice[i], slice[j] = slice[j], slice[i]] on indices inside the
    slice (Go panics outside, which the callers never reach). *)
Definition swap {A} (l : list A) (i j : nat) : list A :=
  match nth_error l i, nth_error l j with
  | Some x, Some y => set_at (set_at l j x) i y
  | _, _ => l
  end.

(** The loop of [shufflePool(0)]: [for i := 0; i < len(nc.srvPool); i++
    { j := r.Intn(i + 1); swap(i, j) }]. *)
Fixpoint shuffle_up {A} (pick : nat -> nat) (i fuel : nat) (l : list A) : list A :=
  match fuel with
  | O => l
  | S fuel => shuffle_up pick (S i) fuel (swap l i (pick i))
  end.

(** The loop of [rand.Shuffle(n, swap)]: [for i := n - 1; i > 0; i--
    { j := int(r.int31n(int32(i + 1))); swap(i, j) }] (the loop over
    [Int63n] for [i] beyond [2^31 - 2] never runs on a list of
    addresses). *)
Fixpoint shuffle_down {A} (pick : nat -> nat) (i : nat) (l : list A) : list A :=
  match i with
  | O => l
  | S i' => shuffle_down pick i' (swap l i (pick i))
  end.

Definition Shuffle {A} (pick : nat -> nat) (l : list A) : list A :=
  shuffle_down pick (length l - 1) l.

(** [func (nc *Conn) shufflePool(offset int)] with [offset = 0] and
    [NoRandomize] unset. *)
Definition shufflePool {A} (pick : nat -> nat) (pool : list A) : list A :=
  if (length pool <=? 1)%nat then pool else shuffle_up pick 0 (length pool) pool.

(** [func processUrlString(url string) []string] *)
Definition processUrlString (url : list Z) : list (list Z) :=
  filter (fun u => negb (is_nil u)) (map TrimSpace (Split url 44)).

(** [func (nc *Conn) connScheme() string] *)
Definition connScheme (ws secure : bool) : list Z :=
  if ws then (if secure then zbytes "wss" else zbytes "ws")
  else if secure then zbytes "tls" else zbytes "nats".

(** [func isWebsocketScheme(u *url.URL) bool] *)
Definition isWebsocketScheme (u : URL) : bool :=
  let s := ToLower (Scheme u) in bytes_eq s (zbytes "ws") || bytes_eq s (zbytes "wss").

(** [DefaultPort] of [GetDefaultOptions], [nc.Opts.Port]. *)
Definition DefaultPort : Z := 4222.

(** The text [addURLToPool] appends to a URL without a port:
    [":"] unless it ends with one, then the default port of its scheme. *)
Definition add_default_port (sURL : list Z) (u : URL) : list Z :=
  (if last sURL 0 =? 58 then sURL else sURL ++ [58]) ++
  (if bytes_eq (Scheme u) (zbytes "ws") then zbytes "80"
   else if bytes_eq (Scheme u) (zbytes "wss") then zbytes "443"
   else zbytes (Itoa DefaultPort)).

(** The loop [for i := 0; i < 2; i++] of [addURLToPool]: parse, stop
    when the URL has a port, otherwise add the default one and parse
    again. *)
Definition parse_with_port (sURL : list Z) : result URL :=
  let? u := Parse sURL in
  if negb (is_nil (Port u)) then Ok u else Parse (add_default_port sURL u).

(** [func (nc *Conn) addURLToPool(sURL string, implicit, saveTLSName
    bool) error] with [implicit] and [saveTLSName] false: the pool and
    [nc.ws].  [nc.Opts.Secure] is still false while the pool is built. *)
Definition addURLToPool (st : list URL * bool) (sURL : list Z) : result (list URL * bool) :=
  let '(pool, ws) := st in
  let sURL := if Contains sURL (zbytes "://") then sURL
              else connScheme ws false ++ zbytes "://" ++ sURL in
  let? u := parse_with_port sURL in
  let isWS := isWebsocketScheme u in
  if is_nil pool then Ok ([u], isWS)
  else if (isWS && negb ws) || (negb isWS && ws)
  then Err (UrlError "mixing of websocket and non websocket URLs is not allowed")
  else Ok (pool ++ [u], ws).

Fixpoint add_all (st : list URL * bool) (servers : list (list Z)) : result (list URL * bool) :=
  match servers with
  | [] => Ok st
  | s :: rest => let? st := addURLToPool st s in add_all st rest
  end.

(** [DefaultURL] *)
Definition DefaultURL : string := "nats://127.0.0.1:4222".

(** Whether [setupServerPool] switches [nc.Opts.Secure] on: a server of
    scheme [tls] or [wss]. *)
Definition pool_secure (pool : list URL) : bool :=
  existsb (fun u => bytes_eq (Scheme u) (zbytes "tls") || bytes_eq (Scheme u) (zbytes "wss")) pool.

(** [func ParseIP(s string) IP]: [None] is [nil], an address with a
    zone included. *)
Definition ParseIP (s : list Z) : option (list Z) :=
  match Parse.ParseAddr s with
  | Ok a => if is_nil (Parse.Zone a) then Some (Resolver.To16 (Parse.AsSlice a)) else None
  | Err _ => None
  end.

Section Pool.
Variable lookup_dns : list Z -> list string.
Variable pool_pick : nat -> nat.
Variable hosts_pick : nat -> nat -> nat.

(** [func (nc *Conn) setupServerPool() error] with [nc.Opts.Url]
    empty, as [nats.Connect] leaves it: the pool, [pickServer]'s error
    when it is empty. *)
Definition setupServerPool (servers : list (list Z)) : result (list URL) :=
  let? (pool, ws) := add_all ([], false) servers in
  let pool := shufflePool pool_pick pool in
  let? (pool, ws) := if is_nil pool then addURLToPool (pool, ws) (zbytes DefaultURL)
                     else Ok (pool, ws) in
  if is_nil pool then Err (NatsError ErrNoServers) else Ok pool.

(** The pool of [nats.Connect(url, ...)]. *)
Definition server_pool (url : string) : result (list URL) :=
  setupServerPool (processUrlString (zbytes url)).

(** [net.LookupHost(host)], whose error [createConn] drops: nothing for
    the empty name, the name itself for an IP literal (zone included),
    the resolver's answer otherwise. *)
Definition LookupHost (host : list Z) : list string :=
  if is_nil host then [] else
  match Parse.ParseAddr host with
  | Ok _ => [zstr host]
  | Err _ => lookup_dns host
  end.

(** The addresses [createConn] dials for the [k]-th server [u] of the
    pool, in order. *)
Definition conn_hosts (k : nat) (u : URL) : list string :=
  let hosts := match ParseIP (Hostname u) with
               | Some _ => []
               | None => map (fun a => Resolver.JoinHostPort a (zstr (Port u))) (LookupHost (Hostname u))
               end in
  let hosts := if is_nil hosts then [zstr (Host u)] else hosts in
  if (1 <? length hosts)%nat then Shuffle (hosts_pick k) hosts else hosts.
End Pool.

(** ** The shuffles only reorder *)

Lemma set_at_app {A} (l r : list A) (z v : A) : set_at (l ++ z :: r) (length l) v = l ++ v :: r.
Proof.
  unfold set_at. rewrite firstn_app, Nat.sub_diag, firstn_all, app_nil_r. f_equal.
  rewrite skipn_app, skipn_all2 by lia. replace (S (length l) - length l)%nat with 1%nat by lia.
  reflexivity.
Qed.

(** Two elements exchanged around a middle part. *)
Lemma perm_exchange {A} (x y : A) m r : Permutation (x :: m ++ y :: r) (y :: m ++ x :: r).
Proof.
  rewrite <- !Permutation_middle. apply perm_swap.
Qed.

(** [swap(i, j)] with [j <= i], the only case the shuffles make: a
    permutation (nothing moves when [i] is outside the slice). *)
Lemma swap_perm {A} (l : list A) i j : (j <= i)%nat -> Permutation (swap l i j) l.
Proof.
  intros Hji. unfold swap.
  destruct (nth_error l i) as [x|] eqn:Hx; [|reflexivity].
  destruct (nth_error l j) as [y|] eqn:Hy; [|reflexivity].
  destruct (nth_error_split l j Hy) as (l1 & l2 & -> & Hl1).
  rewrite <- Hl1, set_at_app.
  destruct (Nat.eq_dec i j) as [->|Hne].
  - rewrite <- Hl1, nth_error_app2, Nat.sub_diag in Hx by lia. cbn in Hx. injection Hx as ->.
    rewrite <- Hl1, set_at_app. reflexivity.
  - rewrite nth_error_app2 in Hx by lia.
    replace (i - length l1)%nat with (S (i - length l1 - 1)) in Hx by lia. cbn in Hx.
    destruct (nth_error_split l2 _ Hx) as (l3 & l4 & -> & Hl3).
    replace (l1 ++ x :: l3 ++ x :: l4) with ((l1 ++ x :: l3) ++ x :: l4)
      by now rewrite <- app_assoc.
    replace i with (length (l1 ++ x :: l3)) by (rewrite length_app; cbn; lia).
    rewrite set_at_app, <- app_assoc. cbn [app].
    apply Permutation_app_head, perm_exchange.
Qed.

Section Shuffles.
Variable pick : nat -> nat.
Hypothesis pick_le : forall i, (pick i <= i)%nat.

Lemma shuffle_up_perm {A} i fuel (l : list A) : Permutation (shuffle_up pick i fuel l) l.
Proof.
  revert i l; induction fuel as [|fuel IH]; intros i l; [reflexivity|]. cbn [shuffle_up].
  rewrite IH. apply swap_perm, pick_le.
Qed.

Lemma shuffle_down_perm {A} i (l : list A) : Permutation (shuffle_down pick i l) l.
Proof.
  revert l; induction i as [|i IH]; intros l; [reflexivity|]. cbn [shuffle_down].
  rewrite IH. apply swap_perm, pick_le.
Qed.

(** [shufflePool] and [rand.Shuffle] keep every element, whatever the
    draws of the random source. *)
Lemma shufflePool_perm {A} (pool : list A) : Permutation (shufflePool pick pool) pool.
Proof. unfold shufflePool. destruct (length pool <=? 1)%nat; [reflexivity|apply shuffle_up_perm]. Qed.

Lemma Shuffle_perm {A} (l : list A) : Permutation (Shuffle pick l) l.
Proof. apply shuffle_down_perm. Qed.
End Shuffles.

(** C39: whatever the draws of the random source, as long as each swap
    index lies within the part of the slice the loop has reached, the two
    shuffles of nats.go, [shufflePool] on the servers and [rand.Shuffle]
    on the addresses of a server, only reorder: every server and every
    address is kept, each as many times as it was there. *)
Theorem shuffles_keep_servers (pick hpick : nat -> nat) (pool : list URL) (hosts : list string) :
  (forall i, (pick i <= i)%nat) -> (forall i, (hpick i <= i)%nat) ->
  Permutation (shufflePool pick pool) pool /\ Permutation (Shuffle hpick hosts) hosts.
Proof. intros Hp Hh. split; [apply shufflePool_perm, Hp|apply Shuffle_perm, Hh]. Qed.

(** ** The pool of the URL [run] builds *)

(** The bytes [processUrlString] keeps as they are: ASCII, not a space. *)
Definition visible (c : Z) : bool := (c <? 128) && negb (asciiSpace c).

Lemma split_loop_noc c s cur : noc c s = true -> split_loop c s cur = [rev cur ++ s].
Proof.
  revert cur; induction s as [|x s IH]; intros cur H; cbn [split_loop].
  - now rewrite app_nil_r.
  - cbn [noc forallb] in H. apply andb_prop in H as [Hx H]. apply negb_true_iff in Hx.
    rewrite Hx, IH by exact H. cbn [rev]. now rewrite <- app_assoc.
Qed.

Lemma split_loop_at c a b cur :
  noc c a = true -> split_loop c (a ++ c :: b) cur = (rev cur ++ a) :: split_loop c b [].
Proof.
  revert cur; induction a as [|x a IH]; intros cur H; cbn [split_loop app].
  - now rewrite Z.eqb_refl, app_nil_r.
  - cbn [noc forallb] in H. apply andb_prop in H as [Hx H]. apply negb_true_iff in Hx.
    rewrite Hx, IH by exact H. cbn [rev]. now rewrite <- app_assoc.
Qed.

Lemma space_start_visible c s : visible c = true -> space_start (c :: s) = (false, c :: s).
Proof.
  unfold visible. intros H. apply andb_prop in H as [H1 H2]. apply negb_true_iff in H2.
  cbn [space_start]. unfold RuneSelf. rewrite H2.
  destruct (Z.leb_spec 128 c); [apply Z.ltb_lt in H1; lia|reflexivity].
Qed.

(** [TrimSpace] leaves a text that starts and ends with a visible byte. *)
Lemma TrimSpace_visible s : forallb visible s = true -> s <> [] -> TrimSpace s = s.
Proof.
  intros H Hs. unfold TrimSpace. destruct s as [|c s]; [contradiction|].
  cbn [forallb] in H. apply andb_prop in H as [Hc H]. rewrite space_start_visible by exact Hc.
  destruct (rev (c :: s)) as [|x r] eqn:E;
    [apply (f_equal (@length Z)) in E; rewrite length_rev in E; discriminate|].
  rewrite space_start_visible.
  - now rewrite <- E, rev_involutive.
  - assert (Hin : In x (c :: s)) by (apply in_rev; rewrite E; left; reflexivity).
    destruct Hin as [<-|Hin]; [exact Hc|]. rewrite forallb_forall in H. now apply H.
Qed.

Lemma host_visible c : host_byte c = true -> visible c = true.
Proof.
  intros H. apply host_byte_range in H. unfold visible, asciiSpace.
  destruct (Z.ltb_spec c 128); [|lia]. cbn [andb].
  repeat match goal with |- context [?c =? ?k] => destruct (Z.eqb_spec c k); [lia|] end.
  reflexivity.
Qed.

(** The pieces of [processUrlString] when each is visible, comma-free
    and non-empty. *)
Lemma processUrlString_one s :
  forallb visible s = true -> noc 44 s = true -> s <> [] -> processUrlString s = [s].
Proof.
  intros Hv Hc Hs. unfold processUrlString, Split. rewrite split_loop_noc by exact Hc.
  cbn [rev app map]. rewrite TrimSpace_visible by assumption. cbn [filter].
  destruct s; [contradiction|reflexivity].
Qed.

Lemma processUrlString_two a b :
  forallb visible a = true -> noc 44 a = true -> a <> [] ->
  forallb visible b = true -> noc 44 b = true -> b <> [] ->
  processUrlString (a ++ 44 :: b) = [a; b].
Proof.
  intros Ha Hac Hae Hb Hbc Hbe. unfold processUrlString, Split.
  rewrite split_loop_at, split_loop_noc by assumption. cbn [rev app map].
  rewrite !TrimSpace_visible by assumption. cbn [filter].
  destruct a, b; solve [contradiction | reflexivity].
Qed.

Definition nats_prefix : list Z := [110; 97; 116; 115; 58; 47; 47].

Lemma nats_prefix_bytes : zbytes "nats://" = nats_prefix.
Proof. reflexivity. Qed.

(** The URL of scheme [nats] and host [host], as [url.Parse] gives it. *)
Definition nats_url (host : list Z) : URL :=
  mkURL nats_scheme [] None host [] [] false false [] [] [].

Lemma forallb_host_auth l : forallb host_byte l = true -> forallb auth_byte l = true.
Proof. rewrite !forallb_forall. intros H x Hx. now apply host_auth, H. Qed.

Lemma forallb_dec_host l : forallb is_dec_byte l = true -> forallb host_byte l = true.
Proof. rewrite !forallb_forall. intros H x Hx. now apply dec_host_byte, H. Qed.

Lemma host_colon h d :
  forallb host_byte h = true -> forallb host_byte d = true -> forallb host_byte (h ++ 58 :: d) = true.
Proof. intros Hh Hd. rewrite forallb_app. cbn [forallb]. now rewrite Hh, Hd. Qed.

(** [url.Parse("nats://" + h + ":" + d)] *)
Lemma Parse_hostport h d :
  forallb host_byte h = true -> noc 58 d = true -> forallb host_byte d = true ->
  Parse (nats_prefix ++ h ++ 58 :: d) =
  if forallb is_dec_byte d then Ok (nats_url (h ++ 58 :: d))
  else url_error "parse" (nats_prefix ++ h ++ 58 :: d) (UrlError (
         "invalid port " ++ Quote (string_of_bytes (58 :: d)) ++ " after host")).
Proof.
  intros Hh Hn Hd. rewrite <- nats_prefix_bytes, Parse_nats by (apply forallb_host_auth, host_colon; auto).
  rewrite parseHost_colon by assumption. now destruct (forallb is_dec_byte d).
Qed.

(** [url.Parse] fails on ["nats://" + h + ":" + d] when the port [d] is
    not decimal (a negative one, say), and so does the pool. *)
Lemma setupServerPool_badport pick h d :
  forallb host_byte h = true -> noc 58 d = true -> forallb host_byte d = true ->
  forallb is_dec_byte d = false ->
  setupServerPool pick (processUrlString (nats_prefix ++ h ++ 58 :: d)) =
  url_error "parse" (nats_prefix ++ h ++ 58 :: d)
    (UrlError ("invalid port " ++ Quote (string_of_bytes (58 :: d)) ++ " after host")).
Proof.
  intros Hh Hn Hdh Hd.
  assert (Hall : forallb host_byte (h ++ 58 :: d) = true) by (apply host_colon; auto).
  rewrite processUrlString_one.
  2:{ rewrite forallb_app. apply andb_true_intro. split; [reflexivity|].
      rewrite forallb_forall in *. intros x Hx. now apply host_visible, Hall. }
  2:{ rewrite noc_app. apply andb_true_intro. split; [reflexivity|]. apply host_noc; cbn; auto. }
  2:{ discriminate. }
  unfold setupServerPool, add_all, addURLToPool. cbn [rbind].
  replace (Contains _ (zbytes "://")) with true by reflexivity.
  unfold parse_with_port. rewrite Parse_hostport, Hd by assumption. reflexivity.
Qed.

Lemma length_set_at {A} (l : list A) k v : (k < length l)%nat -> length (set_at l k v) = length l.
Proof.
  intros Hk. unfold set_at. rewrite length_app. cbn [length]. rewrite length_firstn, length_skipn. lia.
Qed.

Lemma length_swap {A} (l : list A) i j : length (swap l i j) = length l.
Proof.
  unfold swap. destruct (nth_error l i) eqn:Hi; [|reflexivity].
  destruct (nth_error l j) eqn:Hj; [|reflexivity].
  assert (Hi' : (i < length l)%nat) by (apply nth_error_Some; congruence).
  assert (Hj' : (j < length l)%nat) by (apply nth_error_Some; congruence).
  rewrite !length_set_at; try rewrite length_set_at; lia.
Qed.

Lemma length_shufflePool {A} pick (l : list A) : length (shufflePool pick l) = length l.
Proof.
  unfold shufflePool. destruct (length l <=? 1)%nat; [reflexivity|].
  generalize 0%nat. generalize (length l) at 1. intros n; revert l.
  induction n as [|n IH]; intros l i; [reflexivity|]. cbn [shuffle_up]. now rewrite IH, length_swap.
Qed.

Lemma length_Shuffle {A} pick (l : list A) : length (Shuffle pick l) = length l.
Proof.
  unfold Shuffle. generalize (length l - 1)%nat. intros n; revert l.
  induction n as [|n IH]; intros l; [reflexivity|]. cbn [shuffle_down]. now rewrite IH, length_swap.
Qed.

Lemma HasPrefix_noc_head s y l : noc y s = true -> HasPrefix s (y :: l) = false.
Proof.
  destruct s as [|w s]; [reflexivity|]. cbn [noc forallb HasPrefix]. intros H.
  apply andb_prop in H as [Hw _]. apply negb_true_iff in Hw. now rewrite Z.eqb_sym, Hw.
Qed.

(** No match of a pattern whose second byte is absent. *)
Lemma Index_noc2 s x y l : noc y s = true -> Index s (x :: y :: l) = None.
Proof.
  induction s as [|z s IH]; intros H; [reflexivity|].
  assert (Hs : noc y s = true) by (cbn [noc forallb] in H; now apply andb_prop in H as [_ H]).
  cbn [Index]. change (HasPrefix (z :: s) (x :: y :: l)) with ((x =? z) && HasPrefix s (y :: l)).
  rewrite HasPrefix_noc_head, andb_false_r, IH by exact Hs. reflexivity.
Qed.

Lemma reg_noc58 a : forallb reg_byte a = true -> noc 58 a = true.
Proof. intros H. apply (forallb_noc reg_byte); [exact H|reflexivity]. Qed.

Lemma forallb_reg_host a : forallb reg_byte a = true -> forallb host_byte a = true.
Proof. rewrite !forallb_forall. intros H x Hx. now apply reg_host_byte, H. Qed.

(** [parseHost] of a host name without colon or escape: itself. *)
Lemma parseHost_reg a : forallb reg_byte a = true -> parseHost a = Ok a.
Proof.
  intros H. unfold parseHost.
  replace (HasPrefix a [91]) with false.
  2:{ rewrite HasPrefix_single. destruct a as [|c a]; [reflexivity|]. symmetry.
      cbn [forallb] in H. apply andb_prop in H as [Hc _]. apply Z.eqb_neq.
      intros E. apply (host_byte_not c 91); [apply reg_host_byte, Hc|cbn; tauto|lia]. }
  rewrite LastIndex_single, last_index_byte_noc by now apply reg_noc58.
  apply unescape_host, forallb_reg_host, H.
Qed.

(** The last byte of ["nats://" + a] is not a colon. *)
Lemma last_nats_reg a : forallb reg_byte a = true -> (last (nats_prefix ++ a) 0 =? 58) = false.
Proof.
  intros H. destruct a as [|c a'] using rev_ind; [reflexivity|].
  rewrite app_assoc, last_last. rewrite forallb_app in H. cbn [forallb] in H.
  apply andb_prop in H as [_ H]. rewrite andb_true_r in H.
  apply Z.eqb_neq. intros ->. discriminate H.
Qed.

Lemma is_nil_length {A} (l : list A) n : length l = S n -> is_nil l = false.
Proof. destruct l; [discriminate|reflexivity]. Qed.

(** [parse_with_port] of ["nats://" + h + ":" + d] with a decimal port. *)
Lemma parse_with_port_hostport h d :
  forallb host_byte h = true -> forallb is_dec_byte d = true -> d <> [] ->
  parse_with_port (nats_prefix ++ h ++ 58 :: d) = Ok (nats_url (h ++ 58 :: d)).
Proof.
  intros Hh Hd Hne.
  assert (Hn : noc 58 d = true) by (apply digits_noc; [exact Hd|lia]).
  assert (Hall : forallb host_byte (h ++ 58 :: d) = true)
    by (apply host_colon; [exact Hh|apply forallb_dec_host, Hd]).
  unfold parse_with_port. rewrite Parse_hostport, Hd by (auto using forallb_dec_host). cbn [rbind].
  assert (H93 : noc 93 (h ++ 58 :: d) = true) by (apply host_noc; [exact Hall|cbn; tauto]).
  rewrite (Port_colon (nats_url (h ++ 58 :: d)) h d eq_refl Hd) by (apply HasPrefix_host, Hh).
  destruct d as [|x d]; [congruence|reflexivity].
Qed.

(** The pool of ["nats://" + h + ":" + d] for a decimal port [d]: one
    server, host [h + ":" + d]. *)
Lemma setupServerPool_hostport pick h d :
  forallb host_byte h = true -> forallb is_dec_byte d = true -> d <> [] ->
  setupServerPool pick (processUrlString (nats_prefix ++ h ++ 58 :: d)) =
  Ok [nats_url (h ++ 58 :: d)].
Proof.
  intros Hh Hd Hne.
  assert (Hall : forallb host_byte (h ++ 58 :: d) = true)
    by (apply host_colon; [exact Hh|apply forallb_dec_host, Hd]).
  rewrite processUrlString_one.
  2:{ rewrite forallb_app. apply andb_true_intro. split; [reflexivity|].
      rewrite forallb_forall in *. intros x Hx. now apply host_visible, Hall. }
  2:{ rewrite noc_app. apply andb_true_intro. split; [reflexivity|]. apply host_noc; cbn; auto. }
  2:{ discriminate. }
  unfold setupServerPool, add_all, addURLToPool. cbn [rbind].
  replace (Contains _ (zbytes "://")) with true by reflexivity.
  rewrite parse_with_port_hostport by assumption. reflexivity.
Qed.


(** [parse_with_port] of ["nats://" + a] without a port: nats.go adds
    [":4222"] and parses again. *)
Lemma parse_with_port_default a :
  forallb reg_byte a = true ->
  parse_with_port (nats_prefix ++ a) = Ok (nats_url (a ++ 58 :: zbytes "4222")).
Proof.
  intros Ha. unfold parse_with_port.
  rewrite <- nats_prefix_bytes, Parse_nats, parseHost_reg
    by (first [exact Ha | apply forallb_host_auth, forallb_reg_host, Ha]). cbn [rbind].
  change (mkURL nats_scheme [] None a [] [] false false [] [] []) with (nats_url a).
  assert (HP : Port (nats_url a) = []).
  { unfold Port, splitHostPort; cbn [Host nats_url].
    rewrite last_index_byte_noc by now apply reg_noc58.
    rewrite HasPrefix_host by (apply forallb_reg_host, Ha). reflexivity. }
  rewrite HP.
  cbn [is_nil negb]. unfold add_default_port.
  rewrite nats_prefix_bytes, last_nats_reg by exact Ha.
  change (if bytes_eq (Scheme (nats_url a)) (zbytes "ws") then zbytes "80"
          else if bytes_eq (Scheme (nats_url a)) (zbytes "wss") then zbytes "443"
          else zbytes (Itoa DefaultPort)) with (zbytes "4222").
  rewrite <- !app_assoc. cbn [app].
  rewrite Parse_hostport by (first [apply forallb_reg_host, Ha | reflexivity]). reflexivity.
Qed.

Lemma connScheme_nats s : connScheme false false ++ zbytes "://" ++ s = nats_prefix ++ s.
Proof. reflexivity. Qed.

(** [addURLToPool] of ["host:port"] without scheme, after a first
    plain server. *)
Lemma addURLToPool_noscheme u0 b d :
  forallb host_byte b = true -> forallb is_dec_byte d = true -> d <> [] ->
  addURLToPool ([u0], false) (b ++ 58 :: d) = Ok ([u0; nats_url (b ++ 58 :: d)], false).
Proof.
  intros Hb Hd Hne.
  assert (Hall : forallb host_byte (b ++ 58 :: d) = true)
    by (apply host_colon; [exact Hb|apply forallb_dec_host, Hd]).
  unfold addURLToPool.
  replace (Contains (b ++ 58 :: d) (zbytes "://")) with false
    by (unfold Contains; change (zbytes "://") with [58; 47; 47];
        now rewrite Index_noc2 by (apply host_noc; [exact Hall|cbn; tauto])).
  rewrite connScheme_nats, parse_with_port_hostport by assumption. reflexivity.
Qed.

(** A comma in the host: ["nats://" + a + "," + b + ":" + d] is two
    servers, [a] with nats.go's default port 4222 (not [d]) and [b]
    with [d], in the order the shuffle chooses. *)
Lemma setupServerPool_comma pick a b d :
  forallb reg_byte a = true -> forallb host_byte b = true ->
  forallb is_dec_byte d = true -> d <> [] ->
  setupServerPool pick (processUrlString (nats_prefix ++ a ++ 44 :: b ++ 58 :: d)) =
  Ok (shufflePool pick [nats_url (a ++ 58 :: zbytes "4222"); nats_url (b ++ 58 :: d)]).
Proof.
  intros Ha Hb Hd Hne.
  assert (Hah : forallb host_byte a = true) by (apply forallb_reg_host, Ha).
  assert (Hall : forallb host_byte (b ++ 58 :: d) = true)
    by (apply host_colon; [exact Hb|apply forallb_dec_host, Hd]).
  assert (Hvis : forall l, forallb host_byte l = true -> forallb visible l = true)
    by (intros l Hl; rewrite forallb_forall in *; intros x Hx; now apply host_visible, Hl).
  rewrite app_assoc, processUrlString_two.
  2:{ rewrite forallb_app, (Hvis a Hah). reflexivity. }
  2:{ rewrite noc_app, (host_noc 44 a Hah) by (cbn; tauto). reflexivity. }
  2:{ destruct a; discriminate. }
  2:{ now apply Hvis. }
  2:{ apply host_noc; [exact Hall|cbn; tauto]. }
  2:{ destruct b; discriminate. }
  unfold setupServerPool. cbn [add_all rbind].
  replace (addURLToPool ([], false) (nats_prefix ++ a))
    with (Ok ([nats_url (a ++ 58 :: zbytes "4222")], false) : result (list URL * bool))
    by (unfold addURLToPool; replace (Contains (nats_prefix ++ a) (zbytes "://")) with true
          by reflexivity; now rewrite parse_with_port_default).
  cbn [rbind]. rewrite addURLToPool_noscheme by assumption. cbn [rbind].
  assert (Hp : is_nil (shufflePool pick [nats_url (a ++ 58 :: zbytes "4222"); nats_url (b ++ 58 :: d)])
               = false) by (apply (is_nil_length _ 1); now rewrite length_shufflePool).
  rewrite Hp. cbn [rbind]. now rewrite Hp.
Qed.

(** The addresses [createConn] dials for a server whose host name is an
    IP literal without zone: its host as written. *)
Lemma conn_hosts_literal dns pick k h d :
  forallb is_dec_byte d = true -> HasPrefix h [91] = false -> ParseIP h <> None ->
  conn_hosts dns pick k (nats_url (h ++ 58 :: d)) = [zstr (h ++ 58 :: d)].
Proof.
  intros Hd Hb Hip. unfold conn_hosts.
  rewrite (Hostname_colon (nats_url (h ++ 58 :: d)) h d eq_refl Hd Hb).
  destruct (ParseIP h); [reflexivity|contradiction].
Qed.

(** [createConn] always has an address to dial. *)
Lemma conn_hosts_nonempty dns pick k u : conn_hosts dns pick k u <> [].
Proof.
  unfold conn_hosts. set (hs := match ParseIP (Hostname u) with Some _ => [] | None => _ end).
  destruct hs as [|x l] eqn:E; cbn [is_nil].
  - discriminate.
  - destruct (1 <? length (x :: l))%nat; [|discriminate].
    intros H. apply (f_equal (@length string)) in H. rewrite length_Shuffle in H. discriminate.
Qed.

(** ** What [net.Dial] sees of an unbracketed IPv6 host *)

Lemma string_of_bytes_zbytes s : string_of_bytes (zbytes s) = s.
Proof. exact (zstr_zbytes s). Qed.

Lemma index_byte_in c l : In c l -> exists k, index_byte c l = Some k.
Proof.
  induction l as [|x l IH]; [intros []|]. intros [->|Hin]; cbn [index_byte].
  - rewrite Z.eqb_refl. eauto.
  - destruct (x =? c); [eauto|]. destruct (IH Hin) as (k & ->). cbn. eauto.
Qed.

(** [net.SplitHostPort] rejects [h + ":" + d] when [h] already holds a
    colon and is not bracketed. *)
Lemma SplitHostPort_colons h d :
  forallb host_byte h = true -> In 58 h -> forallb is_dec_byte d = true ->
  Resolver.SplitHostPort (h ++ 58 :: d) =
  Err (NetError ("address " ++ zstr (h ++ 58 :: d) ++ ": too many colons in address")%string).
Proof.
  intros Hh Hc Hd. unfold Resolver.SplitHostPort.
  rewrite last_colon by (apply digits_noc; [exact Hd|lia]).
  replace (nth 0 (h ++ 58 :: d) 0 =? 91) with false.
  2:{ destruct h as [|c h]; [reflexivity|]. cbn in Hh |- *. apply andb_prop in Hh as [Hc' _].
      symmetry. apply Z.eqb_neq. intros E. apply (host_byte_not c 91 Hc'); [cbn; tauto|lia]. }
  rewrite firstn_length_app. destruct (index_byte_in 58 h Hc) as (k & ->).
  unfold Resolver.addr_error. replace (is_nil (h ++ 58 :: d)) with false by (destruct h; reflexivity).
  reflexivity.
Qed.

(** Draws that always pick the first element, on two servers and three
    addresses. *)
Lemma shuffles_keep_servers_witness :
  (forall i, (0 <= i)%nat) /\
  Permutation (shufflePool (fun _ => 0%nat) [URL.url0; URL.url0]) [URL.url0; URL.url0] /\
  Permutation (Shuffle (fun _ => 0%nat) ["a"; "b"; "c"]%string) ["a"; "b"; "c"]%string.
Proof.
  split; [intros; lia|].
  apply (shuffles_keep_servers (fun _ => 0%nat) (fun _ => 0%nat)); intros; lia.
Defined.
