(* ===== verification/Float64.v ===== *)
(** * Go's [float64] on integers, as [time.ParseDuration] uses it

    [ParseDuration] computes the fraction of a number with a unit as
    [uint64(float64(f) * (float64(unit) / scale))], where [scale] is a
    power of ten built by [scale *= 10].  This file holds those binary64
    operations, written with the IEEE-754 definitions of the Standard
    Library's [SpecFloat] (rounding to nearest, ties to even, 53-bit
    significand, [emax = 1024]), the conversion [uint64(x)] of a
    non-negative float, and the lemmas that make them exact on integers
    below [2^53]: such an integer is a float [m * 2^e] with [e <= 0], a
    product of two of them that stays below [2^53] is rounded to itself,
    and the conversion gives the integer back. *)

From Stdlib Require Import ZArith Lia SpecFloat.
From S2P Require Import Prelude.
Local Open Scope Z_scope.

Definition f64 := spec_float.

(** [float64(z)] of an integer. *)
Definition f64_of_Z (z : Z) : f64 := binary_normalize 53 1024 z 0 false.
Definition f64_mul : f64 -> f64 -> f64 := SFmul 53 1024.
Definition f64_div : f64 -> f64 -> f64 := SFdiv 53 1024.
Definition f64_one : f64 := f64_of_Z 1.
Definition f64_ten : f64 := f64_of_Z 10.

(** [uint64(x)] of a non-negative finite [x] below [2^64]: the integer
    part of [m * 2^e]. *)
Definition u64_of_f64 (x : f64) : Z :=
  match x with
  | S754_finite false m e =>
      if 0 <=? e then Z.shiftl (Zpos m) e else Z.shiftr (Zpos m) (- e)
  | _ => 0
  end.

(** [x] is the float of the integer [n]: a positive significand [m]
    and a non-positive exponent [e] with [m = n * 2^(-e)]. *)
Definition exact_f64 (x : f64) (n : Z) : Prop :=
  exists m e, x = S754_finite false m e /\ e <= 0 /\ Zpos m = n * 2 ^ (- e).

(** ** The rounding of [SpecFloat] on exact values *)

Lemma iter_pos_nat {A} (f : A -> A) (p : positive) (x : A) :
  iter_pos f p x = Nat.iter (Pos.to_nat p) f x.
Proof.
  revert x; induction p as [p IH|p IH|]; intros x; cbn [iter_pos].
  - rewrite IH, IH, Pos2Nat.inj_xI, <- Nat.iter_add.
    replace (Pos.to_nat p + Pos.to_nat p)%nat with (2 * Pos.to_nat p)%nat by lia.
    symmetry. apply Nat.iter_succ_r.
  - rewrite IH, IH, Pos2Nat.inj_xO, <- Nat.iter_add. f_equal. lia.
  - reflexivity.
Qed.

(** [n] right shifts of a number with [n] trailing zeros lose nothing. *)
Lemma iter_shr_exact (n : nat) (k : Z) :
  0 <= k ->
  Nat.iter n shr_1 (Build_shr_record (k * 2 ^ Z.of_nat n) false false) =
  Build_shr_record k false false.
Proof.
  revert k; induction n as [|n IH]; intros k Hk.
  - now rewrite Z.mul_1_r.
  - rewrite Nat.iter_succ, Nat2Z.inj_succ, Z.pow_succ_r, Z.mul_assoc by lia.
    rewrite IH by lia. rewrite (Z.mul_comm k 2). destruct k as [|p|p]; [reflexivity|reflexivity|lia].
Qed.

Lemma digits2_log2 (p : positive) : Zpos (digits2_pos p) = Z.log2 (Zpos p) + 1.
Proof.
  induction p as [p IH|p IH|]; cbn [digits2_pos].
  - rewrite Pos2Z.inj_succ, IH. change (Zpos p~1) with (2 * Zpos p + 1).
    rewrite Z.log2_succ_double by lia. lia.
  - rewrite Pos2Z.inj_succ, IH. change (Zpos p~0) with (2 * Zpos p).
    rewrite Z.log2_double by lia. lia.
  - reflexivity.
Qed.

Lemma log2_mul_pow2' (n k : Z) :
  0 < n -> 0 <= k -> Z.log2 (n * 2 ^ k) = Z.log2 n + k.
Proof. intros. rewrite <- Z.shiftl_mul_pow2, Z.log2_shiftl; lia. Qed.

Lemma log2_bound53 (n : Z) : 0 < n < 2 ^ 53 -> 0 <= Z.log2 n <= 52.
Proof.
  intros Hn. split; [apply Z.log2_nonneg|].
  assert (Z.log2 n < 53) by (apply Z.log2_lt_pow2; lia). lia.
Qed.

(** One [shr_fexp] on [n * 2^k] with exponent [-k]: the significand
    keeps at most 53 bits and nothing is lost. *)
Lemma shr_fexp_exact (n k : Z) :
  0 < n < 2 ^ 53 -> 0 <= k ->
  let j := Z.min k (52 - Z.log2 n) in
  shr_fexp 53 1024 (n * 2 ^ k) (- k) loc_Exact =
  (Build_shr_record (n * 2 ^ j) false false, - j).
Proof.
  intros Hn Hk j. pose proof (log2_bound53 n Hn) as Hl.
  unfold shr_fexp, shr_record_of_loc, fexp, emin, Zdigits2.
  assert (Hpos : 0 < n * 2 ^ k) by (apply Z.mul_pos_pos; [lia|apply Z.pow_pos_nonneg; lia]).
  destruct (n * 2 ^ k) as [|M|M] eqn:HM; try lia.
  rewrite digits2_log2, <- HM, log2_mul_pow2' by lia.
  rewrite Z.max_l by lia.
  replace (Z.log2 n + k + 1 + - k - 53 - - k) with (k - (52 - Z.log2 n)) by lia.
  unfold shr. destruct (Z.leb_spec k (52 - Z.log2 n)) as [Hle|Hgt].
  - subst j. rewrite Z.min_l by lia.
    destruct (k - (52 - Z.log2 n)) eqn:Hd; try lia; rewrite HM; reflexivity.
  - subst j. rewrite Z.min_r by lia.
    destruct (k - (52 - Z.log2 n)) as [|p|p] eqn:Hd; try lia.
    rewrite iter_pos_nat.
    replace k with ((52 - Z.log2 n) + Z.of_nat (Pos.to_nat p)) at 1 by lia.
    rewrite Z.pow_add_r, Z.mul_assoc, iter_shr_exact by
      (try apply Z.mul_nonneg_nonneg; try apply Z.pow_nonneg; lia).
    f_equal. lia.
Qed.

(** Rounding the exact value [n * 2^k / 2^k] of an integer below
    [2^53] gives the float of [n]. *)
Lemma binary_round_aux_exact (n k : Z) :
  0 < n < 2 ^ 53 -> 0 <= k ->
  exact_f64 (binary_round_aux 53 1024 false (n * 2 ^ k) (- k) loc_Exact) n.
Proof.
  intros Hn Hk. pose proof (log2_bound53 n Hn) as Hl.
  unfold binary_round_aux. rewrite shr_fexp_exact by lia.
  set (j := Z.min k (52 - Z.log2 n)).
  cbn [shr_m loc_of_shr_record round_nearest_even].
  rewrite (shr_fexp_exact n j) by lia.
  replace (Z.min j (52 - Z.log2 n)) with j by lia. cbn [shr_m].
  assert (Hpos : 0 < n * 2 ^ j) by (apply Z.mul_pos_pos; [lia|apply Z.pow_pos_nonneg; lia]).
  destruct (n * 2 ^ j) as [|m|m] eqn:Hm; try lia.
  destruct (Z.leb_spec (- j) (1024 - 53)); [|lia].
  exists m, (- j). split; [reflexivity|]. split; [lia|]. rewrite Z.opp_involutive. symmetry; exact Hm.
Qed.

(** ** The exact operations *)

Lemma iter_xO (p q : positive) : Zpos (Pos.iter xO p q) = Zpos p * 2 ^ Zpos q.
Proof.
  induction q as [|q IH] using Pos.peano_ind; [change (Pos.iter xO p 1) with (xO p); rewrite Pos2Z.inj_xO; ring|].
  rewrite Pos.iter_succ, Pos2Z.inj_xO, IH, Pos2Z.inj_succ, Z.pow_succ_r by lia. ring.
Qed.

Lemma f64_of_Z_exact (n : Z) : 0 < n < 2 ^ 53 -> exact_f64 (f64_of_Z n) n.
Proof.
  intros Hn. pose proof (log2_bound53 n Hn) as Hl.
  unfold f64_of_Z, binary_normalize.
  destruct n as [|p|p]; try lia.
  unfold binary_round, shl_align, fexp, emin.
  assert (Hm : IntDef.Z.max (Zpos (digits2_pos p) + 0 - 53) (3 - 1024 - 53)
               = - (52 - Z.log2 (Zpos p)))
    by (change IntDef.Z.max with Z.max; rewrite digits2_log2; lia).
  rewrite Hm, Z.sub_0_r.
  pose proof (binary_round_aux_exact (Zpos p) (52 - Z.log2 (Zpos p)) Hn ltac:(lia)) as H.
  destruct (52 - Z.log2 (Zpos p)) as [|q|q] eqn:Hq; try lia.
  - rewrite Z.pow_0_r, Z.mul_1_r in H. exact H.
  - rewrite <- iter_xO in H. exact H.
Qed.

Lemma f64_mul_exact (x y : f64) (a b : Z) :
  exact_f64 x a -> exact_f64 y b -> 0 < a * b < 2 ^ 53 ->
  exact_f64 (f64_mul x y) (a * b).
Proof.
  intros (mx & ex & -> & Hex & Hmx) (my & ey & -> & Hey & Hmy) Hab.
  unfold f64_mul, SFmul. cbn [xorb].
  replace (Zpos (mx * my)) with (a * b * 2 ^ (- (ex + ey))).
  - replace (ex + ey) with (- (- (ex + ey))) at 2 by lia.
    apply binary_round_aux_exact; lia.
  - rewrite Pos2Z.inj_mul, Hmx, Hmy, Z.opp_add_distr, Z.pow_add_r by lia. ring.
Qed.

Lemma u64_of_f64_exact (x : f64) (n : Z) : exact_f64 x n -> u64_of_f64 x = n.
Proof.
  intros (m & e & -> & He & Hm). unfold u64_of_f64.
  destruct (Z.leb_spec 0 e).
  - replace e with 0 in * by lia. rewrite Z.mul_1_r in Hm. now rewrite Z.shiftl_0_r.
  - rewrite Z.shiftr_div_pow2, Hm, Z.div_mul by (try apply Z.pow_nonzero; lia). reflexivity.
Qed.
