(* ===== verification/Duration.v ===== *)
(** * [time.ParseDuration] and [time.Duration.String]

    The [--timeout] flag of [main] (src/main.go:41-46) is a
    [cli.DurationFlag]: its default [5 * time.Second] and the text of
    [NATS_REQUEST_TIMEOUT] or of the command line go through
    [time.ParseDuration], and [cli.Duration("timeout")]
    (src/main.go:83) parses again the text [Duration.String] gives of
    the stored value.  This file is those two functions of Go's time
    package: the [leadingInt] and [leadingFraction] scanners, the unit
    table, the overflow checks at [1 << 63], and the fraction step
    [uint64(float64(f) * (float64(unit) / scale))] computed with the
    IEEE-754 binary64 operations of [SpecFloat]; and, for [String], the
    [fmtFrac] and [fmtInt] helpers writing from the end of the buffer,
    whose written tail is the [string] argument here.  The theorems
    include the round trip of the two, the exact sum of integer
    segments with its overflow error, and the one overflow Go's check
    lets through: a running [uint64] total of exactly [2^64], which
    wraps to 0. *)

From Stdlib Require Import String Ascii List ZArith Lia Bool.
From S2P Require Import Prelude Utf8 Strconv Float64.
Import ListNotations.
Local Open Scope string_scope.
Local Open Scope Z_scope.

(** ** Units *)

Definition Nanosecond : Z := 1.
Definition Microsecond : Z := 1000 * Nanosecond.
Definition Millisecond : Z := 1000 * Microsecond.
Definition Second : Z := 1000 * Millisecond.
Definition Minute : Z := 60 * Second.
Definition Hour : Z := 60 * Minute.

(** ** [ParseDuration] *)

Inductive duration_error :=
| ErrInvalidDuration
| ErrMissingUnit
| ErrUnknownUnit (u : string).

Definition is_digit (c : Z) : bool := (48 <=? c) && (c <=? 57).

(** [var unitMap]; [µs] is U+00B5 (C2 B5) and [μs] U+03BC (CE BC). *)
Definition unitMap (u : string) : option Z :=
  if String.eqb u ("ns") then Some Nanosecond
  else if String.eqb u ("us") then Some Microsecond
  else if String.eqb u (String (ascii_of_nat 194) (String (ascii_of_nat 181) "s")) then Some Microsecond
  else if String.eqb u (String (ascii_of_nat 206) (String (ascii_of_nat 188) "s")) then Some Microsecond
  else if String.eqb u ("ms") then Some Millisecond
  else if String.eqb u ("s") then Some Second
  else if String.eqb u ("m") then Some Minute
  else if String.eqb u ("h") then Some Hour
  else None.

(** [func leadingInt(s) (x uint64, rem string, err error)]: [None] is
    [errLeadingInt]. *)
Fixpoint leadingInt_loop (s : string) (x : Z) : option (Z * string) :=
  match s with
  | EmptyString => Some (x, s)
  | String a rest =>
      let c := byte_val a in
      if negb (is_digit c) then Some (x, s)
      else if 2 ^ 63 / 10 <? x then None
      else
        let x := (x * 10 + c - 48) mod 2 ^ 64 in
        if 2 ^ 63 <? x then None
        else leadingInt_loop rest x
  end.

Definition leadingInt (s : string) : option (Z * string) := leadingInt_loop s 0.

(** [func leadingFraction(s) (x uint64, scale float64, rem string)]. *)
Fixpoint leadingFraction_loop (s : string) (x : Z) (scale : f64) (overflow : bool)
  : Z * f64 * string :=
  match s with
  | EmptyString => (x, scale, s)
  | String a rest =>
      let c := byte_val a in
      if negb (is_digit c) then (x, scale, s)
      else if overflow then leadingFraction_loop rest x scale overflow
      else if (2 ^ 63 - 1) / 10 <? x then leadingFraction_loop rest x scale true
      else
        let y := (x * 10 + c - 48) mod 2 ^ 64 in
        if 2 ^ 63 <? y then leadingFraction_loop rest x scale true
        else leadingFraction_loop rest y (f64_mul scale f64_ten) overflow
  end.

Definition leadingFraction (s : string) : Z * f64 * string :=
  leadingFraction_loop s 0 f64_one false.

(** The unit scan: [s[:i]] and [s[i:]] for the first [i] at a ['.'] or a
    digit. *)
Fixpoint split_unit (s : string) : string * string :=
  match s with
  | EmptyString => ("", "")
  | String a rest =>
      let c := byte_val a in
      if (c =? 46) || is_digit c then ("", s)
      else let '(u, r) := split_unit rest in (String a u, r)
  end.

(** One iteration of [for s != ""]: the value of the next
    number with an optional fraction and its unit, and the rest of the text. *)
Definition duration_segment (s : string) : option duration_error + Z * string :=
  let c := byte_at 0 s in
  if negb ((c =? 46) || is_digit c) then inl (Some ErrInvalidDuration) else
  match leadingInt s with
  | None => inl (Some ErrInvalidDuration)
  | Some (v, s1) =>
      let pre := negb (String.length s =? String.length s1)%nat in
      let '(f, scale, s2, post) :=
        if negb (String.eqb s1 ("")) && (byte_at 0 s1 =? 46) then
          let s1' := drop 1 s1 in
          let '(f, scale, s2) := leadingFraction s1' in
          (f, scale, s2, negb (String.length s1' =? String.length s2)%nat)
        else (0, f64_one, s1, false) in
      if negb pre && negb post then inl (Some ErrInvalidDuration) else
      let '(u, s3) := split_unit s2 in
      if String.eqb u ("") then inl (Some ErrMissingUnit) else
      match unitMap u with
      | None => inl (Some (ErrUnknownUnit u))
      | Some unit =>
          if 2 ^ 63 / unit <? v then inl (Some ErrInvalidDuration) else
          let v := (v * unit) mod 2 ^ 64 in
          if 0 <? f then
            let v := (v + u64_of_f64 (f64_mul (f64_of_Z f) (f64_div (f64_of_Z unit) scale)))
                       mod 2 ^ 64 in
            if 2 ^ 63 <? v then inl (Some ErrInvalidDuration) else inr (v, s3)
          else inr (v, s3)
      end
  end.

(** [for s != "" { ...; d += v; if d > 1<<63 { error } }], with one
    unit of fuel per byte: every segment consumes at least one. *)
Fixpoint duration_loop (fuel : nat) (s : string) (d : Z) : Z * option duration_error :=
  match fuel with
  | O => (d, None)
  | S fuel =>
      if String.eqb s ("") then (d, None) else
      match duration_segment s with
      | inl e => (0, e)
      | inr (v, s') =>
          let d := (d + v) mod 2 ^ 64 in
          if 2 ^ 63 <? d then (0, Some ErrInvalidDuration)
          else duration_loop fuel s' d
      end
  end.

(** [int64(u)] of a [uint64]. *)
Definition int64_of_u64 (u : Z) : Z := if 2 ^ 63 <=? u then u - 2 ^ 64 else u.

(** [func ParseDuration(s string) (Duration, error)] *)
Definition ParseDuration (orig : string) : Z * option duration_error :=
  let c := byte_at 0 orig in
  let '(neg, s) :=
    if negb (String.eqb orig ("")) && ((c =? 45) || (c =? 43)) then (c =? 45, drop 1 orig)
    else (false, orig) in
  if String.eqb s ("0") then (0, None) else
  if String.eqb s ("") then (0, Some ErrInvalidDuration) else
  match duration_loop (S (String.length s)) s 0 with
  | (_, Some e) => (0, Some e)
  | (d, None) =>
      if neg then (int64_of_u64 ((- int64_of_u64 d) mod 2 ^ 64), None)
      else if 2 ^ 63 - 1 <? d then (0, Some ErrInvalidDuration)
      else (d, None)
  end.

(** ** [Duration.String] *)

Definition digit_char (d : Z) : ascii := ascii_of_N (Z.to_N (d + 48)).

(** The loop of [fmtFrac]: [prec] digits of [v], the trailing zeros
    omitted, written in front of [buf]. *)
Fixpoint fmtFrac_loop (prec : nat) (v : Z) (print : bool) (buf : string)
  : string * Z * bool :=
  match prec with
  | O => (buf, v, print)
  | S prec =>
      let digit := v mod 10 in
      let print := print || negb (digit =? 0) in
      let buf := if print then String (digit_char digit) buf else buf in
      fmtFrac_loop prec (v / 10) print buf
  end.

(** [func fmtFrac(buf []byte, v uint64, prec int) (nw int, nv uint64)] *)
Definition fmtFrac (buf : string) (v : Z) (prec : nat) : string * Z :=
  let '(buf, v, print) := fmtFrac_loop prec v false buf in
  (if print then String "." buf else buf, v).

(** The [for v > 0] loop of [fmtInt]; a [uint64] has at most 20 digits. *)
Fixpoint fmtInt_loop (fuel : nat) (v : Z) (buf : string) : string :=
  match fuel with
  | O => buf
  | S fuel =>
      if 0 <? v then fmtInt_loop fuel (v / 10) (String (digit_char (v mod 10)) buf)
      else buf
  end.

(** [func fmtInt(buf []byte, v uint64) int] *)
Definition fmtInt (buf : string) (v : Z) : string :=
  if v =? 0 then String "0" buf else fmtInt_loop 20 v buf.

(** The body of [format] after [u] is computed: the text of the
    unsigned duration [u], written from the end of the buffer. *)
Definition format_unsigned (u : Z) : string :=
  if u <? Second then
    if u =? 0 then "0s"
    else
      let '(unit, prec) :=
        if u <? Microsecond then ("ns", 0%nat)
        else if u <? Millisecond then
          (String (ascii_of_nat 194) (String (ascii_of_nat 181) "s"), 3%nat)
        else ("ms", 6%nat) in
      let '(buf, u) := fmtFrac unit u prec in
      fmtInt buf u
  else
    let '(buf, u) := fmtFrac "s" u 9 in
    let buf := fmtInt buf (u mod 60) in
    let u := u / 60 in
    if 0 <? u then
      let buf := fmtInt (String "m" buf) (u mod 60) in
      let u := u / 60 in
      if 0 <? u then fmtInt (String "h" buf) u else buf
    else buf.

(** [func (d Duration) format(buf *[32]byte) int], the written tail. *)
Definition Duration_format (d : Z) : string :=
  let u := d mod 2 ^ 64 in
  let neg := d <? 0 in
  let u := if neg then (- u) mod 2 ^ 64 else u in
  let buf := format_unsigned u in
  if neg then String "-" buf else buf.

(** [func (d Duration) String() string] *)
Definition Duration_String (d : Z) : string := Duration_format d.

(** ** Digit strings *)

(** The text of a list of decimal digits, and its value read from the
    left starting at [a]. *)
Definition digit_str (l : list Z) : string :=
  fold_right (fun d s => String (digit_char d) s) "" l.

Definition horner (a : Z) (l : list Z) : Z := fold_left (fun a d => a * 10 + d) l a.

Definition is_digit_val (d : Z) : Prop := 0 <= d < 10.

(** A text that starts with something other than a digit. *)
Definition no_digit_first (s : string) : Prop := is_digit (byte_at 0 s) = false.

Lemma byte_val_digit_char d : is_digit_val d -> byte_val (digit_char d) = 48 + d.
Proof.
  unfold is_digit_val; intros Hd. unfold byte_val, digit_char.
  rewrite N_ascii_embedding by (change 256%N with (Z.to_N 256); apply Z2N.inj_lt; lia).
  rewrite Z2N.id by lia. lia.
Qed.

Lemma digit_str_app l1 l2 : digit_str (l1 ++ l2) = digit_str l1 ++ digit_str l2.
Proof. induction l1 as [|d l IH]; simpl; [reflexivity|now rewrite IH]. Qed.

Lemma horner_app a l1 l2 : horner a (l1 ++ l2) = horner (horner a l1) l2.
Proof. apply fold_left_app. Qed.

Lemma horner_ge a l : 0 <= a -> Forall is_digit_val l -> a <= horner a l.
Proof.
  revert a; induction l as [|d l IH]; intros a Ha Hl; [simpl; lia|].
  inversion Hl as [|? ? Hd Hl']; subst. unfold is_digit_val in Hd.
  cbn [horner fold_left]. specialize (IH (a * 10 + d) ltac:(lia) Hl'). unfold horner in IH.
  transitivity (a * 10 + d); [lia|exact IH].
Qed.

Lemma horner_nonneg a l : 0 <= a -> Forall is_digit_val l -> 0 <= horner a l.
Proof. intros Ha Hl. pose proof (horner_ge a l Ha Hl). lia. Qed.

#[export] Hint Unfold is_digit_val : gohc.

(** [leadingInt] reads a digit string up to the first non-digit, when
    the value stays within [1 << 63]. *)
Lemma leadingInt_loop_digits l rest a :
  0 <= a -> Forall is_digit_val l -> no_digit_first rest -> horner a l <= 2 ^ 63 ->
  leadingInt_loop (digit_str l ++ rest) a = Some (horner a l, rest).
Proof.
  revert a; induction l as [|d l IH]; intros a Ha Hl Hr Hb.
  - simpl. destruct rest as [|c rest]; [reflexivity|].
    unfold no_digit_first, byte_at in Hr. simpl in Hr |- *. now rewrite Hr.
  - inversion Hl as [|? ? Hd Hl']; subst. cbn [digit_str fold_right append].
    fold (digit_str l). cbn [leadingInt_loop].
    rewrite byte_val_digit_char by exact Hd. unfold is_digit_val in Hd.
    cbn [horner fold_left] in Hb. fold (horner (a * 10 + d) l) in Hb.
    pose proof (horner_ge (a * 10 + d) l ltac:(lia) Hl').
    destruct (is_digit (48 + d)) eqn:Hdig; [|unfold is_digit in Hdig; lia].
    cbn [negb]. destruct (Z.ltb_spec (2 ^ 63 / 10) a).
    { assert (a * 10 <= 2 ^ 63) by lia. assert (a <= 2 ^ 63 / 10) by (apply Z.div_le_lower_bound; lia). lia. }
    rewrite Z.mod_small by lia.
    replace (a * 10 + (48 + d) - 48) with (a * 10 + d) by lia.
    destruct (Z.ltb_spec (2 ^ 63) (a * 10 + d)); [lia|].
    apply IH; auto. lia.
Qed.

(** [scale *= 10] is exact up to [10^9]. *)
Lemma scale_step (k : nat) :
  (k < 9)%nat -> f64_mul (f64_of_Z (10 ^ Z.of_nat k)) f64_ten = f64_of_Z (10 ^ Z.of_nat (S k)).
Proof.
  intros Hk. do 9 (destruct k as [|k]; [vm_compute; reflexivity|]). lia.
Qed.

(** [leadingFraction] reads a digit string of at most nine digits,
    with the scale [10^k] exact. *)
Lemma leadingFraction_loop_digits l rest a (k : nat) :
  0 <= a -> Forall is_digit_val l -> no_digit_first rest ->
  horner a l <= 2 ^ 63 - 1 -> (k + length l <= 9)%nat ->
  leadingFraction_loop (digit_str l ++ rest) a (f64_of_Z (10 ^ Z.of_nat k)) false =
  (horner a l, f64_of_Z (10 ^ Z.of_nat (k + length l)), rest).
Proof.
  revert a k; induction l as [|d l IH]; intros a k Ha Hl Hr Hb Hk.
  - simpl. rewrite Nat.add_0_r. destruct rest as [|c rest]; [reflexivity|].
    unfold no_digit_first, byte_at in Hr. simpl in Hr |- *. now rewrite Hr.
  - inversion Hl as [|? ? Hd Hl']; subst. cbn [digit_str fold_right append].
    fold (digit_str l). cbn [leadingFraction_loop].
    rewrite byte_val_digit_char by exact Hd. unfold is_digit_val in Hd.
    cbn [horner fold_left] in Hb. fold (horner (a * 10 + d) l) in Hb.
    pose proof (horner_ge (a * 10 + d) l ltac:(lia) Hl').
    destruct (is_digit (48 + d)) eqn:Hdig; [|unfold is_digit in Hdig; lia].
    cbn [negb]. destruct (Z.ltb_spec ((2 ^ 63 - 1) / 10) a).
    { assert (a <= (2 ^ 63 - 1) / 10) by (apply Z.div_le_lower_bound; lia). lia. }
    rewrite Z.mod_small by lia.
    replace (a * 10 + (48 + d) - 48) with (a * 10 + d) by lia.
    destruct (Z.ltb_spec (2 ^ 63) (a * 10 + d)); [lia|].
    cbn [length] in Hk |- *. rewrite scale_step by lia.
    change (horner a (d :: l)) with (horner (a * 10 + d) l).
    replace (k + S (length l))%nat with (S k + length l)%nat by lia.
    apply IH; auto; lia.
Qed.

(** ** One segment of a duration *)

(** What may follow a unit in the text [String] writes: nothing, or the
    digits of the next segment. *)
Definition segment_start (s : string) : Prop :=
  s = "" \/ is_digit (byte_at 0 s) = true.

Definition micro_s : string := String (ascii_of_nat 194) (String (ascii_of_nat 181) "s").

(** The units [Duration.String] writes. *)
Definition unit_words : list (string * Z) :=
  [("h", Hour); ("m", Minute); ("s", Second); ("ms", Millisecond);
   (micro_s, Microsecond); ("ns", Nanosecond)].

Lemma split_unit_stop s : segment_start s -> split_unit s = ("", s).
Proof.
  intros [->|Hd]; [reflexivity|]. destruct s as [|a s]; [reflexivity|].
  unfold byte_at in Hd. cbn in Hd |- *. now rewrite Hd, orb_true_r.
Qed.

Lemma split_unit_word u unit rest :
  In (u, unit) unit_words -> segment_start rest ->
  split_unit (u ++ rest) = (u, rest) /\ unitMap u = Some unit.
Proof.
  intros Hu Hr. apply split_unit_stop in Hr.
  repeat (destruct Hu as [Hu|Hu]; [injection Hu as <- <-; cbn; rewrite ?Hr; split; reflexivity|]).
  destruct Hu.
Qed.

Lemma unit_word_first u unit rest :
  In (u, unit) unit_words -> negb (String.eqb u "") = true /\
  is_digit (byte_at 0 (u ++ rest)) = false /\ (byte_at 0 (u ++ rest) =? 46) = false.
Proof.
  intros Hu.
  repeat (destruct Hu as [Hu|Hu]; [injection Hu as <- <-; repeat split|]).
  destruct Hu.
Qed.

Lemma unit_word_pos u unit : In (u, unit) unit_words -> 0 < unit.
Proof.
  intros Hu. repeat (destruct Hu as [Hu|Hu]; [injection Hu as <- <-; reflexivity|]). destruct Hu.
Qed.

Lemma digit_str_first d l rest :
  is_digit_val d -> byte_at 0 (digit_str (d :: l) ++ rest) = 48 + d.
Proof. intros Hd. unfold byte_at. cbn. now apply byte_val_digit_char. Qed.

Lemma length_digit_str l : String.length (digit_str l) = length l.
Proof. induction l; simpl; congruence. Qed.

(** A segment without a fraction: [v] and a unit. *)
Lemma duration_segment_int l u unit rest :
  l <> [] -> Forall is_digit_val l -> In (u, unit) unit_words -> segment_start rest ->
  horner 0 l <= 2 ^ 63 / unit ->
  duration_segment (digit_str l ++ u ++ rest) = inr (horner 0 l * unit, rest).
Proof.
  intros Hne Hl Hu Hr Hb.
  pose proof (unit_word_pos u unit Hu) as Hpos.
  destruct (unit_word_first u unit rest Hu) as (Hune & Hnd & Hdot).
  destruct (split_unit_word u unit rest Hu Hr) as [Hsplit Hmap].
  assert (H0 : 0 <= horner 0 l) by (apply horner_nonneg; auto; lia).
  assert (Hb' : horner 0 l * unit <= 2 ^ 63)
    by (pose proof (Z.mul_div_le (2 ^ 63) unit Hpos); nia).
  unfold duration_segment.
  destruct l as [|d l']; [congruence|]. inversion Hl as [|? ? Hd Hl']; subst.
  rewrite digit_str_first by exact Hd. unfold is_digit_val in Hd.
  destruct (Z.eqb_spec (48 + d) 46); [lia|]. unfold is_digit at 1.
  destruct (Z.leb_spec 48 (48 + d)); [|lia]. destruct (Z.leb_spec (48 + d) 57); [|lia].
  cbn [andb orb negb]. unfold leadingInt.
  rewrite leadingInt_loop_digits by (auto; try (unfold no_digit_first; tauto); nia).
  rewrite !length_str_app, length_digit_str.
  destruct (Nat.eqb_spec (length (d :: l') + (String.length u + String.length rest))
              (String.length u + String.length rest)) as [Heq|_]; [cbn [length] in Heq; lia|].
  rewrite Hdot, andb_false_r. cbn [negb andb]. rewrite Hsplit.
  apply negb_true_iff in Hune. rewrite Hune, Hmap.
  destruct (Z.ltb_spec (2 ^ 63 / unit) (horner 0 (d :: l'))); [lia|].
  change (0 <? 0) with false. cbv iota.
  rewrite Z.mod_small by nia. reflexivity.
Qed.

Lemma horner_lt a l :
  0 <= a -> Forall is_digit_val l -> horner a l < (a + 1) * 10 ^ Z.of_nat (length l).
Proof.
  revert a; induction l as [|d l IH]; intros a Ha Hl; [simpl; lia|].
  inversion Hl as [|? ? Hd Hl']; subst. unfold is_digit_val in Hd.
  change (horner a (d :: l)) with (horner (a * 10 + d) l).
  specialize (IH (a * 10 + d) ltac:(lia) Hl').
  cbn [length]. rewrite Nat2Z.inj_succ, Z.pow_succ_r by lia.
  assert (0 < 10 ^ Z.of_nat (length l)) by (apply Z.pow_pos_nonneg; lia). nia.
Qed.

(** [float64(unit) / scale] is exact for the units and scales a
    printed fraction gives. *)
Lemma unit_div_scale (p w : nat) :
  In p [3; 6; 9]%nat -> (w <= p)%nat ->
  f64_div (f64_of_Z (10 ^ Z.of_nat p)) (f64_of_Z (10 ^ Z.of_nat w)) =
  f64_of_Z (10 ^ Z.of_nat (p - w)).
Proof.
  intros Hp Hw.
  repeat (destruct Hp as [<-|Hp];
          [repeat (destruct w as [|w]; [vm_compute; reflexivity|]); lia|]).
  destruct Hp.
Qed.

(** The fraction step: [uint64(float64(f) * (float64(unit) / scale))]
    with [scale = 10^w] is [f * 10^(p - w)]. *)
Lemma fraction_value (f : Z) (p w : nat) :
  In p [3; 6; 9]%nat -> (w <= p)%nat -> 0 < f < 10 ^ Z.of_nat w ->
  u64_of_f64 (f64_mul (f64_of_Z f)
                (f64_div (f64_of_Z (10 ^ Z.of_nat p)) (f64_of_Z (10 ^ Z.of_nat w))))
  = f * 10 ^ Z.of_nat (p - w).
Proof.
  intros Hp Hw Hf. rewrite unit_div_scale by assumption.
  assert (Hp9 : (p <= 9)%nat) by (repeat (destruct Hp as [<-|Hp]; [lia|]); destruct Hp).
  assert (Hw9 : 10 ^ Z.of_nat p <= 10 ^ 9) by (apply Z.pow_le_mono_r; lia).
  assert (Hsplit : 10 ^ Z.of_nat p = 10 ^ Z.of_nat w * 10 ^ Z.of_nat (p - w))
    by (rewrite <- Z.pow_add_r by lia; f_equal; lia).
  assert (Hpos : 0 < 10 ^ Z.of_nat (p - w)) by (apply Z.pow_pos_nonneg; lia).
  assert (Hlt : f * 10 ^ Z.of_nat (p - w) < 10 ^ 9) by nia.
  apply u64_of_f64_exact, f64_mul_exact;
    [apply f64_of_Z_exact; lia | apply f64_of_Z_exact | ]; split; try nia; lia.
Qed.

(** A segment with a fraction: [v.f] and a unit of [10^p] nanoseconds,
    the fraction of [w <= p] digits adding [f * 10^(p - w)]. *)
Lemma duration_segment_frac l lf u (p : nat) rest :
  l <> [] -> Forall is_digit_val l -> Forall is_digit_val lf -> 0 < horner 0 lf ->
  In (u, 10 ^ Z.of_nat p) unit_words -> In p [3; 6; 9]%nat -> (length lf <= p)%nat ->
  segment_start rest ->
  horner 0 l * 10 ^ Z.of_nat p + horner 0 lf * 10 ^ Z.of_nat (p - length lf) <= 2 ^ 63 ->
  duration_segment (digit_str l ++ "." ++ digit_str lf ++ u ++ rest) =
  inr (horner 0 l * 10 ^ Z.of_nat p + horner 0 lf * 10 ^ Z.of_nat (p - length lf), rest).
Proof.
  intros Hne Hl Hlf Hf Hu Hp Hw Hr Hb.
  set (unit := 10 ^ Z.of_nat p) in *.
  assert (Hpos : 0 < unit) by (apply Z.pow_pos_nonneg; lia).
  destruct (unit_word_first u unit rest Hu) as (Hune & Hnd & Hdot).
  destruct (split_unit_word u unit rest Hu Hr) as [Hsplit Hmap].
  assert (H0 : 0 <= horner 0 l) by (apply horner_nonneg; auto; lia).
  assert (Hflt : horner 0 lf < 10 ^ Z.of_nat (length lf))
    by (pose proof (horner_lt 0 lf ltac:(lia) Hlf); lia).
  assert (Hfv : 0 <= horner 0 lf * 10 ^ Z.of_nat (p - length lf))
    by (apply Z.mul_nonneg_nonneg; [lia|apply Z.pow_nonneg; lia]).
  assert (Hq : horner 0 l <= 2 ^ 63 / unit) by (apply Z.div_le_lower_bound; nia).
  assert (Hp9 : (p <= 9)%nat) by (repeat (destruct Hp as [<-|Hp]; [lia|]); destruct Hp).
  assert (Hf9 : horner 0 lf < 10 ^ 9)
    by (enough (10 ^ Z.of_nat (length lf) <= 10 ^ 9) by lia; apply Z.pow_le_mono_r; lia).
  unfold duration_segment.
  destruct l as [|d l']; [congruence|]. inversion Hl as [|? ? Hd Hl']; subst.
  rewrite digit_str_first by exact Hd. unfold is_digit_val in Hd.
  destruct (Z.eqb_spec (48 + d) 46); [lia|]. unfold is_digit at 1.
  destruct (Z.leb_spec 48 (48 + d)); [|lia]. destruct (Z.leb_spec (48 + d) 57); [|lia].
  cbn [andb orb negb]. unfold leadingInt.
  rewrite leadingInt_loop_digits by (auto; try (unfold no_digit_first; reflexivity);
                                     pose proof (Z.div_le_upper_bound (2 ^ 63) unit); nia).
  cbn [append String.eqb negb andb]. change (byte_at 0 (String "." _) =? 46) with true.
  rewrite drop_sign. unfold leadingFraction. change f64_one with (f64_of_Z (10 ^ Z.of_nat 0)).
  rewrite leadingFraction_loop_digits
    by (auto; try (unfold no_digit_first; tauto); lia).
  rewrite !length_str_app, !length_digit_str. cbn [String.length].
  destruct (Nat.eqb_spec (length (d :: l') + S (length lf + (String.length u + String.length rest)))
              (S (length lf + (String.length u + String.length rest)))) as [Heq|_];
    [cbn [length] in Heq; lia|].
  destruct lf as [|df lf']; [cbn in Hf; lia|].
  destruct (Nat.eqb_spec (length (df :: lf') + (String.length u + String.length rest))
              (String.length u + String.length rest)) as [Heq|_]; [cbn [length] in Heq; lia|].
  cbn [negb andb]. rewrite Hsplit.
  apply negb_true_iff in Hune. rewrite Hune, Hmap.
  destruct (Z.ltb_spec (2 ^ 63 / unit) (horner 0 (d :: l'))); [lia|].
  destruct (Z.ltb_spec 0 (horner 0 (df :: lf'))); [|lia].
  cbn [Nat.add]. subst unit. rewrite fraction_value by (auto; lia).
  rewrite (Z.mod_small (_ * _)) by nia. rewrite Z.mod_small by nia.
  destruct (Z.ltb_spec (2 ^ 63) (horner 0 (d :: l') * 10 ^ Z.of_nat p +
                                 horner 0 (df :: lf') * 10 ^ Z.of_nat (p - length (df :: lf'))));
    [lia|now rewrite andb_false_r].
Qed.

(** ** [fmtInt] and [fmtFrac] *)

Lemma at1_digit_char d : is_digit_val d -> at1 digits d = String (digit_char d) "".
Proof.
  unfold is_digit_val. intros Hd.
  assert (d = 0 \/ d = 1 \/ d = 2 \/ d = 3 \/ d = 4 \/ d = 5 \/ d = 6 \/ d = 7 \/ d = 8 \/ d = 9)
    as Hc by lia.
  repeat (destruct Hc as [->|Hc]; [reflexivity|]). subst. reflexivity.
Qed.

Lemma fmtInt_loop_zero f buf : fmtInt_loop f 0 buf = buf.
Proof. destruct f; reflexivity. Qed.

(** The loop of [fmtInt] writes the reference decimal text. *)
Lemma fmtInt_loop_dec f v buf :
  0 < v < 10 ^ Z.of_nat f -> v < 10 ^ 20 -> fmtInt_loop f v buf = dec v ++ buf.
Proof.
  revert v buf; induction f as [|f IH]; intros v buf Hv H20; [simpl in Hv; lia|].
  cbn [fmtInt_loop]. destruct (Z.ltb_spec 0 v) as [_|]; [|lia].
  rewrite Nat2Z.inj_succ, Z.pow_succ_r in Hv by lia.
  destruct (Z.ltb_spec v 10).
  - rewrite Z.div_small, fmtInt_loop_zero, Z.mod_small by lia.
    unfold dec. rewrite dec_fuel_S. replace (v <? 10) with true by (symmetry; apply Z.ltb_lt; lia).
    rewrite at1_digit_char by (red; lia). reflexivity.
  - rewrite IH by (try split; try apply Z.div_str_pos; try apply Z.div_lt_upper_bound; lia).
    rewrite (dec_split10 v) by lia. rewrite at1_digit_char by (apply Z.mod_pos_bound; lia). rewrite <- str_app_assoc.
    reflexivity.
Qed.

Lemma fmtInt_dec_spec buf v : 0 <= v < 2 ^ 64 -> fmtInt buf v = dec v ++ buf.
Proof.
  intros Hv. unfold fmtInt. destruct (Z.eqb_spec v 0) as [->|]; [reflexivity|].
  apply fmtInt_loop_dec; simpl Z.of_nat; lia.
Qed.

(** The [w] low decimal digits of [x], most significant first. *)
Fixpoint pad_digits (w : nat) (x : Z) : list Z :=
  match w with
  | O => []
  | S w => pad_digits w (x / 10) ++ [x mod 10]
  end.

(** The number of zeros among the [k] low digits of [v] before the first
    other digit. *)
Fixpoint trailing_zeros (k : nat) (v : Z) : nat :=
  match k with
  | O => O
  | S k => if v mod 10 =? 0 then S (trailing_zeros k (v / 10)) else O
  end.

Lemma pad_digits_spec w x :
  0 <= x -> Forall is_digit_val (pad_digits w x) /\ length (pad_digits w x) = w /\
  horner 0 (pad_digits w x) = x mod 10 ^ Z.of_nat w.
Proof.
  revert x; induction w as [|w IH]; intros x Hx; [simpl; rewrite Z.mod_1_r; auto|].
  destruct (IH (x / 10) ltac:(apply Z.div_pos; lia)) as (Hd & Hl & Hh).
  cbn [pad_digits]. split; [|split].
  - apply Forall_app. split; [exact Hd|]. constructor; [|constructor].
    apply Z.mod_pos_bound. lia.
  - rewrite length_app, Hl. cbn. lia.
  - rewrite horner_app, Hh. cbn [horner fold_left].
    rewrite Nat2Z.inj_succ, Z.pow_succ_r by lia.
    rewrite Z.rem_mul_r by (try apply Z.pow_pos_nonneg; lia). lia.
Qed.

Lemma fmtFrac_loop_print k v buf :
  0 <= v ->
  fmtFrac_loop k v true buf = (digit_str (pad_digits k v) ++ buf, v / 10 ^ Z.of_nat k, true).
Proof.
  revert v buf; induction k as [|k IH]; intros v buf Hv; [now rewrite Z.div_1_r|].
  cbn [fmtFrac_loop orb]. rewrite IH by (apply Z.div_pos; lia).
  cbn [pad_digits]. rewrite digit_str_app, <- str_app_assoc.
  rewrite Z.div_div, <- Z.pow_succ_r, <- Nat2Z.inj_succ by lia. reflexivity.
Qed.

(** [fmtFrac]'s loop before the first non-zero digit skips the zeros;
    afterwards it writes every digit. *)
Lemma fmtFrac_loop_skip k v buf :
  0 <= v ->
  let z := trailing_zeros k v in
  fmtFrac_loop k v false buf =
  (digit_str (pad_digits (k - z) (v / 10 ^ Z.of_nat z)) ++ buf, v / 10 ^ Z.of_nat k,
   negb (k - z =? 0)%nat).
Proof.
  cbv zeta. revert v buf; induction k as [|k IH]; intros v buf Hv;
    [simpl; now rewrite Z.div_1_r|].
  cbn [fmtFrac_loop trailing_zeros orb].
  destruct (Z.eqb_spec (v mod 10) 0) as [H0|H0]; cbn [negb].
  - rewrite IH by (apply Z.div_pos; lia). cbn [Nat.sub].
    rewrite !Z.div_div, <- !Z.pow_succ_r, <- !Nat2Z.inj_succ by lia. reflexivity.
  - rewrite fmtFrac_loop_print by (apply Z.div_pos; lia).
    rewrite Nat.sub_0_r, Z.div_1_r. cbn [pad_digits].
    rewrite digit_str_app, <- str_app_assoc.
    rewrite Z.div_div, <- Z.pow_succ_r, <- Nat2Z.inj_succ by lia. reflexivity.
Qed.

Lemma pow10_succ (n : nat) : 10 ^ Z.of_nat (S n) = 10 * 10 ^ Z.of_nat n.
Proof. rewrite Nat2Z.inj_succ. apply Z.pow_succ_r. lia. Qed.

Lemma pow10_pos (n : nat) : 0 < 10 ^ Z.of_nat n.
Proof. apply Z.pow_pos_nonneg; lia. Qed.

#[export] Hint Resolve pow10_pos : gohc.

(** The skipped digits are zeros, the written ones carry the rest of
    [v mod 10^k], and the first written one is not a zero. *)
Lemma trailing_zeros_spec k v :
  0 <= v ->
  let z := trailing_zeros k v in
  (z <= k)%nat /\ v mod 10 ^ Z.of_nat z = 0 /\
  (v / 10 ^ Z.of_nat z) mod 10 ^ Z.of_nat (k - z) * 10 ^ Z.of_nat z = v mod 10 ^ Z.of_nat k /\
  ((z < k)%nat -> 0 < (v / 10 ^ Z.of_nat z) mod 10 ^ Z.of_nat (k - z)).
Proof.
  cbv zeta. revert v; induction k as [|k IH]; intros v Hv.
  - cbn [trailing_zeros Nat.sub Z.of_nat]. rewrite Z.pow_0_r, Z.div_1_r, Z.mod_1_r. repeat split; lia.
  - cbn [trailing_zeros]. destruct (Z.eqb_spec (v mod 10) 0) as [H0|H0].
    + destruct (IH (v / 10) ltac:(apply Z.div_pos; lia)) as (Hz & Hm & Hv' & Hp).
      set (z := trailing_zeros k (v / 10)) in *. cbn [Nat.sub].
      rewrite !pow10_succ, !Z.rem_mul_r, <- Z.div_div, H0 by (auto with gohc; lia).
      pose proof (pow10_pos z). repeat split; lia.
    + change (Z.of_nat 0) with 0. rewrite Nat.sub_0_r, Z.pow_0_r, Z.div_1_r, Z.mul_1_r, Z.mod_1_r.
      repeat split; try lia.
      intros _. pose proof (Z.mod_pos_bound v (10 ^ Z.of_nat (S k)) (pow10_pos (S k))).
      enough (v mod 10 ^ Z.of_nat (S k) <> 0) by lia. intros Hz. apply H0.
      rewrite pow10_succ, Z.rem_mul_r in Hz by (auto with gohc; lia).
      pose proof (Z.mod_pos_bound v 10 ltac:(lia)).
      pose proof (Z.mod_pos_bound (v / 10) (10 ^ Z.of_nat k) (pow10_pos k)). lia.
Qed.

(** [dec n] as a list of digits. *)
Lemma dec_fuel_digits f n :
  0 <= n < 10 ^ Z.of_nat (S f) ->
  exists l, dec_fuel (S f) n = digit_str l /\ l <> [] /\ Forall is_digit_val l /\ horner 0 l = n.
Proof.
  assert (Hone : forall m, 0 <= m < 10 -> exists l, at1 digits m = digit_str l /\ l <> [] /\
                 Forall is_digit_val l /\ horner 0 l = m).
  { clear. intros n Hn. exists [n]. rewrite at1_digit_char by (red; lia).
    split; [reflexivity|]. split; [discriminate|].
    split; [constructor; [red; lia|constructor]|reflexivity]. }
  revert n; induction f as [|f IH]; intros n Hn; rewrite dec_fuel_S.
  - cbn in Hn. destruct (Z.ltb_spec n 10); [apply Hone; lia|lia].
  - destruct (Z.ltb_spec n 10); [apply Hone; lia|].
    + rewrite pow10_succ in Hn.
      destruct (IH (n / 10)) as (l & Hl & Hne & Hd & Hh).
      { split; [apply Z.div_pos; lia|apply Z.div_lt_upper_bound; lia]. }
      exists (l ++ [n mod 10])%list. rewrite Hl, at1_digit_char, digit_str_app
        by (apply Z.mod_pos_bound; lia).
      split; [reflexivity|]. split; [destruct l; discriminate|]. split.
      * apply Forall_app. split; [exact Hd|]. constructor; [apply Z.mod_pos_bound; lia|constructor].
      * rewrite horner_app, Hh. cbn. pose proof (Z.div_mod n 10). lia.
Qed.

Lemma dec_digits n :
  0 <= n < 10 ^ 20 ->
  exists l, dec n = digit_str l /\ l <> [] /\ Forall is_digit_val l /\ horner 0 l = n.
Proof. intros. apply dec_fuel_digits. exact H. Qed.

(** The segment [String] writes with [fmtInt] and [fmtFrac] for a unit
    of [10^p] nanoseconds reads back as the integer part times the unit
    plus the [p] low digits. *)
Lemma fmtFrac_segment a v (p : nat) u rest :
  In p [3; 6; 9]%nat -> In (u, 10 ^ Z.of_nat p) unit_words -> segment_start rest ->
  0 <= a -> 0 <= v -> a * 10 ^ Z.of_nat p + v mod 10 ^ Z.of_nat p <= 2 ^ 63 ->
  duration_segment (dec a ++ fst (fmtFrac (u ++ rest) v p)) =
  inr (a * 10 ^ Z.of_nat p + v mod 10 ^ Z.of_nat p, rest).
Proof.
  intros Hp Hu Hr Ha Hv Hb.
  pose proof (pow10_pos p) as Hpp.
  pose proof (Z.mod_pos_bound v (10 ^ Z.of_nat p) Hpp) as Hvm.
  destruct (dec_digits a) as (l & Hl & Hne & Hd & Hh); [split; [lia|nia]|].
  rewrite Hl. unfold fmtFrac. rewrite fmtFrac_loop_skip by exact Hv.
  destruct (trailing_zeros_spec p v Hv) as (Hz & Hm & Hf & Hpos).
  set (z := trailing_zeros p v) in *. cbn [fst].
  destruct (Nat.eqb_spec (p - z) 0) as [H0|H0]; cbn [negb].
  - rewrite H0 in Hf |- *. cbn [pad_digits digit_str fold_right append].
    rewrite Z.pow_0_r, Z.mod_1_r, Z.mul_0_l in Hf. rewrite <- Hf, Z.add_0_r, <- Hh.
    apply (duration_segment_int l u); auto. apply Z.div_le_lower_bound; [lia|]. nia.
  - destruct (pad_digits_spec (p - z) (v / 10 ^ Z.of_nat z)) as (Hpd & Hpl & Hph);
      [apply Z.div_pos; auto with gohc; lia|].
    set (lf := pad_digits (p - z) (v / 10 ^ Z.of_nat z)) in *.
    rewrite <- Hf, <- Hh, <- Hph.
    change (String "." (digit_str lf ++ u ++ rest)) with ("." ++ digit_str lf ++ u ++ rest).
    rewrite (duration_segment_frac l lf u p rest); auto; try lia.
    all: rewrite ?Hpl; replace (p - (p - z))%nat with z by lia; rewrite ?Hph.
    all: first [reflexivity | apply Hpos; lia | rewrite Hf, Hh; exact Hb].
Qed.

(** ** The loop of [ParseDuration] *)

Lemma leadingInt_loop_suffix s a x r :
  leadingInt_loop s a = Some (x, r) -> (String.length r <= String.length s)%nat.
Proof.
  revert a; induction s as [|c s IH]; intros a H; cbn [leadingInt_loop] in H.
  - injection H as _ <-. reflexivity.
  - destruct (negb (is_digit (byte_val c))); [injection H as _ <-; reflexivity|].
    destruct (_ <? a); [discriminate|]. destruct (2 ^ 63 <? _); [discriminate|].
    apply IH in H. simpl. lia.
Qed.

Lemma leadingFraction_loop_suffix s a sc o x sc' r :
  leadingFraction_loop s a sc o = (x, sc', r) -> (String.length r <= String.length s)%nat.
Proof.
  revert a sc o; induction s as [|c s IH]; intros a sc o H; cbn [leadingFraction_loop] in H.
  - injection H as _ _ <-. reflexivity.
  - destruct (negb (is_digit (byte_val c))); [injection H as _ _ <-; reflexivity|].
    repeat match type of H with
    | (if ?b then _ else _) = _ => destruct b
    end; apply IH in H; simpl; lia.
Qed.

Lemma split_unit_length s u r :
  split_unit s = (u, r) -> (String.length u + String.length r = String.length s)%nat.
Proof.
  revert u r; induction s as [|c s IH]; intros u r H; cbn [split_unit] in H.
  - injection H as <- <-. reflexivity.
  - destruct ((byte_val c =? 46) || is_digit (byte_val c)); [injection H as <- <-; reflexivity|].
    destruct (split_unit s) as [u' r'] eqn:Hs. injection H as <- <-.
    specialize (IH u' r' eq_refl). simpl. lia.
Qed.

(** Every segment consumes at least its unit. *)
Lemma duration_segment_shrinks s v rest :
  duration_segment s = inr (v, rest) -> (String.length rest < String.length s)%nat.
Proof.
  unfold duration_segment. intros H.
  destruct (negb _); [discriminate|].
  destruct (leadingInt s) as [[x s1]|] eqn:Hli; [|discriminate].
  apply leadingInt_loop_suffix in Hli.
  destruct (negb (String.eqb s1 "") && _);
    [cbv zeta in H; destruct (leadingFraction (drop 1 s1)) as [[f sc] s2] eqn:Hlf;
     apply leadingFraction_loop_suffix in Hlf; rewrite length_drop in Hlf|].
  all: repeat match type of H with
       | context [split_unit ?t] =>
           let Hs := fresh "Hs" in
           destruct (split_unit t) as [?u ?s3] eqn:Hs; apply split_unit_length in Hs
       | context [match unitMap ?u with _ => _ end] => destruct (unitMap u)
       | context [if ?b then _ else _] => destruct b eqn:?
       end; try discriminate.
  all: match goal with Hu : String.eqb ?u "" = false |- _ => destruct u; [discriminate|] end.
  all: injection H as _ <-; cbn [String.length] in *; lia.
Qed.

(** The loop of [ParseDuration] ends: every segment consumes at least
    one byte, so one more unit of fuel than the length of the text is
    enough, and any larger amount gives the same result. *)
Lemma duration_loop_fuel_spec f g s d :
  (String.length s < f)%nat -> (String.length s < g)%nat ->
  duration_loop f s d = duration_loop g s d.
Proof.
  revert g s d; induction f as [|f IH]; intros g s d Hf Hg; [lia|].
  destruct g as [|g]; [lia|]. cbn [duration_loop].
  destruct (String.eqb s ""); [reflexivity|].
  destruct (duration_segment s) as [e|[v rest]] eqn:Hseg; [reflexivity|].
  apply duration_segment_shrinks in Hseg.
  destruct (2 ^ 63 <? _); [reflexivity|]. apply IH; lia.
Qed.

Lemma div_mul_mod a b : 0 < b -> a / b * b + a mod b = a.
Proof. intros Hb. rewrite Z.mul_comm. symmetry. apply Z.div_mod. lia. Qed.

Lemma duration_loop_step s v rest d :
  duration_segment s = inr (v, rest) -> 0 <= d -> 0 <= v -> d + v <= 2 ^ 63 ->
  duration_loop (S (String.length s)) s d = duration_loop (S (String.length rest)) rest (d + v).
Proof.
  intros Hseg Hd Hv Hb. pose proof (duration_segment_shrinks _ _ _ Hseg) as Hlt.
  transitivity (duration_loop (String.length s) rest (d + v));
    [|apply duration_loop_fuel_spec; lia].
  cbn [duration_loop]. destruct (String.eqb_spec s "") as [->|_]; [cbn in Hlt; lia|].
  rewrite Hseg, Z.mod_small by lia. destruct (Z.ltb_spec (2 ^ 63) (d + v)); [lia|].
  reflexivity.
Qed.

Lemma fmtFrac_snd buf v p : 0 <= v -> snd (fmtFrac buf v p) = v / 10 ^ Z.of_nat p.
Proof.
  intros Hv. unfold fmtFrac. rewrite fmtFrac_loop_skip by exact Hv.
  destruct (negb _); reflexivity.
Qed.

Lemma dec_segment_start n rest : 0 <= n < 10 ^ 20 -> segment_start (dec n ++ rest).
Proof.
  intros Hn. destruct (dec_digits n Hn) as ([|d l] & -> & Hne & Hd & _); [congruence|].
  right. inversion Hd; subst. rewrite digit_str_first by assumption.
  unfold is_digit, is_digit_val in *. apply andb_true_iff. split; apply Z.leb_le; lia.
Qed.

(** A sub-second duration of at least a microsecond is one segment in
    microseconds or milliseconds. *)
Lemma format_subsecond u unitw (p : nat) :
  In p [3; 6]%nat -> In (unitw, 10 ^ Z.of_nat p) unit_words -> 0 <= u < 10 ^ 9 ->
  let '(buf, q) := fmtFrac unitw u p in
  duration_segment (fmtInt buf q) = inr (u, "").
Proof.
  intros Hp Hu Hr.
  assert (Hp' : In p [3; 6; 9]%nat) by (destruct Hp as [<-|[<-|[]]]; simpl; auto).
  pose proof (fmtFrac_snd unitw u p ltac:(lia)) as Hs.
  destruct (fmtFrac unitw u p) as [buf q] eqn:Hf. cbn [snd] in Hs. subst q.
  pose proof (pow10_pos p) as Hpp.
  rewrite fmtInt_dec_spec by (split; [apply Z.div_pos|apply Z.div_lt_upper_bound]; lia).
  replace buf with (fst (fmtFrac (unitw ++ "") u p)) by (now rewrite str_app_nil_r, Hf).
  rewrite fmtFrac_segment; auto; try (left; reflexivity); try lia.
  - now rewrite div_mul_mod by exact Hpp.
  - apply Z.div_pos; lia.
  - rewrite div_mul_mod by exact Hpp. lia.
Qed.

Lemma dec_segment_int n u unit rest :
  0 <= n < 10 ^ 20 -> In (u, unit) unit_words -> segment_start rest ->
  n <= 2 ^ 63 / unit ->
  duration_segment (dec n ++ u ++ rest) = inr (n * unit, rest).
Proof.
  intros Hn Hu Hr Hb. destruct (dec_digits n Hn) as (l & -> & Hne & Hd & Hh).
  rewrite <- Hh in *. now apply duration_segment_int.
Qed.

(** A duration of at least a second is read back from its hours,
    minutes and seconds with the fraction. *)
Lemma format_seconds_parse u :
  10 ^ 9 <= u <= 2 ^ 63 ->
  duration_loop (S (String.length (format_unsigned u))) (format_unsigned u) 0 = (u, None).
Proof.
  intros Hu. unfold format_unsigned.
  destruct (Z.ltb_spec u Second) as [Hlt|_];
    [unfold Second, Millisecond, Microsecond, Nanosecond in Hlt; lia|].
  pose proof (fmtFrac_snd "s" u 9 ltac:(lia)) as Hs.
  destruct (fmtFrac "s" u 9) as [buf q] eqn:Hf. cbn [snd] in Hs. subst q.
  change (10 ^ Z.of_nat 9) with (10 ^ 9) in *.
  set (secs := u / 10 ^ 9) in *. set (mins := secs / 60). set (hrs := mins / 60).
  assert (HS : u = 10 ^ 9 * secs + u mod 10 ^ 9) by (apply Z.div_mod; lia).
  assert (HM : secs = 60 * mins + secs mod 60) by (apply Z.div_mod; lia).
  assert (HH : mins = 60 * hrs + mins mod 60) by (apply Z.div_mod; lia).
  assert (HSp : 0 <= secs) by (apply Z.div_pos; lia).
  assert (HMp : 0 <= mins) by (apply Z.div_pos; lia).
  assert (HHp : 0 <= hrs) by (apply Z.div_pos; lia).
  pose proof (Z.mod_pos_bound u (10 ^ 9) ltac:(lia)).
  pose proof (Z.mod_pos_bound secs 60 ltac:(lia)).
  pose proof (Z.mod_pos_bound mins 60 ltac:(lia)).
  clearbody hrs mins secs.
  assert (Hseg_s : duration_segment (dec (secs mod 60) ++ buf) =
                   inr (secs mod 60 * 10 ^ 9 + u mod 10 ^ 9, "")).
  { replace buf with (fst (fmtFrac ("s" ++ "") u 9))
      by (change ("s" ++ "") with "s"; now rewrite Hf).
    apply (fmtFrac_segment (secs mod 60) u 9 "s" "");
      [right; right; left; reflexivity | right; right; left; reflexivity
      | left; reflexivity | lia | lia | lia]. }
  unfold Hour, Minute, Second, Millisecond, Microsecond, Nanosecond.
  rewrite (fmtInt_dec_spec buf) by lia.
  destruct (Z.ltb_spec 0 mins) as [Hm0|Hm0].
  - rewrite (fmtInt_dec_spec (String "m" _)) by lia.
    assert (Hseg_m : duration_segment (dec (mins mod 60) ++ String "m" (dec (secs mod 60) ++ buf))
                     = inr (mins mod 60 * Minute, dec (secs mod 60) ++ buf)).
    { apply (dec_segment_int _ "m"); [lia | right; left; reflexivity
      | apply dec_segment_start; lia | apply Z.div_le_lower_bound; unfold Minute, Second, Millisecond, Microsecond, Nanosecond; lia]. }
    destruct (Z.ltb_spec 0 hrs) as [Hh0|Hh0].
    + rewrite (fmtInt_dec_spec (String "h" _)) by lia.
      assert (Hseg_h : duration_segment (dec hrs ++ String "h" (dec (mins mod 60) ++
                         String "m" (dec (secs mod 60) ++ buf)))
                       = inr (hrs * Hour, dec (mins mod 60) ++ String "m" (dec (secs mod 60) ++ buf))).
      { apply (dec_segment_int _ "h"); [lia | left; reflexivity
        | apply dec_segment_start; lia | apply Z.div_le_lower_bound; unfold Hour, Minute, Second, Millisecond, Microsecond, Nanosecond; lia]. }
      unfold Hour, Minute, Second, Millisecond, Microsecond, Nanosecond in *.
      rewrite (duration_loop_step _ _ _ _ Hseg_h), (duration_loop_step _ _ _ _ Hseg_m),
        (duration_loop_step _ _ _ _ Hseg_s) by lia.
      cbn [String.length duration_loop String.eqb]. f_equal. lia.
    + unfold Hour, Minute, Second, Millisecond, Microsecond, Nanosecond in *.
      rewrite (duration_loop_step _ _ _ _ Hseg_m), (duration_loop_step _ _ _ _ Hseg_s) by lia.
      cbn [String.length duration_loop String.eqb]. f_equal. lia.
  - rewrite (duration_loop_step _ _ _ _ Hseg_s) by lia.
    cbn [String.length duration_loop String.eqb]. f_equal. lia.
Qed.

(** A duration under a second is one segment in nanoseconds,
    microseconds or milliseconds. *)
Lemma format_subsecond_parse u :
  0 < u < 10 ^ 9 ->
  duration_loop (S (String.length (format_unsigned u))) (format_unsigned u) 0 = (u, None).
Proof.
  intros Hu. unfold format_unsigned.
  destruct (Z.ltb_spec u Second) as [_|Hs]; [|unfold Second, Millisecond, Microsecond, Nanosecond in Hs; lia].
  destruct (Z.eqb_spec u 0); [lia|].
  destruct (Z.ltb_spec u Microsecond) as [Hns|Hns]; [|destruct (Z.ltb_spec u Millisecond) as [Hus|Hus]];
    unfold Microsecond, Millisecond, Nanosecond in *.
  - cbn [fmtFrac fmtFrac_loop]. rewrite fmtInt_dec_spec by lia.
    rewrite <- (str_app_nil_r "ns").
    rewrite (duration_loop_step _ (u * 1) "") by
      (try apply (dec_segment_int u "ns" 1 ""); try (left; reflexivity);
       try (do 5 right; left; reflexivity); try (apply Z.div_le_lower_bound); lia).
    cbn [String.length duration_loop String.eqb]. f_equal. lia.
  - change (String (ascii_of_nat 194) (String (ascii_of_nat 181) "s")) with micro_s.
    pose proof (format_subsecond u micro_s 3) as Hseg.
    destruct (fmtFrac micro_s u 3) as [buf q].
    rewrite (duration_loop_step _ u "" 0
               (Hseg ltac:(left; reflexivity) ltac:(do 4 right; left; reflexivity) ltac:(lia)))
      by lia.
    reflexivity.
  - pose proof (format_subsecond u "ms" 6) as Hseg.
    destruct (fmtFrac "ms" u 6) as [buf q].
    rewrite (duration_loop_step _ u "" 0
               (Hseg ltac:(right; left; reflexivity) ltac:(do 3 right; left; reflexivity) ltac:(lia)))
      by lia.
    reflexivity.
Qed.

Lemma format_unsigned_parse u :
  0 < u <= 2 ^ 63 ->
  duration_loop (S (String.length (format_unsigned u))) (format_unsigned u) 0 = (u, None).
Proof.
  intros Hu. destruct (Z.ltb_spec u (10 ^ 9)).
  - apply format_subsecond_parse. lia.
  - apply format_seconds_parse. lia.
Qed.

(** A text the loop reads as a non-zero duration starts with a digit or
    a dot, so not with a sign. *)
Lemma duration_loop_first f s u :
  duration_loop f s 0 = (u, None) -> u <> 0 ->
  String.eqb s "" = false /\ (byte_at 0 s =? 45) = false /\ (byte_at 0 s =? 43) = false.
Proof.
  intros H Hu. destruct f as [|f]; [injection H as <-; lia|]. cbn [duration_loop] in H.
  destruct (String.eqb s ""); [injection H as <-; lia|]. split; [reflexivity|].
  unfold duration_segment in H.
  destruct ((byte_at 0 s =? 46) || is_digit (byte_at 0 s)) eqn:Hc; [|discriminate].
  unfold is_digit in Hc. apply orb_true_iff in Hc.
  destruct Hc as [Hc|Hc]; [apply Z.eqb_eq in Hc|apply andb_true_iff in Hc; destruct Hc as [Hc1 Hc2];
    apply Z.leb_le in Hc1; apply Z.leb_le in Hc2]; split; apply Z.eqb_neq; lia.
Qed.

Lemma format_unsigned_not_zero u :
  0 < u <= 2 ^ 63 -> String.eqb (format_unsigned u) "0" = false.
Proof.
  intros Hu. pose proof (format_unsigned_parse u Hu) as H.
  destruct (String.eqb_spec (format_unsigned u) "0") as [Hz|]; [|reflexivity].
  rewrite Hz in H. discriminate.
Qed.

Lemma int64_of_u64_neg u : 0 < u <= 2 ^ 63 -> int64_of_u64 ((- int64_of_u64 u) mod 2 ^ 64) = - u.
Proof.
  intros Hu. unfold int64_of_u64. destruct (Z.leb_spec (2 ^ 63) u).
  - replace u with (2 ^ 63) by lia. reflexivity.
  - rewrite <- (Z.mod_unique_pos (- u) (2 ^ 64) (-1) (2 ^ 64 - u)) by lia.
    destruct (Z.leb_spec (2 ^ 63) (2 ^ 64 - u)); lia.
Qed.

Lemma ParseDuration_String_spec (d : Z) :
  int64_min <= d <= int64_max -> ParseDuration (Duration_String d) = (d, None).
Proof.
  unfold int64_min, int64_max. intros Hd.
  destruct (Z.eq_dec d 0) as [->|Hnz]; [reflexivity|].
  unfold Duration_String, Duration_format.
  destruct (Z.ltb_spec d 0) as [Hneg|Hpos].
  - set (u := (- (d mod 2 ^ 64)) mod 2 ^ 64).
    assert (Hu : u = - d).
    { subst u. rewrite <- (Z.mod_unique_pos d (2 ^ 64) (-1) (d + 2 ^ 64)) by lia.
      symmetry; apply Z.mod_unique_pos with (q := -1); lia. }
    rewrite Hu. unfold ParseDuration. cbn [String.eqb negb andb].
    change (byte_at 0 (String "-" (format_unsigned (- d))) =? 45) with true.
    cbn [orb negb andb]. rewrite drop_sign, format_unsigned_not_zero by lia.
    pose proof (format_unsigned_parse (- d) ltac:(lia)) as Hl.
    destruct (duration_loop_first _ _ _ Hl ltac:(lia)) as (He & _ & _).
    rewrite He, Hl, int64_of_u64_neg by lia. f_equal. lia.
  - rewrite (Z.mod_small d) by lia. unfold ParseDuration.
    pose proof (format_unsigned_parse d ltac:(lia)) as Hl.
    destruct (duration_loop_first _ _ _ Hl ltac:(lia)) as (He & Hm & Hp).
    rewrite He, Hm, Hp. cbn [orb negb andb].
    rewrite format_unsigned_not_zero, He, Hl by lia.
    destruct (Z.ltb_spec (2 ^ 63 - 1) d); [lia|reflexivity].
Qed.

(** C21: [time.ParseDuration] reads back what [Duration.String] writes,
    for every [int64] duration: the hours, minutes, seconds and the
    fraction of nine digits at most, the sub-second units, and the sign.
    This is the round trip of [cli.Duration("timeout")], which parses
    the text of the value the flag holds. *)
Theorem ParseDuration_String (d : Z) :
  int64_min <= d <= int64_max -> ParseDuration (Duration_String d) = (d, None).
Proof. exact (ParseDuration_String_spec d). Qed.

(** ** The range of [ParseDuration] *)

Lemma duration_loop_range f s d0 d :
  0 <= d0 <= 2 ^ 63 -> duration_loop f s d0 = (d, None) -> 0 <= d <= 2 ^ 63.
Proof.
  revert s d0; induction f as [|f IH]; intros s d0 Hd0 H; cbn [duration_loop] in H.
  - injection H as <-. exact Hd0.
  - destruct (String.eqb s ""); [injection H as <-; exact Hd0|].
    destruct (duration_segment s) as [e|[v s']]; [injection H as <- ->; lia|].
    destruct (Z.ltb_spec (2 ^ 63) ((d0 + v) mod 2 ^ 64)); [discriminate|].
    apply IH in H; [exact H|]. pose proof (Z.mod_pos_bound (d0 + v) (2 ^ 64)). lia.
Qed.

(** A duration [ParseDuration] accepts is an [int64]. *)
Lemma ParseDuration_range s d :
  ParseDuration s = (d, None) -> int64_min <= d <= int64_max.
Proof.
  unfold ParseDuration, int64_min, int64_max.
  match goal with |- context [match ?x with pair _ _ => _ end] => destruct x as [neg s'] end.
  destruct (String.eqb s' "0"); [intros H; injection H as <-; lia|].
  destruct (String.eqb s' ""); [discriminate|].
  destruct (duration_loop _ s' 0) as [u [e|]] eqn:Hl; [discriminate|].
  apply duration_loop_range in Hl; [|lia].
  destruct neg.
  - intros H; injection H as <-. destruct (Z.eq_dec u 0) as [->|Hnz].
    + vm_compute. split; discriminate.
    + rewrite int64_of_u64_neg by lia. lia.
  - destruct (Z.ltb_spec (2 ^ 63 - 1) u); [discriminate|]. intros Heq; injection Heq as <-. lia.
Qed.

(** ** A number without a unit *)

(** A digit string alone is a segment without a unit. *)
Lemma duration_segment_no_unit l :
  l <> [] -> Forall is_digit_val l -> horner 0 l <= 2 ^ 63 ->
  duration_segment (digit_str l) = inl (Some ErrMissingUnit).
Proof.
  intros Hne Hl Hb. rewrite <- (str_app_nil_r (digit_str l)). unfold duration_segment.
  destruct l as [|d l']; [congruence|]. inversion Hl as [|? ? Hd Hl']; subst.
  rewrite digit_str_first by exact Hd. unfold is_digit_val in Hd.
  destruct (Z.eqb_spec (48 + d) 46); [lia|]. unfold is_digit at 1.
  destruct (Z.leb_spec 48 (48 + d)); [|lia]. destruct (Z.leb_spec (48 + d) 57); [|lia].
  cbn [andb orb negb]. unfold leadingInt.
  rewrite leadingInt_loop_digits by (auto; lia || reflexivity). reflexivity.
Qed.

(** [ParseDuration] of a digit string other than ["0"] fails with the
    missing unit, when the number does not overflow. *)
Lemma ParseDuration_no_unit l :
  l <> [] -> Forall is_digit_val l -> digit_str l <> "0" -> horner 0 l <= 2 ^ 63 ->
  ParseDuration (digit_str l) = (0, Some ErrMissingUnit).
Proof.
  intros Hne Hl H0 Hb. pose proof (duration_segment_no_unit l Hne Hl Hb) as Hseg.
  unfold ParseDuration.
  destruct l as [|d l']; [congruence|]. inversion Hl as [|? ? Hd Hl']; subst.
  pose proof (digit_str_first d l' "" Hd) as Hc. rewrite str_app_nil_r in Hc. rewrite Hc.
  unfold is_digit_val in Hd.
  destruct (Z.eqb_spec (48 + d) 45); [lia|]. destruct (Z.eqb_spec (48 + d) 43); [lia|].
  rewrite andb_false_r.
  destruct (String.eqb_spec (digit_str (d :: l')) "0"); [congruence|].
  cbn [digit_str fold_right String.eqb]. fold (digit_str l').
  cbn [String.length duration_loop String.eqb]. change (String (digit_char d) (digit_str l')) with (digit_str (d :: l')).
  rewrite Hseg. reflexivity.
Qed.

(** ** Properties of [time.ParseDuration] and [Duration.String] *)

(** ** The running total of [ParseDuration]

    A text of integer segments [n1 u1 n2 u2 ...], each with a unit of
    [Duration.String]'s table and a value within [1<<63 / unit], is
    read segment by segment; the total is a [uint64] that Go checks
    against [1<<63] after each addition ([d += v; if d > 1<<63]) and
    against [1<<63 - 1] at the end. *)

Definition seg_text (seg : Z * (string * Z)) : string := dec (fst seg) ++ fst (snd seg).

Definition segs_text (segs : list (Z * (string * Z))) : string :=
  fold_right (fun seg acc => seg_text seg ++ acc) "" segs.

Definition seg_total (segs : list (Z * (string * Z))) : Z :=
  fold_right (fun seg acc => fst seg * snd (snd seg) + acc) 0 segs.

(** A segment the loop reads without an error of its own: a unit of the
    table and a value [leadingInt] and the check [v > 1<<63/unit] let
    through. *)
Definition seg_ok (seg : Z * (string * Z)) : bool :=
  let '(n, (u, unit)) := seg in
  (0 <=? n) && (n <=? 2 ^ 63 / unit) &&
  existsb (fun w => String.eqb (fst w) u && (snd w =? unit)) unit_words.

Lemma seg_ok_spec n u unit :
  seg_ok (n, (u, unit)) = true ->
  0 <= n /\ n * unit <= 2 ^ 63 /\ n <= 2 ^ 63 / unit /\ In (u, unit) unit_words.
Proof.
  cbn [seg_ok]. intros Hs. apply andb_true_iff in Hs as [Hs Hw].
  apply andb_true_iff in Hs as [H0 Hn]. apply Z.leb_le in H0, Hn.
  apply existsb_exists in Hw as ([u' unit'] & Hin & Heq).
  apply andb_true_iff in Heq as [Hu Hv]. apply String.eqb_eq in Hu. apply Z.eqb_eq in Hv.
  cbn in Hu, Hv. subst u' unit'. pose proof (unit_word_pos _ _ Hin) as Hp.
  repeat split; try assumption.
  transitivity (unit * (2 ^ 63 / unit)); [nia|apply Z.mul_div_le; lia].
Qed.

Lemma seg_total_nonneg segs :
  forallb seg_ok segs = true -> 0 <= seg_total segs.
Proof.
  induction segs as [|[n [u unit]] segs IH]; intros Hs; [unfold seg_total; cbn; lia|].
  cbn [forallb] in Hs. apply andb_true_iff in Hs as [Hs Hr].
  change (seg_total ((n, (u, unit)) :: segs)) with (n * unit + seg_total segs).
  apply seg_ok_spec in Hs as (Hn & _ & _ & Hin). pose proof (unit_word_pos _ _ Hin).
  specialize (IH Hr). nia.
Qed.

Lemma segs_text_start segs :
  forallb seg_ok segs = true -> segment_start (segs_text segs).
Proof.
  destruct segs as [|[n [u unit]] segs]; cbn [segs_text fold_right]; [now left|].
  intros Hs. apply andb_true_iff in Hs as [Hs _]. apply seg_ok_spec in Hs as (Hn & Hb & _ & Hin).
  pose proof (unit_word_pos _ _ Hin). unfold seg_text. cbn [fst snd]. rewrite <- str_app_assoc.
  apply dec_segment_start. change (10 ^ 20) with 100000000000000000000. nia.
Qed.

(** The first segment of such a text, read by [duration_segment]. *)
Lemma seg_segment n u unit segs :
  seg_ok (n, (u, unit)) = true -> forallb seg_ok segs = true ->
  duration_segment (segs_text ((n, (u, unit)) :: segs)) = inr (n * unit, segs_text segs).
Proof.
  intros Hs Hr. apply seg_ok_spec in Hs as (Hn & Hb & Hdiv & Hin). pose proof (unit_word_pos _ _ Hin).
  cbn [segs_text fold_right]. unfold seg_text. cbn [fst snd]. rewrite <- str_app_assoc.
  apply dec_segment_int; [change (10 ^ 20) with 100000000000000000000; nia|exact Hin|
    apply segs_text_start, Hr|exact Hdiv].
Qed.

(** One turn of the loop on a segment, whatever the running total. *)
Lemma duration_loop_unfold f s v rest d :
  duration_segment s = inr (v, rest) ->
  duration_loop (S f) s d =
  if 2 ^ 63 <? (d + v) mod 2 ^ 64 then (0, Some ErrInvalidDuration)
  else duration_loop f rest ((d + v) mod 2 ^ 64).
Proof.
  intros Hseg. pose proof (duration_segment_shrinks _ _ _ Hseg) as Hlt. cbn [duration_loop].
  destruct (String.eqb_spec s "") as [->|_]; [cbn in Hlt; lia|]. now rewrite Hseg.
Qed.

(** The loop over such a text, from a running total [d], when the total
    stays below [2^64]: the sum when no partial total passes [1<<63],
    which with non-negative segments is when the whole sum does not, and
    otherwise the overflow error. *)
Lemma segs_loop segs d :
  forallb seg_ok segs = true -> 0 <= d <= 2 ^ 63 -> d + seg_total segs < 2 ^ 64 ->
  duration_loop (S (String.length (segs_text segs))) (segs_text segs) d =
  if d + seg_total segs <=? 2 ^ 63 then (d + seg_total segs, None)
  else (0, Some ErrInvalidDuration).
Proof.
  revert d. induction segs as [|[n [u unit]] segs IH]; intros d Hs Hd Hw.
  - unfold seg_total. cbn [fold_right]. rewrite Z.add_0_r.
    replace (d <=? 2 ^ 63) with true by (symmetry; apply Z.leb_le; lia). reflexivity.
  - cbn [forallb] in Hs. apply andb_true_iff in Hs as [Hs0 Hr].
    pose proof (seg_total_nonneg _ Hr) as Ht.
    pose proof (seg_segment _ _ _ _ Hs0 Hr) as Hseg.
    apply seg_ok_spec in Hs0 as (Hn & Hb & _ & Hin). pose proof (unit_word_pos _ _ Hin).
    change (seg_total ((n, (u, unit)) :: segs)) with (n * unit + seg_total segs) in *.
    destruct (Z.leb_spec (d + n * unit) (2 ^ 63)) as [Hle|Hgt].
    + rewrite (duration_loop_step _ _ _ _ Hseg) by nia.
      rewrite (IH (d + n * unit) Hr) by nia. now rewrite Z.add_assoc.
    + rewrite (duration_loop_unfold _ _ _ _ _ Hseg), Z.mod_small by nia.
      destruct (Z.ltb_spec (2 ^ 63) (d + n * unit)); [|lia].
      destruct (Z.leb_spec (d + (n * unit + seg_total segs)) (2 ^ 63)); [lia|reflexivity].
Qed.

(** [ParseDuration] on such a text is the loop from 0 and the final
    check against [1<<63 - 1]: the text starts with a digit, so with no
    sign, and it is neither [""] nor ["0"]. *)
Lemma ParseDuration_segs segs :
  segs <> [] -> forallb seg_ok segs = true ->
  ParseDuration (segs_text segs) =
  match duration_loop (S (String.length (segs_text segs))) (segs_text segs) 0 with
  | (_, Some e) => (0, Some e)
  | (d, None) => if 2 ^ 63 - 1 <? d then (0, Some ErrInvalidDuration) else (d, None)
  end.
Proof.
  intros Hne Hs. destruct segs as [|[n [u unit]] rest]; [congruence|].
  pose proof Hs as Hs'. cbn [forallb] in Hs'. apply andb_true_iff in Hs' as [Hs0 _].
  apply seg_ok_spec in Hs0 as (_ & _ & _ & Hin).
  set (s := segs_text ((n, (u, unit)) :: rest)).
  assert (Hs1 : s = dec n ++ u ++ segs_text rest)
    by (subst s; cbn [segs_text fold_right]; unfold seg_text; cbn [fst snd]; now rewrite <- str_app_assoc).
  assert (Hdig : is_digit (byte_at 0 s) = true).
  { destruct (segs_text_start _ Hs) as [He|Hd]; [|exact Hd].
    exfalso. fold s in He. rewrite Hs1 in He. pose proof (dec_nonempty n) as Hn.
    destruct (dec n); discriminate. }
  assert (Hlen : (2 <= String.length s)%nat).
  { rewrite Hs1, !length_str_app. pose proof (dec_nonempty n) as Hn.
    destruct (unit_word_first u unit "" Hin) as [Hu _].
    destruct (dec n), u; try discriminate. cbn. lia. }
  unfold ParseDuration. fold s.
  unfold is_digit in Hdig. apply andb_true_iff in Hdig as [H1 H2]. apply Z.leb_le in H1, H2.
  destruct (Z.eqb_spec (byte_at 0 s) 45); [lia|]. destruct (Z.eqb_spec (byte_at 0 s) 43); [lia|].
  rewrite andb_false_r.
  destruct (String.eqb_spec s "0") as [E|_]; [rewrite E in Hlen; cbn in Hlen; lia|].
  destruct (String.eqb_spec s "") as [E|_]; [rewrite E in Hlen; cbn in Hlen; lia|].
  reflexivity.
Qed.

(** C33: on a text of integer segments whose sum is below [2^64],
    [time.ParseDuration] returns the exact sum when it is an [int64], and
    otherwise fails with [invalid duration]: the running total is checked
    against [1<<63] after each segment and against [1<<63 - 1] at the end. *)
Theorem ParseDuration_sum segs :
  segs <> [] -> forallb seg_ok segs = true -> seg_total segs < 2 ^ 64 ->
  ParseDuration (segs_text segs) =
  if seg_total segs <=? int64_max then (seg_total segs, None)
  else (0, Some ErrInvalidDuration).
Proof.
  intros Hne Hs Hw. rewrite (ParseDuration_segs _ Hne Hs).
  pose proof (seg_total_nonneg _ Hs) as Ht.
  rewrite (segs_loop _ 0 Hs) by lia. rewrite Z.add_0_l. unfold int64_max.
  destruct (Z.leb_spec (seg_total segs) (2 ^ 63)).
  - destruct (Z.ltb_spec (2 ^ 63 - 1) (seg_total segs));
      destruct (Z.leb_spec (seg_total segs) (2 ^ 63 - 1)); reflexivity || lia.
  - destruct (Z.leb_spec (seg_total segs) (2 ^ 63 - 1)); [lia|reflexivity].
Qed.

(** The segment of [1<<63] nanoseconds. *)
Definition seg_max : Z * (string * Z) := (2 ^ 63, ("ns", Nanosecond)).

(** C35: the check after each segment misses the one sum it cannot see:
    a running total of exactly [1<<63] plus a segment of [1<<63] wraps
    the [uint64] to 0, which passes [d > 1<<63], so two segments of
    [9223372036854775808ns] in front of any duration text of segments
    are read as nothing at all: [ParseDuration] returns what it returns
    on the rest, an overflow of [2^64] nanoseconds accepted. *)
Theorem ParseDuration_wrap segs :
  segs <> [] -> forallb seg_ok segs = true ->
  ParseDuration (segs_text (seg_max :: seg_max :: segs)) = ParseDuration (segs_text segs).
Proof.
  intros Hne Hs.
  assert (Hok : forallb seg_ok (seg_max :: seg_max :: segs) = true) by exact Hs.
  assert (Hne2 : seg_max :: seg_max :: segs <> []) by discriminate.
  rewrite (ParseDuration_segs _ Hne2 Hok), (ParseDuration_segs _ Hne Hs).
  assert (Hm : seg_ok seg_max = true) by reflexivity.
  assert (Hr1 : forallb seg_ok (seg_max :: segs) = true) by exact Hs.
  pose proof (seg_segment _ _ _ _ Hm Hr1) as H1. pose proof (seg_segment _ _ _ _ Hm Hs) as H2.
  change (2 ^ 63 * Nanosecond) with (2 ^ 63) in H1, H2.
  change (segs_text (seg_max :: seg_max :: segs)) with (seg_text seg_max ++ segs_text (seg_max :: segs)).
  rewrite (duration_loop_step _ _ _ _ H1) by lia. rewrite Z.add_0_l.
  pose proof (duration_segment_shrinks _ _ _ H2) as Hlt.
  rewrite (duration_loop_unfold _ _ _ _ _ H2). change ((2 ^ 63 + 2 ^ 63) mod 2 ^ 64) with 0.
  change (2 ^ 63 <? 0) with false. cbv iota.
  rewrite (duration_loop_fuel_spec (String.length (segs_text (seg_max :: segs)))
             (S (String.length (segs_text segs)))); [reflexivity|exact Hlt|lia].
Qed.

(** ** Witnesses *)

(** Two segments of a quarter of [2^64] nanoseconds: the sum is above
    the [int64] range and below [2^64], and the text is rejected. *)
Lemma ParseDuration_sum_witness :
  ParseDuration "4611686018427387904ns4611686018427387904ns4611686018427387904ns" =
  (0, Some ErrInvalidDuration).
Proof.
  apply (ParseDuration_sum [(2 ^ 62, ("ns", Nanosecond)); (2 ^ 62, ("ns", Nanosecond));
                             (2 ^ 62, ("ns", Nanosecond))]);
    [discriminate|vm_compute; reflexivity|vm_compute; reflexivity].
Defined.

(** [9223372036854775808ns9223372036854775808ns1s] is read as one second. *)
Lemma ParseDuration_wrap_witness :
  ParseDuration "9223372036854775808ns9223372036854775808ns1s" = ParseDuration "1s" /\
  ParseDuration "1s" = (Second, None).
Proof.
  split; [|vm_compute; reflexivity].
  apply (ParseDuration_wrap [(1, ("s", Second))]); [discriminate|vm_compute; reflexivity].
Defined.

Lemma ParseDuration_String_witness :
  int64_min <= -3723004005006 <= int64_max /\
  ParseDuration (Duration_String (-3723004005006)) = (-3723004005006, None).
Proof.
  split; [vm_compute; split; discriminate|].
  apply ParseDuration_String. vm_compute; split; discriminate.
Defined.
