(* ===== verification/Nats.v ===== *)
(** * The NATS client as [run] drives it (src/main.go:69-86)

    [run] installs its dialer with [nats.SetCustomDialer] and calls
    [nats.Connect], [nc.Request] and, deferred, [nc.Drain].  This file
    models the part of [nats.go] those calls reach, over the process
    state [World]:
    - [World] holds the Go heap cells of dialer objects (the pointer
      [NewDialer] returns and [SetCustomDialer] stores), the open sockets
      and a chronological trace of the observable events;
    - [with_dialer] runs the hook [Dial] on the heap cell of the
      installed dialer, so its write is seen by later reads of the cell;
    - [Connect] builds the server pool of [Pool] from the URL and runs
      [connect_loop], nats.go's loop over the pool: each server's hosts
      ([conn_hosts]) go to [createConn], which tries them in order
      through the hook and stops at the first that connects; a dial
      error that mentions "connection refused" is cancelled
      ([connect_err]), so a pool that only refuses ends with
      [ErrNoServers]; a failed handshake closes the connection and the
      loop moves to the next server;
    - [Request] publishes the payload and waits for the first of the
      reply and the timer; [Drain] starts draining and returns at once.
    The server side and the environment are the [Broker] class: DNS
    answers, the random draws of the two shuffles (each bounded by its
    loop index), the outcome of the handshake, and the reply, if any, to
    a request. *)

From Stdlib Require Import String List ZArith Lia Bool.
From stdpp Require Import base gmap.
From S2P Require Import Prelude Dialer Strconv Resolve Url Pool.
Import ListNotations.
Local Open Scope string_scope.
Local Open Scope go_scope.

(** What a responder does with a request: nothing, or a message after
    [delay] nanoseconds, which is a no-responders status when [status503]
    is set. *)
Inductive reply :=
| NoReply
| Reply (delay : Z) (status503 : bool) (body : string).

Class Broker `{NetStack} := {
  (** What the system resolver answers [net.LookupHost] for a host name
      that is not an IP literal (empty on error). *)
  lookup_dns : list Z -> list string;
  (** The draws of [shufflePool]: [r.Intn(i + 1)] at step [i]. *)
  pool_pick : nat -> nat;
  pool_pick_le : forall i, (pool_pick i <= i)%nat;
  (** The draws of [rand.Shuffle] on the addresses of the [k]-th server. *)
  hosts_pick : nat -> nat -> nat;
  hosts_pick_le : forall k i, (hosts_pick k i <= i)%nat;
  (** [processConnectInit] on a fresh connection, with TLS when the pool
      set [nc.Opts.Secure]. *)
  handshake : bool -> Conn -> result unit;
  (** The reply the subject's responders send to a payload. *)
  reply_to : string -> string -> reply;
  (** Which case the [select] of [newRequest] takes when the reply and the
      timer are ready at once. *)
  reply_wins_tie : bool
}.

Section Client.
Context `{NetStack}.

Inductive event :=
| EvDial (network address : string)
| EvClose (c : Conn)
| EvRequest (subject payload : string)
| EvDrain (c : Conn)
| EvPrint (text : string).

Record World := mkWorld {
  w_heap : gmap positive dialer;
  w_next : positive;
  w_sockets : list Conn;
  w_trace : list event
}.

Definition emit (e : event) : stM World unit :=
  modify (fun w => mkWorld (w_heap w) (w_next w) (w_sockets w) (w_trace w ++ [e])).

(** [new(dialer)]: a fresh heap cell holding [d]. *)
Definition alloc_dialer (d : dialer) : stM World positive :=
  fun w => (Ok (w_next w),
            mkWorld (<[w_next w := d]> (w_heap w)) (Pos.succ (w_next w))
                    (w_sockets w) (w_trace w)).

Definition nil_deref : goerror :=
  Panic "runtime error: invalid memory address or nil pointer dereference".

(** [*p] *)
Definition load_dialer (p : positive) : stM World dialer :=
  fun w => match w_heap w !! p with
           | Some d => (Ok d, w)
           | None => (Err nil_deref, w)
           end.

(** A method call [p.m(...)] on the dialer in cell [p]: the method sees
    [*p] and the process's sockets, and its writes land in the cell. *)
Definition with_dialer {A} (p : positive) (m : stM dial_state A) : stM World A :=
  fun w =>
    match w_heap w !! p with
    | None => (Err nil_deref, w)
    | Some d =>
        let '(r, ds) := m (mkDialState d (w_sockets w) []) in
        (r, mkWorld (<[p := self ds]> (w_heap w)) (w_next w) (sockets ds)
                    (w_trace w ++ map (fun na => EvDial (fst na) (snd na))
                                      (rev (dialed ds))))
    end.

(** [nc.close]: the socket is closed. *)
Definition close (c : Conn) : stM World unit :=
  fun w => (Ok tt, mkWorld (w_heap w) (w_next w)
                           (remove conn_eq_dec c (w_sockets w))
                           (w_trace w ++ [EvClose c])).

(** The loop of [createConn]: [dialer.Dial("tcp", host)] for each host
    until one succeeds; the last error otherwise. *)
Fixpoint dial_hosts (p : positive) (host : string) (rest : list string)
  : stM World Conn :=
  catch (with_dialer p (Dial "tcp" host))
        (fun e => match rest with
                  | [] => throw e
                  | host' :: rest' => dial_hosts p host' rest'
                  end).

(** [createConn] on the addresses of the current server
    ([conn_hosts], never empty: [conn_hosts_nonempty]; with no address Go
    would go on with a nil connection). *)
Definition createConn (p : positive) (hosts : list string) : stM World Conn :=
  match hosts with
  | [] => throw nil_deref
  | h :: rest => dial_hosts p h rest
  end.

(** The error [connect] keeps from a failed [createConn]: a refused
    connection is cancelled out ([err = nil]). *)
Definition connect_err (e : goerror) : option goerror :=
  if contains (error_text e) "connection refused" then None else Some e.

Context `{!Broker}.

(** The loop of [nc.connect()] over the pool: [createConn] on each
    server ([k] is its index), [processConnectInit] on the connection,
    [nc.close] and the next server when the handshake fails; the error
    of the last server, or [ErrNoServers] when it was cancelled out. *)
Fixpoint connect_loop (p : positive) (secure : bool) (k : nat) (pool : list URL.URL)
         (err : option goerror) : stM World Conn :=
  match pool with
  | [] => throw (match err with Some e => e | None => NatsError ErrNoServers end)
  | u :: rest =>
      let* r := attempt (createConn p (conn_hosts lookup_dns hosts_pick k u)) in
      match r with
      | Err e => connect_loop p secure (S k) rest (connect_err e)
      | Ok c =>
          let* h := attempt (lift (handshake secure c)) in
          match h with
          | Ok _ => ret c
          | Err e => let* _ := close c in connect_loop p secure (S k) rest (Some e)
          end
      end
  end.

(** [nats.Connect(url, nats.SetCustomDialer(dialer))], the dialer being
    the one in cell [p]: [processUrlString] and [setupServerPool], then
    [connect]. *)
Definition Connect (p : positive) (url : string) : stM World Conn :=
  let* pool := lift (server_pool pool_pick url) in
  connect_loop p (pool_secure pool) 0 pool None.

(** The [select] of [newRequest] between the reply channel and a timer
    of [timeout] nanoseconds, then the no-responders check of
    [request]. *)
Definition request_result (r : reply) (timeout : Z) : result string :=
  match r with
  | NoReply => Err (NatsError ErrTimeout)
  | Reply delay status503 body =>
      if (delay <? timeout)%Z || ((delay =? timeout)%Z && reply_wins_tie) then
        if status503 && (body =? "") then Err (NatsError ErrNoResponders)
        else Ok body
      else Err (NatsError ErrTimeout)
  end.

(** [nc.Request(subj, data, timeout)] *)
Definition Request (nc : Conn) (subj data : string) (timeout : Z)
  : stM World string :=
  let* _ := emit (EvRequest subj data) in
  lift (request_result (reply_to subj data) timeout).

(** [nc.Drain()]: marks the connection draining, starts the goroutine
    that will close it, and returns nil at once. *)
Definition Drain (nc : Conn) : stM World unit := emit (EvDrain nc).
End Client.

Arguments World {_}.
Arguments event {_}.

(** The process before [run]: an empty heap, no socket, no event. *)
Definition world0 `{NetStack} : World := mkWorld empty 1 [] [].

(** ** A concrete server for the examples

    [localhost] resolves to [::1] and [127.0.0.1], and the random
    source leaves every list in its order (each draw [j = i] swaps an
    element with itself): [::1] is tried first, and only [127.0.0.1]
    accepts (see [Dialer.loopback_net]).  On
    [health.check] the responder answers "ok" after a microsecond, on
    [health.degraded] it answers "degraded", nobody answers on
    [health.silent], and other subjects have no responders. *)
#[export] Instance health_broker : Broker := {|
  lookup_dns := fun host =>
    if URL.bytes_eq host (zbytes "localhost") then ["::1"; "127.0.0.1"] else [];
  pool_pick := fun i => i;
  pool_pick_le := fun i => le_n i;
  hosts_pick := fun _ i => i;
  hosts_pick_le := fun _ i => le_n i;
  handshake := fun _ _ => Ok tt;
  reply_to := fun subj _ =>
    if subj =? "health.check" then Reply 1000 false "ok"
    else if subj =? "health.degraded" then Reply 1000 false "degraded"
    else if subj =? "health.silent" then NoReply
    else Reply 0 true "";
  reply_wins_tie := false
|}.

(** ** Theorems *)

Section ClientTheorems.
Context `{NetStack}.

Definition is_dial (e : event) : bool :=
  match e with EvDial _ _ => true | _ => false end.

(** The events [Connect] may leave behind. *)
Definition is_connect_event (e : event) : bool :=
  match e with EvDial _ _ | EvClose _ => true | _ => false end.

(** The hook run on a live heap cell: one dial event, and on success the
    cell holds the captured IP. *)
Lemma with_dialer_Dial p network address w d :
  w_heap w !! p = Some d ->
  with_dialer p (Dial network address) w =
  let tr := (w_trace w ++ [EvDial network address])%list in
  match net_dial network address with
  | Err e => (Err e, mkWorld (w_heap w) (w_next w) (w_sockets w) tr)
  | Ok c =>
      match local_ip_of c with
      | Err e => (Err e, mkWorld (w_heap w) (w_next w) (c :: w_sockets w) tr)
      | Ok ip => (Ok c, mkWorld (<[p := set_ClientIP ip d]> (w_heap w)) (w_next w)
                                (c :: w_sockets w) tr)
      end
  end.
Proof.
  intros Hp. unfold with_dialer. rewrite Hp, Dial_unfold. unfold local_ip_of.
  destruct (net_dial network address) as [c|e]; simpl;
    [destruct (resolve_tcp_addr _ _); simpl|]; rewrite ?insert_id by exact Hp;
    reflexivity.
Qed.

Lemma dial_hosts_unfold p h rest :
  dial_hosts p h rest =
  catch (with_dialer p (Dial "tcp" h))
        (fun e => match rest with
                  | [] => throw e
                  | host' :: rest' => dial_hosts p host' rest'
                  end).
Proof. destruct rest; reflexivity. Qed.

(** A failed dial loop leaves the cell as it was and adds only dial
    events. *)
Lemma dial_hosts_err p h rest w d e w' :
  w_heap w !! p = Some d ->
  dial_hosts p h rest w = (Err e, w') ->
  w_heap w' = w_heap w /\ w_next w' = w_next w /\
  exists ds, w_trace w' = (w_trace w ++ ds)%list /\ Forall (fun e => is_dial e = true) ds.
Proof.
  revert h w. induction rest as [|h' rest IH]; intros h w Hp Hd;
    cbn [dial_hosts] in Hd; unfold catch in Hd;
    rewrite (with_dialer_Dial _ _ _ _ _ Hp) in Hd; cbn zeta in Hd.
  all: destruct (net_dial "tcp" h) as [c|e0];
    [destruct (local_ip_of c) as [ip|e0]; [discriminate|]|].
  all: try (injection Hd as <- <-; simpl; repeat split; auto;
            eexists; split; [reflexivity|repeat constructor]).
  all: eapply IH in Hd; [|exact Hp]; destruct Hd as (Hh & Hn & ds & Ht & Hf);
    simpl in *;
    repeat split; auto; exists (EvDial "tcp" h :: ds);
    (split; [rewrite Ht, <- app_assoc; reflexivity|constructor; auto]).
Qed.
(** A successful dial loop: the connection is the one the last dial
    opened, the cell holds the IP captured from that connection, the
    socket is open, and at least one dial happened. *)
Lemma dial_hosts_ok p h rest w d c w' :
  w_heap w !! p = Some d ->
  dial_hosts p h rest w = (Ok c, w') ->
  exists ip, local_ip_of c = Ok ip /\
    w_heap w' = <[p := set_ClientIP ip d]> (w_heap w) /\ w_next w' = w_next w /\
    In c (w_sockets w') /\
    exists ds, w_trace w' = (w_trace w ++ ds)%list /\ ds <> [] /\
               Forall (fun e => is_dial e = true) ds.
Proof.
  revert h w. induction rest as [|h' rest IH]; intros h w Hp Hd;
    cbn [dial_hosts] in Hd; unfold catch in Hd;
    rewrite (with_dialer_Dial _ _ _ _ _ Hp) in Hd; cbn zeta in Hd.
  all: destruct (net_dial "tcp" h) as [c0|e0];
    [destruct (local_ip_of c0) as [ip|e0] eqn:Hip|].
  all: try discriminate.
  1,2: injection Hd as <- <-; exists ip; simpl; repeat split; auto;
       eexists; split; [reflexivity|split; [discriminate|repeat constructor]].
  all: eapply IH in Hd; [|exact Hp]; destruct Hd as (ip & Hip' & Hh & Hn & Hin & ds & Ht & _ & Hf);
    exists ip; simpl in *; repeat split; auto;
    exists (EvDial "tcp" h :: ds);
    (split; [rewrite Ht, <- app_assoc; reflexivity|split; [discriminate|constructor; auto]]).
Qed.

Lemma set_ClientIP_twice ip ip0 d : set_ClientIP ip (set_ClientIP ip0 d) = set_ClientIP ip d.
Proof. reflexivity. Qed.

Lemma dial_connect_events ds :
  Forall (fun e => is_dial e = true) ds -> Forall (fun e => is_connect_event e = true) ds.
Proof. intros Hf. eapply Forall_impl; [exact Hf|]. intros [] ?; simpl in *; congruence. Qed.

Lemma createConn_err p hosts w d e w' :
  w_heap w !! p = Some d ->
  createConn p hosts w = (Err e, w') ->
  w_heap w' = w_heap w /\ w_next w' = w_next w /\
  exists ds, w_trace w' = (w_trace w ++ ds)%list /\ Forall (fun e => is_dial e = true) ds.
Proof.
  destruct hosts as [|h rest]; [intros _ [= _ <-]; repeat split; auto; exists []; now rewrite app_nil_r|].
  apply dial_hosts_err.
Qed.

Lemma createConn_ok p hosts w d c w' :
  w_heap w !! p = Some d ->
  createConn p hosts w = (Ok c, w') ->
  exists ip, local_ip_of c = Ok ip /\
    w_heap w' = <[p := set_ClientIP ip d]> (w_heap w) /\ w_next w' = w_next w /\
    In c (w_sockets w') /\
    exists ds, w_trace w' = (w_trace w ++ ds)%list /\ ds <> [] /\
               Forall (fun e => is_dial e = true) ds.
Proof. destruct hosts as [|h rest]; [discriminate|apply dial_hosts_ok]. Qed.

Context `{!Broker}.

Lemma connect_loop_cons p sec k u rest err w :
  connect_loop p sec k (u :: rest) err w =
  match createConn p (conn_hosts lookup_dns hosts_pick k u) w with
  | (Err e, w1) => connect_loop p sec (S k) rest (connect_err e) w1
  | (Ok c, w1) =>
      match handshake sec c with
      | Ok _ => (Ok c, w1)
      | Err e => connect_loop p sec (S k) rest (Some e) (snd (close c w1))
      end
  end.
Proof.
  cbn [connect_loop]. unfold bind, attempt, lift, ret.
  destruct (createConn _ _ w) as [[c|e] w1]; [|reflexivity].
  destruct (handshake sec c); reflexivity.
Qed.

(** A successful connect loop: the handshake succeeded on a connection
    the hook opened, the dialer cell holds that connection's IP, and
    the trace gained dial events and the closing of the connections
    whose handshake failed. *)
Lemma connect_loop_ok p sec k pool err w d c w' :
  w_heap w !! p = Some d ->
  connect_loop p sec k pool err w = (Ok c, w') ->
  handshake sec c = Ok tt /\
  exists ip, local_ip_of c = Ok ip /\
    w_heap w' = <[p := set_ClientIP ip d]> (w_heap w) /\ w_next w' = w_next w /\
    In c (w_sockets w') /\
    exists ds, w_trace w' = (w_trace w ++ ds)%list /\ ds <> [] /\
               Forall (fun e => is_connect_event e = true) ds.
Proof.
  revert k err w d. induction pool as [|u rest IH]; intros k err w d Hp Hl; [discriminate|].
  rewrite connect_loop_cons in Hl.
  destruct (createConn _ _ w) as [[c0|e] w1] eqn:Hc.
  - destruct (createConn_ok _ _ _ _ _ _ Hp Hc) as (ip0 & Hip0 & Hh1 & Hn1 & Hin1 & ds1 & Ht1 & Hne1 & Hf1).
    destruct (handshake sec c0) as [[]|e] eqn:Hs.
    + injection Hl as <- <-. split; [exact Hs|]. exists ip0. repeat split; auto.
      exists ds1. repeat split; auto. now apply dial_connect_events.
    + assert (Hp2 : w_heap (snd (close c0 w1)) !! p = Some (set_ClientIP ip0 d))
        by (cbn; rewrite Hh1; apply lookup_insert_eq).
      destruct (IH _ _ _ _ Hp2 Hl) as (Hsc & ip & Hip & Hh & Hn & Hin & ds & Ht & _ & Hf).
      split; [exact Hsc|]. exists ip. cbn in Hh, Hn, Ht.
      rewrite Hh1, insert_insert_eq in Hh. repeat split; auto; [congruence|].
      exists (ds1 ++ EvClose c0 :: ds)%list. split.
      * rewrite Ht, Ht1, <- !app_assoc. reflexivity.
      * split; [destruct ds1; [contradiction|discriminate]|].
        apply Forall_app. split; [now apply dial_connect_events|constructor; auto].
  - destruct (createConn_err _ _ _ _ _ _ Hp Hc) as (Hh1 & Hn1 & ds1 & Ht1 & Hf1).
    rewrite <- Hh1 in Hp.
    destruct (IH _ _ _ _ Hp Hl) as (Hsc & ip & Hip & Hh & Hn & Hin & ds & Ht & Hne & Hf).
    split; [exact Hsc|]. exists ip. rewrite Hh1 in Hh. repeat split; auto; [congruence|].
    exists (ds1 ++ ds)%list. split; [rewrite Ht, Ht1, <- app_assoc; reflexivity|].
    split; [destruct ds1, ds; cbn; congruence|].
    apply Forall_app. split; [now apply dial_connect_events|exact Hf].
Qed.

(** A failed connect loop allocates nothing and adds only dial and close
    events. *)
Lemma connect_loop_err p sec k pool err w d e w' :
  w_heap w !! p = Some d ->
  connect_loop p sec k pool err w = (Err e, w') ->
  w_next w' = w_next w /\
  exists ds, w_trace w' = (w_trace w ++ ds)%list /\
             Forall (fun e => is_connect_event e = true) ds.
Proof.
  revert k err w d. induction pool as [|u rest IH]; intros k err w d Hp Hl.
  - injection Hl as _ <-. split; [reflexivity|]. exists []. now rewrite app_nil_r.
  - rewrite connect_loop_cons in Hl.
    destruct (createConn _ _ w) as [[c0|e0] w1] eqn:Hc.
    + destruct (createConn_ok _ _ _ _ _ _ Hp Hc) as (ip0 & _ & Hh1 & Hn1 & _ & ds1 & Ht1 & _ & Hf1).
      destruct (handshake sec c0) as [[]|e0]; [discriminate|].
      assert (Hp2 : w_heap (snd (close c0 w1)) !! p = Some (set_ClientIP ip0 d))
        by (cbn; rewrite Hh1; apply lookup_insert_eq).
      destruct (IH _ _ _ _ Hp2 Hl) as (Hn & ds & Ht & Hf). cbn in Hn, Ht.
      split; [congruence|]. exists (ds1 ++ EvClose c0 :: ds)%list.
      split; [rewrite Ht, Ht1, <- !app_assoc; reflexivity|].
      apply Forall_app. split; [now apply dial_connect_events|constructor; auto].
    + destruct (createConn_err _ _ _ _ _ _ Hp Hc) as (Hh1 & Hn1 & ds1 & Ht1 & Hf1).
      rewrite <- Hh1 in Hp. destruct (IH _ _ _ _ Hp Hl) as (Hn & ds & Ht & Hf).
      split; [congruence|]. exists (ds1 ++ ds)%list.
      split; [rewrite Ht, Ht1, <- app_assoc; reflexivity|].
      apply Forall_app. split; [now apply dial_connect_events|exact Hf].
Qed.

Lemma Connect_unfold p url w :
  Connect p url w =
  match server_pool pool_pick url with
  | Err e => (Err e, w)
  | Ok pool => connect_loop p (pool_secure pool) 0 pool None w
  end.
Proof. unfold Connect, bind, lift. now destruct (server_pool pool_pick url). Qed.

Lemma Connect_success p url w d c w' :
  w_heap w !! p = Some d ->
  Connect p url w = (Ok c, w') ->
  exists pool, server_pool pool_pick url = Ok pool /\ handshake (pool_secure pool) c = Ok tt /\
  exists ip, local_ip_of c = Ok ip /\
    w_heap w' = <[p := set_ClientIP ip d]> (w_heap w) /\ w_next w' = w_next w /\
    In c (w_sockets w') /\
    exists ds, w_trace w' = (w_trace w ++ ds)%list /\ ds <> [] /\
               Forall (fun e => is_connect_event e = true) ds.
Proof.
  intros Hp. rewrite Connect_unfold. destruct (server_pool pool_pick url) as [pool|e]; [|discriminate].
  intros Hl. exists pool. split; [reflexivity|]. eapply connect_loop_ok; eauto.
Qed.

(** C12: [Connect] succeeds only after the handshake succeeded on a
    connection opened through the hook, after at least one dial; the
    dialer cell then holds the IP of that connection's local address,
    the socket is open, and the trace gained only dials and the closing
    of connections whose handshake failed. *)
Theorem Connect_ok p url w d c w' :
  w_heap w !! p = Some d ->
  Connect p url w = (Ok c, w') ->
  exists pool, server_pool pool_pick url = Ok pool /\ handshake (pool_secure pool) c = Ok tt /\
  exists ip, local_ip_of c = Ok ip /\
    w_heap w' = <[p := set_ClientIP ip d]> (w_heap w) /\ w_next w' = w_next w /\
    In c (w_sockets w') /\
    exists ds, w_trace w' = (w_trace w ++ ds)%list /\ ds <> [] /\
               Forall (fun e => is_connect_event e = true) ds.
Proof. apply Connect_success. Qed.

(** A failed [Connect] adds only dial and close events to the trace and
    allocates nothing. *)
Lemma Connect_err p url w d e w' :
  w_heap w !! p = Some d ->
  Connect p url w = (Err e, w') ->
  w_next w' = w_next w /\
  exists ds, w_trace w' = (w_trace w ++ ds)%list /\
             Forall (fun e => is_connect_event e = true) ds.
Proof.
  intros Hp. rewrite Connect_unfold. destruct (server_pool pool_pick url) as [pool|e0].
  - apply connect_loop_err with (d := d); exact Hp.
  - intros [= <- <-]. split; [reflexivity|]. exists []. now rewrite app_nil_r.
Qed.

(** The addresses the connect loop tries, server after server. *)
Fixpoint pool_hosts (k : nat) (pool : list URL.URL) : list string :=
  match pool with
  | [] => []
  | u :: rest => conn_hosts lookup_dns hosts_pick k u ++ pool_hosts (S k) rest
  end.

(** A refused dial, as the network reports it. *)
Definition refuses (a : string) : Prop :=
  exists e, net_dial "tcp" a = Err e /\ contains (error_text e) "connection refused" = true.

(** When every address refuses, the dial loop dials each of them once,
    in order, and fails with a refusal. *)
Lemma dial_hosts_refused p h rest w d :
  w_heap w !! p = Some d -> Forall refuses (h :: rest) ->
  exists e, contains (error_text e) "connection refused" = true /\
    dial_hosts p h rest w =
    (Err e, mkWorld (w_heap w) (w_next w) (w_sockets w)
                    (w_trace w ++ map (fun a => EvDial "tcp" a) (h :: rest))).
Proof.
  revert h w. induction rest as [|h' rest IH]; intros h w Hp Hr;
    inversion Hr as [|? ? (e & Hd & He) Hr']; subst;
    rewrite dial_hosts_unfold; unfold catch; rewrite (with_dialer_Dial _ _ _ _ _ Hp), Hd; cbv zeta.
  - exists e. split; [exact He|reflexivity].
  - cbv iota beta zeta.
    match goal with |- context [dial_hosts _ _ _ ?w1] =>
      destruct (IH h' w1 Hp Hr') as (e' & He' & E) end.
    exists e'. split; [exact He'|]. rewrite E. cbn. now rewrite <- app_assoc.
Qed.

Lemma setupServerPool_nonempty pick servers pool :
  setupServerPool pick servers = Ok pool -> pool <> [].
Proof.
  unfold setupServerPool. destruct (add_all _ _) as [[pool0 ws]|e]; [|discriminate]. cbn [rbind].
  destruct (if is_nil _ then _ else _) as [[pool1 ws1]|e]; [|discriminate]. cbn [rbind].
  destruct pool1; [discriminate|]. intros [= <-]. discriminate.
Qed.

(** The loop over a pool where every address refuses. *)
Lemma connect_loop_refused p sec k pool w d :
  w_heap w !! p = Some d -> pool <> [] -> Forall refuses (pool_hosts k pool) ->
  connect_loop p sec k pool None w =
  (Err (NatsError ErrNoServers),
   mkWorld (w_heap w) (w_next w) (w_sockets w)
           (w_trace w ++ map (fun a => EvDial "tcp" a) (pool_hosts k pool))).
Proof.
  revert k w. induction pool as [|u rest IH]; intros k w Hp Hne Hr; [contradiction|].
  cbn [pool_hosts] in Hr |- *. apply Forall_app in Hr as [Hu Hrest].
  rewrite connect_loop_cons. unfold createConn.
  pose proof (conn_hosts_nonempty lookup_dns hosts_pick k u) as Hn.
  destruct (conn_hosts lookup_dns hosts_pick k u) as [|h hs]; [contradiction|].
  destruct (dial_hosts_refused p h hs w d Hp Hu) as (e & He & ->).
  unfold connect_err. rewrite He.
  destruct rest as [|u' rest].
  - cbn. now rewrite !app_nil_r.
  - rewrite IH by (first [exact Hp | discriminate | exact Hrest]). cbn [w_heap w_next w_sockets w_trace].
    now rewrite map_app, app_assoc.
Qed.

(** C15: when every address of every server refuses the connection,
    [nats.Connect] dials each of them once, server after server in the
    order of the pool, and fails with [ErrNoServers]: no socket stays
    open, the dialer is untouched, and the network's own error is
    dropped. *)
Theorem Connect_all_refused p url w d pool :
  w_heap w !! p = Some d -> server_pool pool_pick url = Ok pool ->
  Forall refuses (pool_hosts 0 pool) ->
  Connect p url w =
  (Err (NatsError ErrNoServers),
   mkWorld (w_heap w) (w_next w) (w_sockets w)
           (w_trace w ++ map (fun a => EvDial "tcp" a) (pool_hosts 0 pool))).
Proof.
  intros Hp Hpool Hr. rewrite Connect_unfold, Hpool.
  apply connect_loop_refused with (d := d); [exact Hp| |exact Hr].
  exact (setupServerPool_nonempty _ _ _ Hpool).
Qed.
End ClientTheorems.

(** ** Witnesses at the concrete server *)

Definition world_alloc : World :=
  snd (alloc_dialer (NewDialer "NATS Health Check") world0).

Lemma Connect_ok_witness :
  exists pool, server_pool pool_pick "nats://localhost:4222" = Ok pool /\
  handshake (pool_secure pool) 54321%Z = Ok tt /\
  exists ip, local_ip_of 54321%Z = Ok ip /\
    w_heap (snd (Connect 1 "nats://localhost:4222" world_alloc)) =
      <[1%positive := set_ClientIP ip (NewDialer "NATS Health Check")]> (w_heap world_alloc) /\
    w_next (snd (Connect 1 "nats://localhost:4222" world_alloc)) = w_next world_alloc /\
    In 54321%Z (w_sockets (snd (Connect 1 "nats://localhost:4222" world_alloc))) /\
    exists ds, w_trace (snd (Connect 1 "nats://localhost:4222" world_alloc)) =
               (w_trace world_alloc ++ ds)%list /\ ds <> [] /\
               Forall (fun e => is_connect_event e = true) ds.
Proof.
  apply (Connect_ok 1 "nats://localhost:4222" world_alloc
           (NewDialer "NATS Health Check") 54321%Z
           (snd (Connect 1 "nats://localhost:4222" world_alloc))).
  - vm_compute. reflexivity.
  - vm_compute. reflexivity.
Defined.

(** Two servers, [127.0.0.2] and [localhost] on port 4223, where every
    address refuses. *)
Definition refused_url : string := "nats://127.0.0.2:4222,localhost:4223".
Definition refused_pool : list URL.URL :=
  [nats_url (zbytes "127.0.0.2:4222"); nats_url (zbytes "localhost:4223")].

Lemma Connect_all_refused_witness :
  Connect 1 refused_url world_alloc =
  (Err (NatsError ErrNoServers),
   mkWorld (w_heap world_alloc) (w_next world_alloc) (w_sockets world_alloc)
           (w_trace world_alloc ++ map (fun a => EvDial "tcp" a) (pool_hosts 0 refused_pool))).
Proof.
  apply (Connect_all_refused 1 refused_url world_alloc (NewDialer "NATS Health Check") refused_pool).
  - vm_compute. reflexivity.
  - vm_compute. reflexivity.
  - replace (pool_hosts 0 refused_pool) with ["127.0.0.2:4222"; "[::1]:4223"; "127.0.0.1:4223"]
      by (vm_compute; reflexivity).
    repeat constructor; eexists; split; reflexivity.
Defined.
