(* ===== verification/Probe.v ===== *)
(** * The probe: [run] (src/main.go:62-95)

    [run] reads its five settings from the CLI context, rejects an empty
    subject, allocates the dialer and connects through it, defers
    [nc.Drain()], marshals the dialer, sends the request and accepts only
    the reply "ok", which it prints.  It is written over [World] in the
    state-and-error monad of [Prelude], one binding per Go statement; the
    theorems give its result and its trace on every path, and, in
    Section [UrlTheorems], what [nats.Connect] makes of the URL [run]
    builds: the round trip of host and port, the error of a negative
    port, the two servers of a host with a comma, and the IPv6 host without
    brackets. *)

From Stdlib Require Import String List ZArith Lia Bool Permutation.
From stdpp Require Import base gmap.
From S2P Require Import Prelude Utf8 Dialer Json Strconv Resolve GoStrings Url Pool Nats.
Import ListNotations.
Local Open Scope string_scope.
Local Open Scope go_scope.

(** The values [run] reads with [cli.String], [cli.Int] and
    [cli.Duration] (the timeout in nanoseconds). *)
Record cli_context := mkCliContext {
  cli_subject : string;
  cli_user_agent : string;
  cli_host : string;
  cli_port : Z;
  cli_timeout : Z
}.

Section Run.
Context `{NetStack} `{!Broker}.

(** [fmt.Print(msg)] *)
Definition print (s : string) : stM World unit := emit (EvPrint s).

(** ["nats://" + cli.String("host") + ":" + strconv.Itoa(cli.Int("port"))] *)
Definition server_url (host : string) (port : Z) : string :=
  "nats://" ++ host ++ ":" ++ Itoa port.

(** [func run(cli *cli.Context) error] *)
Definition run (cli : cli_context) : stM World unit :=
  let subject := cli_subject cli in
  if subject =? "" then throw (ErrorsNew "invalid subject") else
  let* dialer := alloc_dialer (NewDialer (cli_user_agent cli)) in
  let url := server_url (cli_host cli) (cli_port cli) in
  let* nc := Connect dialer url in
  defer (Drain nc) (
    let* d := load_dialer dialer in
    let* req := lift (marshal_dialer (ClientIP d) (UserAgent d)) in
    let* resp := Request nc subject req (cli_timeout cli) in
    let msg := resp in
    if negb (msg =? "ok") then throw (ErrorsNew msg) else
    let* _ := print msg in
    ret tt).
End Run.


(** ** The contract of [run]

    [verdict] is the check of main.go:88-94 on the outcome of the
    request: the error of the request, the reply text as an error, or
    success with "ok" printed. *)
Section Contract.
Context `{NetStack} `{!Broker}.

Definition verdict (rr : result string) : result unit * list event :=
  match rr with
  | Err e => (Err e, [])
  | Ok body => if body =? "ok" then (Ok tt, [EvPrint "ok"])
               else (Err (ErrorsNew body), [])
  end.

(** What one run of the probe may do, as the events it adds and its
    result: fail on the subject before anything happens; fail while
    connecting, having only dialled and closed; or, after dialling,
    send one request carrying the IP captured from the connection and
    the user agent, react to the reply, and start draining. *)
Inductive probe_behaviour (cli : cli_context) : list event -> result unit -> Prop :=
| PbInvalidSubject :
    cli_subject cli = "" ->
    probe_behaviour cli [] (Err (ErrorsNew "invalid subject"))
| PbNoConnection ds e :
    cli_subject cli <> "" ->
    Forall (fun ev => is_connect_event ev = true) ds ->
    probe_behaviour cli ds (Err e)
| PbChecked ds c ip r out :
    cli_subject cli <> "" ->
    ds <> [] -> Forall (fun ev => is_connect_event ev = true) ds ->
    local_ip_of c = Ok ip ->
    verdict (request_result (reply_to (cli_subject cli)
                               (payload_text ip (cli_user_agent cli)))
                            (cli_timeout cli)) = (r, out) ->
    probe_behaviour cli
      (ds ++ EvRequest (cli_subject cli) (payload_text ip (cli_user_agent cli))
            :: out ++ [EvDrain c])%list r.
End Contract.

Section RunTheorems.
Context `{NetStack} `{!Broker}.

(** C1: an empty subject fails with "invalid subject" before anything
    else: the world, its trace included, is left as it was, so no dial
    is made. *)
Theorem run_invalid_subject ua host port timeout w :
  run (mkCliContext "" ua host port timeout) w =
  (Err (ErrorsNew "invalid subject"), w).
Proof. reflexivity. Qed.

Lemma alloc_dialer_spec d w :
  alloc_dialer d w =
  (Ok (w_next w), mkWorld (<[w_next w := d]> (w_heap w)) (Pos.succ (w_next w))
                          (w_sockets w) (w_trace w)).
Proof. reflexivity. Qed.

(** The part of [run] after a successful [Connect]. *)
Lemma run_after_connect cli p d ip c w2 :
  w_heap w2 !! p = Some (set_ClientIP ip d) ->
  UserAgent d = cli_user_agent cli ->
  defer (Drain c) (
    let* d := load_dialer p in
    let* req := lift (marshal_dialer (ClientIP d) (UserAgent d)) in
    let* resp := Request c (cli_subject cli) req (cli_timeout cli) in
    if negb (resp =? "ok") then throw (ErrorsNew resp) else
    let* _ := print resp in ret tt) w2 =
  let payload := payload_text ip (cli_user_agent cli) in
  let '(r, out) := verdict (request_result (reply_to (cli_subject cli) payload)
                                           (cli_timeout cli)) in
  (r, mkWorld (w_heap w2) (w_next w2) (w_sockets w2)
              (w_trace w2 ++ EvRequest (cli_subject cli) payload :: out ++ [EvDrain c])%list).
Proof.
  intros Hp Hua.
  cbv [defer load_dialer Request Drain print emit bind ret throw lift modify].
  rewrite Hp, marshal_dialer_payload. cbn [ClientIP UserAgent set_ClientIP].
  rewrite Hua.
  destruct (request_result _ _) as [body|e]; simpl;
    [destruct (String.eqb_spec body "ok"); [subst body|]; simpl|];
    rewrite <- ?app_assoc; reflexivity.
Qed.
(** [run] after the subject check: allocate, connect, and the rest. *)
Lemma run_nonempty cli w :
  cli_subject cli <> "" ->
  run cli w =
  let p := w_next w in
  let w1 := mkWorld (<[p := NewDialer (cli_user_agent cli)]> (w_heap w))
                    (Pos.succ p) (w_sockets w) (w_trace w) in
  match Connect p (server_url (cli_host cli) (cli_port cli)) w1 with
  | (Err e, w2) => (Err e, w2)
  | (Ok c, w2) =>
      defer (Drain c) (
        let* d := load_dialer p in
        let* req := lift (marshal_dialer (ClientIP d) (UserAgent d)) in
        let* resp := Request c (cli_subject cli) req (cli_timeout cli) in
        if negb (resp =? "ok") then throw (ErrorsNew resp) else
        let* _ := print resp in ret tt) w2
  end.
Proof.
  intros Hs. unfold run. apply String.eqb_neq in Hs. rewrite Hs. reflexivity.
Qed.

Lemma run_behaviour cli w r w' :
  run cli w = (r, w') ->
  exists ev, w_trace w' = (w_trace w ++ ev)%list /\ probe_behaviour cli ev r.
Proof.
  destruct (String.eqb_spec (cli_subject cli) "") as [Hs|Hs].
  - unfold run. rewrite (proj2 (String.eqb_eq _ _) Hs). intros [= <- <-].
    exists []. rewrite app_nil_r. split; [reflexivity|]. now constructor.
  - rewrite (run_nonempty _ _ Hs). cbv zeta.
    set (w1 := mkWorld _ _ _ _).
    assert (Hp : w_heap w1 !! w_next w = Some (NewDialer (cli_user_agent cli)))
      by apply lookup_insert_eq.
    destruct (Connect _ _ w1) as [[c|e] w2] eqn:Hc.
    + destruct (Connect_success _ _ _ _ _ _ Hp Hc)
        as (pool & _ & _ & ip & Hip & Hh & _ & _ & ds & Ht & Hne & Hf).
      rewrite (run_after_connect cli (w_next w) (NewDialer (cli_user_agent cli)) ip)
        by (rewrite ?Hh; first [apply lookup_insert_eq|reflexivity]).
      cbv zeta. match goal with |- context [verdict ?x] =>
        destruct (verdict x) as [r0 out] eqn:Hv end.
      intros [= <- <-].
      eexists. split; [simpl; rewrite Ht, <- app_assoc; reflexivity|].
      econstructor; eauto.
    + intros [= <- <-]. destruct (Connect_err _ _ _ _ _ _ Hp Hc) as (_ & ds & Ht & Hf).
      exists ds. split; [exact Ht|]. now constructor.
Qed.

(** C2: every run of the probe is one of the behaviours of its
    contract [probe_behaviour], given by the events it adds to the
    trace and its result. *)
Theorem run_refines cli w r w' :
  run cli w = (r, w') ->
  exists ev, w_trace w' = (w_trace w ++ ev)%list /\ probe_behaviour cli ev r.
Proof. apply run_behaviour. Qed.
(** [run] when the first address of the server accepts: one dial, the
    request with the captured IP, the verdict on the reply, the drain;
    the socket is still open when [run] returns. *)
Lemma run_first_host cli w u us h rest c ip :
  cli_subject cli <> "" ->
  server_pool pool_pick (server_url (cli_host cli) (cli_port cli)) = Ok (u :: us) ->
  conn_hosts lookup_dns hosts_pick 0 u = h :: rest ->
  net_dial "tcp" h = Ok c -> local_ip_of c = Ok ip -> handshake (pool_secure (u :: us)) c = Ok tt ->
  let payload := payload_text ip (cli_user_agent cli) in
  let '(r, out) := verdict (request_result (reply_to (cli_subject cli) payload)
                                           (cli_timeout cli)) in
  run cli w =
  (r, mkWorld (<[w_next w := set_ClientIP ip (NewDialer (cli_user_agent cli))]>
                 (w_heap w))
              (Pos.succ (w_next w)) (c :: w_sockets w)
              (w_trace w ++ EvDial "tcp" h :: EvRequest (cli_subject cli) payload
                        :: out ++ [EvDrain c])%list).
Proof.
  intros Hs Hpool Hh Hd Hip Hc. cbv zeta.
  destruct (verdict (request_result _ _)) as [r out] eqn:Hv.
  rewrite (run_nonempty _ _ Hs). cbv zeta.
  rewrite Connect_unfold, Hpool, connect_loop_cons, Hh. cbn [createConn].
  rewrite dial_hosts_unfold. unfold catch.
  rewrite (with_dialer_Dial _ _ _ _ (NewDialer (cli_user_agent cli)))
    by apply lookup_insert_eq.
  cbv zeta. rewrite Hd, Hip, Hc.
  rewrite (run_after_connect cli (w_next w) (NewDialer (cli_user_agent cli)) ip)
    by first [apply lookup_insert_eq|reflexivity].
  cbv zeta. rewrite Hv. simpl. rewrite insert_insert_eq, <- app_assoc. reflexivity.
Qed.

Lemma verdict_cases rr r out :
  verdict rr = (r, out) ->
  (rr = Ok "ok" /\ r = Ok tt /\ out = [EvPrint "ok"]) \/
  (out = [] /\ ((rr = Err (match r with Err e => e | Ok _ => ErrorsNew "" end) /\
                 exists e, r = Err e) \/
                exists body, rr = Ok body /\ body <> "ok" /\ r = Err (ErrorsNew body))).
Proof.
  unfold verdict. destruct rr as [body|e].
  - destruct (String.eqb_spec body "ok") as [->|Hb]; intros [= <- <-]; [left; auto|].
    right. split; [reflexivity|]. right. eauto.
  - intros [= <- <-]. right. split; [reflexivity|]. left. eauto.
Qed.

(** The events a run adds, by the case of its contract. *)
Lemma run_new_events cli w r w' e :
  run cli w = (r, w') ->
  In e (w_trace w') ->
  In e (w_trace w) \/
  (exists ds c ip out,
     cli_subject cli <> "" /\
     Forall (fun ev => is_connect_event ev = true) ds /\ ds <> [] /\
     local_ip_of c = Ok ip /\
     verdict (request_result (reply_to (cli_subject cli)
                                (payload_text ip (cli_user_agent cli)))
                             (cli_timeout cli)) = (r, out) /\
     In e (ds ++ EvRequest (cli_subject cli) (payload_text ip (cli_user_agent cli))
               :: out ++ [EvDrain c])%list) \/
  is_connect_event e = true.
Proof.
  intros Hrun Hin. destruct (run_behaviour _ _ _ _ Hrun) as (ev & Ht & Hb).
  rewrite Ht in Hin. apply in_app_or in Hin as [Hin|Hin]; [left; exact Hin|right].
  destruct Hb as [Hs|ds e0 Hs Hf|ds c ip r0 out Hs Hne Hf Hip Hv].
  - simpl in Hin. destruct Hin.
  - right. rewrite List.Forall_forall in Hf. apply (Hf e Hin).
  - left. exists ds, c, ip, out. repeat split; auto.
Qed.

(** C6: every request [run] sends goes to its subject, after at least
    one dial, and carries the configured user agent and the IP of the
    local address of a connection opened through the hook. *)
Theorem run_request_payload cli w r w' s pl :
  run cli w = (r, w') ->
  In (EvRequest s pl) (w_trace w') ->
  In (EvRequest s pl) (w_trace w) \/
  (s = cli_subject cli /\
   exists c ip, local_ip_of c = Ok ip /\ pl = payload_text ip (cli_user_agent cli)).
Proof.
  intros Hrun Hin.
  destruct (run_new_events _ _ _ _ _ Hrun Hin)
    as [Hold|[(ds & c & ip & out & _ & Hf & _ & Hip & Hv & Hin')|Hc]];
    [left; exact Hold| |discriminate]. right.
  apply in_app_or in Hin' as [Hd|[Hq|Hin']].
  - rewrite List.Forall_forall in Hf. specialize (Hf _ Hd). discriminate.
  - injection Hq as <- <-. eauto.
  - destruct (verdict_cases _ _ _ Hv) as [(_ & _ & ->)|(-> & _)];
      simpl in Hin'; intuition discriminate.
Qed.

(** C7: [run] prints nothing but "ok", and prints it only when it
    returns nil. *)
Theorem run_prints_only_ok cli w r w' s :
  run cli w = (r, w') ->
  In (EvPrint s) (w_trace w') ->
  In (EvPrint s) (w_trace w) \/ (s = "ok" /\ r = Ok tt).
Proof.
  intros Hrun Hin.
  destruct (run_new_events _ _ _ _ _ Hrun Hin)
    as [Hold|[(ds & c & ip & out & _ & Hf & _ & Hip & Hv & Hin')|Hc]];
    [left; exact Hold| |discriminate]. right.
  apply in_app_or in Hin' as [Hd|[Hq|Hin']].
  - rewrite List.Forall_forall in Hf. specialize (Hf _ Hd). discriminate.
  - discriminate.
  - destruct (verdict_cases _ _ _ Hv) as [(_ & -> & ->)|(-> & _)];
      simpl in Hin'; intuition congruence.
Qed.

(** C8: when [run] returns nil, the reply to the payload it sent was
    "ok" within the timeout, and its last events are the request, the
    print of "ok" and the drain of the connection. *)
Theorem run_success_reply_ok cli w w' :
  run cli w = (Ok tt, w') ->
  exists ds c ip,
    local_ip_of c = Ok ip /\
    request_result (reply_to (cli_subject cli) (payload_text ip (cli_user_agent cli)))
                   (cli_timeout cli) = Ok "ok" /\
    w_trace w' = (w_trace w ++ ds ++
                  [EvRequest (cli_subject cli) (payload_text ip (cli_user_agent cli));
                   EvPrint "ok"; EvDrain c])%list.
Proof.
  intros Hrun. destruct (run_behaviour _ _ _ _ Hrun) as (ev & Ht & Hb).
  inversion Hb as [|ds e0 Hs Hf|ds c ip r0 out Hs Hne Hf Hip Hv]; subst.
  destruct (verdict_cases _ _ _ Hv) as [(Hr & _ & ->)|(_ & [(_ & e & [=])|(b & _ & _ & [=])])].
  exists ds, c, ip. split; [exact Hip|]. split; [exact Hr|]. rewrite Ht. reflexivity.
Qed.

(** C9: a refused connection is not reported as the transport error:
    when the only address refuses, [run] fails with [ErrNoServers],
    whose text no longer says what the network said, having dialled
    once and sent nothing. *)
Theorem run_dial_refused cli w u h e :
  cli_subject cli <> "" ->
  server_pool pool_pick (server_url (cli_host cli) (cli_port cli)) = Ok [u] ->
  conn_hosts lookup_dns hosts_pick 0 u = [h] ->
  net_dial "tcp" h = Err e ->
  contains (error_text e) "connection refused" = true ->
  fst (run cli w) = Err (NatsError ErrNoServers) /\
  error_text (NatsError ErrNoServers) <> error_text e /\
  w_trace (snd (run cli w)) = (w_trace w ++ [EvDial "tcp" h])%list.
Proof.
  intros Hs Hpool Hh Hd Hr. rewrite (run_nonempty _ _ Hs). cbv zeta.
  rewrite Connect_unfold, Hpool, connect_loop_cons, Hh. cbn [createConn].
  rewrite dial_hosts_unfold. unfold catch.
  rewrite (with_dialer_Dial _ _ _ _ (NewDialer (cli_user_agent cli)))
    by apply lookup_insert_eq.
  cbv zeta. rewrite Hd. cbv [throw]. cbn [connect_loop]. unfold connect_err. rewrite Hr. simpl.
  split; [reflexivity|]. split; [|reflexivity].
  intros Heq. rewrite <- Heq in Hr. discriminate Hr.
Qed.

(** C3: when the connection is made and the reply "ok" arrives within
    the timeout, [run] returns nil after printing "ok". *)
Theorem run_healthy cli w u us h rest c ip :
  cli_subject cli <> "" ->
  server_pool pool_pick (server_url (cli_host cli) (cli_port cli)) = Ok (u :: us) ->
  conn_hosts lookup_dns hosts_pick 0 u = h :: rest ->
  net_dial "tcp" h = Ok c -> local_ip_of c = Ok ip -> handshake (pool_secure (u :: us)) c = Ok tt ->
  request_result (reply_to (cli_subject cli) (payload_text ip (cli_user_agent cli)))
                 (cli_timeout cli) = Ok "ok" ->
  fst (run cli w) = Ok tt /\ In (EvPrint "ok") (w_trace (snd (run cli w))).
Proof.
  intros Hs Hpool Hh Hd Hip Hc Hr.
  pose proof (run_first_host cli w u us h rest c ip Hs Hpool Hh Hd Hip Hc) as Hrun.
  cbv zeta in Hrun. rewrite Hr in Hrun. simpl in Hrun. rewrite Hrun. simpl.
  split; [reflexivity|]. apply in_or_app. right. simpl. auto.
Qed.

(** C4: when a reply other than "ok" arrives within the timeout, empty
    replies included, [run] fails with an error whose text is the
    reply, and prints nothing. *)
Theorem run_unhealthy cli w u us h rest c ip body :
  cli_subject cli <> "" ->
  server_pool pool_pick (server_url (cli_host cli) (cli_port cli)) = Ok (u :: us) ->
  conn_hosts lookup_dns hosts_pick 0 u = h :: rest ->
  net_dial "tcp" h = Ok c -> local_ip_of c = Ok ip -> handshake (pool_secure (u :: us)) c = Ok tt ->
  request_result (reply_to (cli_subject cli) (payload_text ip (cli_user_agent cli)))
                 (cli_timeout cli) = Ok body ->
  body <> "ok" ->
  fst (run cli w) = Err (ErrorsNew body) /\
  error_text (ErrorsNew body) = body /\
  w_trace (snd (run cli w)) =
    (w_trace w ++ [EvDial "tcp" h;
                   EvRequest (cli_subject cli) (payload_text ip (cli_user_agent cli));
                   EvDrain c])%list.
Proof.
  intros Hs Hpool Hh Hd Hip Hc Hr Hb.
  pose proof (run_first_host cli w u us h rest c ip Hs Hpool Hh Hd Hip Hc) as Hrun.
  cbv zeta in Hrun. rewrite Hr in Hrun. unfold verdict in Hrun.
  apply String.eqb_neq in Hb. rewrite Hb in Hrun. rewrite Hrun.
  repeat split; reflexivity.
Qed.

(** C5: when no reply comes, [run] fails with the timeout error of the
    request, after sending exactly one request. *)
Theorem run_timeout cli w u us h rest c ip :
  cli_subject cli <> "" ->
  server_pool pool_pick (server_url (cli_host cli) (cli_port cli)) = Ok (u :: us) ->
  conn_hosts lookup_dns hosts_pick 0 u = h :: rest ->
  net_dial "tcp" h = Ok c -> local_ip_of c = Ok ip -> handshake (pool_secure (u :: us)) c = Ok tt ->
  reply_to (cli_subject cli) (payload_text ip (cli_user_agent cli)) = NoReply ->
  fst (run cli w) = Err (NatsError ErrTimeout) /\
  error_text (NatsError ErrTimeout) = "nats: timeout".
Proof.
  intros Hs Hpool Hh Hd Hip Hc Hr.
  pose proof (run_first_host cli w u us h rest c ip Hs Hpool Hh Hd Hip Hc) as Hrun.
  cbv zeta in Hrun. rewrite Hr in Hrun. simpl in Hrun. rewrite Hrun.
  split; reflexivity.
Qed.
(** C18: [nc.Drain()] only starts the drain: whatever the reply, once
    [run] has connected it returns with the drain as its last event and
    the connection's socket still open. *)
Theorem run_leaves_connection_open cli w u us h rest c ip :
  cli_subject cli <> "" ->
  server_pool pool_pick (server_url (cli_host cli) (cli_port cli)) = Ok (u :: us) ->
  conn_hosts lookup_dns hosts_pick 0 u = h :: rest ->
  net_dial "tcp" h = Ok c -> local_ip_of c = Ok ip -> handshake (pool_secure (u :: us)) c = Ok tt ->
  In c (w_sockets (snd (run cli w))) /\
  exists evs, w_trace (snd (run cli w)) = (w_trace w ++ evs ++ [EvDrain c])%list.
Proof.
  intros Hs Hpool Hh Hd Hip Hc.
  pose proof (run_first_host cli w u us h rest c ip Hs Hpool Hh Hd Hip Hc) as Hrun.
  cbv zeta in Hrun. destruct (verdict _) as [r out] in Hrun. rewrite Hrun. simpl.
  split; [left; reflexivity|].
  exists (EvDial "tcp" h :: EvRequest (cli_subject cli)
            (payload_text ip (cli_user_agent cli)) :: out).
  reflexivity.
Qed.
End RunTheorems.


(** ** The URL [run] writes, as [nats.Connect] reads it *)

Section UrlTheorems.
Context `{NetStack} `{!Broker}.
Local Open Scope Z_scope.
Local Open Scope list_scope.

Lemma zbytes_server_url h p :
  zbytes (server_url h p) = nats_prefix ++ zbytes h ++ 58 :: zbytes (Itoa p).
Proof. unfold server_url. rewrite !zbytes_app. reflexivity. Qed.

Lemma itoa_dec_digits n : 0 <= n <= 2 ^ 63 ->
  forallb is_dec_byte (zbytes (dec n)) = true /\ zbytes (dec n) <> [].
Proof.
  intros Hn. split.
  - apply (dec_all_digits 20); change (10 ^ Z.of_nat 20) with 100000000000000000000;
      change (10 ^ 20) with 100000000000000000000;
      change (2 ^ 63) with 9223372036854775808 in Hn; lia.
  - apply zbytes_dec_nonempty.
Qed.

(** The text [strconv.Itoa] writes for a port: decimal digits, after a
    minus sign when the port is negative. *)
Lemma Itoa_bytes n : int64_min <= n <= int64_max ->
  exists ds, forallb is_dec_byte ds = true /\ ds <> [] /\
             zbytes (Itoa n) = if n <? 0 then 45 :: ds else ds.
Proof.
  intros Hn. rewrite Itoa_dec by exact Hn. unfold int64_min, int64_max in Hn.
  change (2 ^ 63) with 9223372036854775808 in Hn.
  assert (Ha : 0 <= Z.abs n <= 2 ^ 63) by (change (2 ^ 63) with 9223372036854775808; lia).
  destruct (itoa_dec_digits (Z.abs n) Ha) as [Hd Hne].
  exists (zbytes (dec (Z.abs n))). repeat split; auto.
  rewrite zbytes_app. destruct (n <? 0); reflexivity.
Qed.

(** The pool of [server_url host port] for a host name without special
    bytes and a port that is not negative. *)
Lemma server_pool_plain host port :
  forallb host_byte (zbytes host) = true -> 0 <= port <= int64_max ->
  server_pool pool_pick (server_url host port) =
  Ok [nats_url (zbytes host ++ 58 :: zbytes (Itoa port))] /\
  forallb is_dec_byte (zbytes (Itoa port)) = true.
Proof.
  intros Hh Hp. destruct (Itoa_bytes port) as (ds & Hd & Hne & E); [unfold int64_min in *; lia|].
  replace (port <? 0) with false in E by (symmetry; apply Z.ltb_ge; lia).
  unfold server_pool. rewrite zbytes_server_url, E.
  split; [apply setupServerPool_hostport; assumption|exact Hd].
Qed.

(** C19: the URL [run] builds reads back, through [nats.Connect]'s
    [processUrlString], [addURLToPool] and [url.Parse], as one server
    whose [Hostname()] is the host [run] read and whose [Port()] is
    [strconv.Itoa] of its port, for every host name made of letters,
    digits and [-._~] and every port from 0 to the largest [int]. *)
Theorem server_url_roundtrip host port :
  forallb reg_byte (zbytes host) = true -> 0 <= port <= int64_max ->
  exists u, server_pool pool_pick (server_url host port) = Ok [u] /\
            URL.Hostname u = zbytes host /\ URL.Port u = zbytes (Itoa port) /\
            URL.Scheme u = zbytes "nats".
Proof.
  intros Hh Hp. destruct (server_pool_plain host port) as [E Hd];
    [now apply forallb_reg_host|exact Hp|].
  set (u := nats_url (zbytes host ++ 58 :: zbytes (Itoa port))).
  exists u. split; [exact E|].
  split; [apply (Hostname_colon u _ _ eq_refl Hd), HasPrefix_host, forallb_reg_host, Hh|].
  split; [|reflexivity].
  apply (Port_colon u (zbytes host) _ eq_refl Hd), HasPrefix_host, forallb_reg_host, Hh.
Qed.

(** C26: a negative port is not caught by [run]: [strconv.Itoa] writes a
    minus sign, [url.Parse] rejects the port of the URL, and [run]
    returns that error from [nats.Connect] without a dial. *)
Theorem run_negative_port cli w :
  cli_subject cli <> ""%string -> forallb host_byte (zbytes (cli_host cli)) = true ->
  int64_min <= cli_port cli < 0 ->
  fst (run cli w) =
    Err (UrlError ("parse " ++ Quote (server_url (cli_host cli) (cli_port cli)) ++
                   ": invalid port " ++ Quote (":" ++ Itoa (cli_port cli)) ++ " after host"))%string /\
  w_trace (snd (run cli w)) = w_trace w.
Proof.
  intros Hs Hh Hp. destruct (Itoa_bytes (cli_port cli)) as (ds & Hd & _ & E);
    [unfold int64_max in *; lia|].
  replace (cli_port cli <? 0) with true in E by (symmetry; apply Z.ltb_lt; lia).
  assert (Hpool : server_pool pool_pick (server_url (cli_host cli) (cli_port cli)) =
                  URL.url_error "parse" (zbytes (server_url (cli_host cli) (cli_port cli)))
                    (UrlError ("invalid port " ++ Quote (":" ++ Itoa (cli_port cli)) ++ " after host")%string)).
  { unfold server_pool. rewrite !zbytes_server_url, E, setupServerPool_badport.
    - f_equal. f_equal. change (58 :: 45 :: ds) with (zbytes ":" ++ 45 :: ds). rewrite <- E, <- zbytes_app.
      now rewrite string_of_bytes_zbytes.
    - exact Hh.
    - rewrite noc_cons, (digits_noc 58 ds Hd) by lia. reflexivity.
    - cbn [forallb]. now rewrite forallb_dec_host by exact Hd.
    - reflexivity. }
  rewrite (run_nonempty _ _ Hs). cbv zeta. rewrite Connect_unfold, Hpool.
  unfold URL.url_error, URL.uerr. cbn [fst snd]. rewrite string_of_bytes_zbytes. split; reflexivity.
Qed.

(** C30: a comma in the host makes two servers: [nats.Connect] splits
    its URL at commas, so with host ["a,b"] the pool holds [a] with
    nats.go's default port 4222, whatever the configured port, and [b]
    with the configured port, in an order the random source chooses. *)
Theorem run_comma_host a b port :
  forallb reg_byte (zbytes a) = true -> forallb host_byte (zbytes b) = true ->
  0 <= port <= int64_max ->
  exists u1 u2,
    server_pool pool_pick (server_url (a ++ "," ++ b) port) = Ok (shufflePool pool_pick [u1; u2]) /\
    Permutation (shufflePool pool_pick [u1; u2]) [u1; u2] /\
    URL.Host u1 = zbytes (a ++ ":4222") /\ URL.Host u2 = zbytes (b ++ ":" ++ Itoa port).
Proof.
  intros Ha Hb Hp. destruct (Itoa_bytes port) as (ds & Hd & Hne & E); [unfold int64_min in *; lia|].
  replace (port <? 0) with false in E by (symmetry; apply Z.ltb_ge; lia).
  do 2 eexists. split; [|split; [apply shufflePool_perm, pool_pick_le|split]].
  - unfold server_pool. rewrite zbytes_server_url, !zbytes_app, E. cbn [zbytes bytes map byte_val].
    change (map byte_val (bytes ",")) with [44]. rewrite <- app_assoc. cbn [app].
    apply setupServerPool_comma; assumption.
  - cbn. rewrite zbytes_app. reflexivity.
  - cbn. rewrite !zbytes_app, E. reflexivity.
Qed.

(** C38: an IPv6 address given as host without brackets is never
    reachable: [run] writes ["nats://" + host + ":" + port] instead of
    [net.JoinHostPort], [nats.go] keeps the whole [host:port] as the one
    address to dial, and [net.SplitHostPort], the first step of
    [net.Dial], rejects it with too many colons. *)
Theorem run_ipv6_unbracketed h port :
  forallb host_byte (zbytes h) = true -> In 58 (zbytes h) -> ParseIP (zbytes h) <> None ->
  0 <= port <= int64_max ->
  exists u, server_pool pool_pick (server_url h port) = Ok [u] /\
    conn_hosts lookup_dns hosts_pick 0 u = [(h ++ ":" ++ Itoa port)%string] /\
    Resolver.SplitHostPort (zbytes (h ++ ":" ++ Itoa port)) =
      Err (NetError ("address " ++ h ++ ":" ++ Itoa port ++ ": too many colons in address")%string).
Proof.
  intros Hh Hc Hip Hp. destruct (server_pool_plain h port Hh Hp) as [E Hd].
  assert (Hz : zbytes (h ++ ":" ++ Itoa port) = zbytes h ++ 58 :: zbytes (Itoa port))
    by (rewrite !zbytes_app; reflexivity).
  eexists. split; [exact E|]. split.
  - rewrite conn_hosts_literal by (first [exact Hd | exact Hip | apply HasPrefix_host, Hh]).
    now rewrite <- Hz, zstr_zbytes.
  - rewrite Hz, (SplitHostPort_colons _ _ Hh Hc Hd), <- Hz, zstr_zbytes.
    now rewrite <- !str_app_assoc.
Qed.

End UrlTheorems.

(** ** Witnesses at the loopback stack and the concrete server *)

Definition cli_ok : cli_context :=
  mkCliContext "health.check" "NATS Health Check" "127.0.0.1" 4222 1000000000.
Definition cli_degraded : cli_context :=
  mkCliContext "health.degraded" "NATS Health Check" "127.0.0.1" 4222 1000000000.
Definition cli_silent : cli_context :=
  mkCliContext "health.silent" "NATS Health Check" "127.0.0.1" 4222 1000000000.
Definition cli_down : cli_context :=
  mkCliContext "health.check" "NATS Health Check" "127.0.0.2" 4222 1000000000.

Definition payload_ok : string := payload_text "127.0.0.1" "NATS Health Check".

Lemma run_refines_witness :
  exists ev, w_trace (snd (run cli_ok world0)) = (w_trace world0 ++ ev)%list /\
             probe_behaviour cli_ok ev (fst (run cli_ok world0)).
Proof. apply (run_refines cli_ok world0). vm_compute. reflexivity. Defined.

Lemma run_healthy_witness :
  fst (run cli_ok world0) = Ok tt /\ In (EvPrint "ok") (w_trace (snd (run cli_ok world0))).
Proof.
  apply (@run_healthy loopback_net health_broker cli_ok world0 (nats_url (zbytes "127.0.0.1:4222")) [] "127.0.0.1:4222" [] 54321%Z "127.0.0.1");
    vm_compute; first [reflexivity | discriminate].
Defined.

Lemma run_unhealthy_witness :
  fst (run cli_degraded world0) = Err (ErrorsNew "degraded") /\
  error_text (ErrorsNew "degraded") = "degraded" /\
  w_trace (snd (run cli_degraded world0)) =
    (w_trace world0 ++ [EvDial "tcp" "127.0.0.1:4222";
                        EvRequest "health.degraded" payload_ok; EvDrain 54321%Z])%list.
Proof.
  apply (@run_unhealthy loopback_net health_broker cli_degraded world0 (nats_url (zbytes "127.0.0.1:4222")) [] "127.0.0.1:4222" [] 54321%Z "127.0.0.1" "degraded");
    vm_compute; first [reflexivity | discriminate].
Defined.

Lemma run_timeout_witness :
  fst (run cli_silent world0) = Err (NatsError ErrTimeout) /\
  error_text (NatsError ErrTimeout) = "nats: timeout".
Proof.
  apply (@run_timeout loopback_net health_broker cli_silent world0 (nats_url (zbytes "127.0.0.1:4222")) [] "127.0.0.1:4222" [] 54321%Z "127.0.0.1");
    vm_compute; first [reflexivity | discriminate].
Defined.

Lemma run_request_payload_witness :
  In (EvRequest "health.check" payload_ok) (w_trace world0) \/
  ("health.check" = cli_subject cli_ok /\
   exists c ip, local_ip_of c = Ok ip /\ payload_ok = payload_text ip (cli_user_agent cli_ok)).
Proof.
  apply (run_request_payload cli_ok world0 (fst (run cli_ok world0)) (snd (run cli_ok world0))).
  - vm_compute. reflexivity.
  - vm_compute. right. left. reflexivity.
Defined.

Lemma run_prints_only_ok_witness :
  In (EvPrint "ok") (w_trace world0) \/ ("ok" = "ok" /\ fst (run cli_ok world0) = Ok tt).
Proof.
  apply (run_prints_only_ok cli_ok world0 (fst (run cli_ok world0)) (snd (run cli_ok world0))).
  - vm_compute. reflexivity.
  - vm_compute. right. right. left. reflexivity.
Defined.

Lemma run_success_reply_ok_witness :
  exists ds c ip,
    local_ip_of c = Ok ip /\
    request_result (reply_to (cli_subject cli_ok) (payload_text ip (cli_user_agent cli_ok)))
                   (cli_timeout cli_ok) = Ok "ok" /\
    w_trace (snd (run cli_ok world0)) =
      (w_trace world0 ++ ds ++
       [EvRequest (cli_subject cli_ok) (payload_text ip (cli_user_agent cli_ok));
        EvPrint "ok"; EvDrain c])%list.
Proof. apply (run_success_reply_ok cli_ok world0). vm_compute. reflexivity. Defined.

Lemma run_dial_refused_witness :
  fst (run cli_down world0) = Err (NatsError ErrNoServers) /\
  error_text (NatsError ErrNoServers) <>
    error_text (NetError "dial tcp 127.0.0.2:4222: connect: connection refused") /\
  w_trace (snd (run cli_down world0)) = (w_trace world0 ++ [EvDial "tcp" "127.0.0.2:4222"])%list.
Proof.
  apply (run_dial_refused cli_down world0 (nats_url (zbytes "127.0.0.2:4222")) "127.0.0.2:4222");
    vm_compute; first [reflexivity | discriminate].
Defined.

Lemma run_leaves_connection_open_witness :
  In 54321%Z (w_sockets (snd (run cli_degraded world0))) /\
  exists evs, w_trace (snd (run cli_degraded world0)) =
              (w_trace world0 ++ evs ++ [EvDrain 54321%Z])%list.
Proof.
  apply (@run_leaves_connection_open loopback_net health_broker cli_degraded world0
           (nats_url (zbytes "127.0.0.1:4222")) [] "127.0.0.1:4222" [] 54321%Z "127.0.0.1");
    vm_compute; first [reflexivity | discriminate].
Defined.

(** ** Witnesses for the URL *)

Lemma server_url_roundtrip_witness :
  exists u, server_pool pool_pick (server_url "localhost" 4222) = Ok [u] /\
            URL.Hostname u = zbytes "localhost" /\ URL.Port u = zbytes (Itoa 4222) /\
            URL.Scheme u = zbytes "nats".
Proof.
  apply (server_url_roundtrip "localhost" 4222); [reflexivity|].
  unfold int64_max. change (2 ^ 63)%Z with 9223372036854775808%Z. lia.
Defined.

Definition cli_negative : cli_context :=
  mkCliContext "health.check" "NATS Health Check" "localhost" (-1) 1000000000.

Lemma run_negative_port_witness :
  fst (run cli_negative world0) =
    Err (UrlError ("parse " ++ Quote (server_url (cli_host cli_negative) (cli_port cli_negative)) ++
                   ": invalid port " ++ Quote (":" ++ Itoa (cli_port cli_negative)) ++ " after host")) /\
  w_trace (snd (run cli_negative world0)) = w_trace world0.
Proof.
  apply (run_negative_port cli_negative world0); [discriminate|reflexivity|].
  unfold int64_min. cbn [cli_port cli_negative]. change (2 ^ 63)%Z with 9223372036854775808%Z. lia.
Defined.

Lemma run_comma_host_witness :
  exists u1 u2,
    server_pool pool_pick (server_url ("a" ++ "," ++ "b") 5222) = Ok (shufflePool pool_pick [u1; u2]) /\
    Permutation (shufflePool pool_pick [u1; u2]) [u1; u2] /\
    URL.Host u1 = zbytes ("a" ++ ":4222") /\ URL.Host u2 = zbytes ("b" ++ ":" ++ Itoa 5222).
Proof.
  apply (run_comma_host "a" "b" 5222); [reflexivity|reflexivity|].
  unfold int64_max. change (2 ^ 63)%Z with 9223372036854775808%Z. lia.
Defined.

Lemma run_ipv6_unbracketed_witness :
  exists u, server_pool pool_pick (server_url "::1" 4222) = Ok [u] /\
    conn_hosts lookup_dns hosts_pick 0 u = [("::1" ++ ":" ++ Itoa 4222)%string] /\
    Resolver.SplitHostPort (zbytes ("::1" ++ ":" ++ Itoa 4222)) =
      Err (NetError ("address " ++ "::1" ++ ":" ++ Itoa 4222 ++ ": too many colons in address")).
Proof.
  apply (run_ipv6_unbracketed "::1" 4222); [reflexivity|cbn; tauto|vm_compute; discriminate|].
  unfold int64_max. change (2 ^ 63)%Z with 9223372036854775808%Z. lia.
Defined.
