(* ===== verification/Reconnect.v ===== *)
(** * The reconnect goroutine of the NATS client, interleaved with [run]
      (src/main.go:68-94, 113-128)

    [nats.SetCustomDialer(dialer)] (69) gives the client the pointer
    [NewDialer] returned.  [nats.Connect] calls its [Dial] while [run]
    waits, but when the connection is lost later, the client's reconnect
    goroutine ([doReconnect], then [createConn]) calls [Dial] again on the
    same object, concurrently with the rest of [run], which reads that
    object in [json.Marshal(&dialer)] (78) without a lock.

    The rest of [run] after [Connect] returned [nc] is the step machine
    [main_step] over the program points [pc] of main.go:76-94, and
    [main_run_tail] shows that run alone it computes exactly the code
    [Probe.run] executes after [Connect].  [cstep] interleaves its steps
    with any number of calls [with_dialer p (Dial "tcp" host)] of the
    reconnect goroutine on the heap cell [p] of the dialer, each atomic;
    [creach] is the reachability of the interleaving.  The other effects of
    reconnecting (the handshake, closing the old socket, the buffering of
    publications) are not modelled: the dialer is what the two goroutines
    share.

    [reconnect_requests] shows, by rule induction on [creach], that
    whatever the interleaving, every request [run] sends is on its
    subject and carries the configured user agent and the local IP of
    some connection opened through the hook; [reconnect_race_example]
    shows an interleaving in which that IP is not the one of the
    connection [run] uses, and [reconnect_reports_new_ip] shows in
    general that a successful reconnect before [json.Marshal] puts the
    IP of the new connection in the payload, whatever connection [run]
    sends it on.  [cpath] is the same interleaving counting the turns of
    [run]: [run_returns_drained] shows that no schedule gives [run] more
    than five turns and that after five (or earlier, on an error) it has
    returned with the deferred drain as its last effect. *)

From Stdlib Require Import String List ZArith Lia Bool.
From stdpp Require Import base gmap.
From S2P Require Import Prelude Dialer Json Nats Probe.
Import ListNotations.
Local Open Scope string_scope.
Local Open Scope go_scope.

Section Machine.
Context `{NetStack} `{!Broker}.

(** Where the main goroutine is in main.go:76-94: before
    [json.Marshal(&dialer)] reads [*dialer] (78), with the value it read,
    before [nc.Request] with the payload (83), before [fmt.Print(msg)]
    (93), before the deferred [nc.Drain()] (76) with the result of
    [run], and returned. *)
Inductive pc :=
| AtLoad
| AtMarshal (d : dialer)
| AtRequest (req : string)
| AtPrint (msg : string)
| AtDrain (r : result unit)
| Returned (r : result unit).

(** One step of the main goroutine, on connection [nc] and the dialer
    in cell [p]. *)
Definition main_step (p : positive) (nc : Conn) (subject : string) (timeout : Z)
    (s : pc) (w : World) : pc * World :=
  match s with
  | AtLoad =>
      match load_dialer p w with
      | (Ok d, w') => (AtMarshal d, w')
      | (Err e, w') => (AtDrain (Err e), w')
      end
  | AtMarshal d =>
      match marshal_dialer (ClientIP d) (UserAgent d) with
      | Ok req => (AtRequest req, w)
      | Err e => (AtDrain (Err e), w)
      end
  | AtRequest req =>
      match Request nc subject req timeout w with
      | (Ok msg, w') =>
          if negb (msg =? "ok") then (AtDrain (Err (ErrorsNew msg)), w') else (AtPrint msg, w')
      | (Err e, w') => (AtDrain (Err e), w')
      end
  | AtPrint msg =>
      match print msg w with
      | (Ok _, w') => (AtDrain (Ok tt), w')
      | (Err e, w') => (AtDrain (Err e), w')
      end
  | AtDrain r => (Returned r, snd (Drain nc w))
  | Returned r => (Returned r, w)
  end.

(** The main goroutine alone, for at most [fuel] steps. *)
Fixpoint main_run (fuel : nat) (p : positive) (nc : Conn) (subject : string) (timeout : Z)
    (s : pc) (w : World) : pc * World :=
  match fuel with
  | O => (s, w)
  | S fuel =>
      match s with
      | Returned _ => (s, w)
      | _ => let '(s', w') := main_step p nc subject timeout s w in
             main_run fuel p nc subject timeout s' w'
      end
  end.

Definition returned (s : pc) : bool := match s with Returned _ => true | _ => false end.

(** A step of the process: the main goroutine, or the reconnect
    goroutine calling the hook on the dialer with some address, while
    [run] has not returned. *)
Inductive cstep (p : positive) (nc : Conn) (subject : string) (timeout : Z) :
    pc * World -> pc * World -> Prop :=
| cstep_main s w :
    returned s = false -> cstep p nc subject timeout (s, w) (main_step p nc subject timeout s w)
| cstep_reconnect s w host :
    returned s = false ->
    cstep p nc subject timeout (s, w) (s, snd (with_dialer p (Dial "tcp" host) w)).

Inductive creach (p : positive) (nc : Conn) (subject : string) (timeout : Z) :
    pc * World -> pc * World -> Prop :=
| creach_refl c : creach p nc subject timeout c c
| creach_step c1 c2 c3 :
    cstep p nc subject timeout c1 c2 -> creach p nc subject timeout c2 c3 ->
    creach p nc subject timeout c1 c3.

(** The interleaving, counting the steps of the main goroutine: a
    schedule in which [run] was given [n] turns. *)
Inductive cpath (p : positive) (nc : Conn) (subject : string) (timeout : Z) :
    nat -> pc * World -> pc * World -> Prop :=
| cpath_refl c : cpath p nc subject timeout 0 c c
| cpath_main n s w c :
    returned s = false ->
    cpath p nc subject timeout n (main_step p nc subject timeout s w) c ->
    cpath p nc subject timeout (S n) (s, w) c
| cpath_reconnect n s w host c :
    returned s = false ->
    cpath p nc subject timeout n (s, snd (with_dialer p (Dial "tcp" host) w)) c ->
    cpath p nc subject timeout n (s, w) c.

(** How many steps the main goroutine has left. *)
Definition rank (s : pc) : nat :=
  match s with
  | AtLoad => 5
  | AtMarshal _ => 4
  | AtRequest _ => 3
  | AtPrint _ => 2
  | AtDrain _ => 1
  | Returned _ => 0
  end.

(** ** What the interleaving keeps *)

(** The IP of the local address of some connection. *)
Definition ip_ok (ip : string) : Prop := exists c, local_ip_of c = Ok ip.

Definition dialer_ok (ua : string) (d : dialer) : Prop := UserAgent d = ua /\ ip_ok (ClientIP d).

Definition cell_ok (p : positive) (ua : string) (w : World) : Prop :=
  exists d, w_heap w !! p = Some d /\ dialer_ok ua d.

Definition pc_ok (ua : string) (s : pc) : Prop :=
  match s with
  | AtMarshal d => dialer_ok ua d
  | AtRequest req => exists ip, ip_ok ip /\ req = payload_text ip ua
  | _ => True
  end.

(** A request on [subject] carrying [ua] and the IP of a connection. *)
Definition request_ok (subject ua : string) (e : event) : Prop :=
  match e with
  | EvRequest s pl => s = subject /\ exists ip, ip_ok ip /\ pl = payload_text ip ua
  | _ => True
  end.

Definition conc_inv (p : positive) (subject ua : string) (tr0 : list event) (cfg : pc * World) : Prop :=
  cell_ok p ua (snd cfg) /\ pc_ok ua (fst cfg) /\
  exists ev, w_trace (snd cfg) = (tr0 ++ ev)%list /\ Forall (request_ok subject ua) ev.
End Machine.


(** ** The machine computes [run] *)

Section MachineTheorems.
Context `{NetStack} `{!Broker}.

(** The main goroutine alone runs the code [run] executes after
    [Connect] (main.go:76-94), in at most five steps. *)
Lemma main_run_tail p c subject timeout w :
  main_run 5 p c subject timeout AtLoad w =
  let '(r, w') :=
    defer (Drain c) (
      let* d := load_dialer p in
      let* req := lift (marshal_dialer (ClientIP d) (UserAgent d)) in
      let* resp := Request c subject req timeout in
      if negb (resp =? "ok") then throw (ErrorsNew resp) else
      let* _ := print resp in ret tt) w in
  (Returned r, w').
Proof.
  cbv [main_run main_step defer load_dialer bind lift throw ret].
  destruct (w_heap w !! p) as [d|]; [|reflexivity].
  rewrite marshal_dialer_payload. cbv [Request print bind emit modify lift].
  destruct (request_result _ _) as [msg|e]; [|reflexivity].
  destruct (negb (msg =? "ok")); reflexivity.
Qed.

(** [run] is the allocation, [Connect], and the machine. *)
Lemma run_machine cli w :
  cli_subject cli <> "" ->
  run cli w =
  let p := w_next w in
  match Connect p (server_url (cli_host cli) (cli_port cli))
                (snd (alloc_dialer (NewDialer (cli_user_agent cli)) w)) with
  | (Err e, w2) => (Err e, w2)
  | (Ok c, w2) =>
      match main_run 5 p c (cli_subject cli) (cli_timeout cli) AtLoad w2 with
      | (Returned r, w') => (r, w')
      | (_, w') => (Ok tt, w')
      end
  end.
Proof.
  intros Hs. rewrite run_nonempty by exact Hs. cbv zeta.
  destruct (Connect _ _ _) as [[c|e] w2]; [|reflexivity].
  rewrite main_run_tail. destruct (defer _ _ w2). reflexivity.
Qed.

(** ** The invariant of the interleaving *)

Lemma trace_snoc subject ua tr0 tr e :
  (exists ev, tr = (tr0 ++ ev)%list /\ Forall (request_ok subject ua) ev) ->
  request_ok subject ua e ->
  exists ev, (tr ++ [e])%list = (tr0 ++ ev)%list /\ Forall (request_ok subject ua) ev.
Proof.
  intros (ev & -> & Hf) He. exists (ev ++ [e])%list. rewrite app_assoc.
  split; [reflexivity|]. apply Forall_app. auto.
Qed.

Lemma emit_world (e : event) w :
  emit e w = (Ok tt, mkWorld (w_heap w) (w_next w) (w_sockets w) (w_trace w ++ [e])).
Proof. reflexivity. Qed.

(** The reconnect goroutine's call of the hook keeps the dialer good:
    it keeps the user agent and stores, if anything, the IP of the
    connection it opened. *)
Lemma reconnect_keeps p subject ua tr0 s w host :
  conc_inv p subject ua tr0 (s, w) ->
  conc_inv p subject ua tr0 (s, snd (with_dialer p (Dial "tcp" host) w)).
Proof.
  intros ((d & Hd & Hua & Hip) & Hpc & Htr). cbn [fst snd] in *.
  rewrite (with_dialer_Dial p "tcp" host w d Hd). cbv zeta.
  destruct (net_dial "tcp" host) as [c|e]; [destruct (local_ip_of c) as [ip|e] eqn:Hl|];
    (split; [|split; [exact Hpc|apply trace_snoc; [exact Htr|exact I]]]); cbn [w_heap].
  - exists (set_ClientIP ip d). split; [apply lookup_insert_eq|]. split; [exact Hua|now exists c].
  - now exists d.
  - now exists d.
Qed.

(** A step of the main goroutine keeps the invariant. *)
Lemma main_keeps p nc subject timeout ua tr0 s w :
  returned s = false -> conc_inv p subject ua tr0 (s, w) ->
  conc_inv p subject ua tr0 (main_step p nc subject timeout s w).
Proof.
  intros Hr ((d & Hd & Hdok) & Hpc & Htr). cbn [fst snd] in *.
  destruct s as [|d'|req|msg|r|r]; cbn [main_step]; try discriminate.
  - unfold load_dialer. rewrite Hd. split; [now exists d|]. split; [exact Hdok|exact Htr].
  - rewrite marshal_dialer_payload. destruct Hpc as [Hua Hip].
    split; [now exists d|]. split; [|exact Htr]. exists (ClientIP d'). now rewrite Hua.
  - unfold Request. cbv [bind lift]. rewrite emit_world. cbn [w_heap w_trace].
    assert (Htr' := trace_snoc subject ua tr0 _ (EvRequest subject req) Htr
                      (conj eq_refl Hpc)).
    destruct (request_result _ _) as [m|e]; [destruct (negb _)|];
      (split; [now exists d|split; [exact I|exact Htr']]).
  - unfold print. rewrite emit_world.
    split; [now exists d|]. split; [exact I|apply trace_snoc; [exact Htr|exact I]].
  - unfold Drain. rewrite emit_world. cbn [snd].
    split; [now exists d|]. split; [exact I|apply trace_snoc; [exact Htr|exact I]].
Qed.

(** By induction on the interleaving. *)
Lemma creach_keeps p nc subject timeout ua tr0 cfg cfg' :
  creach p nc subject timeout cfg cfg' -> conc_inv p subject ua tr0 cfg -> conc_inv p subject ua tr0 cfg'.
Proof.
  induction 1 as [cfg|cfg1 cfg2 cfg3 Hstep _ IH]; intros Hinv; [exact Hinv|].
  apply IH. destruct Hstep as [s w Hr|s w host Hr].
  - exact (main_keeps p nc subject timeout ua tr0 s w Hr Hinv).
  - exact (reconnect_keeps p subject ua tr0 s w host Hinv).
Qed.

(** After [Connect] in [run], the dialer cell is good. *)
Lemma connect_cell_ok cli w c w2 :
  Connect (w_next w) (server_url (cli_host cli) (cli_port cli))
          (snd (alloc_dialer (NewDialer (cli_user_agent cli)) w)) = (Ok c, w2) ->
  cell_ok (w_next w) (cli_user_agent cli) w2.
Proof.
  intros Hc.
  assert (Hp : w_heap (snd (alloc_dialer (NewDialer (cli_user_agent cli)) w)) !! w_next w =
               Some (NewDialer (cli_user_agent cli))) by apply lookup_insert_eq.
  destruct (Connect_success _ _ _ _ _ _ Hp Hc) as (_ & _ & _ & ip & Hip & Hh & _).
  exists (set_ClientIP ip (NewDialer (cli_user_agent cli))).
  rewrite Hh. split; [apply lookup_insert_eq|]. split; [reflexivity|now exists c].
Qed.

(** C34: whatever calls of the hook the reconnect goroutine makes while
    the rest of [run] executes, and in whatever order, every request
    [run] sends is on its subject and carries the configured user agent
    and the IP of the local address of some connection opened through
    the hook, and the dialer keeps the user agent and such an IP. *)
Theorem reconnect_requests cli w c w2 cfg :
  Connect (w_next w) (server_url (cli_host cli) (cli_port cli))
          (snd (alloc_dialer (NewDialer (cli_user_agent cli)) w)) = (Ok c, w2) ->
  creach (w_next w) c (cli_subject cli) (cli_timeout cli) (AtLoad, w2) cfg ->
  cell_ok (w_next w) (cli_user_agent cli) (snd cfg) /\
  exists ev, w_trace (snd cfg) = (w_trace w2 ++ ev)%list /\
             Forall (request_ok (cli_subject cli) (cli_user_agent cli)) ev.
Proof.
  intros Hc Hr.
  assert (Hinit : conc_inv (w_next w) (cli_subject cli) (cli_user_agent cli) (w_trace w2) (AtLoad, w2)).
  { split; [exact (connect_cell_ok _ _ _ _ Hc)|]. split; [exact I|].
    exists []. now rewrite app_nil_r. }
  destruct (creach_keeps _ _ _ _ _ _ _ _ Hr Hinit) as (Hcell & _ & Htr). auto.
Qed.

(** ** The main goroutine always returns *)

Lemma rank_returned s : rank s = 0%nat <-> returned s = true.
Proof. destruct s; cbn; split; congruence. Qed.

(** Each step of the main goroutine moves it on: forward to the next
    statement, or on an error to the deferred drain. *)
Lemma main_step_rank p nc subject timeout s w :
  returned s = false -> (rank (fst (main_step p nc subject timeout s w)) < rank s)%nat.
Proof.
  intros Hr. destruct s as [|d|req|msg|r|r]; cbn [main_step]; try discriminate.
  - destruct (load_dialer p w) as [[]]; cbn; lia.
  - destruct (marshal_dialer _ _); cbn; lia.
  - destruct (Request nc subject req timeout w) as [[m|]]; [destruct (negb _)|]; cbn; lia.
  - destruct (print msg w) as [[]]; cbn; lia.
  - cbn; lia.
Qed.

(** A returned goroutine takes no step: the configuration is final. *)
Lemma cpath_returned p nc subject timeout n c c' :
  cpath p nc subject timeout n c c' -> returned (fst c) = true -> c' = c /\ n = 0%nat.
Proof. destruct 1; cbn [fst]; [auto|congruence|congruence]. Qed.

Lemma cpath_rank p nc subject timeout n c c' :
  cpath p nc subject timeout n c c' -> (rank (fst c') + n <= rank (fst c))%nat.
Proof.
  induction 1 as [c|n s w c Hr _ IH|n s w host c Hr _ IH]; cbn [fst] in *; [lia| |exact IH].
  assert (Hs := main_step_rank p nc subject timeout s w Hr). lia.
Qed.

(** Without a turn of its own the goroutine stays where it is. *)
Lemma cpath_stays p nc subject timeout n c c' :
  cpath p nc subject timeout n c c' -> n = 0%nat -> fst c' = fst c.
Proof. induction 1; cbn [fst] in *; auto; discriminate. Qed.

Lemma cpath_creach p nc subject timeout n c c' :
  cpath p nc subject timeout n c c' -> creach p nc subject timeout c c'.
Proof.
  induction 1; [apply creach_refl| |]; (eapply creach_step; [|eassumption]); now constructor.
Qed.

(** When the goroutine has returned after some step of its own, the
    last effect is the deferred [nc.Drain()]. *)
Lemma cpath_drained p nc subject timeout n c c' :
  cpath p nc subject timeout n c c' -> (0 < n)%nat -> returned (fst c') = true ->
  exists tr, w_trace (snd c') = (tr ++ [EvDrain nc])%list.
Proof.
  induction 1 as [c|n s w c Hr Hp IH|n s w host c Hr _ IH]; intros Hn Hc'; [lia| |auto].
  destruct (returned (fst (main_step p nc subject timeout s w))) eqn:Hm.
  - destruct (cpath_returned _ _ _ _ _ _ _ Hp Hm) as [-> _].
    destruct s as [| | | |r|]; try discriminate; cbn [main_step fst returned] in Hm |- *;
      repeat match type of Hm with context [match ?x with _ => _ end] => destruct x end;
      try discriminate.
    exists (w_trace w). reflexivity.
  - apply IH; [|exact Hc'].
    destruct n; [|lia].
    rewrite (cpath_stays _ _ _ _ _ _ _ Hp eq_refl) in Hc'. congruence.
Qed.

(** Whatever calls of the hook the reconnect goroutine interleaves,
    the main goroutine takes at most five steps after [Connect]; once it
    has been scheduled five times, or earlier on an error, [run] has
    returned, and its last effect was the deferred [nc.Drain()]. *)
Lemma run_returns_drained p nc subject timeout w n cfg :
  cpath p nc subject timeout n (AtLoad, w) cfg ->
  (n <= 5)%nat /\
  (n = 5%nat \/ returned (fst cfg) = true ->
   exists r tr, fst cfg = Returned r /\ w_trace (snd cfg) = (tr ++ [EvDrain nc])%list).
Proof.
  intros Hp. assert (Hk := cpath_rank _ _ _ _ _ _ _ Hp). cbn [fst rank] in Hk.
  split; [lia|intros Hn].
  assert (Hret : returned (fst cfg) = true) by (destruct Hn; [apply rank_returned; lia|auto]).
  assert (Hpos : (0 < n)%nat).
  { destruct n; [|lia]. rewrite (cpath_stays _ _ _ _ _ _ _ Hp eq_refl) in Hret. discriminate. }
  destruct (cpath_drained _ _ _ _ _ _ _ Hp Hpos Hret) as [tr Htr].
  destruct (fst cfg) as [| | | | |r]; try discriminate. eauto.
Qed.
(** C32: the payload reports the connection the hook opened last, not
    the one [run] holds: when the reconnect goroutine's call of the hook
    succeeds on a connection [c] before [json.Marshal(&dialer)] reads the
    dialer, the request [run] builds carries the local IP of [c] (and the
    user agent), whatever connection [nc] it sends the request on. *)
Theorem reconnect_reports_new_ip p nc subject timeout w d host c ip :
  w_heap w !! p = Some d -> net_dial "tcp" host = Ok c -> local_ip_of c = Ok ip ->
  exists w', creach p nc subject timeout (AtLoad, w) (AtRequest (payload_text ip (UserAgent d)), w') /\
             w_heap w' !! p = Some (set_ClientIP ip d) /\
             w_trace w' = (w_trace w ++ [EvDial "tcp" host])%list.
Proof.
  intros Hd Hc Hip.
  set (w1 := mkWorld (<[p := set_ClientIP ip d]> (w_heap w)) (w_next w) (c :: w_sockets w)
                     (w_trace w ++ [EvDial "tcp" host])%list).
  assert (Hw : snd (with_dialer p (Dial "tcp" host) w) = w1)
    by (rewrite (with_dialer_Dial _ _ _ _ d Hd); cbv zeta; now rewrite Hc, Hip).
  assert (Hl : w_heap w1 !! p = Some (set_ClientIP ip d)) by apply lookup_insert_eq.
  exists w1. split; [|split; [exact Hl|reflexivity]].
  eapply creach_step; [apply (cstep_reconnect _ _ _ _ _ _ host); reflexivity|]. rewrite Hw.
  eapply creach_step; [apply cstep_main; reflexivity|].
  replace (main_step p nc subject timeout AtLoad w1) with (AtMarshal (set_ClientIP ip d), w1)
    by (unfold main_step, load_dialer; now rewrite Hl).
  eapply creach_step; [apply cstep_main; reflexivity|].
  unfold main_step. rewrite marshal_dialer_payload. apply creach_refl.
Qed.
End MachineTheorems.

(** ** A reconnect through another route

    A host with two routes: the server at [127.0.0.1:4222] is reached
    from [127.0.0.1], the one at [10.0.0.1:4222] from [10.0.0.2]. *)
Definition two_route_net : NetStack := {|
  Conn := Z;
  conn_eq_dec := Z.eq_dec;
  IP := string;
  net_dial := fun network address =>
    if address =? "127.0.0.1:4222" then Ok 1%Z
    else if address =? "10.0.0.1:4222" then Ok 2%Z
    else Err (NetError ("dial " ++ network ++ " " ++ address ++ ": connect: connection refused"));
  local_addr := fun c => if (c =? 1)%Z then mkAddr "tcp" "127.0.0.1:5001" else mkAddr "tcp" "10.0.0.2:5002";
  resolve_tcp_addr := fun network address =>
    if address =? "127.0.0.1:5001" then Ok (mkTCPAddr "127.0.0.1" 5001%Z "")
    else Ok (mkTCPAddr "10.0.0.2" 5002%Z "");
  ip_string := fun ip => ip
|}.

Definition two_route_broker : @Broker two_route_net := {|
  lookup_dns := fun _ => [];
  pool_pick := fun i => i;
  pool_pick_le := fun i => le_n i;
  hosts_pick := fun _ i => i;
  hosts_pick_le := fun _ i => le_n i;
  handshake := fun _ _ => Ok tt;
  reply_to := fun _ _ => Reply 1000 false "ok";
  reply_wins_tie := false
|}.

Definition race_cli : cli_context :=
  mkCliContext "health.check" "NATS Health Check" "127.0.0.1" 4222 1000000000.

(** The world when [Connect] returns in [run race_cli world0]. *)
Definition race_connected : @World two_route_net :=
  snd (@Connect two_route_net two_route_broker 1 (server_url "127.0.0.1" 4222)
         (snd (alloc_dialer (NewDialer "NATS Health Check") (@world0 two_route_net)))).

(** The reconnect goroutine dials the other server before [run] reads
    the dialer; then [run] goes on to its end. *)
Definition race_cfg : pc * @World two_route_net :=
  @main_run two_route_net two_route_broker 5 1 1%Z "health.check" 1000000000 AtLoad
    (snd (@with_dialer two_route_net _ 1 (@Dial two_route_net "tcp" "10.0.0.1:4222") race_connected)).

Lemma race_reach :
  @creach two_route_net two_route_broker 1 1%Z "health.check" 1000000000 (AtLoad, race_connected) race_cfg.
Proof.
  eapply creach_step; [apply (cstep_reconnect _ _ _ _ _ _ "10.0.0.1:4222"); reflexivity|].
  do 5 (eapply creach_step; [apply cstep_main; vm_compute; reflexivity|]).
  vm_compute. apply creach_refl.
Defined.

(** The request of that run carries [10.0.0.2], the IP of the
    reconnected route, while the connection [run] holds, [nc], is the
    first one, whose local IP is [127.0.0.1]. *)
Example reconnect_race_example :
  @creach two_route_net two_route_broker 1 1%Z "health.check" 1000000000 (AtLoad, race_connected) race_cfg /\
  In (EvRequest "health.check" (payload_text "10.0.0.2" "NATS Health Check")) (w_trace (snd race_cfg)) /\
  @local_ip_of two_route_net 1%Z = Ok "127.0.0.1" /\
  fst race_cfg = Returned (Ok tt).
Proof.
  split; [exact race_reach|]. vm_compute. split; [|split; reflexivity].
  right. right. left. reflexivity.
Qed.

(** A successful call of the hook through the second route, on the
    world of [race_connected]. *)
Lemma reconnect_reports_new_ip_witness :
  exists w', @creach two_route_net two_route_broker 1 1%Z "health.check" 1000000000
               (AtLoad, race_connected)
               (AtRequest (payload_text "10.0.0.2" "NATS Health Check"), w') /\
             w_heap w' !! 1%positive = Some (set_ClientIP "10.0.0.2" (set_ClientIP "127.0.0.1" (NewDialer "NATS Health Check"))) /\
             w_trace w' = (w_trace race_connected ++ [@EvDial two_route_net "tcp" "10.0.0.1:4222"])%list.
Proof.
  apply (@reconnect_reports_new_ip two_route_net two_route_broker 1 1%Z "health.check" 1000000000
           race_connected (set_ClientIP "127.0.0.1" (NewDialer "NATS Health Check"))
           "10.0.0.1:4222" 2%Z "10.0.0.2"); vm_compute; reflexivity.
Defined.

Lemma reconnect_requests_witness :
  @Connect two_route_net two_route_broker 1 (server_url "127.0.0.1" 4222)
    (snd (alloc_dialer (NewDialer "NATS Health Check") (@world0 two_route_net))) = (Ok 1%Z, race_connected) /\
  (cell_ok 1 "NATS Health Check" (snd race_cfg) /\
   exists ev, w_trace (snd race_cfg) = (w_trace race_connected ++ ev)%list /\
              Forall (request_ok "health.check" "NATS Health Check") ev).
Proof.
  split; [vm_compute; reflexivity|].
  apply (@reconnect_requests two_route_net two_route_broker race_cli (@world0 two_route_net) 1%Z
           race_connected race_cfg); [vm_compute; reflexivity|exact race_reach].
Defined.
