(* ===== verification/Flag.v ===== *)
(** * Go's [flag] package, as urfave/cli drives it from [app.Run(os.Args)] (src/main.go:57)

    urfave/cli builds a [flag.FlagSet] with [ContinueOnError], defines
    every name of every flag of the table in it ([FlagSet.Var]), parses
    the command line with [FlagSet.Parse] and copies values between the
    names of one flag with [FlagSet.Set].  This file holds the flag set
    ([FlagSet], its [formal] definitions and the names it has seen in
    [actual]), the dynamic values of the four kinds of flag, [Var],
    [Set], [parseOne] and [Parse], and the properties of the parse:
    it ends ([parse_loop_fuel]), options [-name value] are parsed as the
    [FlagSet.Set] calls of their pairs, each value consumed
    ([flag_parse_sets]), and a step relation of [parseOne] keeps the
    definitions, the kind of every value and the names seen
    ([flag_parse_keeps]). *)

From Stdlib Require Import String Ascii List ZArith Lia Bool RelationClasses.
From S2P Require Import Prelude Utf8 Strconv Duration.
Import ListNotations.
Local Open Scope string_scope.
Local Open Scope go_scope.

(** ** Go's [flag] package *)

(** The dynamic [flag.Value]s urfave/cli defines: [*stringValue],
    [*intValue], [*durationValue] and [*boolValue]. *)
Inductive fvalue :=
| VString (s : string)
| VInt (i : Z)
| VDuration (d : Z)
| VBool (b : bool).

(** [strconv.ParseBool] *)
Definition ParseBool (s : string) : option bool :=
  if existsb (String.eqb s) ["1"; "t"; "T"; "TRUE"; "true"; "True"] then Some true
  else if existsb (String.eqb s) ["0"; "f"; "F"; "FALSE"; "false"; "False"] then Some false
  else None.

(** [strconv.FormatBool] *)
Definition FormatBool (b : bool) : string := if b then "true" else "false".

(** [Value.String()] *)
Definition value_String (v : fvalue) : string :=
  match v with
  | VString s => s
  | VInt i => Itoa i
  | VDuration d => Duration_String d
  | VBool b => FormatBool b
  end.

(** [Value.Set(s)]: the stored value afterwards and whether [Set]
    succeeded; the value is stored even when parsing fails. *)
Definition value_Set (v : fvalue) (s : string) : fvalue * bool :=
  match v with
  | VString _ => (VString s, true)
  | VInt _ =>
      let '(n, err) := ParseInt s 0 64 in
      (VInt n, match err with None => true | Some _ => false end)
  | VDuration _ =>
      let '(d, err) := ParseDuration s in
      (VDuration d, match err with None => true | Some _ => false end)
  | VBool _ =>
      match ParseBool s with
      | Some b => (VBool b, true)
      | None => (VBool false, false)
      end
  end.

Definition is_bool_flag (v : fvalue) : bool :=
  match v with VBool _ => true | _ => false end.

(** [flag.FlagSet]: the defined flags ([formal], Go's [formal] map as
    an association list in which a later binding of a name shadows the
    earlier ones), the names set by [Parse] or [Set] ([actual], the keys
    of Go's [actual] map, most recent first) and the arguments left
    ([args]). *)
Record FlagSet := mkFlagSet {
  formal : list (string * fvalue);
  actual : list string;
  args : list string
}.

Definition empty_flagset : FlagSet := mkFlagSet [] [] [].

Definition is_set (names : list string) (n : string) : bool := existsb (String.eqb n) names.

Fixpoint assoc (m : list (string * fvalue)) (k : string) : option fvalue :=
  match m with
  | [] => None
  | (k', v) :: m' => if String.eqb k k' then Some v else assoc m' k
  end.

(** [f.formal[name]] and [f.formal[name] = flag]. *)
Definition lookup_flag (fs : FlagSet) (name : string) : option fvalue := assoc (formal fs) name.

Definition set_formal (fs : FlagSet) (name : string) (v : fvalue) : list (string * fvalue) :=
  (name, v) :: formal fs.

(** [FlagSet.Var]: [None] is its panic on a name defined twice, a name
    starting with ['-'] or a name containing ['=']. *)
Definition flag_Var (fs : FlagSet) (name : string) (v : fvalue) : option FlagSet :=
  match lookup_flag fs name with
  | Some _ => None
  | None =>
      if String.prefix "-" name || Prelude.contains name "=" then None
      else Some (mkFlagSet (set_formal fs name v) (actual fs) (args fs))
  end.

(** [FlagSet.Set(name, value)]: [None] is its error. *)
Definition flag_Set (fs : FlagSet) (name value : string) : option FlagSet :=
  match lookup_flag fs name with
  | None => None
  | Some v =>
      let '(v', ok) := value_Set v value in
      let fs' := mkFlagSet (set_formal fs name v') (actual fs) (args fs) in
      if ok then Some (mkFlagSet (formal fs') (name :: actual fs') (args fs'))
      else None
  end.

(** The errors [parseOne] reports with [failf]. *)
Inductive flag_error :=
| BadFlagSyntax (arg : string)
| FlagNotDefined (name : string)
| ErrHelp
| FlagNeedsArgument (name : string)
| InvalidBoolValue (value name : string)
| InvalidValue (value name : string).

(** [parseOne]'s results: a flag was parsed, the flags ended, or an
    error. *)
Inductive parse_step :=
| PSeen (fs : FlagSet)
| PStop (fs : FlagSet)
| PFail (e : flag_error).

(** [name[i+1:]] and [name[0:i]] for the first ['='] at [i >= 1]. *)
Definition split_eq (name : string) : string * option string :=
  match name with
  | EmptyString => ("", None)
  | String a rest =>
      let fix go (s : string) : string * option string :=
        match s with
        | EmptyString => ("", None)
        | String "="%char v => ("", Some v)
        | String b r => let '(n, v) := go r in (String b n, v)
        end in
      let '(n, v) := go rest in (String a n, v)
  end.

(** The syntax [parseOne] reads in an argument [s]: not a flag (the
    flags end), ["--"] (the flags end and it is consumed), a bad flag, or
    a flag name with the value after its first ['='], if any. *)
Inductive flag_syntax :=
| SynNotFlag
| SynTerminator
| SynBad
| SynFlag (name : string) (value : option string).

Definition flag_syntax_of (s : string) : flag_syntax :=
  if (String.length s <? 2)%nat || negb (byte_at 0 s =? 45)%Z then SynNotFlag else
  let two := (byte_at 1 s =? 45)%Z in
  if two && (String.length s =? 2)%nat then SynTerminator else
  let name := drop (if two then 2 else 1) s in
  if (String.eqb name "") || (byte_at 0 name =? 45)%Z || (byte_at 0 name =? 61)%Z
  then SynBad else
  let '(name, value) := split_eq name in SynFlag name value.

(** The rest of [parseOne] for a flag [name] with its optional [value]
    and the arguments [rest] after it. *)
Definition parse_flag (fs : FlagSet) (name : string) (value : option string)
           (rest : list string) : parse_step :=
  match lookup_flag fs name with
  | None =>
      if String.eqb name "help" || String.eqb name "h" then PFail ErrHelp
      else PFail (FlagNotDefined name)
  | Some v =>
      let set_and_mark v' rest' :=
        PSeen (mkFlagSet (set_formal fs name v') (name :: actual fs) rest') in
      if is_bool_flag v then
        match value with
        | Some val =>
            let '(v', ok) := value_Set v val in
            if ok then set_and_mark v' rest else PFail (InvalidBoolValue val name)
        | None =>
            let '(v', ok) := value_Set v "true" in
            if ok then set_and_mark v' rest else PFail (InvalidBoolValue "true" name)
        end
      else
        let arg :=
          match value, rest with
          | Some val, _ => Some (val, rest)
          | None, val :: rest' => Some (val, rest')
          | None, [] => None
          end in
        match arg with
        | None => PFail (FlagNeedsArgument name)
        | Some (val, rest') =>
            let '(v', ok) := value_Set v val in
            if ok then set_and_mark v' rest' else PFail (InvalidValue val name)
        end
  end.

(** [func (f *FlagSet) parseOne() (bool, error)] *)
Definition parse_one (fs : FlagSet) : parse_step :=
  match args fs with
  | [] => PStop fs
  | s :: rest =>
      match flag_syntax_of s with
      | SynNotFlag => PStop fs
      | SynTerminator => PStop (mkFlagSet (formal fs) (actual fs) rest)
      | SynBad => PFail (BadFlagSyntax s)
      | SynFlag name value => parse_flag fs name value rest
      end
  end.

(** [for { seen, err := f.parseOne(); ... }]: every parsed flag takes
    at least one argument, so the length of the arguments plus one is
    enough fuel. *)
Fixpoint parse_loop (fuel : nat) (fs : FlagSet) : FlagSet + flag_error :=
  match fuel with
  | O => inl fs
  | S fuel =>
      match parse_one fs with
      | PSeen fs' => parse_loop fuel fs'
      | PStop fs' => inl fs'
      | PFail e => inr e
      end
  end.

(** [func (f *FlagSet) Parse(arguments []string) error] *)
Definition flag_parse (fs : FlagSet) (arguments : list string) : FlagSet + flag_error :=
  parse_loop (S (length arguments)) (mkFlagSet (formal fs) (actual fs) arguments).

(** ** The state of a flag set across [Parse] *)

(** The dynamic type of a [flag.Value]: [*stringValue], [*intValue],
    [*durationValue] or [*boolValue]. *)
Inductive vkind := KString | KInt | KDuration | KBool.

Definition kind_of (v : fvalue) : vkind :=
  match v with
  | VString _ => KString
  | VInt _ => KInt
  | VDuration _ => KDuration
  | VBool _ => KBool
  end.

(** The kind of the flag defined under a name. *)
Definition kinds_of (fs : FlagSet) (n : string) : option vkind :=
  option_map kind_of (lookup_flag fs n).

(** A value Go can hold: [int] (64-bit) and [time.Duration] are
    [int64]. *)
Definition value_okb (v : fvalue) : bool :=
  match v with
  | VInt i | VDuration i => (int64_min <=? i)%Z && (i <=? int64_max)%Z
  | _ => true
  end.

(** A well-formed flag set: every value it holds is one Go can hold,
    and every name it has seen is defined. *)
Definition wf_flagset (fs : FlagSet) : bool :=
  forallb (fun p => value_okb (snd p)) (formal fs) &&
  forallb (fun n => match lookup_flag fs n with Some _ => true | None => false end) (actual fs).

(** The steps [Parse] takes: [parseOne] reporting a flag seen, any
    number of times. *)
Inductive parse_steps : FlagSet -> FlagSet -> Prop :=
| parse_refl fs : parse_steps fs fs
| parse_seen fs fs' fs'' : parse_one fs = PSeen fs' -> parse_steps fs' fs'' -> parse_steps fs fs''.

(** What a step of [Parse] keeps: well-formedness, the kind of the flag
    under each name, the names seen so far, and the arguments, of which
    it only consumes a prefix. *)
Definition parse_keeps (fs fs' : FlagSet) : Prop :=
  (wf_flagset fs = true -> wf_flagset fs' = true) /\
  (forall n, kinds_of fs' n = kinds_of fs n) /\
  incl (actual fs) (actual fs') /\
  exists pre, args fs = (pre ++ args fs')%list.


(** ** Theorems *)

Local Open Scope Z_scope.

Lemma lookup_set_formal fs n v act r k :
  lookup_flag (mkFlagSet (set_formal fs n v) act r) k =
  if String.eqb k n then Some v else lookup_flag fs k.
Proof.
  reflexivity.
Qed.

Lemma value_Set_Itoa q p :
  int64_min <= p <= int64_max -> value_Set (VInt q) (Itoa p) = (VInt p, true).
Proof. intros Hp. cbn [value_Set]. now rewrite ParseInt_Itoa_spec. Qed.

Lemma value_Set_Duration q t :
  int64_min <= t <= int64_max -> value_Set (VDuration q) (Duration_String t) = (VDuration t, true).
Proof. intros Ht. cbn [value_Set]. now rewrite ParseDuration_String_spec. Qed.

(** ** Termination of [FlagSet.Parse] *)

Lemma parse_one_shrinks fs fs' :
  parse_one fs = PSeen fs' -> (length (args fs') < length (args fs))%nat.
Proof.
  unfold parse_one. destruct (args fs) as [|s rest] eqn:Ha; [discriminate|].
  destruct (flag_syntax_of s) as [| | |name value]; try discriminate.
  unfold parse_flag. destruct (lookup_flag fs name) as [v|]; [|destruct (_ || _); discriminate].
  destruct (is_bool_flag v).
  - destruct value as [val|]; destruct (value_Set v _) as [v' []]; try discriminate;
      intros [= <-]; cbn; lia.
  - destruct value as [val|]; [|destruct rest as [|val rest']];
      try (destruct (value_Set v _) as [v' []]); try discriminate; intros [= <-]; cbn; lia.
Qed.

(** [FlagSet.Parse] ends: every flag it parses consumes at least one
    argument, so one more unit of fuel than there are arguments is
    enough, and more gives the same result. *)
Lemma parse_loop_fuel (f g : nat) (fs : FlagSet) :
  (length (args fs) < f)%nat -> (length (args fs) < g)%nat ->
  parse_loop f fs = parse_loop g fs.
Proof.
  revert g fs; induction f as [|f IH]; intros g fs Hf Hg; [lia|].
  destruct g as [|g]; [lia|]. cbn [parse_loop].
  destruct (parse_one fs) as [fs'|fs'|err] eqn:Hone; try reflexivity.
  apply parse_one_shrinks in Hone. apply IH; lia.
Qed.

(** ** [Parse] as a sequence of [FlagSet.Set] calls *)

(** The arguments [-name value] for each pair [(name, value)]. *)
Fixpoint opt_args (ps : list (string * string)) : list string :=
  match ps with
  | [] => []
  | (n, text) :: ps => ("-" ++ n) :: text :: opt_args ps
  end.

(** [FlagSet.Set(name, value)] for each pair in order, when each name is
    a defined flag that is not boolean and is written [-name] with no
    ['=']; [None] otherwise or when a [Set] fails. *)
Fixpoint set_all (fs : FlagSet) (ps : list (string * string)) : option FlagSet :=
  match ps with
  | [] => Some fs
  | (n, text) :: ps =>
      match flag_syntax_of ("-" ++ n), lookup_flag fs n with
      | SynFlag n' None, Some v =>
          if String.eqb n n' && negb (is_bool_flag v) then
            match flag_Set fs n text with
            | Some fs' => set_all fs' ps
            | None => None
            end
          else None
      | _, _ => None
      end
  end.

(** One option [-name value] with its value in the next argument. *)
Lemma parse_loop_opt fuel fs n text more v :
  flag_syntax_of ("-" ++ n) = SynFlag n None -> lookup_flag fs n = Some v ->
  is_bool_flag v = false ->
  parse_loop (S fuel) (mkFlagSet (formal fs) (actual fs) (("-" ++ n) :: text :: more)) =
  let '(v', ok) := value_Set v text in
  if ok then parse_loop fuel (mkFlagSet (set_formal fs n v') (n :: actual fs) more)
  else inr (InvalidValue text n).
Proof.
  intros Hsyn Hl Hb. cbn [parse_loop]. unfold parse_one. cbn [args]. rewrite Hsyn.
  unfold parse_flag. change (lookup_flag (mkFlagSet (formal fs) (actual fs) _) n) with (lookup_flag fs n).
  rewrite Hl, Hb. destruct (value_Set v text) as [v' []]; reflexivity.
Qed.

(** C31: [FlagSet.Parse] on options [-name value], each with its value
    in the next argument, is [FlagSet.Set(name, value)] for each of them
    in order, after which it goes on with the arguments that follow: a
    value is taken whole, whatever it starts with, and consumed, so the
    last occurrence of a flag wins and nothing of the options is left
    for the positional arguments. *)
Theorem flag_parse_sets fs ps rest fs' :
  set_all fs ps = Some fs' ->
  flag_parse fs (opt_args ps ++ rest) = flag_parse fs' rest.
Proof.
  revert fs; induction ps as [|[n text] ps IH]; intros fs Hs.
  - injection Hs as <-. reflexivity.
  - cbn [set_all] in Hs.
    destruct (flag_syntax_of ("-" ++ n)) as [| | |n' [val|]] eqn:Hsyn; try discriminate.
    destruct (lookup_flag fs n) as [v|] eqn:Hl; [|discriminate].
    destruct (String.eqb_spec n n') as [<-|]; [|discriminate].
    destruct (is_bool_flag v) eqn:Hb; [discriminate|]. cbn [andb negb] in Hs.
    unfold flag_Set in Hs. rewrite Hl in Hs.
    destruct (value_Set v text) as [v' ok] eqn:Hv. destruct ok; [|discriminate].
    rewrite <- (IH _ Hs). unfold flag_parse. cbn [opt_args app length formal actual].
    rewrite (parse_loop_opt _ _ _ _ _ _ Hsyn Hl Hb), Hv.
    apply parse_loop_fuel; cbn [args]; lia.
Qed.

(** ** The invariant of [Parse] *)

Local Open Scope list_scope.

Lemma int64_okb (i : Z) :
  int64_min <= i <= int64_max -> (int64_min <=? i) && (i <=? int64_max) = true.
Proof. intros Hi. apply andb_true_intro. split; apply Z.leb_le; lia. Qed.
#[export] Hint Resolve int64_okb : gohc.

(** [Set] never changes the type of a value. *)
Lemma value_Set_kind v s : kind_of (fst (value_Set v s)) = kind_of v.
Proof.
  destruct v; cbn [value_Set];
    [|destruct (ParseInt s 0 64)|destruct (ParseDuration s)|destruct (ParseBool s)]; reflexivity.
Qed.

(** A value [Set] accepts is one Go can hold. *)
Lemma value_Set_ok v s v' : value_Set v s = (v', true) -> value_okb v' = true.
Proof.
  destruct v; cbn [value_Set].
  - intros [= <-]. reflexivity.
  - destruct (ParseInt s 0 64) as [n [err|]] eqn:Hp; intros [= <-].
    apply int64_okb. exact (ParseInt_range _ _ _ Hp).
  - destruct (ParseDuration s) as [n [err|]] eqn:Hp; intros [= <-].
    apply int64_okb. exact (ParseDuration_range _ _ Hp).
  - destruct (ParseBool s); intros [= <-]; reflexivity.
Qed.

Lemma value_Set_accepted v s v' :
  value_Set v s = (v', true) -> kind_of v' = kind_of v /\ value_okb v' = true.
Proof.
  intros Hs. split; [|exact (value_Set_ok _ _ _ Hs)].
  rewrite <- (value_Set_kind v s), Hs. reflexivity.
Qed.

#[export] Instance parse_keeps_preorder : PreOrder parse_keeps.
Proof.
  split.
  - intros fs. split; [auto|]. split; [reflexivity|]. split; [apply incl_refl|]. now exists [].
  - intros a b c (Hw1 & Hk1 & Hi1 & pre1 & Ha1) (Hw2 & Hk2 & Hi2 & pre2 & Ha2).
    split; [auto|]. split; [intros n; now rewrite Hk2|]. split; [eapply incl_tran; eauto|].
    exists (pre1 ++ pre2). now rewrite Ha1, Ha2, app_assoc.
Qed.

(** Defining or setting a name to a value of the kind it has keeps the
    flag set well formed and the kinds unchanged, and marks the name
    seen. *)
Lemma set_keeps fs name v v' r pre :
  lookup_flag fs name = Some v -> kind_of v' = kind_of v -> value_okb v' = true ->
  args fs = (pre ++ r)%list ->
  parse_keeps fs (mkFlagSet (set_formal fs name v') (name :: actual fs) r).
Proof.
  intros Hl Hk Hok Ha. split; [|split; [|split]].
  - unfold wf_flagset. cbn [formal actual set_formal forallb snd]. rewrite Hok.
    intros [Hf Hs]%andb_prop. rewrite Hf. cbn. rewrite String.eqb_refl. cbn.
    apply forallb_forall. intros n Hn. unfold lookup_flag. cbn.
    destruct (String.eqb n name); [reflexivity|].
    exact (proj1 (forallb_forall _ _) Hs n Hn).
  - intros n. unfold kinds_of, lookup_flag. cbn.
    destruct (String.eqb_spec n name) as [->|]; [|reflexivity].
    unfold lookup_flag in Hl. rewrite Hl. cbn. now rewrite Hk.
  - intros n Hn. now right.
  - now exists pre.
Qed.

Lemma stop_keeps fs r pre : args fs = (pre ++ r)%list -> parse_keeps fs (mkFlagSet (formal fs) (actual fs) r).
Proof.
  intros Ha. split; [auto|]. split; [reflexivity|]. split; [apply incl_refl|]. now exists pre.
Qed.

Ltac flag_step pre :=
  match goal with
  | Hs : value_Set ?v _ = (_, true), Hl : lookup_flag _ _ = Some ?v, Ha : args _ = _ |- _ =>
      destruct (value_Set_accepted _ _ _ Hs);
      apply (set_keeps _ _ v _ _ pre Hl); [assumption|assumption|now rewrite Ha]
  end.

(** One [parseOne] that sees a flag keeps the state. *)
Lemma parse_one_keeps fs fs' : parse_one fs = PSeen fs' -> parse_keeps fs fs'.
Proof.
  unfold parse_one. destruct (args fs) as [|s rest] eqn:Ha; [discriminate|].
  destruct (flag_syntax_of s) as [| | |name value]; try discriminate.
  unfold parse_flag. destruct (lookup_flag fs name) as [v|] eqn:Hl; [|destruct (_ || _); discriminate].
  destruct (is_bool_flag v).
  - destruct value as [val|]; destruct (value_Set v _) as [v' []] eqn:Hs; try discriminate;
      intros [= <-]; flag_step [s].
  - destruct value as [val|]; [|destruct rest as [|val rest']];
      try (destruct (value_Set v _) as [v' []] eqn:Hs); try discriminate; intros [= <-].
    + flag_step [s].
    + flag_step [s; val].
Qed.

Lemma parse_one_stop_keeps fs fs' : parse_one fs = PStop fs' -> parse_keeps fs fs'.
Proof.
  unfold parse_one. destruct (args fs) as [|s rest] eqn:Ha.
  - intros [= <-]. reflexivity.
  - destruct (flag_syntax_of s); try discriminate.
    + intros [= <-]. reflexivity.
    + intros [= <-]. apply (stop_keeps fs rest [s]). exact Ha.
    + unfold parse_flag. destruct (lookup_flag fs _) as [v|]; [|destruct (_ || _); discriminate].
      destruct (is_bool_flag v); repeat (match goal with |- context [match ?x with _ => _ end] =>
        destruct x end); discriminate.
Qed.

(** Every state the steps of [Parse] reach keeps the state it started
    from, by induction on the steps. *)
Lemma parse_steps_keeps fs fs' : parse_steps fs fs' -> parse_keeps fs fs'.
Proof.
  induction 1 as [fs|fs fs1 fs2 Hone _ IH]; [reflexivity|].
  transitivity fs1; [apply parse_one_keeps|]; assumption.
Qed.

(** What the loop of [Parse] returns is reached by its steps, then
    possibly one step that stops. *)
Lemma parse_loop_steps f fs fs' :
  parse_loop f fs = inl fs' ->
  exists fs1, parse_steps fs fs1 /\ (fs' = fs1 \/ parse_one fs1 = PStop fs').
Proof.
  revert fs; induction f as [|f IH]; intros fs H; cbn [parse_loop] in H.
  - injection H as <-. exists fs. split; [constructor|now left].
  - destruct (parse_one fs) as [fs1|fs1|err] eqn:Hone; [|injection H as <-|discriminate].
    + destruct (IH fs1 H) as (fs2 & Hst & Hend). exists fs2. split; [econstructor; eauto|exact Hend].
    + exists fs. split; [constructor|now right].
Qed.

Lemma parse_loop_keeps f fs fs' : parse_loop f fs = inl fs' -> parse_keeps fs fs'.
Proof.
  intros H. destruct (parse_loop_steps f fs fs' H) as (fs1 & Hst & [->|Hstop]).
  - exact (parse_steps_keeps _ _ Hst).
  - transitivity fs1; [exact (parse_steps_keeps _ _ Hst)|exact (parse_one_stop_keeps _ _ Hstop)].
Qed.

(** [Set] of a defined name to a text its value accepts keeps the
    state, and consumes no argument. *)
Lemma flag_Set_keeps fs n text fs' : flag_Set fs n text = Some fs' -> parse_keeps fs fs'.
Proof.
  unfold flag_Set. destruct (lookup_flag fs n) as [v|] eqn:Hl; [|discriminate].
  destruct (value_Set v text) as [v' []] eqn:Hs; [|discriminate]. intros [= <-]. cbn.
  destruct (value_Set_accepted _ _ _ Hs).
  apply (set_keeps _ _ v _ _ [] Hl); auto.
Qed.

Lemma int64_okb_range (i : Z) :
  (int64_min <=? i) && (i <=? int64_max) = true -> int64_min <= i <= int64_max.
Proof. intros [H1 H2]%andb_prop. apply Z.leb_le in H1, H2. lia. Qed.

Lemma assoc_In m k v : assoc m k = Some v -> In (k, v) m.
Proof.
  induction m as [|[k' v'] m IH]; cbn; [discriminate|].
  destruct (String.eqb_spec k k') as [->|]; [intros [= ->]; now left|intros H; right; auto].
Qed.

(** A value a well-formed flag set holds is one Go can hold. *)
Lemma wf_lookup_ok fs n v : wf_flagset fs = true -> lookup_flag fs n = Some v -> value_okb v = true.
Proof.
  intros [Hf _]%andb_prop Hl. apply assoc_In in Hl.
  exact (proj1 (forallb_forall _ _) Hf _ Hl).
Qed.

(** [FlagSet.Parse] keeps the flag set well formed, never changes the
    type of the flag under a name, only adds names to those seen, and
    leaves a suffix of its arguments. *)
Lemma flag_parse_keeps fs arguments fs' :
  flag_parse fs arguments = inl fs' ->
  (wf_flagset fs = true -> wf_flagset fs' = true) /\
  (forall n, kinds_of fs' n = kinds_of fs n) /\
  incl (actual fs) (actual fs') /\
  exists pre, arguments = pre ++ args fs'.
Proof.
  unfold flag_parse. intros H. exact (parse_loop_keeps _ _ _ H).
Qed.

(** [-p -5 -s x -p 7 check] on an int flag [p] and a string flag [s]:
    [p] ends at 7, [s] at [x], and [check] is left. *)
Lemma flag_parse_sets_witness :
  set_all (mkFlagSet [("p", VInt 4222); ("s", VString "")] [] [])
          [("p", "-5"); ("s", "x"); ("p", "7")] =
    Some (mkFlagSet [("p", VInt 7); ("s", VString "x"); ("p", VInt (-5)); ("p", VInt 4222); ("s", VString "")]
                    ["p"; "s"; "p"] []) /\
  flag_parse (mkFlagSet [("p", VInt 4222); ("s", VString "")] [] [])
             (opt_args [("p", "-5"); ("s", "x"); ("p", "7")] ++ ["check"]) =
  flag_parse (mkFlagSet [("p", VInt 7); ("s", VString "x"); ("p", VInt (-5)); ("p", VInt 4222); ("s", VString "")]
                        ["p"; "s"; "p"] []) ["check"].
Proof.
  split; [vm_compute; reflexivity|]. apply flag_parse_sets. vm_compute. reflexivity.
Defined.
