(* ===== verification/Cli.v ===== *)
(** * The command line: [main] (src/main.go:17-60)

    [main] builds a [cli.App] with five flags and [run] as its action and
    calls [app.Run(os.Args)]; an error ends the process through
    [log.Fatal], with exit status 1.  The flag table is [app_flags]; the
    parts of urfave/cli (v2) that [app.Run] reaches are written after
    their Go sources, over the [flag.FlagSet] of [Flag]:
    - [apply_flag] is [StringFlag.Apply], [IntFlag.Apply],
      [DurationFlag.Apply] and [BoolFlag.Apply]: the first environment
      variable of the flag that is set replaces the default (an empty
      value is ignored for the int, duration and bool flags, and a value
      that does not parse is an error), then the flag is defined under
      each of its names, each name with its own storage;
    - [normalizeFlags] rejects two names of one flag on one command line
      and copies the value given under one name to the others, through
      the text [Value.String()] of the value;
    - [lookupString], [lookupInt], [lookupDuration] and [lookupBool]
      parse that text again, as [cli.String], [cli.Int], [cli.Duration]
      and [cli.Bool] do;
    - [App_Run] is [App.Run] with [Command.Run] of the root command: the
      help flag and the [help] command show the help, and otherwise
      [run] of [Probe] runs on the values the flags hold.
    The environment is the list [os.Environ()], looked up with
    [syscall.Getenv] (the first binding of a name counts). *)

From Stdlib Require Import String Ascii List ZArith Lia Bool.
From S2P Require Import Prelude Dialer Utf8 Json Strconv Duration Nats Probe Flag.
Import ListNotations.
Local Open Scope string_scope.
Local Open Scope go_scope.

(** ** urfave/cli *)

(** A [cli.StringFlag], [cli.IntFlag], [cli.DurationFlag] or
    [cli.BoolFlag]: its [Name], [Aliases], [EnvVars] and [Value]; the
    kind of flag is the constructor of the value. *)
Record cli_flag := mkFlag {
  fl_name : string;
  fl_aliases : list string;
  fl_env : list string;
  fl_value : fvalue
}.

(** The [Flags] of the [cli.App] of [main]. *)
Definition host_flag : cli_flag := mkFlag "host" [] ["NATS_HOST"] (VString "localhost").
Definition port_flag : cli_flag := mkFlag "port" ["p"] ["NATS_PORT"] (VInt 4222).
Definition subject_flag : cli_flag :=
  mkFlag "subject" ["s"; "sub"; "t"; "topic"] ["NATS_REQUEST_SUBJECT"] (VString "").
Definition timeout_flag : cli_flag :=
  mkFlag "timeout" [] ["NATS_REQUEST_TIMEOUT"] (VDuration (5 * Second)).
Definition user_agent_flag : cli_flag :=
  mkFlag "user-agent" [] ["NATS_USER_AGENT"] (VString "NATS Health Check").

Definition app_flags : list cli_flag :=
  [host_flag; port_flag; subject_flag; timeout_flag; user_agent_flag].

(** [cli.HelpFlag], which [App.Setup] appends since [HideHelp] is not
    set; there is no version flag since the app has no [Version]. *)
Definition HelpFlag : cli_flag := mkFlag "help" ["h"] [] (VBool false).

Definition root_flags : list cli_flag := app_flags ++ [HelpFlag].

(** [Flag.Names()] *)
Definition flag_names (f : cli_flag) : list string := fl_name f :: fl_aliases f.

(** [os.Environ()]; [syscall.Getenv] finds the first binding. *)
Definition env := list (string * string).

Fixpoint getenv (e : env) (k : string) : option string :=
  match e with
  | [] => None
  | (k', v) :: e' => if String.eqb k k' then Some v else getenv e' k
  end.

(** [flagFromEnvOrFile(envVars, "")]: the value and the variable it
    comes from. *)
Fixpoint flagFromEnv (e : env) (vars : list string) : option (string * string) :=
  match vars with
  | [] => None
  | var :: vars' =>
      match getenv e var with
      | Some v => Some (v, var)
      | None => flagFromEnv e vars'
      end
  end.

(** The errors of [app.Run] before [run]. *)
Inductive cli_error :=
| EnvParseError (value var name : string)   (** could not parse [value] from [var] *)
| ParseError (e : flag_error)               (** from [set.Parse] *)
| TwoForms (name other : string)            (** Cannot use two forms of the same flag *)
| NoHelpTopic (topic : string).             (** No help topic for [topic] *)

(** The value [Apply] defines for a flag: the default, or the value of
    its environment variable. *)
Definition flag_value_from_env (e : env) (f : cli_flag) : fvalue + cli_error :=
  match flagFromEnv e (fl_env f), fl_value f with
  | None, v => inl v
  | Some (val, _), VString _ => inl (VString val)
  | Some (val, var), v =>
      if String.eqb val "" then inl v else
      let '(v', ok) := value_Set v val in
      if ok then inl v' else inr (EnvParseError val var (fl_name f))
  end.

(** [set.String(name, ...)] and the others for every name. *)
Fixpoint define_names (fs : FlagSet) (names : list string) (v : fvalue) : option FlagSet :=
  match names with
  | [] => Some fs
  | n :: ns =>
      match flag_Var fs n v with
      | Some fs' => define_names fs' ns v
      | None => None
      end
  end.

(** The result of [newFlagSet]: a flag set, the error of an [Apply], or
    the panic of [FlagSet.Var]. *)
Inductive setup_result :=
| SetupOk (fs : FlagSet)
| SetupErr (e : cli_error)
| SetupPanic.

(** [Flag.Apply(set)] *)
Definition apply_flag (e : env) (fs : FlagSet) (f : cli_flag) : setup_result :=
  match flag_value_from_env e f with
  | inr err => SetupErr err
  | inl v =>
      match define_names fs (flag_names f) v with
      | Some fs' => SetupOk fs'
      | None => SetupPanic
      end
  end.

(** [func (c *Command) newFlagSet()]: [Apply]
    of every flag in order. *)
Fixpoint apply_flags (e : env) (fs : FlagSet) (flags : list cli_flag) : setup_result :=
  match flags with
  | [] => SetupOk fs
  | f :: fl =>
      match apply_flag e fs f with
      | SetupOk fs' => apply_flags e fs' fl
      | r => r
      end
  end.

Definition newFlagSet (e : env) : setup_result := apply_flags e empty_flagset root_flags.

(** The first name of [names] that is set, or [TwoForms] when a second
    one is. *)
Fixpoint visited_name (vis : list string) (names : list string) (ff : option string)
  : option string + cli_error :=
  match names with
  | [] => inl ff
  | n :: ns =>
      if is_set vis n then
        match ff with
        | Some f => inr (TwoForms n f)
        | None => visited_name vis ns (Some n)
        end
      else visited_name vis ns ff
  end.

(** [copyFlag(name, ff, set)] for the names not set: [set.Set(name,
    ff.Value.String())], whose error is dropped. *)
Fixpoint copy_flag (vis : list string) (fs : FlagSet) (names : list string) (text : string)
  : FlagSet :=
  match names with
  | [] => fs
  | n :: ns =>
      let fs := if is_set vis n then fs
                else match flag_Set fs n text with Some fs' => fs' | None => fs end in
      copy_flag vis fs ns text
  end.

(** [func normalizeFlags(flags []Flag, set *flag.FlagSet) error]; the
    names set are those of [set.Visit], taken once before the copies. *)
Fixpoint normalize_loop (vis : list string) (fs : FlagSet) (flags : list cli_flag)
  : FlagSet + cli_error :=
  match flags with
  | [] => inl fs
  | f :: fl =>
      let names := flag_names f in
      if (length names =? 1)%nat then normalize_loop vis fs fl else
      match visited_name vis names None with
      | inr e => inr e
      | inl None => normalize_loop vis fs fl
      | inl (Some ff) =>
          match lookup_flag fs ff with
          | Some v => normalize_loop vis (copy_flag vis fs names (value_String v)) fl
          | None => normalize_loop vis fs fl
          end
      end
  end.

Definition normalizeFlags (flags : list cli_flag) (fs : FlagSet) : FlagSet + cli_error :=
  normalize_loop (actual fs) fs flags.

(** [func (c *Command) parseFlags(args Args, ctx *Context)]: the
    arguments after the program name. *)
Definition parseFlags (e : env) (arguments : list string) : FlagSet + cli_error + unit :=
  match newFlagSet e with
  | SetupPanic => inr tt
  | SetupErr err => inl (inr err)
  | SetupOk fs =>
      match flag_parse fs (tl arguments) with
      | inr err => inl (inr (ParseError err))
      | inl fs' => inl (normalizeFlags root_flags fs')
      end
  end.

(** [lookupString], [lookupInt], [lookupDuration] and [lookupBool]:
    the text of the value, parsed again; a missing flag or a parse error
    gives the zero value. *)
Definition lookupString (fs : FlagSet) (name : string) : string :=
  match lookup_flag fs name with Some v => value_String v | None => "" end.

Definition lookupInt (fs : FlagSet) (name : string) : Z :=
  match lookup_flag fs name with
  | Some v =>
      let '(n, err) := ParseInt (value_String v) 0 64 in
      match err with None => n | Some _ => 0 end
  | None => 0
  end.

Definition lookupDuration (fs : FlagSet) (name : string) : Z :=
  match lookup_flag fs name with
  | Some v =>
      let '(d, err) := ParseDuration (value_String v) in
      match err with None => d | Some _ => 0 end
  | None => 0
  end.

Definition lookupBool (fs : FlagSet) (name : string) : bool :=
  match lookup_flag fs name with
  | Some v => match ParseBool (value_String v) with Some b => b | None => false end
  | None => false
  end.

(** The values [run] reads from its [*cli.Context]. *)
Definition context_of (fs : FlagSet) : cli_context :=
  mkCliContext (lookupString fs "subject") (lookupString fs "user-agent")
    (lookupString fs "host") (lookupInt fs "port") (lookupDuration fs "timeout").

(** [checkHelp(cCtx)] *)
Definition checkHelp (fs : FlagSet) : bool :=
  existsb (lookupBool fs) (flag_names HelpFlag).

(** ** [app.Run] and [main] *)

(** How [app.Run(os.Args)] ends: the help shown and [nil] returned, an
    error of the flags, the [cli.Exit] error of an unknown help topic
    (handled by [HandleExitCoder] when the [help] command returns it), a
    panic of the flag set, or the result of [run]. *)
Inductive app_outcome :=
| ShowHelp
| UsageError (e : cli_error)
| HelpTopicError (topic : string) (handled : bool)
| Panicked
| Ran (r : result unit).

(** [ShowCommandHelp(cCtx, topic)] on the root command, whose only
    command is [help] (alias [h]). *)
Definition show_command_help (topic : string) (handled : bool) : app_outcome :=
  if String.eqb topic "help" || String.eqb topic "h" then ShowHelp
  else HelpTopicError topic handled.

(** [helpCommand.Action] on the positional arguments [pos]. *)
Definition help_action (pos : list string) (handled : bool) : app_outcome :=
  match pos with
  | topic :: _ => if String.eqb topic "" then ShowHelp else show_command_help topic handled
  | [] => ShowHelp
  end.

(** The [help] command run on the arguments after its name: its flag
    set has no flags, since it hides its help flag. *)
Definition help_command (rest : list string) : app_outcome :=
  match flag_parse empty_flagset rest with
  | inr err => UsageError (ParseError err)
  | inl fs => help_action (args fs) true
  end.

Section App.
Context `{NetStack} `{!Broker}.

(** [err = c.Action(cCtx)] with [Action: run]. *)
Definition run_action (fs : FlagSet) : stM World app_outcome :=
  catch (let* _ := run (context_of fs) in ret (Ran (Ok tt)))
        (fun err => ret (Ran (Err err))).

(** [app.Run(arguments)]: [Command.Run] of the root command. *)
Definition App_Run (e : env) (arguments : list string) : stM World app_outcome :=
  match parseFlags e arguments with
  | inr tt => ret Panicked
  | inl (inr err) => ret (UsageError err)
  | inl (inl fs) =>
      if checkHelp fs then ret (help_action (args fs) false) else
      match args fs with
      | name :: rest =>
          if String.eqb name "help" || String.eqb name "h" then ret (help_command rest)
          else run_action fs
      | [] => run_action fs
      end
  end.

(** The exit status: [log.Fatal] exits with 1, [cli.Exit(..., 3)] with 3
    when [HandleExitCoder] sees it, a panic with 2, a return of [main]
    with 0. *)
Definition exit_code (o : app_outcome) : Z :=
  match o with
  | ShowHelp | Ran (Ok _) => 0
  | UsageError _ | Ran (Err _) => 1
  | HelpTopicError _ handled => if handled then 3 else 1
  | Panicked => 2
  end.

(** [func main()] *)
Definition main (e : env) (argv : list string) : stM World Z :=
  let* o := App_Run e argv in
  ret (exit_code o).
End App.

(** ** Theorems *)

Local Open Scope Z_scope.

(** The values [Apply] takes from the environment, as a reference: the
    first binding of the variable, or the default when it is unbound (or
    empty, for an int or a duration); [None] when the text does not
    parse. *)
Definition env_string (e : env) (var def : string) : string :=
  match getenv e var with Some v => v | None => def end.

Definition env_int (e : env) (var : string) (def : Z) : option Z :=
  match getenv e var with
  | None => Some def
  | Some v =>
      if String.eqb v "" then Some def
      else match ParseInt v 0 64 with (n, None) => Some n | _ => None end
  end.

Definition env_duration (e : env) (var : string) (def : Z) : option Z :=
  match getenv e var with
  | None => Some def
  | Some v =>
      if String.eqb v "" then Some def
      else match ParseDuration v with (d, None) => Some d | _ => None end
  end.

(** The flag set [newFlagSet] builds: every name of every flag with the
    value of its flag, and the arguments [a]. *)
Definition flagset_map (vh vp vs vt vu : fvalue) : list (string * fvalue) :=
  [("h", VBool false); ("help", VBool false); ("user-agent", vu); ("timeout", vt);
   ("topic", vs); ("t", vs); ("sub", vs); ("s", vs); ("subject", vs); ("p", vp);
   ("port", vp); ("host", vh)].

Definition flagset_of (vh vp vs vt vu : fvalue) (a : list string) : FlagSet :=
  mkFlagSet (flagset_map vh vp vs vt vu) [] a.

Lemma value_string_flag e n al var def :
  flag_value_from_env e (mkFlag n al [var] (VString def)) = inl (VString (env_string e var def)).
Proof. unfold flag_value_from_env, env_string. cbn. now destruct (getenv e var). Qed.

Lemma value_int_flag e n al var def :
  match env_int e var def with
  | Some p => flag_value_from_env e (mkFlag n al [var] (VInt def)) = inl (VInt p)
  | None => exists v, flag_value_from_env e (mkFlag n al [var] (VInt def)) =
                      inr (EnvParseError v var n)
  end.
Proof.
  unfold flag_value_from_env, env_int. cbn [flagFromEnv fl_env fl_value fl_name].
  destruct (getenv e var) as [v|]; [|reflexivity].
  destruct (String.eqb v ""); [reflexivity|]. cbn [value_Set].
  destruct (ParseInt v 0 64) as [k [err|]]; [now exists v|reflexivity].
Qed.

Lemma value_duration_flag e n al var def :
  match env_duration e var def with
  | Some d => flag_value_from_env e (mkFlag n al [var] (VDuration def)) = inl (VDuration d)
  | None => exists v, flag_value_from_env e (mkFlag n al [var] (VDuration def)) =
                      inr (EnvParseError v var n)
  end.
Proof.
  unfold flag_value_from_env, env_duration. cbn [flagFromEnv fl_env fl_value fl_name].
  destruct (getenv e var) as [v|]; [|reflexivity].
  destruct (String.eqb v ""); [reflexivity|]. cbn [value_Set].
  destruct (ParseDuration v) as [k [err|]]; [now exists v|reflexivity].
Qed.

Lemma newFlagSet_ok e vh vp vs vt vu :
  flag_value_from_env e host_flag = inl vh ->
  flag_value_from_env e port_flag = inl vp ->
  flag_value_from_env e subject_flag = inl vs ->
  flag_value_from_env e timeout_flag = inl vt ->
  flag_value_from_env e user_agent_flag = inl vu ->
  newFlagSet e = SetupOk (flagset_of vh vp vs vt vu []).
Proof.
  intros Hh Hp Hs Ht Hu. unfold newFlagSet, root_flags, app_flags.
  cbn [List.app apply_flags]. unfold apply_flag. rewrite Hh, Hp, Hs, Ht, Hu.
  reflexivity.
Qed.

Lemma newFlagSet_cases (e : env) :
  match env_int e "NATS_PORT" 4222, env_duration e "NATS_REQUEST_TIMEOUT" (5 * Second) with
  | Some p, Some t =>
      newFlagSet e = SetupOk (flagset_of (VString (env_string e "NATS_HOST" "localhost"))
                                (VInt p) (VString (env_string e "NATS_REQUEST_SUBJECT" ""))
                                (VDuration t)
                                (VString (env_string e "NATS_USER_AGENT" "NATS Health Check")) [])
  | None, _ => exists v, newFlagSet e = SetupErr (EnvParseError v "NATS_PORT" "port")
  | Some _, None =>
      exists v, newFlagSet e = SetupErr (EnvParseError v "NATS_REQUEST_TIMEOUT" "timeout")
  end.
Proof.
  pose proof (value_int_flag e "port" ["p"] "NATS_PORT" 4222) as Hp.
  pose proof (value_duration_flag e "timeout" [] "NATS_REQUEST_TIMEOUT" (5 * Second)) as Ht.
  destruct (env_int e "NATS_PORT" 4222) as [p|];
    [destruct (env_duration e "NATS_REQUEST_TIMEOUT" (5 * Second)) as [t|]|].
  - apply newFlagSet_ok; [apply value_string_flag|exact Hp|apply value_string_flag|exact Ht|
                          apply value_string_flag].
  - destruct Ht as [v Ht]. exists v. unfold newFlagSet, root_flags, app_flags.
    cbn [List.app apply_flags]. unfold apply_flag at 1 2 3 4.
    unfold host_flag, port_flag, subject_flag, timeout_flag.
    rewrite !value_string_flag, Hp, Ht. reflexivity.
  - destruct Hp as [v Hp]. exists v. unfold newFlagSet, root_flags, app_flags.
    cbn [List.app apply_flags]. unfold apply_flag at 1 2.
    unfold host_flag, port_flag. rewrite value_string_flag, Hp. reflexivity.
Qed.

(** [newFlagSet] never panics: every flag takes the value of its
    environment variable, or its default, and is defined under each of
    its names; an unparsable [NATS_PORT] or [NATS_REQUEST_TIMEOUT] is the
    error of the flag. *)
Theorem newFlagSet_spec (e : env) :
  match env_int e "NATS_PORT" 4222, env_duration e "NATS_REQUEST_TIMEOUT" (5 * Second) with
  | Some p, Some t =>
      newFlagSet e = SetupOk (flagset_of (VString (env_string e "NATS_HOST" "localhost"))
                                (VInt p) (VString (env_string e "NATS_REQUEST_SUBJECT" ""))
                                (VDuration t)
                                (VString (env_string e "NATS_USER_AGENT" "NATS Health Check")) [])
  | None, _ => exists v, newFlagSet e = SetupErr (EnvParseError v "NATS_PORT" "port")
  | Some _, None =>
      exists v, newFlagSet e = SetupErr (EnvParseError v "NATS_REQUEST_TIMEOUT" "timeout")
  end.
Proof. exact (newFlagSet_cases e). Qed.

Lemma env_int_range e var def p :
  int64_min <= def <= int64_max -> env_int e var def = Some p -> int64_min <= p <= int64_max.
Proof.
  intros Hd. unfold env_int. destruct (getenv e var) as [v|]; [|congruence].
  destruct (String.eqb v ""); [congruence|].
  destruct (ParseInt v 0 64) as [n [err|]] eqn:Hp; [discriminate|].
  intros [= <-]. exact (ParseInt_range _ _ _ Hp).
Qed.

Lemma env_duration_range e var def d :
  int64_min <= def <= int64_max -> env_duration e var def = Some d -> int64_min <= d <= int64_max.
Proof.
  intros Hd. unfold env_duration. destruct (getenv e var) as [v|]; [|congruence].
  destruct (String.eqb v ""); [congruence|].
  destruct (ParseDuration v) as [n [err|]] eqn:Hp; [discriminate|].
  intros [= <-]. exact (ParseDuration_range _ _ Hp).
Qed.

(** The names of the flag set of [newFlagSet] and their values. *)
Lemma lookup_flagset vh vp vs vt vu a k :
  lookup_flag (flagset_of vh vp vs vt vu a) k =
  if String.eqb k "host" then Some vh
  else if String.eqb k "port" || String.eqb k "p" then Some vp
  else if existsb (String.eqb k) ["subject"; "s"; "sub"; "t"; "topic"] then Some vs
  else if String.eqb k "timeout" then Some vt
  else if String.eqb k "user-agent" then Some vu
  else if String.eqb k "help" || String.eqb k "h" then Some (VBool false)
  else None.
Proof.
  unfold lookup_flag, flagset_of, flagset_map. cbn [existsb orb formal assoc].
  destruct (String.eqb k "h") eqn:H1; [apply String.eqb_eq in H1; subst; reflexivity|].
  destruct (String.eqb k "help") eqn:H2; [apply String.eqb_eq in H2; subst; reflexivity|].
  destruct (String.eqb k "user-agent") eqn:H3; [apply String.eqb_eq in H3; subst; reflexivity|].
  destruct (String.eqb k "timeout") eqn:H4; [apply String.eqb_eq in H4; subst; reflexivity|].
  destruct (String.eqb k "topic") eqn:H5; [apply String.eqb_eq in H5; subst; reflexivity|].
  destruct (String.eqb k "t") eqn:H6; [apply String.eqb_eq in H6; subst; reflexivity|].
  destruct (String.eqb k "sub") eqn:H7; [apply String.eqb_eq in H7; subst; reflexivity|].
  destruct (String.eqb k "s") eqn:H8; [apply String.eqb_eq in H8; subst; reflexivity|].
  destruct (String.eqb k "subject") eqn:H9; [apply String.eqb_eq in H9; subst; reflexivity|].
  destruct (String.eqb k "p") eqn:H10; [apply String.eqb_eq in H10; subst; reflexivity|].
  destruct (String.eqb k "port") eqn:H11; [apply String.eqb_eq in H11; subst; reflexivity|].
  destruct (String.eqb k "host"); reflexivity.
Qed.

(** What [run] reads from a flag set of [newFlagSet]: the strings as
    they are, the port and the timeout through their text. *)
Lemma context_of_flagset (h s u : string) (p t : Z) (a : list string) :
  int64_min <= p <= int64_max -> int64_min <= t <= int64_max ->
  context_of (flagset_of (VString h) (VInt p) (VString s) (VDuration t) (VString u) a) =
  mkCliContext s u h p t.
Proof.
  intros Hp Ht. unfold context_of, lookupString, lookupInt, lookupDuration.
  rewrite !lookup_flagset. cbn -[ParseInt Itoa ParseDuration Duration_String].
  rewrite ParseInt_Itoa_spec, ParseDuration_String_spec by assumption.
  reflexivity.
Qed.

Lemma checkHelp_flagset vh vp vs vt vu a : checkHelp (flagset_of vh vp vs vt vu a) = false.
Proof. reflexivity. Qed.

(** ** Parsing the command line *)

(** The values the environment gives, when [Apply] accepts them. *)
Definition env_flagset (e : env) (p t : Z) (a : list string) : FlagSet :=
  flagset_of (VString (env_string e "NATS_HOST" "localhost")) (VInt p)
    (VString (env_string e "NATS_REQUEST_SUBJECT" "")) (VDuration t)
    (VString (env_string e "NATS_USER_AGENT" "NATS Health Check")) a.

Definition env_context (e : env) (p t : Z) : cli_context :=
  mkCliContext (env_string e "NATS_REQUEST_SUBJECT" "")
    (env_string e "NATS_USER_AGENT" "NATS Health Check")
    (env_string e "NATS_HOST" "localhost") p t.

Section EnvOk.
Variable e : env.
Variables p t : Z.
Hypothesis Hp : env_int e "NATS_PORT" 4222 = Some p.
Hypothesis Ht : env_duration e "NATS_REQUEST_TIMEOUT" (5 * Second) = Some t.

Lemma env_p_range : int64_min <= p <= int64_max.
Proof. apply (env_int_range e "NATS_PORT" 4222); [vm_compute; split; discriminate|exact Hp]. Qed.

Lemma env_t_range : int64_min <= t <= int64_max.
Proof.
  apply (env_duration_range e "NATS_REQUEST_TIMEOUT" (5 * Second));
    [vm_compute; split; discriminate|exact Ht].
Qed.

Lemma newFlagSet_env : newFlagSet e = SetupOk (env_flagset e p t []).
Proof. pose proof (newFlagSet_cases e) as H. rewrite Hp, Ht in H. exact H. Qed.

Lemma parseFlags_env prog argv :
  parseFlags e (prog :: argv) =
  match flag_parse (env_flagset e p t []) argv with
  | inr err => inl (inr (ParseError err))
  | inl fs => inl (normalizeFlags root_flags fs)
  end.
Proof. unfold parseFlags. now rewrite newFlagSet_env. Qed.

Lemma parseFlags_env_ok prog argv fs :
  flag_parse (env_flagset e p t []) argv = inl fs ->
  parseFlags e (prog :: argv) = inl (normalizeFlags root_flags fs).
Proof. intros H. rewrite parseFlags_env. now rewrite H. Qed.

Lemma parseFlags_env_err prog argv err :
  flag_parse (env_flagset e p t []) argv = inr err ->
  parseFlags e (prog :: argv) = inl (inr (ParseError err)).
Proof. intros H. rewrite parseFlags_env. now rewrite H. Qed.

Lemma env_context_of a : context_of (env_flagset e p t a) = env_context e p t.
Proof. apply context_of_flagset; [apply env_p_range|apply env_t_range]. Qed.
End EnvOk.

(** ** The values [run] reads keep their types *)

Lemma copy_flag_keeps vis fs names text : parse_keeps fs (copy_flag vis fs names text).
Proof.
  revert fs; induction names as [|n ns IH]; intros fs; cbn [copy_flag]; [reflexivity|].
  etransitivity; [|apply IH].
  destruct (is_set vis n); [reflexivity|].
  destruct (flag_Set fs n text) as [fs'|] eqn:Hs; [exact (flag_Set_keeps _ _ _ _ Hs)|reflexivity].
Qed.

Lemma normalize_keeps vis fs flags fs' : normalize_loop vis fs flags = inl fs' -> parse_keeps fs fs'.
Proof.
  revert fs; induction flags as [|f fl IH]; intros fs; cbn [normalize_loop].
  - intros [= <-]. reflexivity.
  - destruct (length (flag_names f) =? 1)%nat; [apply IH|].
    destruct (visited_name vis (flag_names f) None) as [[ff|]|err]; [|apply IH|discriminate].
    destruct (lookup_flag fs ff) as [v|]; [|apply IH].
    intros H. etransitivity; [apply copy_flag_keeps|exact (IH _ H)].
Qed.

Lemma env_flagset_wf e p t a :
  int64_min <= p <= int64_max -> int64_min <= t <= int64_max ->
  wf_flagset (env_flagset e p t a) = true.
Proof.
  intros Hp Ht. unfold wf_flagset, env_flagset, flagset_of, flagset_map.
  cbn [formal actual forallb snd value_okb]. rewrite !int64_okb by assumption.
  destruct a; reflexivity.
Qed.

(** A flag set [parseFlags] returns comes from the flag set of the
    environment, through [Parse] and [normalizeFlags]. *)
Lemma parseFlags_inl e argv fs :
  parseFlags e argv = inl (inl fs) ->
  exists p t, env_int e "NATS_PORT" 4222 = Some p /\
              env_duration e "NATS_REQUEST_TIMEOUT" (5 * Second) = Some t /\
              parse_keeps (env_flagset e p t (tl argv)) fs.
Proof.
  pose proof (newFlagSet_cases e) as Hcases. unfold parseFlags.
  destruct (env_int e "NATS_PORT" 4222) as [p|];
    [destruct (env_duration e "NATS_REQUEST_TIMEOUT" (5 * Second)) as [t|]|];
    [|destruct Hcases as [v ->]; discriminate|destruct Hcases as [v ->]; discriminate].
  rewrite Hcases. unfold flag_parse.
  destruct (parse_loop _ _) as [fs1|err] eqn:Hl; [|discriminate].
  intros H. assert (Hn : normalizeFlags root_flags fs1 = inl fs) by (injection H; auto).
  exists p, t. split; [reflexivity|]. split; [reflexivity|].
  etransitivity; [|exact (normalize_keeps _ _ _ _ Hn)]. exact (parse_loop_keeps _ _ _ Hl).
Qed.

(** [cli.Int] and [cli.Duration] give back the value an int or
    duration flag of a well-formed flag set holds: the text they parse
    again is read back exactly. *)
Lemma lookupInt_typed fs n :
  wf_flagset fs = true -> kinds_of fs n = Some KInt ->
  exists p, lookup_flag fs n = Some (VInt p) /\ lookupInt fs n = p.
Proof.
  intros Hw Hk. unfold kinds_of in Hk.
  destruct (lookup_flag fs n) as [[|p| |]|] eqn:Hl; try discriminate.
  exists p. split; [reflexivity|]. unfold lookupInt. rewrite Hl. cbn [value_String].
  rewrite ParseInt_Itoa_spec; [reflexivity|]. exact (int64_okb_range _ (wf_lookup_ok _ _ _ Hw Hl)).
Qed.

Lemma lookupDuration_typed fs n :
  wf_flagset fs = true -> kinds_of fs n = Some KDuration ->
  exists t, lookup_flag fs n = Some (VDuration t) /\ lookupDuration fs n = t.
Proof.
  intros Hw Hk. unfold kinds_of in Hk.
  destruct (lookup_flag fs n) as [[| |t|]|] eqn:Hl; try discriminate.
  exists t. split; [reflexivity|]. unfold lookupDuration. rewrite Hl. cbn [value_String].
  rewrite ParseDuration_String_spec; [reflexivity|].
  exact (int64_okb_range _ (wf_lookup_ok _ _ _ Hw Hl)).
Qed.

(** C36: whatever the environment and the command line, a flag set
    [app.Run] goes on with holds an [int] under [port] and a
    [time.Duration] under [timeout], and [cli.Int("port")] and
    [cli.Duration("timeout")] in [run] return exactly those values:
    they never fall back to zero on a text they cannot parse. *)
Theorem cli_values_typed e argv fs :
  parseFlags e argv = inl (inl fs) ->
  exists p t, lookup_flag fs "port" = Some (VInt p) /\ lookupInt fs "port" = p /\
              lookup_flag fs "timeout" = Some (VDuration t) /\ lookupDuration fs "timeout" = t.
Proof.
  intros H. destruct (parseFlags_inl e argv fs H) as (p & t & Hp & Ht & Hw & Hk & _).
  specialize (Hw (env_flagset_wf e p t _ (env_p_range e p Hp) (env_t_range e t Ht))).
  destruct (lookupInt_typed fs "port" Hw ltac:(now rewrite Hk)) as (q & Hq & Hlq).
  destruct (lookupDuration_typed fs "timeout" Hw ltac:(now rewrite Hk)) as (d & Hd & Hld).
  now exists q, d.
Qed.

Ltac cli_eval := cbv -[value_Set ParseInt Itoa ParseDuration Duration_String run env_string].

(** C22: with no arguments, each setting is its environment variable,
    else its default: [NATS_REQUEST_SUBJECT] (none), [NATS_USER_AGENT]
    ("NATS Health Check"), [NATS_HOST] ("localhost"), [NATS_PORT] (4222)
    and [NATS_REQUEST_TIMEOUT] (5s). *)
Theorem cli_env_defaults (e : env) (p t : Z) (prog : string) :
  env_int e "NATS_PORT" 4222 = Some p ->
  env_duration e "NATS_REQUEST_TIMEOUT" (5 * Second) = Some t ->
  exists fs, parseFlags e [prog] = inl (inl fs) /\ checkHelp fs = false /\ args fs = [] /\
             context_of fs = env_context e p t.
Proof.
  intros Hp Ht. exists (env_flagset e p t []).
  rewrite (parseFlags_env e p t Hp Ht). split; [reflexivity|].
  split; [reflexivity|]. split; [reflexivity|]. now apply env_context_of.
Qed.

(** Computes a parse of the command line on the flag set of the
    environment, and the values [run] reads from the result. *)
Ltac cli_parse :=
  repeat (cli_eval; first [rewrite value_Set_Itoa by assumption
                          | rewrite value_Set_Duration by assumption
                          | rewrite ParseInt_Itoa_spec by assumption
                          | rewrite ParseDuration_String_spec by assumption]);
  cli_eval.

Ltac cli_context :=
  unfold context_of, lookupString, lookupInt, lookupDuration; cli_parse; reflexivity.

(** C23: a port given on the command line, as [--port], [-port], [--p]
    or [-p] followed by its value, is the port [run] uses, whatever
    [NATS_PORT] holds; the other settings keep their environment
    values. *)
Theorem cli_port_command_line (e : env) (p t q : Z) (prog dash name : string) :
  env_int e "NATS_PORT" 4222 = Some p ->
  env_duration e "NATS_REQUEST_TIMEOUT" (5 * Second) = Some t ->
  int64_min <= q <= int64_max ->
  In (dash, name) [("--", "port"); ("-", "port"); ("--", "p"); ("-", "p")] ->
  exists fs, parseFlags e [prog; dash ++ name; Itoa q] = inl (inl fs) /\
             checkHelp fs = false /\ args fs = [] /\ context_of fs = env_context e q t.
Proof.
  intros Hp Ht Hq Hn. pose proof (env_t_range e t Ht) as Htr.
  repeat (destruct Hn as [Hn|Hn];
    [injection Hn as <- <-;
     erewrite (parseFlags_env_ok e p t Hp Ht) by (unfold env_flagset; cli_parse; reflexivity);
     eexists; split; [cli_parse; reflexivity|];
     split; [reflexivity|split; [reflexivity|cli_context]]|]).
  destruct Hn.
Qed.

Lemma newFlagSet_error e :
  env_int e "NATS_PORT" 4222 = None \/ env_duration e "NATS_REQUEST_TIMEOUT" (5 * Second) = None ->
  exists err, newFlagSet e = SetupErr err.
Proof.
  intros Henv. pose proof (newFlagSet_cases e) as H.
  destruct (env_int e "NATS_PORT" 4222) as [p|];
    [destruct (env_duration e "NATS_REQUEST_TIMEOUT" (5 * Second)) as [t|]|].
  - destruct Henv; discriminate.
  - destruct H as [v H]. eauto.
  - destruct H as [v H]. eauto.
Qed.

Section MainTheorems.
Context `{NetStack} `{!Broker}.

(** [main] ends through [run] on the values the flags hold, when the
    flags parse, no help is asked for and no [help] command is given:
    exit status 0 when [run] returns [nil], 1 when it returns an error,
    and the effects of [run] and nothing else. *)
Lemma main_run e argv fs w :
  parseFlags e argv = inl (inl fs) -> checkHelp fs = false ->
  (forall n rest, args fs = n :: rest -> String.eqb n "help" || String.eqb n "h" = false) ->
  main e argv w =
  (Ok (match fst (run (context_of fs) w) with Ok _ => 0 | Err _ => 1 end),
   snd (run (context_of fs) w)).
Proof.
  intros Hparse Hhelp Hcmd. unfold main, App_Run. rewrite Hparse, Hhelp.
  assert (Hrun : run_action fs w =
                 (Ok (Ran (fst (run (context_of fs) w))), snd (run (context_of fs) w))).
  { unfold run_action. go_unfold. destruct (run (context_of fs) w) as [[[]|err] w']; reflexivity. }
  destruct (args fs) as [|n rest] eqn:Ha.
  - go_unfold. rewrite Hrun. destruct (fst (run (context_of fs) w)); reflexivity.
  - rewrite (Hcmd n rest eq_refl). go_unfold. rewrite Hrun.
    destruct (fst (run (context_of fs) w)); reflexivity.
Qed.
(** What the contract of [run] prints: ["ok"] exactly when it returns
    [nil], and nothing else. *)
Lemma behaviour_prints cli ev r :
  probe_behaviour cli ev r ->
  (r = Ok tt <-> In (EvPrint "ok") ev) /\ (forall s, In (EvPrint s) ev -> s = "ok").
Proof.
  assert (Hds : forall ds s, Forall (fun ev => is_connect_event ev = true) ds -> ~ In (EvPrint s) ds)
    by (intros ds s Hf Hin; rewrite List.Forall_forall in Hf; specialize (Hf _ Hin); discriminate).
  intros Hb; inversion Hb as [Hs|ds e Hs Hf|ds c ip r0 out Hs Hne Hf Hip Hv]; subst.
  - split; [split; [discriminate|intros []]|intros s []].
  - split; [split; [discriminate|intros Hin; exact (False_ind _ (Hds _ _ Hf Hin))]|].
    intros s Hin. exact (False_ind _ (Hds _ _ Hf Hin)).
  - assert (Hin_iff : forall s, In (EvPrint s) (ds ++ EvRequest (cli_subject cli)
                                  (payload_text ip (cli_user_agent cli)) :: out ++ [EvDrain c])%list
                                <-> In (EvPrint s) out).
    { intros s. rewrite in_app_iff. cbn [In]. rewrite in_app_iff. cbn [In].
      split; [intros [Hin|[Hq|[Hin|[Hq|[]]]]]; [exact (False_ind _ (Hds _ _ Hf Hin))|discriminate
             |exact Hin|discriminate]|tauto]. }
    setoid_rewrite Hin_iff.
    destruct (verdict_cases _ _ _ Hv) as [(_ & -> & ->)|(-> & [(_ & e & ->)|(body & _ & _ & ->)])].
    + split; [cbn; tauto|intros s [[= ->]|[]]; reflexivity].
    + split; [split; [discriminate|intros []]|intros s []].
    + split; [split; [discriminate|intros []]|intros s []].
Qed.

(** C29: the exit status of the program agrees with what it prints:
    whatever the environment, the stack and the server, when the flags
    parse and no help is asked for, [main] exits with 0 or 1, prints
    nothing but ["ok"], and exits with 0 exactly when it printed ["ok"]. *)
Theorem main_exit_print e argv w fs :
  parseFlags e argv = inl (inl fs) -> checkHelp fs = false ->
  (forall n rest, args fs = n :: rest -> String.eqb n "help" || String.eqb n "h" = false) ->
  exists ev, w_trace (snd (main e argv w)) = (w_trace w ++ ev)%list /\
    (fst (main e argv w) = Ok 0 \/ fst (main e argv w) = Ok 1) /\
    (fst (main e argv w) = Ok 0 <-> In (EvPrint "ok") ev) /\
    (forall s, In (EvPrint s) ev -> s = "ok").
Proof.
  intros Hp Hh Hc. rewrite (main_run _ _ _ _ Hp Hh Hc). cbn [fst snd].
  destruct (run (context_of fs) w) as [r w'] eqn:Hrun.
  destruct (run_behaviour _ _ _ _ Hrun) as (ev & Ht & Hb).
  destruct (behaviour_prints _ _ _ Hb) as [Hok Honly].
  exists ev. split; [exact Ht|]. split; [destruct r; [left|right]; reflexivity|].
  split; [|exact Honly]. rewrite <- Hok.
  destruct r as [[]|err]; split; intros Hx; try reflexivity; discriminate.
Qed.

End MainTheorems.

Section MainClaims.
Context `{NetStack} `{!Broker}.

(** C24: an unbound or empty variable leaves the default, but a
    [NATS_PORT] or [NATS_REQUEST_TIMEOUT] that does not parse ends
    [main] with exit status 1 before anything runs, whatever the
    command line holds, even a [--port] or [--timeout] that would
    replace it. *)
Theorem cli_env_error_exits (e : env) (argv : list string) (w : World) :
  env_int e "NATS_PORT" 4222 = None \/ env_duration e "NATS_REQUEST_TIMEOUT" (5 * Second) = None ->
  main e argv w = (Ok 1, w).
Proof.
  intros Henv. destruct (newFlagSet_error e Henv) as [err Herr].
  unfold main, App_Run, parseFlags. rewrite Herr. reflexivity.
Qed.

(** C25: giving the port under both of its names is an error of
    [normalizeFlags] ("Cannot use two forms of the same flag: p port"):
    [main] exits with status 1 and nothing runs. *)
Theorem cli_two_forms_rejected (e : env) (p t a b : Z) (prog : string) (w : World) :
  env_int e "NATS_PORT" 4222 = Some p ->
  env_duration e "NATS_REQUEST_TIMEOUT" (5 * Second) = Some t ->
  int64_min <= a <= int64_max -> int64_min <= b <= int64_max ->
  parseFlags e [prog; "--port"; Itoa a; "-p"; Itoa b] = inl (inr (TwoForms "p" "port")) /\
  main e [prog; "--port"; Itoa a; "-p"; Itoa b] w = (Ok 1, w).
Proof.
  intros Hp Ht Ha Hb.
  assert (Hparse : parseFlags e [prog; "--port"; Itoa a; "-p"; Itoa b] = inl (inr (TwoForms "p" "port"))).
  { erewrite (parseFlags_env_ok e p t Hp Ht) by (unfold env_flagset; cli_parse; reflexivity).
    cli_parse. reflexivity. }
  split; [exact Hparse|]. unfold main, App_Run. rewrite Hparse. reflexivity.
Qed.

(** [-h], [--help], [-help] or [--h] shows the help and ends [main]
    with exit status 0 without running the check. *)
Theorem cli_help_flag (e : env) (p t : Z) (prog dash name : string) (w : World) :
  env_int e "NATS_PORT" 4222 = Some p ->
  env_duration e "NATS_REQUEST_TIMEOUT" (5 * Second) = Some t ->
  In (dash, name) [("-", "h"); ("--", "help"); ("-", "help"); ("--", "h")] ->
  main e [prog; dash ++ name] w = (Ok 0, w).
Proof.
  intros Hp Ht Hn.
  repeat (destruct Hn as [Hn|Hn];
    [injection Hn as <- <-; unfold main, App_Run;
     erewrite (parseFlags_env_ok e p t Hp Ht) by (unfold env_flagset; cli_parse; reflexivity);
     cli_parse; reflexivity|]).
  destruct Hn.
Qed.
(** C37: a timeout written as a plain number, as the flag's usage
    ("the timeout for the health check in seconds") suggests, is
    rejected by [time.ParseDuration] for its missing unit: given as
    [--timeout 30] the flag fails to parse, and given as
    [NATS_REQUEST_TIMEOUT=30] the flag's [Apply] fails; either way
    [main] exits with status 1 before anything runs. *)
Theorem cli_timeout_needs_unit (e : env) (p t : Z) (l : list Z) (prog : string) (w : World) :
  env_int e "NATS_PORT" 4222 = Some p ->
  env_duration e "NATS_REQUEST_TIMEOUT" (5 * Second) = Some t ->
  l <> [] -> Forall is_digit_val l -> digit_str l <> "0" -> horner 0 l <= 2 ^ 63 ->
  main e [prog; "--timeout"; digit_str l] w = (Ok 1, w) /\
  main (("NATS_REQUEST_TIMEOUT", digit_str l) :: e) [prog] w = (Ok 1, w).
Proof.
  intros Hp Ht Hne Hl Hz Hb.
  pose proof (ParseDuration_no_unit l Hne Hl Hz Hb) as Hpd.
  assert (Hne' : String.eqb (digit_str l) "" = false)
    by (destruct l; [congruence|reflexivity]).
  remember (digit_str l) as ds eqn:Hds. split.
  - assert (Hs : value_Set (VDuration t) ds = (VDuration 0, false)) by (cbn [value_Set]; now rewrite Hpd).
    assert (Hparse : parseFlags e [prog; "--timeout"; ds] =
                     inl (inr (ParseError (InvalidValue ds "timeout")))).
    { apply (parseFlags_env_err e p t Hp Ht). unfold env_flagset. cli_eval. now rewrite Hs. }
    unfold main, App_Run. rewrite Hparse. reflexivity.
  - assert (Henv : env_duration (("NATS_REQUEST_TIMEOUT", ds) :: e) "NATS_REQUEST_TIMEOUT"
                     (5 * Second) = None)
      by (unfold env_duration; cbn [getenv]; rewrite String.eqb_refl; cbv iota; now rewrite Hne', Hpd).
    destruct (newFlagSet_error _ (or_intror Henv)) as [err Herr].
    unfold main, App_Run, parseFlags. rewrite Herr. reflexivity.
Qed.
End MainClaims.

Section MoreClaims.
Context `{NetStack} `{!Broker}.

Lemma run_empty_subject (cli : cli_context) (w : World) :
  cli_subject cli = "" -> run cli w = (Err (ErrorsNew "invalid subject"), w).
Proof. intros Hs. unfold run. now rewrite Hs. Qed.

(** C27: [FlagSet.Parse] stops at the first argument that is not a flag:
    the flags after it are not read, so with no subject in the
    environment [main] fails with "invalid subject" (exit status 1)
    before connecting, even when a [--subject] follows. *)
Theorem cli_flags_after_argument (e : env) (p t : Z) (prog a : string) (rest : list string)
    (w : World) :
  env_int e "NATS_PORT" 4222 = Some p ->
  env_duration e "NATS_REQUEST_TIMEOUT" (5 * Second) = Some t ->
  env_string e "NATS_REQUEST_SUBJECT" "" = "" ->
  flag_syntax_of a = SynNotFlag -> String.eqb a "help" || String.eqb a "h" = false ->
  main e (prog :: a :: rest) w = (Ok 1, w).
Proof.
  intros Hp Ht Hs Ha Hh.
  assert (Hparse : flag_parse (env_flagset e p t []) (a :: rest) = inl (env_flagset e p t (a :: rest))).
  { unfold flag_parse. cbn [length parse_loop]. unfold parse_one. cbn [args]. now rewrite Ha. }
  rewrite (main_run e _ (env_flagset e p t (a :: rest))).
  - rewrite env_context_of by assumption. rewrite run_empty_subject by exact Hs. reflexivity.
  - rewrite (parseFlags_env_ok e p t Hp Ht _ _ _ Hparse). reflexivity.
  - reflexivity.
  - cbn. intros n r [= <- <-]. exact Hh.
Qed.
End MoreClaims.

(** C28: [IntFlag] reads [NATS_PORT] with [strconv.ParseInt(v, 0, 64)],
    so a leading zero makes the text octal: [NATS_PORT=04222] is port
    2194, and the probe connects to [nats://<host>:2194]. *)
Theorem cli_env_port_octal (e : env) (t : Z) (prog : string) :
  getenv e "NATS_PORT" = Some "04222" ->
  env_duration e "NATS_REQUEST_TIMEOUT" (5 * Second) = Some t ->
  exists fs, parseFlags e [prog] = inl (inl fs) /\ cli_port (context_of fs) = 2194 /\
             server_url (cli_host (context_of fs)) (cli_port (context_of fs)) =
             "nats://" ++ env_string e "NATS_HOST" "localhost" ++ ":2194".
Proof.
  intros Hport Ht.
  assert (Hp : env_int e "NATS_PORT" 4222 = Some 2194) by (unfold env_int; now rewrite Hport).
  exists (env_flagset e 2194 t []).
  rewrite (parseFlags_env_ok e 2194 t Hp Ht prog [] (env_flagset e 2194 t [])) by reflexivity.
  rewrite (env_context_of e 2194 t Hp Ht). split; [reflexivity|]. split; reflexivity.
Qed.

(** ** The scenarios of the specification *)

Definition cli_args_ok : list string :=
  ["nats-health-check"; "--subject"; "health.check"; "--timeout"; "1s"].
Definition cli_args_degraded : list string :=
  ["nats-health-check"; "-s"; "health.degraded"; "--timeout"; "1s"].

(** ** Witnesses *)

(** An environment that sets the host and the port. *)
Definition env_example : env := [("NATS_HOST", "nats.internal"); ("NATS_PORT", "4333")].

Lemma cli_env_defaults_witness :
  env_int env_example "NATS_PORT" 4222 = Some 4333 /\
  env_duration env_example "NATS_REQUEST_TIMEOUT" (5 * Second) = Some (5 * Second) /\
  exists fs, parseFlags env_example ["nats-health-check"] = inl (inl fs) /\
             checkHelp fs = false /\ args fs = [] /\
             context_of fs = env_context env_example 4333 (5 * Second).
Proof.
  split; [vm_compute; reflexivity|]. split; [vm_compute; reflexivity|].
  apply cli_env_defaults; vm_compute; reflexivity.
Defined.

Lemma cli_port_command_line_witness :
  exists fs, parseFlags env_example ["nats-health-check"; "--" ++ "port"; Itoa 4223] = inl (inl fs) /\
             checkHelp fs = false /\ args fs = [] /\
             context_of fs = env_context env_example 4223 (5 * Second).
Proof.
  apply (cli_port_command_line env_example 4333 (5 * Second) 4223 "nats-health-check" "--" "port");
    [vm_compute; reflexivity|vm_compute; reflexivity|vm_compute; split; discriminate|simpl; auto].
Defined.

Lemma cli_env_error_exits_witness :
  env_int [("NATS_PORT", "42x")] "NATS_PORT" 4222 = None /\
  @main loopback_net health_broker [("NATS_PORT", "42x")] cli_args_ok world0 = (Ok 1, world0).
Proof.
  split; [vm_compute; reflexivity|].
  apply cli_env_error_exits. left. vm_compute. reflexivity.
Defined.

Lemma cli_two_forms_rejected_witness :
  parseFlags [] ["nats-health-check"; "--port"; Itoa 4222; "-p"; Itoa 4223] =
    inl (inr (TwoForms "p" "port")) /\
  @main loopback_net health_broker [] ["nats-health-check"; "--port"; Itoa 4222; "-p"; Itoa 4223]
    world0 = (Ok 1, world0).
Proof.
  apply (cli_two_forms_rejected [] 4222 (5 * Second));
    [reflexivity|reflexivity|vm_compute; split; discriminate|vm_compute; split; discriminate].
Defined.

Lemma cli_help_flag_witness :
  @main loopback_net health_broker env_example ["nats-health-check"; "--" ++ "help"] world0 = (Ok 0, world0).
Proof.
  apply (cli_help_flag env_example 4333 (5 * Second));
    [vm_compute; reflexivity|vm_compute; reflexivity|simpl; auto].
Defined.

Lemma cli_flags_after_argument_witness :
  @main loopback_net health_broker env_example
    ["nats-health-check"; "check"; "--subject"; "health.check"] world0 = (Ok 1, world0).
Proof.
  apply (cli_flags_after_argument env_example 4333 (5 * Second));
    vm_compute; reflexivity.
Defined.

Lemma cli_env_port_octal_witness :
  exists fs, parseFlags [("NATS_PORT", "04222")] ["nats-health-check"] = inl (inl fs) /\
             cli_port (context_of fs) = 2194 /\
             server_url (cli_host (context_of fs)) (cli_port (context_of fs)) =
             "nats://" ++ env_string [("NATS_PORT", "04222")] "NATS_HOST" "localhost" ++ ":2194".
Proof. apply (cli_env_port_octal _ (5 * Second)); vm_compute; reflexivity. Defined.

Lemma cli_values_typed_witness :
  exists fs, parseFlags env_example ["nats-health-check"; "-p"; "0x10ae"; "--timeout"; "90s"] =
               inl (inl fs) /\
  exists p t, lookup_flag fs "port" = Some (VInt p) /\ lookupInt fs "port" = p /\
              lookup_flag fs "timeout" = Some (VDuration t) /\ lookupDuration fs "timeout" = t.
Proof.
  eexists. split; [vm_compute; reflexivity|].
  apply (cli_values_typed env_example ["nats-health-check"; "-p"; "0x10ae"; "--timeout"; "90s"]).
  vm_compute. reflexivity.
Defined.

Lemma cli_timeout_needs_unit_witness :
  @main loopback_net health_broker [] ["nats-health-check"; "--timeout"; digit_str [3; 0]] world0 =
    (Ok 1, world0) /\
  @main loopback_net health_broker [("NATS_REQUEST_TIMEOUT", digit_str [3; 0])] ["nats-health-check"]
    world0 = (Ok 1, world0).
Proof.
  apply (cli_timeout_needs_unit [] 4222 (5 * Second) [3; 0]);
    [reflexivity|reflexivity|discriminate|repeat constructor; unfold is_digit_val; lia|
     vm_compute; discriminate|vm_compute; discriminate].
Defined.

(** The first scenario of the specification: no environment, subject
    [health.check], a responder that replies "ok". *)
Lemma main_exit_print_witness :
  exists ev, w_trace (snd (@main loopback_net health_broker [] cli_args_ok world0)) =
             (w_trace world0 ++ ev)%list /\
    (fst (@main loopback_net health_broker [] cli_args_ok world0) = Ok 0 \/
     fst (@main loopback_net health_broker [] cli_args_ok world0) = Ok 1) /\
    (fst (@main loopback_net health_broker [] cli_args_ok world0) = Ok 0 <-> In (EvPrint "ok") ev) /\
    (forall s, In (EvPrint s) ev -> s = "ok").
Proof.
  apply (@main_exit_print loopback_net health_broker [] cli_args_ok world0
           (match parseFlags [] cli_args_ok with inl (inl fs) => fs | _ => empty_flagset end));
    [vm_compute; reflexivity|vm_compute; reflexivity|].
  intros n rest Ha. vm_compute in Ha. discriminate.
Defined.
